(* ===== verification/_CoqProject ===== *)
-Q . S2P
Prelude.v
Types.v
Crc32.v
Regs.v
Mesa.v
Nir.v
ShaderUtil.v
Lowering.v
InputSemantics.v
Distance.v
Usage.v
Validate.v
Metadata.v
Binary.v
Setup.v
SetupSpec.v
Threads.v
NirOptions.v
Machine.v
Compile.v
Sample.v
CompileSafety.v
CompileResult.v
Api.v
Scan.v
Json.v
MetadataFile.v
Cli.v
Specialization.v
WaveSize.v
