(* ===== verification/Prelude.v ===== *)
(** * A verification library for opengnm-psbc

    opengnm-psbc compiles SPIR-V (or NIR) shaders to PS4 and PS5 machine code.  Its
    own code is libpsbc (libpsbc/psbc_compile.c and .h), which drives a vendored copy
    of Mesa (src/src: the SPIR-V reader, NIR, RADV and ACO), and the psbc command
    (cmd/psbc/main.c) with its checksum (cmd/psbc/crc32_sb.c).  This library models
    that code, function by function, and proves what it promises.

    ** Parts and files

    A compile validates the request, imports one to three shaders through Mesa,
    rewrites and links them, has RADV and ACO generate the program, describes it in
    metadata and in a shader binary, and hands both to the caller.

    - Prelude (this file): notation for bit operations, unsigned integers of a width
      ([wrap], [in_width]), record update ([<| f := v |>]), loops that may fail
      ([loop], [try_each]), arrays ([at_], [put]), and the hint databases [bits] and
      [widths].
    - Types: the public structures, enumerations and limits of psbc_compile.h.
    - Crc32: the checksum of cmd/psbc/crc32_sb.c against a bit-serial reference.
    - Regs, Mesa, Nir: the register fields, the RADV and NIR structures and the small
      helpers that libpsbc reads.
    - ShaderUtil: register words computed from shader information (export formats,
      clip and cull control, depth control, tessellation, late allocation, NGG
      workgroup sizes), from psbc_compile.c and ac_shader_util.c.
    - Lowering: the NIR rewrites libpsbc makes itself.
    - InputSemantics: splitting of mixed pixel inputs, the pixel input list and the
      producer's output list.
    - Distance: relocation of packed clip and cull distances.
    - Usage: push-constant and descriptor use, and the masks that are published.
    - Validate: SPIR-V capabilities, specialization constants, descriptor layouts and
      the guards of psbc_compile_impl.
    - Metadata: fill_shader_metadata, one definition per block.
    - Binary: buildshaderbinary.
    - Setup, SetupSpec: the compiler description, tessellation merge, descriptor
      layout, graphics state and corrections of psbc_compile_impl, and what they mean.
    - Threads: psbc_init and psbc_shutdown statement by statement, with their mutex,
      the count and Mesa's type cache, as a transition system of any number of
      threads.
    - NirOptions: psbc_get_nir_options and its pthread_once.
    - Machine: the state a compile runs on - a heap of ralloc'ed shaders and malloc'ed
      buffers, the initialization count, the caller's output structure - with a small
      error monad and a Hoare-style [spec] for it.  A use of a freed or foreign
      address sets [mc_fault].
    - Compile: psbc_compile_impl and everything it calls, in that monad.  The Mesa
      passes are the class [MesaPasses].
    - Sample: a concrete [MesaPasses] on which the definitions run; the witnesses use
      it.
    - CompileSafety, CompileResult: what a compile does to the heap, to the output and
      why it stops.
    - Api: the public entry points, psbc_free_output, and clients as sequences of
      calls.
    - Scan, Json: the C library's number scanning and printing, and a JSON reader.
    - MetadataFile: the JSON text write_metadata prints.
    - Cli: option parsing and main of cmd/psbc/main.c.
    - Specialization: vk_spec_info_to_nir_spirv and vk_spirv_version of psbc_stubs.c,
      and the functions of the SPIR-V reader that build, use and release
      specialization constants.
    - WaveSize: Mesa's choice of the wave size (radv_shader_choose_subgroup_size,
      vk_set_subgroup_size and the checks of radv_nir_shader_info_pass) on the
      compiler description of Setup.

    ** What the theorems show

    - Memory (CompileSafety, Api).  No compile, whatever it is given and wherever it
      stops, uses an address it does not own; on an error nothing is left on the heap
      and the output is cleared, on success exactly the two buffers of the output are
      added.  A client that frees what it was given, in any order of calls, is safe
      and leaks nothing - except that a geometry program without NGG leaves the copy
      shader behind, which is proved too.
    - Threads (Threads).  In every interleaving the type cache exists while anybody
      holds a reference, one thread is inside the critical section, nobody waits for
      ever on a thread that runs, and the run is a sequence of whole calls, each taking
      effect once between its beginning and its end, of the sequential model that
      Machine uses.
    - Results (CompileResult).  A compile that no named cause stops succeeds; each
      error code is returned only for one of its causes.
    - The program (CompileSafety, Binary, Metadata, SetupSpec).  What is handed out is
      ACO's code, the binary around it and the metadata of the same program; the
      binary has the announced layout, a checksum that verifies and slots that read
      back; the metadata lists exactly the registers of each stage, within its
      tables; the layout and the vertex inputs RADV sees are those declared.
    - Linkage and use (InputSemantics, Distance, Usage, Lowering).  Input and output
      lists name every parameter; mixed inputs are split without losing a load;
      distances are read from where they were written; every resource a program can
      reach is reported.
    - Requests (Validate, SetupSpec).  What is accepted is characterized on both
      sides, and the instruction scan ends on every sequence of words.
    - Specialization (Specialization).  The constants a caller sets are the ones the
      reader substitutes, byte for byte, and no other constant changes; the structure
      in between is released exactly once, whichever request for memory fails.
    - Waves (WaveSize).  Every program of every target gets the wave size the theorem
      states, a PS4 compute shader of at most 32 invocations none; the subgroup values
      libpsbc computes in PS5 compute shaders are those of the waves they run in.
    - Front ends (NirOptions).  The options handed out are those a compile uses.
    - The tool (Cli, MetadataFile).  Command lines round-trip through the parser, no
      argument makes it write outside its tables, a successful run has written the
      program of a finished compile, and the metadata file is JSON that reads back as
      that program's metadata.

    ** Conventions and bounds

    C integers are [Z]; where the code can wrap, the model wraps ([u8], [u32], [u64]).
    Null pointers are [None], early returns are error values, loops over arrays are
    [loop] and [try_each].  Fuel occurs in five places, each with a proof that it is
    enough: the instruction scan of Validate (one unit per word, each step advances;
    the result is never the one for used-up fuel), the owner chain of Machine (the
    heap's size), decimal printing (20 digits hold 64 bits), format strings (their
    length) and the JSON reader (the length of the text).  The client theorems are
    proved over any sequence of calls, by induction on the steps.

    ** Parameters

    Mesa's passes are the class [MesaPasses]: functions on the modelled structures.
    [MesaLaws] states what the driver relies on - the info passes keep the stage, the
    next stage and the NGG flag, and post-processing creates a copy shader only for a
    geometry program without NGG; the instance of Sample satisfies them.  The GNM structures come from a dependency
    that is not in the repository: [GnmFormat] has their sizes and encodings and
    [GnmFormatLaws] that an encoding has its size; Binary has an instance.  [Host]
    answers whether an allocation succeeds and whether debug output is on.  Files are
    the functions of [IO].

    ** Not modelled

    Debug output (the PSBC_DEBUG variables, debug_stage, the help text and the
    verbose line), which changes no result; the stubs of psbc_stubs.c that return a
    constant or do nothing; Mesa itself, apart from the helpers named above.  Compiles
    of different threads share nothing but the initialization state of Threads, so the
    rest is modelled one compile at a time; the count is an [int] and the model assumes
    fewer than 2^31 references. *)

From Stdlib Require Export ZArith Lia Bool.
From stdpp Require Export base tactics option list list_numbers strings.

Global Open Scope Z_scope.

(** ** Notation

    The C sources combine 32-bit words with [|], [&], [^], [<<] and [>>].
    stdpp writes the two shifts as [x ≪ n] and [x ≫ n]; the remaining bit
    operators get backquoted infix forms in a scope of their own. *)

Declare Scope psbc_scope.
Delimit Scope psbc_scope with psbc.
Infix "`land`" := Z.land (at level 40, left associativity) : psbc_scope.
Infix "`lxor`" := Z.lxor (at level 45, left associativity) : psbc_scope.
Infix "`lor`" := Z.lor (at level 50, left associativity) : psbc_scope.
Global Open Scope psbc_scope.

(** [bits] computes the bit of each operator; [widths] proves that a word fits
    its width. *)
Create Rewrite HintDb bits.
Create HintDb widths.

(** ** Fixed-width unsigned integers

    A [uintN_t] is a [Z] in [0, 2^N); storing a wider value keeps the
    residue. *)

Definition wrap (w x : Z) : Z := x `mod` 2 ^ w.
Abbreviation u8 := (wrap 8).
Abbreviation u16 := (wrap 16).
Abbreviation u32 := (wrap 32).
Abbreviation u64 := (wrap 64).

Definition UINT8_MAX : Z := 2 ^ 8 - 1.
Definition UINT32_MAX : Z := 2 ^ 32 - 1.

(** [in_width w x]: [x] is representable in [w] unsigned bits. *)
Definition in_width (w x : Z) : Prop := 0 <= x < 2 ^ w.

(** Bitwise complement at width [w], the C operator [~]. *)
Definition not_w (w x : Z) : Z := Z.ldiff (Z.ones w) x.
Abbreviation not32 := (not_w 32).
Abbreviation not64 := (not_w 64).

(** C truth value of a flag stored in an integer, and of an integer used as a
    condition. *)
Definition b2z (b : bool) : Z := if b then 1 else 0.
Definition truthy (x : Z) : bool := negb (x =? 0).

(** [MAX2]/[MIN2] of util/macros.h. *)
Definition MAX2 (a b : Z) : Z := if a >? b then a else b.
Definition MIN2 (a b : Z) : Z := if a <? b then a else b.

Lemma MAX2_max a b : MAX2 a b = Z.max a b.
Proof. unfold MAX2. destruct (Z.gtb_spec a b); lia. Qed.

Lemma pow2_pos w : 0 <= w -> 0 < 2 ^ w.
Proof. intros. apply Z.pow_pos_nonneg; lia. Qed.

Lemma wrap_range w x : 0 <= w -> in_width w (wrap w x).
Proof. intros. apply Z.mod_pos_bound, pow2_pos. lia. Qed.

Lemma wrap_nonneg w x : 0 <= w -> 0 <= wrap w x.
Proof. intros. by apply (wrap_range w x). Qed.

Lemma wrap_id w x : in_width w x -> wrap w x = x.
Proof. apply Z.mod_small. Qed.

Lemma wrap_wrap w x : wrap w (wrap w x) = wrap w x.
Proof. apply Zmod_mod. Qed.

Lemma wrap_add_l w a b : wrap w (wrap w a + b) = wrap w (a + b).
Proof. apply Zplus_mod_idemp_l. Qed.

Lemma wrap_add_r w a b : wrap w (a + wrap w b) = wrap w (a + b).
Proof. apply Zplus_mod_idemp_r. Qed.

Lemma wrap_mul_r w a b : wrap w (a * wrap w b) = wrap w (a * b).
Proof. apply Zmult_mod_idemp_r. Qed.

Lemma in_width_weaken w w' x : 0 <= w <= w' -> in_width w x -> in_width w' x.
Proof.
  intros Hw [? ?]. split; [lia|].
  pose proof (Z.pow_le_mono_r 2 w w'). lia.
Qed.

(** ** Bits

    Two words are equal when all their bits are.  [bitwise] reduces an equation
    between words to one between booleans at an arbitrary non-negative
    position; the database [bits] holds the lemmas that compute the bit of each
    operator. *)

Lemma testbit_wrap w x i :
  0 <= w -> Z.testbit (wrap w x) i = (i <? w) && Z.testbit x i.
Proof. intros. unfold wrap. by apply Z.testbit_mod_pow2. Qed.

Lemma testbit_not_w w x i :
  0 <= w -> 0 <= i -> Z.testbit (not_w w x) i = (i <? w) && negb (Z.testbit x i).
Proof.
  intros. unfold not_w. rewrite Z.ldiff_spec, Z.testbit_ones_nonneg by lia. done.
Qed.

Lemma testbit_shiftl x n i :
  0 <= i -> Z.testbit (x ≪ n) i = Z.testbit x (i - n).
Proof. intros. by apply Z.shiftl_spec. Qed.

Lemma testbit_one i : Z.testbit 1 i = (i =? 0).
Proof.
  destruct (Z.eqb_spec i 0) as [->|]; [done|].
  destruct (Z_lt_dec i 0); [by rewrite Z.testbit_neg_r|].
  change 1 with (2 ^ 0). apply Z.pow2_bits_false. lia.
Qed.

Lemma testbit_high w x i : in_width w x -> w <= i -> Z.testbit x i = false.
Proof.
  intros Hx ?. destruct (Z_le_dec 0 w).
  - rewrite <-(wrap_id w x) by done. rewrite testbit_wrap by lia.
    by destruct (Z.ltb_spec i w); [lia|].
  - destruct Hx as [? Hx]. rewrite Z.pow_neg_r in Hx; lia.
Qed.

Lemma in_width_bits w x :
  0 <= w -> 0 <= x -> (forall i, w <= i -> Z.testbit x i = false) -> in_width w x.
Proof.
  intros Hw Hx Hb. assert (x = wrap w x) as ->; [|by apply wrap_range].
  apply Z.bits_inj'. intros i Hi. rewrite testbit_wrap by lia.
  destruct (Z.ltb_spec i w); [done|]. by apply Hb.
Qed.

#[export] Hint Rewrite Z.lor_spec Z.land_spec Z.lxor_spec Z.ldiff_spec
  Z.testbit_0_l testbit_one : bits.
#[export] Hint Rewrite testbit_wrap testbit_not_w testbit_shiftl Z.shiftr_spec
  Z.testbit_ones_nonneg using lia : bits.

Ltac bitwise :=
  apply Z.bits_inj'; let i := fresh "i" in let Hi := fresh "Hi" in
  intros i Hi; autorewrite with bits.

(** Case analysis on every integer comparison of the goal. *)
Ltac zcases :=
  repeat match goal with
  | |- context [?a <? ?b] => destruct (Z.ltb_spec a b)
  | |- context [?a <=? ?b] => destruct (Z.leb_spec a b)
  | |- context [?a =? ?b] => destruct (Z.eqb_spec a b)
  | |- context [?a >? ?b] => rewrite (Z.gtb_ltb a b)
  | |- context [?a >=? ?b] => rewrite (Z.geb_leb a b)
  end.

(** Decide an equation between booleans by cases on its comparisons. *)
Ltac bcases :=
  zcases; try lia; simpl;
  rewrite ?andb_true_r, ?andb_false_r, ?orb_true_r, ?orb_false_r, ?orb_diag, ?andb_diag;
  try done.

Lemma in_width_lor w x y : in_width w x -> in_width w y -> in_width w (x `lor` y).
Proof.
  intros Hx Hy. destruct (Z_le_dec 0 w) as [Hw|Hw].
  - apply in_width_bits; [done| |].
    + apply Z.lor_nonneg; split; [apply Hx|apply Hy].
    + intros i ?. by rewrite Z.lor_spec, !(testbit_high w).
  - destruct Hx as [? Hx]. rewrite Z.pow_neg_r in Hx; lia.
Qed.

Lemma in_width_land w x y : 0 <= w -> in_width w x -> 0 <= y -> in_width w (x `land` y).
Proof.
  intros Hw Hx Hy. apply in_width_bits; [done| |].
  - apply Z.land_nonneg. by left; apply Hx.
  - intros i ?. by rewrite Z.land_spec, (testbit_high w).
Qed.

Lemma in_width_lxor w x y : in_width w x -> in_width w y -> in_width w (x `lxor` y).
Proof.
  intros Hx Hy. destruct (Z_le_dec 0 w) as [Hw|Hw].
  - apply in_width_bits; [done| |].
    + apply Z.lxor_nonneg; split; intros; [apply Hy|apply Hx].
    + intros i ?. by rewrite Z.lxor_spec, !(testbit_high w).
  - destruct Hx as [? Hx]. rewrite Z.pow_neg_r in Hx; lia.
Qed.

Lemma in_width_shiftr w x n : 0 <= n -> in_width w x -> in_width w (x ≫ n).
Proof.
  intros Hn [H0 H1]. split; [by apply Z.shiftr_nonneg|].
  rewrite Z.shiftr_div_pow2 by lia.
  pose proof (Z.div_le_upper_bound x (2 ^ n) x). pose proof (pow2_pos n Hn). nia.
Qed.

Lemma in_width_not w x : 0 <= w -> in_width w (not_w w x).
Proof.
  intros. apply in_width_bits; [done| |].
  - apply Z.ldiff_nonneg. left. rewrite Z.ones_equiv. pose proof (pow2_pos w). lia.
  - intros i ?. rewrite testbit_not_w by lia. by destruct (Z.ltb_spec i w); [lia|].
Qed.

(** The bit [n] of a mask, as the code writes it: [(x >> n) & 1]. *)
Lemma land_bit_truthy x n :
  0 <= n -> truthy (x `land` (1 ≪ n)) = Z.testbit x n.
Proof.
  intros Hn. unfold truthy. destruct (Z.testbit x n) eqn:E.
  - destruct (Z.eqb_spec (x `land` (1 ≪ n)) 0) as [H|]; [|done].
    apply (f_equal (fun z => Z.testbit z n)) in H. revert H.
    autorewrite with bits. rewrite E, Z.sub_diag. done.
  - assert (x `land` (1 ≪ n) = 0) as ->; [|done].
    bitwise. zcases; try (by rewrite andb_false_r).
    replace i with n by lia. by rewrite E.
Qed.

#[export] Hint Resolve in_width_lor in_width_lxor : widths.
#[export] Hint Resolve in_width_land in_width_shiftr in_width_not wrap_range : widths.
#[export] Hint Extern 1 (in_width _ (Zpos _)) => (split; [done|reflexivity]) : widths.
#[export] Hint Extern 1 (in_width _ Z0) => (split; [done|reflexivity]) : widths.
#[export] Hint Extern 1 (0 <= _)%Z => lia : widths.

(** ** Functional record update

    The structures of psbc_compile.h are filled field by field.  [m <| f := v |>]
    is the record [m] with the field [f] replaced; the setter of a field is found
    by instance search from the eta expansion of the record, which each record
    type registers once with an instance of [Eta]. *)

Class Eta (R : Type) := eta : R -> R.
Class Setter {R T : Type} (p : R -> T) := set : T -> R -> R.
Arguments set {R T} p {_} _ _.

Ltac solve_setter :=
  match goal with
  | |- @Setter ?R ?T ?p =>
      let v := fresh "v" in let r := fresh "r" in intros v r;
      let e := eval hnf in (@eta R _) in
      let body := eval cbv beta in (e r) in
      let pat := eval pattern (p r) in body in
      lazymatch pat with
      | ?F (p r) => let b := eval cbv beta in (F v) in exact b
      end
  end.

#[export] Hint Extern 1 (Setter _) => solve_setter : typeclass_instances.

Notation "m <| f := v |>" := (set f v m)
  (at level 12, left associativity, f at next level, v at level 200,
   format "m  <| f  :=  v |>") : psbc_scope.

(** A field read of a conditional update distributes over the branches. *)
Lemma proj_if {R T} (p : R -> T) (b : bool) (x y : R) :
  p (if b then x else y) = if b then p x else p y.
Proof. by destruct b. Qed.

(** ** Counted loops

    [for (i = 0; i < n; ++i)] visits the positions [seqZ 0 n] in order. *)
Definition loop {A} (n : Z) (f : Z -> A -> A) (a : A) : A :=
  foldl (fun acc i => f i acc) a (seqZ 0 n).

(** The same loop with an early [return]: [None] stops it. *)
Fixpoint try_each {A B} (f : B -> A -> option A) (l : list B) (a : A) : option A :=
  match l with
  | [] => Some a
  | x :: l => match f x a with Some a' => try_each f l a' | None => None end
  end.

Definition try_loop {A} (n : Z) (f : Z -> A -> option A) (a : A) : option A :=
  try_each f (seqZ 0 n) a.

Lemma seqZ_succ n : 0 <= n -> seqZ 0 (n + 1) = seqZ 0 n ++ [n].
Proof.
  intros. replace (n + 1) with (n + Z.of_nat 1) by lia.
  rewrite seqZ_app by lia. by rewrite Z.add_0_l.
Qed.

Lemma loop_0 {A} (f : Z -> A -> A) a : loop 0 f a = a.
Proof. done. Qed.

Lemma loop_succ {A} n (f : Z -> A -> A) a :
  0 <= n -> loop (n + 1) f a = f n (loop n f a).
Proof. intros. unfold loop. by rewrite seqZ_succ, foldl_app by done. Qed.

(** The induction principle of a counted loop: an invariant indexed by the
    number of iterations done. *)
Lemma loop_ind {A} (P : Z -> A -> Prop) n (f : Z -> A -> A) a :
  0 <= n -> P 0 a -> (forall i x, 0 <= i < n -> P i x -> P (i + 1) (f i x)) ->
  P n (loop n f a).
Proof.
  intros Hn H0 Hstep. revert Hstep. pattern n. apply natlike_ind; [done| |done].
  intros k Hk IH Hstep. rewrite <-Z.add_1_r, loop_succ by done.
  apply Hstep; [lia|]. apply IH. intros. apply Hstep; [lia|done].
Qed.

Lemma try_each_app {A B} (f : B -> A -> option A) l k a :
  try_each f (l ++ k) a = try_each f l a ≫= try_each f k.
Proof.
  revert a. induction l as [|x l IH]; intros a; [done|]. simpl.
  destruct (f x a); [apply IH|done].
Qed.

(** An invariant kept by every element that does not stop the walk holds at its
    end. *)
Lemma try_each_ind {A B} (P : list B -> A -> Prop) (f : B -> A -> option A) l a a' :
  try_each f l a = Some a' -> P [] a ->
  (forall done x y y', P done y -> f x y = Some y' -> P (done ++ [x]) y') ->
  P l a'.
Proof.
  intros H H0 Hs.
  enough (forall k b, P k b -> try_each f l b = Some a' -> P (k ++ l) a') as Hgen.
  { by apply (Hgen [] a). }
  clear a H H0. induction l as [|x l IH]; intros k b Hk H; simpl in H.
  - rewrite app_nil_r. naive_solver.
  - destruct (f x b) as [b'|] eqn:E; [|done].
    rewrite cons_middle, app_assoc. eapply IH; eauto.
Qed.

(** ** Association of a list with positions *)

Lemma lookup_seqZ_Some m n (i : nat) x :
  seqZ m n !! i = Some x -> x = m + Z.of_nat i /\ Z.of_nat i < n.
Proof. intros H. apply lookup_seqZ in H. lia. Qed.

(** ** C arrays

    An array read or written at an [unsigned] index; the models index within
    bounds, [at_] has a default for the others. *)
Definition at_ {A} (d : A) (l : list A) (i : Z) : A := nth (Z.to_nat i) l d.
Definition put {A} (i : Z) (x : A) (l : list A) : list A := <[Z.to_nat i := x]> l.

#[global] Arguments at_ : simpl never.
#[global] Arguments put : simpl never.

Lemma length_put {A} i (x : A) l : length (put i x l) = length l.
Proof. apply length_insert. Qed.

Lemma at_lookup {A} (d : A) l i x : l !! Z.to_nat i = Some x -> at_ d l i = x.
Proof. apply nth_lookup_Some. Qed.

Lemma lookup_at {A} (d : A) l i :
  0 <= i < Z.of_nat (length l) -> l !! Z.to_nat i = Some (at_ d l i).
Proof.
  intros. destruct (lookup_lt_is_Some_2 l (Z.to_nat i)) as [x Hx]; [lia|].
  by rewrite (at_lookup d _ _ _ Hx).
Qed.

Lemma at_put_eq {A} (d : A) i x l :
  0 <= i < Z.of_nat (length l) -> at_ d (put i x l) i = x.
Proof. intros. apply at_lookup. apply list_lookup_insert_eq. lia. Qed.

Lemma at_put_ne {A} (d : A) i j x l :
  0 <= i -> 0 <= j -> i <> j -> at_ d (put i x l) j = at_ d l j.
Proof.
  intros. unfold at_, put. rewrite !nth_lookup. rewrite list_lookup_insert_ne; [done|lia].
Qed.

Lemma at_put {A} (d : A) i j x l :
  0 <= i < Z.of_nat (length l) -> 0 <= j ->
  at_ d (put i x l) j = if i =? j then x else at_ d l j.
Proof.
  intros. destruct (Z.eqb_spec i j) as [->|]; [by apply at_put_eq|]. apply at_put_ne; lia.
Qed.

Lemma at_replicate {A} (x : A) n i : at_ x (replicate n x) i = x.
Proof. unfold at_. rewrite nth_lookup. destruct (replicate n x !! _) eqn:E; [|done].
  by apply lookup_replicate in E as [-> _]. Qed.

(** A table read by index is its first entries. *)
Lemma map_at_take {A B} (d : A) (f : A -> B) l n :
  0 <= n <= Z.of_nat (length l) -> map (fun i => f (at_ d l i)) (seqZ 0 n) = map f (take (Z.to_nat n) l).
Proof.
  intros Hn. apply list_eq. intros i. rewrite !list_lookup_fmap.
  destruct (decide (i < Z.to_nat n)%nat) as [Hi|Hi].
  - rewrite lookup_take, (lookup_seqZ_lt 0 n i) by lia. rewrite decide_True by lia. cbn.
    pose proof (lookup_at d l (Z.of_nat i) ltac:(lia)) as Hl.
    rewrite Nat2Z.id in Hl. rewrite Hl, Z.add_0_l. done.
  - rewrite lookup_seqZ_ge by lia. rewrite lookup_take_ge by lia. done.
Qed.

(** A guard inside an early-return loop can be tested beforehand. *)
Lemma try_each_guard {A B} (bad : B -> bool) (g : B -> A -> option A) l a :
  try_each (fun x a => if bad x then None else g x a) l a =
    if existsb bad l then None else try_each g l a.
Proof.
  revert a. induction l as [|x l IH]; intros a; [done|]. simpl.
  destruct (bad x); [done|]. simpl. destruct (g x a) as [a'|]; [apply IH|]. by case_match.
Qed.

Lemma try_each_ext {A B} (f g : B -> A -> option A) l a :
  (forall x a, x ∈ l -> f x a = g x a) -> try_each f l a = try_each g l a.
Proof.
  revert a. induction l as [|x l IH]; intros a H; [done|]. simpl.
  rewrite H by left. destruct (g x a); [|done]. apply IH. intros. apply H. by right.
Qed.

Lemma try_each_map {A B C} (f : C -> A -> option A) (h : B -> C) l a :
  try_each f (map h l) a = try_each (fun x => f (h x)) l a.
Proof. revert a. induction l as [|x l IH]; intros a; [done|]. simpl. by case_match. Qed.

Lemma try_each_concat {A B} (f : B -> A -> option A) ls a :
  try_each (try_each f) ls a = try_each f (concat ls) a.
Proof.
  revert a. induction ls as [|l ls IH]; intros a; [done|]. simpl.
  rewrite try_each_app. by destruct (try_each f l a).
Qed.

Lemma elem_of_concat {A} (x : A) (ls : list (list A)) :
  x ∈ concat ls <-> exists l, l ∈ ls /\ x ∈ l.
Proof.
  rewrite list_elem_of_In, in_concat. split; intros (l & H1 & H2); exists l;
    rewrite ?list_elem_of_In in *; by split.
Qed.

Lemma existsb_false_forall {A} (f : A -> bool) l x :
  existsb f l = false -> In x l -> f x = false.
Proof.
  intros H Hx. destruct (f x) eqn:E; [|done].
  assert (existsb f l = true) by (apply existsb_exists; eauto). congruence.
Qed.

Lemma foldl_preserves {A B} (P : A -> Prop) (f : A -> B -> A) l a :
  (forall a b, P a -> P (f a b)) -> P a -> P (foldl f a l).
Proof. intros Hf. revert a. induction l as [|b l IH]; intros a Ha; [done|]. apply IH, Hf, Ha. Qed.

Lemma Forall2_concat {A B} (R : A -> B -> Prop) ls ks :
  Forall2 (Forall2 R) ls ks -> Forall2 R (concat ls) (concat ks).
Proof. induction 1; simpl; [constructor|]. by apply Forall2_app. Qed.

Lemma Forall2_impl_in_l {A B} (P : A -> Prop) (R S : A -> B -> Prop) l k :
  Forall P l -> Forall2 R l k -> (forall x y, P x -> R x y -> S x y) -> Forall2 S l k.
Proof.
  intros HP HR HS. induction HR as [|x y l k ? ? IH]; [constructor|].
  inversion_clear HP. constructor; auto.
Qed.
