(* ===== verification/Types.v ===== *)
(** * Public data types of libpsbc (libpsbc/psbc_compile.h)

    The enumerations and structures of the library's C interface.  Enumerations
    are inductive types with the C constructor names and, where the value is
    observable, its integer.  Structures are records whose field names carry a
    prefix per structure ([va_] vertex attribute, [db_] descriptor binding, [sc_]
    specialization constant, [lp_] linked-stage parameters, [rw_] register write,
    [md_] shader metadata, [out_] shader output, [co_] compile options), because
    C scopes field names per structure and Rocq does not.  Fixed-size C arrays
    are lists; the [zero_] values model [memset(.., 0, ..)] and [= {0}]. *)

From S2P Require Import Prelude.

(** ** Limits and private semantic keys *)

Definition PSBC_SHADER_METADATA_VERSION : Z := 21.
Definition PSBC_MAX_CONTEXT_REGISTERS : Z := 16.
Definition PSBC_MAX_SHADER_REGISTERS : Z := 8.
Definition PSBC_MAX_SEMANTICS : Z := 32.
Definition PSBC_SEMANTIC_PRIMITIVE_ID : Z := 47.
Definition PSBC_SEMANTIC_DISTANCE_REGISTER : Z := 48.
Definition PSBC_SEMANTIC_VIEWPORT_INDEX : Z := 49.
Definition PSBC_MAX_VERTEX_ATTRIBUTES : Z := 32.
Definition PSBC_MAX_DESCRIPTOR_BINDINGS : Z := 64.
Definition PSBC_MAX_DESCRIPTOR_SETS : Z := 4.
Definition PSBC_MAX_SPECIALIZATION_CONSTANTS : Z := 64.
Definition PSBC_MAX_SPECIALIZATION_BYTES : Z := 8.
Definition PSBC_GALLIUM_UBO_BINDING_BASE : Z := 32.

(** ** Enumerations *)

(** Console generation the shader is compiled for. *)
Inductive PsbcTarget : Type :=
| PSBC_TARGET_PS4_BASE
| PSBC_TARGET_PS4_NEO
| PSBC_TARGET_PS5.

#[export] Instance PsbcTarget_eq_dec : EqDecision PsbcTarget.
Proof. solve_decision. Defined.

(** The enumerator's integer value, as printed in the metadata file. *)
Definition PsbcTarget_val (x : PsbcTarget) : Z :=
  match x with
  | PSBC_TARGET_PS4_BASE => 0
  | PSBC_TARGET_PS4_NEO => 1
  | PSBC_TARGET_PS5 => 2
  end.

(** Pipeline stage named by the caller. *)
Inductive PsbcStage : Type :=
| PSBC_STAGE_NONE
| PSBC_STAGE_VERTEX
| PSBC_STAGE_TESS_CTRL
| PSBC_STAGE_TESS_EVAL
| PSBC_STAGE_GEOMETRY
| PSBC_STAGE_FRAGMENT
| PSBC_STAGE_COMPUTE
| PSBC_STAGE_TASK
| PSBC_STAGE_EXPORT
| PSBC_STAGE_LOCAL.

#[export] Instance PsbcStage_eq_dec : EqDecision PsbcStage.
Proof. solve_decision. Defined.

(** The enumerator's integer value, as printed in the metadata file. *)
Definition PsbcStage_val (x : PsbcStage) : Z :=
  match x with
  | PSBC_STAGE_NONE => 0
  | PSBC_STAGE_VERTEX => 1
  | PSBC_STAGE_TESS_CTRL => 2
  | PSBC_STAGE_TESS_EVAL => 3
  | PSBC_STAGE_GEOMETRY => 4
  | PSBC_STAGE_FRAGMENT => 5
  | PSBC_STAGE_COMPUTE => 6
  | PSBC_STAGE_TASK => 7
  | PSBC_STAGE_EXPORT => 8
  | PSBC_STAGE_LOCAL => 9
  end.

(** Outcome of a compilation. *)
Inductive PsbcResult : Type :=
| PSBC_RESULT_OK
| PSBC_RESULT_INVALID_SPIRV
| PSBC_RESULT_UNSUPPORTED_STAGE
| PSBC_RESULT_COMPILE_NIR
| PSBC_RESULT_COMPILE_ACO
| PSBC_RESULT_OUT_OF_MEMORY
| PSBC_RESULT_INTERNAL_ERROR
| PSBC_RESULT_UNSUPPORTED_CAPABILITY.

#[export] Instance PsbcResult_eq_dec : EqDecision PsbcResult.
Proof. solve_decision. Defined.

(** The enumerator's integer value, as printed in the metadata file. *)
Definition PsbcResult_val (x : PsbcResult) : Z :=
  match x with
  | PSBC_RESULT_OK => 0
  | PSBC_RESULT_INVALID_SPIRV => 1
  | PSBC_RESULT_UNSUPPORTED_STAGE => 2
  | PSBC_RESULT_COMPILE_NIR => 3
  | PSBC_RESULT_COMPILE_ACO => 4
  | PSBC_RESULT_OUT_OF_MEMORY => 5
  | PSBC_RESULT_INTERNAL_ERROR => 6
  | PSBC_RESULT_UNSUPPORTED_CAPABILITY => 7
  end.

(** Vertex attribute formats of the public interface. *)
Inductive PsbcVertexFormat : Type :=
| PSBC_VERTEX_FORMAT_NONE
| PSBC_VERTEX_FORMAT_R32_FLOAT
| PSBC_VERTEX_FORMAT_R32G32_FLOAT
| PSBC_VERTEX_FORMAT_R32G32B32_FLOAT
| PSBC_VERTEX_FORMAT_R32G32B32A32_FLOAT
| PSBC_VERTEX_FORMAT_B8G8R8A8_UNORM
| PSBC_VERTEX_FORMAT_R10G10B10A2_UNORM
| PSBC_VERTEX_FORMAT_B10G10R10A2_UNORM
| PSBC_VERTEX_FORMAT_R10G10B10A2_SNORM
| PSBC_VERTEX_FORMAT_B10G10R10A2_SNORM
| PSBC_VERTEX_FORMAT_R10G10B10A2_USCALED
| PSBC_VERTEX_FORMAT_B10G10R10A2_USCALED
| PSBC_VERTEX_FORMAT_R10G10B10A2_SSCALED
| PSBC_VERTEX_FORMAT_B10G10R10A2_SSCALED
| PSBC_VERTEX_FORMAT_R32_SINT
| PSBC_VERTEX_FORMAT_R32G32_SINT
| PSBC_VERTEX_FORMAT_R32G32B32_SINT
| PSBC_VERTEX_FORMAT_R32G32B32A32_SINT
| PSBC_VERTEX_FORMAT_R32_UINT
| PSBC_VERTEX_FORMAT_R32G32_UINT
| PSBC_VERTEX_FORMAT_R32G32B32_UINT
| PSBC_VERTEX_FORMAT_R32G32B32A32_UINT
| PSBC_VERTEX_FORMAT_R8G8B8A8_UNORM
| PSBC_VERTEX_FORMAT_R8_UNORM
| PSBC_VERTEX_FORMAT_R8_SNORM
| PSBC_VERTEX_FORMAT_R8_UINT
| PSBC_VERTEX_FORMAT_R8_SINT
| PSBC_VERTEX_FORMAT_R8G8_UNORM
| PSBC_VERTEX_FORMAT_R8G8_SNORM
| PSBC_VERTEX_FORMAT_R8G8_UINT
| PSBC_VERTEX_FORMAT_R8G8_SINT
| PSBC_VERTEX_FORMAT_R8G8B8A8_SNORM
| PSBC_VERTEX_FORMAT_R8G8B8A8_UINT
| PSBC_VERTEX_FORMAT_R8G8B8A8_SINT
| PSBC_VERTEX_FORMAT_R16_UNORM
| PSBC_VERTEX_FORMAT_R16_SNORM
| PSBC_VERTEX_FORMAT_R16_UINT
| PSBC_VERTEX_FORMAT_R16_SINT
| PSBC_VERTEX_FORMAT_R16_FLOAT
| PSBC_VERTEX_FORMAT_R16G16_UNORM
| PSBC_VERTEX_FORMAT_R16G16_SNORM
| PSBC_VERTEX_FORMAT_R16G16_UINT
| PSBC_VERTEX_FORMAT_R16G16_SINT
| PSBC_VERTEX_FORMAT_R16G16_FLOAT
| PSBC_VERTEX_FORMAT_R16G16B16A16_UNORM
| PSBC_VERTEX_FORMAT_R16G16B16A16_SNORM
| PSBC_VERTEX_FORMAT_R16G16B16A16_UINT
| PSBC_VERTEX_FORMAT_R16G16B16A16_SINT
| PSBC_VERTEX_FORMAT_R16G16B16A16_FLOAT.

#[export] Instance PsbcVertexFormat_eq_dec : EqDecision PsbcVertexFormat.
Proof. solve_decision. Defined.

(** Descriptor record types. *)
Inductive PsbcDescriptorType : Type :=
| PSBC_DESCRIPTOR_NONE
| PSBC_DESCRIPTOR_UNIFORM_BUFFER
| PSBC_DESCRIPTOR_UNIFORM_TEXEL_BUFFER
| PSBC_DESCRIPTOR_COMBINED_IMAGE_SAMPLER
| PSBC_DESCRIPTOR_STORAGE_BUFFER
| PSBC_DESCRIPTOR_INPUT_ATTACHMENT
| PSBC_DESCRIPTOR_STORAGE_IMAGE
| PSBC_DESCRIPTOR_SAMPLER
| PSBC_DESCRIPTOR_SAMPLED_IMAGE
| PSBC_DESCRIPTOR_STORAGE_TEXEL_BUFFER.

#[export] Instance PsbcDescriptorType_eq_dec : EqDecision PsbcDescriptorType.
Proof. solve_decision. Defined.

(** The enumerator's integer value, as printed in the metadata file. *)
Definition PsbcDescriptorType_val (x : PsbcDescriptorType) : Z :=
  match x with
  | PSBC_DESCRIPTOR_NONE => 0
  | PSBC_DESCRIPTOR_UNIFORM_BUFFER => 1
  | PSBC_DESCRIPTOR_UNIFORM_TEXEL_BUFFER => 2
  | PSBC_DESCRIPTOR_COMBINED_IMAGE_SAMPLER => 3
  | PSBC_DESCRIPTOR_STORAGE_BUFFER => 4
  | PSBC_DESCRIPTOR_INPUT_ATTACHMENT => 5
  | PSBC_DESCRIPTOR_STORAGE_IMAGE => 6
  | PSBC_DESCRIPTOR_SAMPLER => 7
  | PSBC_DESCRIPTOR_SAMPLED_IMAGE => 8
  | PSBC_DESCRIPTOR_STORAGE_TEXEL_BUFFER => 9
  end.

(** Hardware stage a compiled program runs in. *)
Inductive PsbcHardwareStage : Type :=
| PSBC_HW_STAGE_UNKNOWN
| PSBC_HW_STAGE_VERTEX
| PSBC_HW_STAGE_PIXEL
| PSBC_HW_STAGE_NGG
| PSBC_HW_STAGE_HULL.

#[export] Instance PsbcHardwareStage_eq_dec : EqDecision PsbcHardwareStage.
Proof. solve_decision. Defined.

(** The enumerator's integer value, as printed in the metadata file. *)
Definition PsbcHardwareStage_val (x : PsbcHardwareStage) : Z :=
  match x with
  | PSBC_HW_STAGE_UNKNOWN => 0
  | PSBC_HW_STAGE_VERTEX => 1
  | PSBC_HW_STAGE_PIXEL => 2
  | PSBC_HW_STAGE_NGG => 3
  | PSBC_HW_STAGE_HULL => 4
  end.

(** Bit flags of [md_unresolved_fields] (enum PsbcUnresolvedField). *)
Definition PSBC_UNRESOLVED_NONE : Z := 0.
Definition PSBC_UNRESOLVED_PROGRAM_CHECKSUM : Z := 1.
Definition PSBC_UNRESOLVED_NGG_ESGS_RING_ITEMSIZE : Z := 2.
Definition PSBC_UNRESOLVED_AGC_LINKAGE : Z := 4.
Definition PSBC_UNRESOLVED_TESS_PIPELINE : Z := 8.

(** ** Structures *)

(** One vertex input of the pipeline state. *)
Record PsbcVertexAttribute : Type := mkPsbcVertexAttribute {
  va_location : Z;
  va_binding : Z;
  va_format : PsbcVertexFormat;
  va_offset : Z;
  va_stride : Z;
  va_alignment : Z;
  va_instance_divisor : Z
}.

#[export] Instance eta_PsbcVertexAttribute : Eta PsbcVertexAttribute := fun r =>
  mkPsbcVertexAttribute r.(va_location) r.(va_binding) r.(va_format) r.(va_offset)
    r.(va_stride) r.(va_alignment) r.(va_instance_divisor).

(** One declared descriptor binding. *)
Record PsbcDescriptorBinding : Type := mkPsbcDescriptorBinding {
  db_set : Z;
  db_binding : Z;
  db_type : PsbcDescriptorType;
  db_array_size : Z;
  db_offset : Z;
  db_stride : Z
}.

#[export] Instance eta_PsbcDescriptorBinding : Eta PsbcDescriptorBinding := fun r =>
  mkPsbcDescriptorBinding r.(db_set) r.(db_binding) r.(db_type) r.(db_array_size)
    r.(db_offset) r.(db_stride).

(** One specialization-map scalar; [sc_data] holds its eight bytes. *)
Record PsbcSpecializationConstant : Type := mkPsbcSpecializationConstant {
  sc_constant_id : Z;
  sc_size : Z;
  sc_data : list Z
}.

#[export] Instance eta_PsbcSpecializationConstant : Eta PsbcSpecializationConstant := fun r =>
  mkPsbcSpecializationConstant r.(sc_constant_id) r.(sc_size) r.(sc_data).

(** Source-specific parameters of a linked stage. *)
Record PsbcLinkedStageParameters : Type := mkPsbcLinkedStageParameters {
  lp_enabled : bool;
  lp_entrypoint : option string;
  lp_specialization_constant_count : Z;
  lp_specialization_constants : list PsbcSpecializationConstant
}.

#[export] Instance eta_PsbcLinkedStageParameters : Eta PsbcLinkedStageParameters := fun r =>
  mkPsbcLinkedStageParameters r.(lp_enabled) r.(lp_entrypoint) r.(lp_specialization_constant_count)
    r.(lp_specialization_constants).

(** One register write: dword offset and value. *)
Record PsbcRegisterWrite : Type := mkPsbcRegisterWrite {
  rw_offset : Z;
  rw_padding : Z;
  rw_value : Z
}.

#[export] Instance eta_PsbcRegisterWrite : Eta PsbcRegisterWrite := fun r =>
  mkPsbcRegisterWrite r.(rw_offset) r.(rw_padding) r.(rw_value).

(** Typed hardware metadata of a compiled shader. *)
Record PsbcShaderMetadata : Type := mkPsbcShaderMetadata {
  md_version : Z;
  md_target : PsbcTarget;
  md_source_stage : PsbcStage;
  md_hardware_stage : PsbcHardwareStage;
  md_unresolved_fields : Z;
  md_context_register_count : Z;
  md_context_registers : list PsbcRegisterWrite;
  md_shader_register_count : Z;
  md_shader_registers : list PsbcRegisterWrite;
  md_linkage_valid : bool;
  md_linkage_ge_cntl : PsbcRegisterWrite;
  md_linkage_stages_en : PsbcRegisterWrite;
  md_linkage_user_vgpr_en : PsbcRegisterWrite;
  md_merged_geometry : bool;
  md_merged_es_source_stage : PsbcStage;
  md_merged_es_itemsize : Z;
  md_merged_esgs_ring_itemsize : Z;
  md_linkage_ge_pc_alloc_valid : bool;
  md_linkage_ge_pc_alloc : PsbcRegisterWrite;
  md_hull_ls_valid : bool;
  md_hull_ls_code_size : Z;
  md_hull_ls_code_offset : Z;
  md_hull_ls_pgm_lo : PsbcRegisterWrite;
  md_hull_ls_pgm_hi : PsbcRegisterWrite;
  md_hull_ls_rsrc1 : PsbcRegisterWrite;
  md_hull_ls_rsrc2 : PsbcRegisterWrite;
  md_hull_tess_wg_valid : bool;
  md_hull_num_patches_per_wg : Z;
  md_hull_tcs_lds_size : Z;
  md_hull_workgroup_size : Z;
  md_ps_clip_distance_reads : Z;
  md_ps_cull_distance_reads : Z;
  md_esgs_system_sgprs_valid : bool;
  md_esgs_gs_tg_info_sgpr : Z;
  md_esgs_merged_wave_info_sgpr : Z;
  md_esgs_es_verts_per_subgroup : Z;
  md_esgs_gs_inst_prims_per_subgroup : Z;
  md_esgs_prim_amp_factor : Z;
  md_esgs_workgroup_size : Z;
  md_user_data_window_base : Z;
  md_input_semantic_count : Z;
  md_input_semantics : list Z;
  md_output_semantic_count : Z;
  md_output_semantics : list Z;
  md_clip_distance_mask : Z;
  md_cull_distance_mask : Z;
  md_address32_hi : Z;
  md_user_sgpr_count : Z;
  md_vertex_buffer_table_valid : bool;
  md_vertex_buffer_table_user_data_dword : Z;
  md_descriptor_set0_valid : bool;
  md_descriptor_set0_user_data_dword : Z;
  md_descriptor_set_valid : list bool;
  md_descriptor_set_user_data_dword : list Z;
  md_push_constants_valid : bool;
  md_push_constants_user_data_dword : Z;
  md_push_constant_size : Z;
  md_push_use_valid : bool;
  md_stage_push_dwords : Z;
  md_previous_stage_push_dwords : Z;
  md_hull_push_use_valid : bool;
  md_hull_vertex_push_dwords : Z;
  md_hull_control_push_dwords : Z;
  md_descriptor_binding_count : Z;
  md_descriptor_bindings : list PsbcDescriptorBinding;
  md_descriptor_used_binding_mask : list Z;
  md_base_vertex_valid : bool;
  md_base_vertex_user_data_dword : Z;
  md_draw_id_valid : bool;
  md_draw_id_user_data_dword : Z;
  md_view_index_valid : bool;
  md_view_index_user_data_dword : Z;
  md_start_instance_valid : bool;
  md_start_instance_user_data_dword : Z;
  md_streamout_valid : bool;
  md_streamout_buffer_table_user_data_dword : Z;
  md_streamout_enabled_stream_buffers_mask : Z;
  md_streamout_strides_dwords : list Z;
  md_streamout_config_sgpr : Z;
  md_streamout_write_index_sgpr : Z;
  md_streamout_offset_sgprs : list Z;
  md_scratch_valid : bool;
  md_scratch_bytes_per_wave : Z;
  md_scratch_size_per_thread : Z;
  md_scratch_buffer_table_user_data_dword : Z;
  md_ps5_ring_table_valid : bool;
  md_ps5_ring_table_user_data_dword : Z;
  md_ngg_lds_layout_valid : bool;
  md_ngg_lds_layout_user_data_dword : Z;
  md_ngg_lds_layout : Z;
  md_vertex_buffer_usage_mask : Z;
  md_vertex_buffer_per_attribute : bool
}.

#[export] Instance eta_PsbcShaderMetadata : Eta PsbcShaderMetadata := fun r =>
  mkPsbcShaderMetadata r.(md_version) r.(md_target) r.(md_source_stage) r.(md_hardware_stage)
    r.(md_unresolved_fields) r.(md_context_register_count) r.(md_context_registers)
    r.(md_shader_register_count) r.(md_shader_registers) r.(md_linkage_valid) r.(md_linkage_ge_cntl)
    r.(md_linkage_stages_en) r.(md_linkage_user_vgpr_en) r.(md_merged_geometry) r.(md_merged_es_source_stage)
    r.(md_merged_es_itemsize) r.(md_merged_esgs_ring_itemsize) r.(md_linkage_ge_pc_alloc_valid)
    r.(md_linkage_ge_pc_alloc) r.(md_hull_ls_valid) r.(md_hull_ls_code_size) r.(md_hull_ls_code_offset)
    r.(md_hull_ls_pgm_lo) r.(md_hull_ls_pgm_hi) r.(md_hull_ls_rsrc1) r.(md_hull_ls_rsrc2)
    r.(md_hull_tess_wg_valid) r.(md_hull_num_patches_per_wg) r.(md_hull_tcs_lds_size)
    r.(md_hull_workgroup_size) r.(md_ps_clip_distance_reads) r.(md_ps_cull_distance_reads)
    r.(md_esgs_system_sgprs_valid) r.(md_esgs_gs_tg_info_sgpr) r.(md_esgs_merged_wave_info_sgpr)
    r.(md_esgs_es_verts_per_subgroup) r.(md_esgs_gs_inst_prims_per_subgroup) r.(md_esgs_prim_amp_factor)
    r.(md_esgs_workgroup_size) r.(md_user_data_window_base) r.(md_input_semantic_count)
    r.(md_input_semantics) r.(md_output_semantic_count) r.(md_output_semantics) r.(md_clip_distance_mask)
    r.(md_cull_distance_mask) r.(md_address32_hi) r.(md_user_sgpr_count) r.(md_vertex_buffer_table_valid)
    r.(md_vertex_buffer_table_user_data_dword) r.(md_descriptor_set0_valid) r.(md_descriptor_set0_user_data_dword)
    r.(md_descriptor_set_valid) r.(md_descriptor_set_user_data_dword) r.(md_push_constants_valid)
    r.(md_push_constants_user_data_dword) r.(md_push_constant_size) r.(md_push_use_valid)
    r.(md_stage_push_dwords) r.(md_previous_stage_push_dwords) r.(md_hull_push_use_valid)
    r.(md_hull_vertex_push_dwords) r.(md_hull_control_push_dwords) r.(md_descriptor_binding_count)
    r.(md_descriptor_bindings) r.(md_descriptor_used_binding_mask) r.(md_base_vertex_valid)
    r.(md_base_vertex_user_data_dword) r.(md_draw_id_valid) r.(md_draw_id_user_data_dword)
    r.(md_view_index_valid) r.(md_view_index_user_data_dword) r.(md_start_instance_valid)
    r.(md_start_instance_user_data_dword) r.(md_streamout_valid) r.(md_streamout_buffer_table_user_data_dword)
    r.(md_streamout_enabled_stream_buffers_mask) r.(md_streamout_strides_dwords) r.(md_streamout_config_sgpr)
    r.(md_streamout_write_index_sgpr) r.(md_streamout_offset_sgprs) r.(md_scratch_valid)
    r.(md_scratch_bytes_per_wave) r.(md_scratch_size_per_thread) r.(md_scratch_buffer_table_user_data_dword)
    r.(md_ps5_ring_table_valid) r.(md_ps5_ring_table_user_data_dword) r.(md_ngg_lds_layout_valid)
    r.(md_ngg_lds_layout_user_data_dword) r.(md_ngg_lds_layout) r.(md_vertex_buffer_usage_mask)
    r.(md_vertex_buffer_per_attribute).

(** Result buffers (heap addresses, None for NULL) and metadata of a compilation. *)
Record PsbcShaderOutput : Type := mkPsbcShaderOutput {
  out_data : option Z;
  out_size : Z;
  out_machine_code : option Z;
  out_machine_code_size : Z;
  out_metadata : PsbcShaderMetadata
}.

#[export] Instance eta_PsbcShaderOutput : Eta PsbcShaderOutput := fun r =>
  mkPsbcShaderOutput r.(out_data) r.(out_size) r.(out_machine_code) r.(out_machine_code_size)
    r.(out_metadata).

(** Everything a caller asks of a compilation. *)
Record PsbcCompileOptions : Type := mkPsbcCompileOptions {
  co_target : PsbcTarget;
  co_stage : PsbcStage;
  co_entrypoint : option string;
  co_optimise : bool;
  co_ngg : bool;
  co_omit_implicit_primitive_id : bool;
  co_primitive_id_per_primitive : bool;
  co_fragment_distance_layout_valid : bool;
  co_fragment_clip_distance_count : Z;
  co_ps5_global_streamout : bool;
  co_force_accelerated_dot : bool;
  co_primitive_type : Z;
  co_provoking_vtx_last : bool;
  co_address32_hi : Z;
  co_vertex_attribute_count : Z;
  co_vertex_attributes : list PsbcVertexAttribute;
  co_descriptor_binding_count : Z;
  co_descriptor_bindings : list PsbcDescriptorBinding;
  co_specialization_constant_count : Z;
  co_specialization_constants : list PsbcSpecializationConstant;
  co_previous_parameters : PsbcLinkedStageParameters;
  co_next_link_parameters : PsbcLinkedStageParameters;
  co_force_indirect_push_constants : bool;
  co_rasterization_samples : Z;
  co_sample_shading_enable : bool;
  co_patch_control_points : Z;
  co_spi_shader_col_format : Z;
  co_color_is_int8 : Z;
  co_color_is_int10 : Z;
  co_enable_int8 : bool;
  co_enable_int16 : bool;
  co_enable_storage_buffer_8bit_access : bool;
  co_enable_uniform_and_storage_buffer_8bit_access : bool;
  co_enable_storage_buffer_16bit_access : bool;
  co_enable_uniform_and_storage_buffer_16bit_access : bool;
  co_enable_physical_storage_buffer_addresses : bool;
  co_enable_vulkan_memory_model : bool;
  co_enable_vulkan_memory_model_device_scope : bool;
  co_static_descriptor_use : bool;
  co_ngg_no_passthrough : bool;
  co_ngg_device_facts : bool;
  co_ngg_pc_lines : Z;
  co_ngg_min_good_cu_per_sa : Z;
  co_ngg_culling : bool;
  co_ngg_uses_scratch : bool;
  co_robust_buffer_access2 : bool
}.

#[export] Instance eta_PsbcCompileOptions : Eta PsbcCompileOptions := fun r =>
  mkPsbcCompileOptions r.(co_target) r.(co_stage) r.(co_entrypoint) r.(co_optimise)
    r.(co_ngg) r.(co_omit_implicit_primitive_id) r.(co_primitive_id_per_primitive)
    r.(co_fragment_distance_layout_valid) r.(co_fragment_clip_distance_count) r.(co_ps5_global_streamout)
    r.(co_force_accelerated_dot) r.(co_primitive_type) r.(co_provoking_vtx_last) r.(co_address32_hi)
    r.(co_vertex_attribute_count) r.(co_vertex_attributes) r.(co_descriptor_binding_count)
    r.(co_descriptor_bindings) r.(co_specialization_constant_count) r.(co_specialization_constants)
    r.(co_previous_parameters) r.(co_next_link_parameters) r.(co_force_indirect_push_constants)
    r.(co_rasterization_samples) r.(co_sample_shading_enable) r.(co_patch_control_points)
    r.(co_spi_shader_col_format) r.(co_color_is_int8) r.(co_color_is_int10) r.(co_enable_int8)
    r.(co_enable_int16) r.(co_enable_storage_buffer_8bit_access) r.(co_enable_uniform_and_storage_buffer_8bit_access)
    r.(co_enable_storage_buffer_16bit_access) r.(co_enable_uniform_and_storage_buffer_16bit_access)
    r.(co_enable_physical_storage_buffer_addresses) r.(co_enable_vulkan_memory_model)
    r.(co_enable_vulkan_memory_model_device_scope) r.(co_static_descriptor_use) r.(co_ngg_no_passthrough)
    r.(co_ngg_device_facts) r.(co_ngg_pc_lines) r.(co_ngg_min_good_cu_per_sa) r.(co_ngg_culling)
    r.(co_ngg_uses_scratch) r.(co_robust_buffer_access2).


(** ** Zero-initialised structures *)

Definition zero_PsbcVertexAttribute : PsbcVertexAttribute := {|
  va_location := 0;
  va_binding := 0;
  va_format := PSBC_VERTEX_FORMAT_NONE;
  va_offset := 0;
  va_stride := 0;
  va_alignment := 0;
  va_instance_divisor := 0
|}.

Definition zero_PsbcDescriptorBinding : PsbcDescriptorBinding := {|
  db_set := 0;
  db_binding := 0;
  db_type := PSBC_DESCRIPTOR_NONE;
  db_array_size := 0;
  db_offset := 0;
  db_stride := 0
|}.

Definition zero_PsbcSpecializationConstant : PsbcSpecializationConstant := {|
  sc_constant_id := 0;
  sc_size := 0;
  sc_data := replicate (Z.to_nat PSBC_MAX_SPECIALIZATION_BYTES) 0
|}.

Definition zero_PsbcLinkedStageParameters : PsbcLinkedStageParameters := {|
  lp_enabled := false;
  lp_entrypoint := None;
  lp_specialization_constant_count := 0;
  lp_specialization_constants := replicate (Z.to_nat PSBC_MAX_SPECIALIZATION_CONSTANTS) zero_PsbcSpecializationConstant
|}.

Definition zero_PsbcRegisterWrite : PsbcRegisterWrite := {|
  rw_offset := 0;
  rw_padding := 0;
  rw_value := 0
|}.

Definition zero_PsbcShaderMetadata : PsbcShaderMetadata := {|
  md_version := 0;
  md_target := PSBC_TARGET_PS4_BASE;
  md_source_stage := PSBC_STAGE_NONE;
  md_hardware_stage := PSBC_HW_STAGE_UNKNOWN;
  md_unresolved_fields := 0;
  md_context_register_count := 0;
  md_context_registers := replicate (Z.to_nat PSBC_MAX_CONTEXT_REGISTERS) zero_PsbcRegisterWrite;
  md_shader_register_count := 0;
  md_shader_registers := replicate (Z.to_nat PSBC_MAX_SHADER_REGISTERS) zero_PsbcRegisterWrite;
  md_linkage_valid := false;
  md_linkage_ge_cntl := zero_PsbcRegisterWrite;
  md_linkage_stages_en := zero_PsbcRegisterWrite;
  md_linkage_user_vgpr_en := zero_PsbcRegisterWrite;
  md_merged_geometry := false;
  md_merged_es_source_stage := PSBC_STAGE_NONE;
  md_merged_es_itemsize := 0;
  md_merged_esgs_ring_itemsize := 0;
  md_linkage_ge_pc_alloc_valid := false;
  md_linkage_ge_pc_alloc := zero_PsbcRegisterWrite;
  md_hull_ls_valid := false;
  md_hull_ls_code_size := 0;
  md_hull_ls_code_offset := 0;
  md_hull_ls_pgm_lo := zero_PsbcRegisterWrite;
  md_hull_ls_pgm_hi := zero_PsbcRegisterWrite;
  md_hull_ls_rsrc1 := zero_PsbcRegisterWrite;
  md_hull_ls_rsrc2 := zero_PsbcRegisterWrite;
  md_hull_tess_wg_valid := false;
  md_hull_num_patches_per_wg := 0;
  md_hull_tcs_lds_size := 0;
  md_hull_workgroup_size := 0;
  md_ps_clip_distance_reads := 0;
  md_ps_cull_distance_reads := 0;
  md_esgs_system_sgprs_valid := false;
  md_esgs_gs_tg_info_sgpr := 0;
  md_esgs_merged_wave_info_sgpr := 0;
  md_esgs_es_verts_per_subgroup := 0;
  md_esgs_gs_inst_prims_per_subgroup := 0;
  md_esgs_prim_amp_factor := 0;
  md_esgs_workgroup_size := 0;
  md_user_data_window_base := 0;
  md_input_semantic_count := 0;
  md_input_semantics := replicate (Z.to_nat PSBC_MAX_SEMANTICS) 0;
  md_output_semantic_count := 0;
  md_output_semantics := replicate (Z.to_nat PSBC_MAX_SEMANTICS) 0;
  md_clip_distance_mask := 0;
  md_cull_distance_mask := 0;
  md_address32_hi := 0;
  md_user_sgpr_count := 0;
  md_vertex_buffer_table_valid := false;
  md_vertex_buffer_table_user_data_dword := 0;
  md_descriptor_set0_valid := false;
  md_descriptor_set0_user_data_dword := 0;
  md_descriptor_set_valid := replicate (Z.to_nat PSBC_MAX_DESCRIPTOR_SETS) false;
  md_descriptor_set_user_data_dword := replicate (Z.to_nat PSBC_MAX_DESCRIPTOR_SETS) 0;
  md_push_constants_valid := false;
  md_push_constants_user_data_dword := 0;
  md_push_constant_size := 0;
  md_push_use_valid := false;
  md_stage_push_dwords := 0;
  md_previous_stage_push_dwords := 0;
  md_hull_push_use_valid := false;
  md_hull_vertex_push_dwords := 0;
  md_hull_control_push_dwords := 0;
  md_descriptor_binding_count := 0;
  md_descriptor_bindings := replicate (Z.to_nat PSBC_MAX_DESCRIPTOR_BINDINGS) zero_PsbcDescriptorBinding;
  md_descriptor_used_binding_mask := replicate (Z.to_nat PSBC_MAX_DESCRIPTOR_SETS) 0;
  md_base_vertex_valid := false;
  md_base_vertex_user_data_dword := 0;
  md_draw_id_valid := false;
  md_draw_id_user_data_dword := 0;
  md_view_index_valid := false;
  md_view_index_user_data_dword := 0;
  md_start_instance_valid := false;
  md_start_instance_user_data_dword := 0;
  md_streamout_valid := false;
  md_streamout_buffer_table_user_data_dword := 0;
  md_streamout_enabled_stream_buffers_mask := 0;
  md_streamout_strides_dwords := replicate (Z.to_nat 4) 0;
  md_streamout_config_sgpr := 0;
  md_streamout_write_index_sgpr := 0;
  md_streamout_offset_sgprs := replicate (Z.to_nat 4) 0;
  md_scratch_valid := false;
  md_scratch_bytes_per_wave := 0;
  md_scratch_size_per_thread := 0;
  md_scratch_buffer_table_user_data_dword := 0;
  md_ps5_ring_table_valid := false;
  md_ps5_ring_table_user_data_dword := 0;
  md_ngg_lds_layout_valid := false;
  md_ngg_lds_layout_user_data_dword := 0;
  md_ngg_lds_layout := 0;
  md_vertex_buffer_usage_mask := 0;
  md_vertex_buffer_per_attribute := false
|}.

Definition zero_PsbcShaderOutput : PsbcShaderOutput := {|
  out_data := None;
  out_size := 0;
  out_machine_code := None;
  out_machine_code_size := 0;
  out_metadata := zero_PsbcShaderMetadata
|}.

Definition zero_PsbcCompileOptions : PsbcCompileOptions := {|
  co_target := PSBC_TARGET_PS4_BASE;
  co_stage := PSBC_STAGE_NONE;
  co_entrypoint := None;
  co_optimise := false;
  co_ngg := false;
  co_omit_implicit_primitive_id := false;
  co_primitive_id_per_primitive := false;
  co_fragment_distance_layout_valid := false;
  co_fragment_clip_distance_count := 0;
  co_ps5_global_streamout := false;
  co_force_accelerated_dot := false;
  co_primitive_type := 0;
  co_provoking_vtx_last := false;
  co_address32_hi := 0;
  co_vertex_attribute_count := 0;
  co_vertex_attributes := replicate (Z.to_nat PSBC_MAX_VERTEX_ATTRIBUTES) zero_PsbcVertexAttribute;
  co_descriptor_binding_count := 0;
  co_descriptor_bindings := replicate (Z.to_nat PSBC_MAX_DESCRIPTOR_BINDINGS) zero_PsbcDescriptorBinding;
  co_specialization_constant_count := 0;
  co_specialization_constants := replicate (Z.to_nat PSBC_MAX_SPECIALIZATION_CONSTANTS) zero_PsbcSpecializationConstant;
  co_previous_parameters := zero_PsbcLinkedStageParameters;
  co_next_link_parameters := zero_PsbcLinkedStageParameters;
  co_force_indirect_push_constants := false;
  co_rasterization_samples := 0;
  co_sample_shading_enable := false;
  co_patch_control_points := 0;
  co_spi_shader_col_format := 0;
  co_color_is_int8 := 0;
  co_color_is_int10 := 0;
  co_enable_int8 := false;
  co_enable_int16 := false;
  co_enable_storage_buffer_8bit_access := false;
  co_enable_uniform_and_storage_buffer_8bit_access := false;
  co_enable_storage_buffer_16bit_access := false;
  co_enable_uniform_and_storage_buffer_16bit_access := false;
  co_enable_physical_storage_buffer_addresses := false;
  co_enable_vulkan_memory_model := false;
  co_enable_vulkan_memory_model_device_scope := false;
  co_static_descriptor_use := false;
  co_ngg_no_passthrough := false;
  co_ngg_device_facts := false;
  co_ngg_pc_lines := 0;
  co_ngg_min_good_cu_per_sa := 0;
  co_ngg_culling := false;
  co_ngg_uses_scratch := false;
  co_robust_buffer_access2 := false
|}.
