(* ===== verification/Crc32.v ===== *)
(** * The shader-binary checksum (cmd/psbc/crc32_sb.c, crc32_sb.h)

    A byte-wise CRC-32 whose table index is transformed before the lookup.  The
    module gives the code as written ([crc32_table], [crc32_sb]), a reference
    definition that names no table ([crc32_entry] computes an entry bit by bit
    and [sb_fold] is the closed form of the index transformation), and the
    theorem that they agree. *)

From S2P Require Import Prelude.

Module Crc32.

(** The lookup table, verbatim. *)
Definition crc32_table : list Z :=
  [0x00000000; 0x77073096; 0xee0e612c; 0x990951ba; 0x076dc419; 0x706af48f;
   0xe963a535; 0x9e6495a3; 0x0edb8832; 0x79dcb8a4; 0xe0d5e91e; 0x97d2d988;
   0x09b64c2b; 0x7eb17cbd; 0xe7b82d07; 0x90bf1d91; 0x1db71064; 0x6ab020f2;
   0xf3b97148; 0x84be41de; 0x1adad47d; 0x6ddde4eb; 0xf4d4b551; 0x83d385c7;
   0x136c9856; 0x646ba8c0; 0xfd62f97a; 0x8a65c9ec; 0x14015c4f; 0x63066cd9;
   0xfa0f3d63; 0x8d080df5; 0x3b6e20c8; 0x4c69105e; 0xd56041e4; 0xa2677172;
   0x3c03e4d1; 0x4b04d447; 0xd20d85fd; 0xa50ab56b; 0x35b5a8fa; 0x42b2986c;
   0xdbbbc9d6; 0xacbcf940; 0x32d86ce3; 0x45df5c75; 0xdcd60dcf; 0xabd13d59;
   0x26d930ac; 0x51de003a; 0xc8d75180; 0xbfd06116; 0x21b4f4b5; 0x56b3c423;
   0xcfba9599; 0xb8bda50f; 0x2802b89e; 0x5f058808; 0xc60cd9b2; 0xb10be924;
   0x2f6f7c87; 0x58684c11; 0xc1611dab; 0xb6662d3d; 0x76dc4190; 0x01db7106;
   0x98d220bc; 0xefd5102a; 0x71b18589; 0x06b6b51f; 0x9fbfe4a5; 0xe8b8d433;
   0x7807c9a2; 0x0f00f934; 0x9609a88e; 0xe10e9818; 0x7f6a0dbb; 0x086d3d2d;
   0x91646c97; 0xe6635c01; 0x6b6b51f4; 0x1c6c6162; 0x856530d8; 0xf262004e;
   0x6c0695ed; 0x1b01a57b; 0x8208f4c1; 0xf50fc457; 0x65b0d9c6; 0x12b7e950;
   0x8bbeb8ea; 0xfcb9887c; 0x62dd1ddf; 0x15da2d49; 0x8cd37cf3; 0xfbd44c65;
   0x4db26158; 0x3ab551ce; 0xa3bc0074; 0xd4bb30e2; 0x4adfa541; 0x3dd895d7;
   0xa4d1c46d; 0xd3d6f4fb; 0x4369e96a; 0x346ed9fc; 0xad678846; 0xda60b8d0;
   0x44042d73; 0x33031de5; 0xaa0a4c5f; 0xdd0d7cc9; 0x5005713c; 0x270241aa;
   0xbe0b1010; 0xc90c2086; 0x5768b525; 0x206f85b3; 0xb966d409; 0xce61e49f;
   0x5edef90e; 0x29d9c998; 0xb0d09822; 0xc7d7a8b4; 0x59b33d17; 0x2eb40d81;
   0xb7bd5c3b; 0xc0ba6cad; 0xedb88320; 0x9abfb3b6; 0x03b6e20c; 0x74b1d29a;
   0xead54739; 0x9dd277af; 0x04db2615; 0x73dc1683; 0xe3630b12; 0x94643b84;
   0x0d6d6a3e; 0x7a6a5aa8; 0xe40ecf0b; 0x9309ff9d; 0x0a00ae27; 0x7d079eb1;
   0xf00f9344; 0x8708a3d2; 0x1e01f268; 0x6906c2fe; 0xf762575d; 0x806567cb;
   0x196c3671; 0x6e6b06e7; 0xfed41b76; 0x89d32be0; 0x10da7a5a; 0x67dd4acc;
   0xf9b9df6f; 0x8ebeeff9; 0x17b7be43; 0x60b08ed5; 0xd6d6a3e8; 0xa1d1937e;
   0x38d8c2c4; 0x4fdff252; 0xd1bb67f1; 0xa6bc5767; 0x3fb506dd; 0x48b2364b;
   0xd80d2bda; 0xaf0a1b4c; 0x36034af6; 0x41047a60; 0xdf60efc3; 0xa867df55;
   0x316e8eef; 0x4669be79; 0xcb61b38c; 0xbc66831a; 0x256fd2a0; 0x5268e236;
   0xcc0c7795; 0xbb0b4703; 0x220216b9; 0x5505262f; 0xc5ba3bbe; 0xb2bd0b28;
   0x2bb45a92; 0x5cb36a04; 0xc2d7ffa7; 0xb5d0cf31; 0x2cd99e8b; 0x5bdeae1d;
   0x9b64c2b0; 0xec63f226; 0x756aa39c; 0x026d930a; 0x9c0906a9; 0xeb0e363f;
   0x72076785; 0x05005713; 0x95bf4a82; 0xe2b87a14; 0x7bb12bae; 0x0cb61b38;
   0x92d28e9b; 0xe5d5be0d; 0x7cdcefb7; 0x0bdbdf21; 0x86d3d2d4; 0xf1d4e242;
   0x68ddb3f8; 0x1fda836e; 0x81be16cd; 0xf6b9265b; 0x6fb077e1; 0x18b74777;
   0x88085ae6; 0xff0f6a70; 0x66063bca; 0x11010b5c; 0x8f659eff; 0xf862ae69;
   0x616bffd3; 0x166ccf45; 0xa00ae278; 0xd70dd2ee; 0x4e048354; 0x3903b3c2;
   0xa7672661; 0xd06016f7; 0x4969474d; 0x3e6e77db; 0xaed16a4a; 0xd9d65adc;
   0x40df0b66; 0x37d83bf0; 0xa9bcae53; 0xdebb9ec5; 0x47b2cf7f; 0x30b5ffe9;
   0xbdbdf21c; 0xcabac28a; 0x53b39330; 0x24b4a3a6; 0xbad03605; 0xcdd70693;
   0x54de5729; 0x23d967bf; 0xb3667a2e; 0xc4614ab8; 0x5d681b02; 0x2a6f2b94;
   0xb40bbe37; 0xc30c8ea1; 0x5a05df1b; 0x2d02ef8d].

(** The transformed table index of one input byte, in unsigned 32-bit
    arithmetic: [index + q * -6] wraps, [-6] being converted to [uint32_t]. *)
Definition crc32_index (byte crc : Z) : Z :=
  let index := (byte `lxor` crc) `land` 0xff in
  if index <? 0xe0 then
    u32 (index + u32 (((((index - index / 7) ≫ 1) + index / 7) ≫ 2) * u32 (-6)))
  else 0.

(** One iteration of the loop; [None] is a read outside the table. *)
Definition crc32_step (byte crc : Z) : option Z :=
  e ← crc32_table !! Z.to_nat (crc32_index byte crc);
  Some (e `lxor` (crc ≫ 8)).

(** [crc32_sb(data, size, crc)]: the loop over the bytes of [data]. *)
Definition crc32_sb (data : list Z) (crc : Z) : option Z :=
  try_each crc32_step data crc.

Definition crc32_sb_begin : Z := 0xffffffff.
Definition crc32_sb_end (crc : Z) : Z := not32 crc.

(** ** Reference definition *)

(** One shift of the reflected CRC-32 register. *)
Definition crc32_shift (c : Z) : Z :=
  if Z.testbit c 0 then (c ≫ 1) `lxor` 0xedb88320 else c ≫ 1.

(** A table entry: eight shifts of its index. *)
Definition crc32_entry (n : Z) : Z := Nat.iter 8 crc32_shift n.

(** Closed form of the index transformation. *)
Definition sb_fold (n : Z) : Z := if n <? 0xe0 then n / 7 + n `mod` 7 else 0.

Definition crc32_ref_step (crc byte : Z) : Z :=
  crc32_entry (sb_fold ((byte `lxor` crc) `land` 0xff)) `lxor` (crc ≫ 8).

Definition crc32_ref (data : list Z) (crc : Z) : Z := foldl crc32_ref_step crc data.

(** ** Proofs *)

Definition is_byte (b : Z) : Prop := in_width 8 b.

Lemma crc32_table_entries : crc32_table = map crc32_entry (seqZ 0 256).
Proof. vm_compute. reflexivity. Qed.

Lemma index_byte byte crc : in_width 8 ((byte `lxor` crc) `land` 0xff).
Proof.
  change 0xff with (Z.ones 8). rewrite Z.land_ones by lia. by apply wrap_range.
Qed.

Lemma sb_fold_bound n : in_width 8 n -> 0 <= sb_fold n <= 37.
Proof.
  intros [? ?]. unfold sb_fold. destruct (Z.ltb_spec n 0xe0); [|lia].
  pose proof (Z.mod_pos_bound n 7). pose proof (Z.div_mod n 7). lia.
Qed.

(** Division by seven from the halving identity the code uses. *)
Lemma seventh n :
  0 <= n -> (((n - n / 7) ≫ 1) + n / 7) ≫ 2 = n / 7.
Proof.
  intros. rewrite !Z.shiftr_div_pow2 by lia. change (2 ^ 1) with 2. change (2 ^ 2) with 4.
  pose proof (Z.mod_pos_bound n 7). pose proof (Z.div_mod n 7).
  pose proof (Z.mod_pos_bound (n - n / 7) 2). pose proof (Z.div_mod (n - n / 7) 2).
  symmetry. apply Z.div_unique with ((n - n / 7) / 2 + n / 7 - 4 * (n / 7)); lia.
Qed.

Lemma crc32_index_fold byte crc :
  crc32_index byte crc = sb_fold ((byte `lxor` crc) `land` 0xff).
Proof.
  unfold crc32_index, sb_fold. pose proof (index_byte byte crc) as Hn.
  generalize dependent ((byte `lxor` crc) `land` 0xff). intros n [Hn0 Hn1].
  destruct (Z.ltb_spec n 0xe0); [|done].
  rewrite seventh by lia.
  pose proof (Z.mod_pos_bound n 7). pose proof (Z.div_mod n 7).
  rewrite wrap_add_r, <-wrap_add_r, wrap_mul_r, wrap_add_r.
  rewrite wrap_id; [lia|]. split; lia.
Qed.

Lemma crc32_step_ref byte crc :
  crc32_step byte crc = Some (crc32_ref_step crc byte).
Proof.
  unfold crc32_step, crc32_ref_step. rewrite crc32_index_fold, crc32_table_entries.
  pose proof (sb_fold_bound _ (index_byte byte crc)) as Hb.
  generalize dependent (sb_fold ((byte `lxor` crc) `land` 0xff)). intros n Hb.
  rewrite list_lookup_fmap. rewrite lookup_seqZ_lt by lia. simpl.
  by rewrite Z.add_0_l, Z2Nat.id by lia.
Qed.

Lemma crc32_entry_width n : in_width 8 n -> in_width 32 (crc32_entry n).
Proof.
  intros Hn. unfold crc32_entry. apply (in_width_weaken 8 32) in Hn; [|lia].
  generalize 8%nat. intros k. induction k as [|k IH]; [done|].
  rewrite Nat.iter_succ. unfold crc32_shift.
  destruct (Z.testbit _ 0); auto with widths.
Qed.

Lemma crc32_ref_width data crc : in_width 32 crc -> in_width 32 (crc32_ref data crc).
Proof.
  revert crc. induction data as [|b data IH]; intros crc Hc; [done|].
  apply IH. unfold crc32_ref_step. apply in_width_lxor; [|auto with widths].
  apply crc32_entry_width.
  destruct (sb_fold_bound _ (index_byte b crc)). split; simpl; lia.
Qed.

Lemma crc32_sb_ref data crc : crc32_sb data crc = Some (crc32_ref data crc).
Proof.
  revert crc. induction data as [|b data IH]; intros crc; [done|].
  unfold crc32_sb in *. simpl. by rewrite crc32_step_ref, IH.
Qed.

Lemma crc32_ref_app xs ys crc : crc32_ref (xs ++ ys) crc = crc32_ref ys (crc32_ref xs crc).
Proof. apply foldl_app. Qed.

(** C38: on any byte sequence and any starting register the table-driven checksum
    never reads outside its table and equals the reference CRC: CRC-32 entries
    computed from the reflected polynomial 0xedb88320, looked up at [i/7 + i%7]
    for indices below 0xe0 and at 0 above; the result fits 32 bits whenever the
    starting register does. *)
Theorem crc32_sb_correct (data : list Z) (crc : Z) :
  crc32_sb data crc = Some (crc32_ref data crc) /\
  (in_width 32 crc -> in_width 32 (crc32_ref data crc)).
Proof. split; [apply crc32_sb_ref|apply crc32_ref_width]. Qed.

Lemma crc32_sb_correct_witness :
  crc32_sb [0x31; 0x32; 0x33] crc32_sb_begin = Some (crc32_ref [0x31; 0x32; 0x33] crc32_sb_begin)
  /\ in_width 32 (crc32_ref [0x31; 0x32; 0x33] crc32_sb_begin).
Proof.
  destruct (crc32_sb_correct [0x31; 0x32; 0x33] crc32_sb_begin) as [H1 H2].
  split; [exact H1|]. apply H2. split; [done|reflexivity].
Defined.

(** Feeding a buffer in two pieces gives the checksum of the whole, which is
    what [hashsb] relies on when it checksums the code, the padding and the
    trailer one after the other. *)
Theorem crc32_sb_incremental (xs ys : list Z) (crc : Z) :
  crc32_sb (xs ++ ys) crc = crc32_sb xs crc ≫= crc32_sb ys.
Proof. apply try_each_app. Qed.

End Crc32.
