(* ===== verification/Regs.v ===== *)
(** * Hardware registers (src/amd/registers)

    The build generates amdgfxregs.h from the register databases in
    src/amd/registers with makeregheader.py.  For every field [name] at the bits
    [lo..hi] of the register at address [A] that script writes three macros:
    [S_A_name(x)] places [x] in the field, [G_A_name(r)] reads the field of [r]
    and [C_A_name] is the complement of the field's mask.  [field_S], [field_G]
    and [field_C] are those three macros; the definitions below instantiate them
    with the bit positions of gfx103.json (gfx10.json for a field the GFX10.3
    database leaves out).  [R_A_name] is the register's address and [V_A_name] an
    enumerated field value. *)

From S2P Require Import Prelude.

(** ** The generated macros *)

Definition field_mask (lo hi : Z) : Z := Z.ones (hi - lo + 1).
Definition field_S (lo hi x : Z) : Z := (x `land` field_mask lo hi) ≪ lo.
Definition field_G (lo hi r : Z) : Z := (r ≫ lo) `land` field_mask lo hi.
Definition field_C (lo hi : Z) : Z := 0xffffffff `lxor` (field_mask lo hi ≪ lo).

(** ** Register offsets within their spaces (sid.h, psbc_compile.c) *)

Definition SI_SH_REG_OFFSET : Z := 0x0000B000.
Definition SI_CONTEXT_REG_OFFSET : Z := 0x00028000.
Definition CIK_UCONFIG_REG_OFFSET : Z := 0x00030000.

Definition PSBC_CX_OFFSET (reg : Z) : Z := u16 ((reg - SI_CONTEXT_REG_OFFSET) / 4).
Definition PSBC_SH_OFFSET (reg : Z) : Z := u16 ((reg - SI_SH_REG_OFFSET) / 4).
Definition PSBC_UC_OFFSET (reg : Z) : Z := u16 ((reg - CIK_UCONFIG_REG_OFFSET) / 4).

(** ** Register addresses *)

Definition R_00B020_SPI_SHADER_PGM_LO_PS : Z := 0xB020.
Definition R_00B024_SPI_SHADER_PGM_HI_PS : Z := 0xB024.
Definition R_00B028_SPI_SHADER_PGM_RSRC1_PS : Z := 0xB028.
Definition R_00B02C_SPI_SHADER_PGM_RSRC2_PS : Z := 0xB02C.
Definition R_00B104_SPI_SHADER_PGM_RSRC4_VS : Z := 0xB104.
Definition R_00B118_SPI_SHADER_PGM_RSRC3_VS : Z := 0xB118.
Definition R_00B11C_SPI_SHADER_LATE_ALLOC_VS : Z := 0xB11C.
Definition R_00B120_SPI_SHADER_PGM_LO_VS : Z := 0xB120.
Definition R_00B124_SPI_SHADER_PGM_HI_VS : Z := 0xB124.
Definition R_00B128_SPI_SHADER_PGM_RSRC1_VS : Z := 0xB128.
Definition R_00B12C_SPI_SHADER_PGM_RSRC2_VS : Z := 0xB12C.
Definition R_00B204_SPI_SHADER_PGM_RSRC4_GS : Z := 0xB204.
Definition R_00B21C_SPI_SHADER_PGM_RSRC3_GS : Z := 0xB21C.
Definition R_00B228_SPI_SHADER_PGM_RSRC1_GS : Z := 0xB228.
Definition R_00B22C_SPI_SHADER_PGM_RSRC2_GS : Z := 0xB22C.
Definition R_00B320_SPI_SHADER_PGM_LO_ES : Z := 0xB320.
Definition R_00B324_SPI_SHADER_PGM_HI_ES : Z := 0xB324.
Definition R_00B428_SPI_SHADER_PGM_RSRC1_HS : Z := 0xB428.
Definition R_00B42C_SPI_SHADER_PGM_RSRC2_HS : Z := 0xB42C.
Definition R_00B520_SPI_SHADER_PGM_LO_LS : Z := 0xB520.
Definition R_00B524_SPI_SHADER_PGM_HI_LS : Z := 0xB524.
Definition R_02823C_CB_SHADER_MASK : Z := 0x2823C.
Definition R_0286C4_SPI_VS_OUT_CONFIG : Z := 0x286C4.
Definition R_0286CC_SPI_PS_INPUT_ENA : Z := 0x286CC.
Definition R_0286D0_SPI_PS_INPUT_ADDR : Z := 0x286D0.
Definition R_0286D8_SPI_PS_IN_CONTROL : Z := 0x286D8.
Definition R_0286E0_SPI_BARYC_CNTL : Z := 0x286E0.
Definition R_028708_SPI_SHADER_IDX_FORMAT : Z := 0x28708.
Definition R_02870C_SPI_SHADER_POS_FORMAT : Z := 0x2870C.
Definition R_028710_SPI_SHADER_Z_FORMAT : Z := 0x28710.
Definition R_028714_SPI_SHADER_COL_FORMAT : Z := 0x28714.
Definition R_0287FC_GE_MAX_OUTPUT_PER_SUBGROUP : Z := 0x287FC.
Definition R_02880C_DB_SHADER_CONTROL : Z := 0x2880C.
Definition R_02881C_PA_CL_VS_OUT_CNTL : Z := 0x2881C.
Definition R_028A40_VGT_GS_MODE : Z := 0x28A40.
Definition R_028A44_VGT_GS_ONCHIP_CNTL : Z := 0x28A44.
Definition R_028A6C_VGT_GS_OUT_PRIM_TYPE : Z := 0x28A6C.
Definition R_028A84_VGT_PRIMITIVEID_EN : Z := 0x28A84.
Definition R_028AAC_VGT_ESGS_RING_ITEMSIZE : Z := 0x28AAC.
Definition R_028AB4_VGT_REUSE_OFF : Z := 0x28AB4.
Definition R_028B38_VGT_GS_MAX_VERT_OUT : Z := 0x28B38.
Definition R_028B4C_GE_NGG_SUBGRP_CNTL : Z := 0x28B4C.
Definition R_028B54_VGT_SHADER_STAGES_EN : Z := 0x28B54.
Definition R_028B6C_VGT_TF_PARAM : Z := 0x28B6C.
Definition R_028B90_VGT_GS_INSTANCE_CNT : Z := 0x28B90.
Definition R_028C40_PA_SC_SHADER_CONTROL : Z := 0x28C40.
Definition R_03096C_GE_CNTL : Z := 0x3096C.
Definition R_030980_GE_PC_ALLOC : Z := 0x30980.
Definition R_030988_GE_USER_VGPR_EN : Z := 0x30988.

(** ** Field values *)

Definition V_008958_DI_PT_LINELIST : Z := 2.
Definition V_008958_DI_PT_LINELIST_ADJ : Z := 10.
Definition V_008958_DI_PT_LINESTRIP : Z := 3.
Definition V_008958_DI_PT_LINESTRIP_ADJ : Z := 11.
Definition V_008958_DI_PT_POINTLIST : Z := 1.
Definition V_008958_DI_PT_TRIFAN : Z := 5.
Definition V_008958_DI_PT_TRILIST : Z := 4.
Definition V_008958_DI_PT_TRILIST_ADJ : Z := 12.
Definition V_008958_DI_PT_TRISTRIP : Z := 6.
Definition V_008958_DI_PT_TRISTRIP_ADJ : Z := 13.
Definition V_028708_SPI_SHADER_1COMP : Z := 1.
Definition V_02870C_SPI_SHADER_4COMP : Z := 4.
Definition V_02870C_SPI_SHADER_NONE : Z := 0.
Definition V_028710_SPI_SHADER_32_ABGR : Z := 9.
Definition V_028710_SPI_SHADER_32_AR : Z := 3.
Definition V_028710_SPI_SHADER_32_GR : Z := 2.
Definition V_028710_SPI_SHADER_32_R : Z := 1.
Definition V_028710_SPI_SHADER_UINT16_ABGR : Z := 7.
Definition V_028710_SPI_SHADER_ZERO : Z := 0.
Definition V_028714_SPI_SHADER_32_ABGR : Z := 9.
Definition V_028714_SPI_SHADER_32_AR : Z := 3.
Definition V_028714_SPI_SHADER_32_GR : Z := 2.
Definition V_028714_SPI_SHADER_32_R : Z := 1.
Definition V_028714_SPI_SHADER_FP16_ABGR : Z := 4.
Definition V_028714_SPI_SHADER_SINT16_ABGR : Z := 8.
Definition V_028714_SPI_SHADER_SNORM16_ABGR : Z := 6.
Definition V_028714_SPI_SHADER_UINT16_ABGR : Z := 7.
Definition V_028714_SPI_SHADER_UNORM16_ABGR : Z := 5.
Definition V_028714_SPI_SHADER_ZERO : Z := 0.
Definition V_02880C_EARLY_Z_THEN_LATE_Z : Z := 1.
Definition V_02880C_EXPORT_ANY_Z : Z := 0.
Definition V_02880C_EXPORT_GREATER_THAN_Z : Z := 2.
Definition V_02880C_EXPORT_LESS_THAN_Z : Z := 1.
Definition V_02880C_LATE_Z : Z := 0.
Definition V_028A6C_LINESTRIP : Z := 1.
Definition V_028A6C_POINTLIST : Z := 0.
Definition V_028A6C_TRISTRIP : Z := 2.
Definition V_028B54_ES_STAGE_DS : Z := 1.
Definition V_028B54_ES_STAGE_REAL : Z := 2.
Definition V_028B54_HS_STAGE_ON : Z := 1.
Definition V_028B54_LS_STAGE_ON : Z := 1.
Definition V_028B54_VS_STAGE_DS : Z := 1.
Definition V_028B6C_OUTPUT_LINE : Z := 1.
Definition V_028B6C_OUTPUT_POINT : Z := 0.
Definition V_028B6C_OUTPUT_TRIANGLE_CCW : Z := 3.
Definition V_028B6C_OUTPUT_TRIANGLE_CW : Z := 2.
Definition V_028B6C_PART_FRAC_EVEN : Z := 3.
Definition V_028B6C_PART_FRAC_ODD : Z := 2.
Definition V_028B6C_PART_INTEGER : Z := 0.
Definition V_028B6C_TESS_ISOLINE : Z := 0.
Definition V_028B6C_TESS_QUAD : Z := 2.
Definition V_028B6C_TESS_TRIANGLE : Z := 1.

(** ** Fields *)

Definition S_00B104_CU_EN : Z -> Z := field_S 0 15.
Definition G_00B104_CU_EN : Z -> Z := field_G 0 15.
Definition S_00B118_CU_EN : Z -> Z := field_S 0 15.
Definition G_00B118_CU_EN : Z -> Z := field_G 0 15.
Definition S_00B118_WAVE_LIMIT : Z -> Z := field_S 16 21.
Definition G_00B118_WAVE_LIMIT : Z -> Z := field_G 16 21.
Definition S_00B11C_LIMIT : Z -> Z := field_S 0 5.
Definition G_00B11C_LIMIT : Z -> Z := field_G 0 5.
Definition C_00B12C_SCRATCH_EN : Z := field_C 0 0.
Definition S_00B204_CU_EN_GFX10 : Z -> Z := field_S 0 15.
Definition G_00B204_CU_EN_GFX10 : Z -> Z := field_G 0 15.
Definition S_00B204_SPI_SHADER_LATE_ALLOC_GS_GFX10 : Z -> Z := field_S 16 22.
Definition G_00B204_SPI_SHADER_LATE_ALLOC_GS_GFX10 : Z -> Z := field_G 16 22.
Definition S_00B21C_CU_EN : Z -> Z := field_S 0 15.
Definition G_00B21C_CU_EN : Z -> Z := field_G 0 15.
Definition S_00B21C_WAVE_LIMIT : Z -> Z := field_S 16 21.
Definition G_00B21C_WAVE_LIMIT : Z -> Z := field_G 16 21.
Definition G_00B228_SGPRS : Z -> Z := field_G 6 9.
Definition C_00B228_SGPRS : Z := field_C 6 9.
Definition G_00B428_LS_VGPR_COMP_CNT : Z -> Z := field_G 28 29.
Definition C_00B428_LS_VGPR_COMP_CNT : Z := field_C 28 29.
Definition G_00B848_VGPRS : Z -> Z := field_G 0 5.
Definition C_00B848_VGPRS : Z := field_C 0 5.
Definition S_0286C4_NO_PC_EXPORT : Z -> Z := field_S 7 7.
Definition G_0286C4_NO_PC_EXPORT : Z -> Z := field_G 7 7.
Definition S_0286C4_PRIM_EXPORT_COUNT : Z -> Z := field_S 8 12.
Definition G_0286C4_PRIM_EXPORT_COUNT : Z -> Z := field_G 8 12.
Definition S_0286C4_VS_EXPORT_COUNT : Z -> Z := field_S 1 5.
Definition G_0286C4_VS_EXPORT_COUNT : Z -> Z := field_G 1 5.
Definition S_0286D8_NUM_INTERP : Z -> Z := field_S 0 5.
Definition G_0286D8_NUM_INTERP : Z -> Z := field_G 0 5.
Definition S_0286D8_NUM_PRIM_INTERP : Z -> Z := field_S 9 13.
Definition G_0286D8_NUM_PRIM_INTERP : Z -> Z := field_G 9 13.
Definition S_0286D8_PARAM_GEN : Z -> Z := field_S 6 6.
Definition G_0286D8_PARAM_GEN : Z -> Z := field_G 6 6.
Definition S_0286D8_PS_W32_EN : Z -> Z := field_S 15 15.
Definition G_0286D8_PS_W32_EN : Z -> Z := field_G 15 15.
Definition S_0286E0_FRONT_FACE_ALL_BITS : Z -> Z := field_S 24 24.
Definition G_0286E0_FRONT_FACE_ALL_BITS : Z -> Z := field_G 24 24.
Definition S_028708_IDX0_EXPORT_FORMAT : Z -> Z := field_S 0 3.
Definition G_028708_IDX0_EXPORT_FORMAT : Z -> Z := field_G 0 3.
Definition S_02870C_POS0_EXPORT_FORMAT : Z -> Z := field_S 0 3.
Definition G_02870C_POS0_EXPORT_FORMAT : Z -> Z := field_G 0 3.
Definition S_02870C_POS1_EXPORT_FORMAT : Z -> Z := field_S 4 7.
Definition G_02870C_POS1_EXPORT_FORMAT : Z -> Z := field_G 4 7.
Definition S_02870C_POS2_EXPORT_FORMAT : Z -> Z := field_S 8 11.
Definition G_02870C_POS2_EXPORT_FORMAT : Z -> Z := field_G 8 11.
Definition S_02870C_POS3_EXPORT_FORMAT : Z -> Z := field_S 12 15.
Definition G_02870C_POS3_EXPORT_FORMAT : Z -> Z := field_G 12 15.
Definition S_0287FC_MAX_VERTS_PER_SUBGROUP : Z -> Z := field_S 0 9.
Definition G_0287FC_MAX_VERTS_PER_SUBGROUP : Z -> Z := field_G 0 9.
Definition S_02880C_CONSERVATIVE_Z_EXPORT : Z -> Z := field_S 13 14.
Definition G_02880C_CONSERVATIVE_Z_EXPORT : Z -> Z := field_G 13 14.
Definition S_02880C_DEPTH_BEFORE_SHADER : Z -> Z := field_S 12 12.
Definition G_02880C_DEPTH_BEFORE_SHADER : Z -> Z := field_G 12 12.
Definition S_02880C_EXEC_ON_HIER_FAIL : Z -> Z := field_S 9 9.
Definition G_02880C_EXEC_ON_HIER_FAIL : Z -> Z := field_G 9 9.
Definition S_02880C_EXEC_ON_NOOP : Z -> Z := field_S 10 10.
Definition G_02880C_EXEC_ON_NOOP : Z -> Z := field_G 10 10.
Definition S_02880C_KILL_ENABLE : Z -> Z := field_S 6 6.
Definition G_02880C_KILL_ENABLE : Z -> Z := field_G 6 6.
Definition S_02880C_MASK_EXPORT_ENABLE : Z -> Z := field_S 8 8.
Definition G_02880C_MASK_EXPORT_ENABLE : Z -> Z := field_G 8 8.
Definition S_02880C_PRE_SHADER_DEPTH_COVERAGE_ENABLE : Z -> Z := field_S 23 23.
Definition G_02880C_PRE_SHADER_DEPTH_COVERAGE_ENABLE : Z -> Z := field_G 23 23.
Definition S_02880C_PRIMITIVE_ORDERED_PIXEL_SHADER : Z -> Z := field_S 16 16.
Definition G_02880C_PRIMITIVE_ORDERED_PIXEL_SHADER : Z -> Z := field_G 16 16.
Definition S_02880C_STENCIL_TEST_VAL_EXPORT_ENABLE : Z -> Z := field_S 1 1.
Definition G_02880C_STENCIL_TEST_VAL_EXPORT_ENABLE : Z -> Z := field_G 1 1.
Definition S_02880C_Z_EXPORT_ENABLE : Z -> Z := field_S 0 0.
Definition G_02880C_Z_EXPORT_ENABLE : Z -> Z := field_G 0 0.
Definition S_02880C_Z_ORDER : Z -> Z := field_S 4 5.
Definition G_02880C_Z_ORDER : Z -> Z := field_G 4 5.
Definition S_02881C_USE_VTX_POINT_SIZE : Z -> Z := field_S 16 16.
Definition G_02881C_USE_VTX_POINT_SIZE : Z -> Z := field_G 16 16.
Definition S_02881C_USE_VTX_RENDER_TARGET_INDX : Z -> Z := field_S 18 18.
Definition G_02881C_USE_VTX_RENDER_TARGET_INDX : Z -> Z := field_G 18 18.
Definition S_02881C_USE_VTX_VIEWPORT_INDX : Z -> Z := field_S 19 19.
Definition G_02881C_USE_VTX_VIEWPORT_INDX : Z -> Z := field_G 19 19.
Definition S_02881C_USE_VTX_VRS_RATE : Z -> Z := field_S 28 28.
Definition G_02881C_USE_VTX_VRS_RATE : Z -> Z := field_G 28 28.
Definition S_02881C_VS_OUT_CCDIST0_VEC_ENA : Z -> Z := field_S 22 22.
Definition G_02881C_VS_OUT_CCDIST0_VEC_ENA : Z -> Z := field_G 22 22.
Definition S_02881C_VS_OUT_CCDIST1_VEC_ENA : Z -> Z := field_S 23 23.
Definition G_02881C_VS_OUT_CCDIST1_VEC_ENA : Z -> Z := field_G 23 23.
Definition S_02881C_VS_OUT_MISC_SIDE_BUS_ENA : Z -> Z := field_S 24 24.
Definition G_02881C_VS_OUT_MISC_SIDE_BUS_ENA : Z -> Z := field_G 24 24.
Definition S_02881C_VS_OUT_MISC_VEC_ENA : Z -> Z := field_S 21 21.
Definition G_02881C_VS_OUT_MISC_VEC_ENA : Z -> Z := field_G 21 21.
Definition S_028A44_ES_VERTS_PER_SUBGRP : Z -> Z := field_S 0 10.
Definition G_028A44_ES_VERTS_PER_SUBGRP : Z -> Z := field_G 0 10.
Definition S_028A44_GS_INST_PRIMS_IN_SUBGRP : Z -> Z := field_S 22 31.
Definition G_028A44_GS_INST_PRIMS_IN_SUBGRP : Z -> Z := field_G 22 31.
Definition S_028A44_GS_PRIMS_PER_SUBGRP : Z -> Z := field_S 11 21.
Definition G_028A44_GS_PRIMS_PER_SUBGRP : Z -> Z := field_G 11 21.
Definition S_028A6C_OUTPRIM_TYPE : Z -> Z := field_S 0 5.
Definition G_028A6C_OUTPRIM_TYPE : Z -> Z := field_G 0 5.
Definition S_028A84_NGG_DISABLE_PROVOK_REUSE : Z -> Z := field_S 2 2.
Definition G_028A84_NGG_DISABLE_PROVOK_REUSE : Z -> Z := field_G 2 2.
Definition S_028B4C_PRIM_AMP_FACTOR : Z -> Z := field_S 0 8.
Definition G_028B4C_PRIM_AMP_FACTOR : Z -> Z := field_G 0 8.
Definition S_028B4C_THDS_PER_SUBGRP : Z -> Z := field_S 9 17.
Definition G_028B4C_THDS_PER_SUBGRP : Z -> Z := field_G 9 17.
Definition S_028B54_DYNAMIC_HS : Z -> Z := field_S 8 8.
Definition G_028B54_DYNAMIC_HS : Z -> Z := field_G 8 8.
Definition S_028B54_ES_EN : Z -> Z := field_S 3 4.
Definition G_028B54_ES_EN : Z -> Z := field_G 3 4.
Definition S_028B54_GS_EN : Z -> Z := field_S 5 5.
Definition G_028B54_GS_EN : Z -> Z := field_G 5 5.
Definition S_028B54_GS_W32_EN : Z -> Z := field_S 22 22.
Definition G_028B54_GS_W32_EN : Z -> Z := field_G 22 22.
Definition S_028B54_HS_EN : Z -> Z := field_S 2 2.
Definition G_028B54_HS_EN : Z -> Z := field_G 2 2.
Definition S_028B54_LS_EN : Z -> Z := field_S 0 1.
Definition G_028B54_LS_EN : Z -> Z := field_G 0 1.
Definition S_028B54_MAX_PRIMGRP_IN_WAVE : Z -> Z := field_S 15 18.
Definition G_028B54_MAX_PRIMGRP_IN_WAVE : Z -> Z := field_G 15 18.
Definition S_028B54_NGG_WAVE_ID_EN : Z -> Z := field_S 24 24.
Definition G_028B54_NGG_WAVE_ID_EN : Z -> Z := field_G 24 24.
Definition S_028B54_PRIMGEN_EN : Z -> Z := field_S 13 13.
Definition G_028B54_PRIMGEN_EN : Z -> Z := field_G 13 13.
Definition S_028B54_PRIMGEN_PASSTHRU_EN : Z -> Z := field_S 25 25.
Definition G_028B54_PRIMGEN_PASSTHRU_EN : Z -> Z := field_G 25 25.
Definition S_028B54_VS_EN : Z -> Z := field_S 6 7.
Definition G_028B54_VS_EN : Z -> Z := field_G 6 7.
Definition S_028B54_VS_W32_EN : Z -> Z := field_S 23 23.
Definition G_028B54_VS_W32_EN : Z -> Z := field_G 23 23.
Definition S_028B6C_PARTITIONING : Z -> Z := field_S 2 4.
Definition G_028B6C_PARTITIONING : Z -> Z := field_G 2 4.
Definition S_028B6C_TOPOLOGY : Z -> Z := field_S 5 7.
Definition G_028B6C_TOPOLOGY : Z -> Z := field_G 5 7.
Definition S_028B6C_TYPE : Z -> Z := field_S 0 1.
Definition G_028B6C_TYPE : Z -> Z := field_G 0 1.
Definition S_028B90_CNT : Z -> Z := field_S 2 8.
Definition G_028B90_CNT : Z -> Z := field_G 2 8.
Definition S_028B90_ENABLE : Z -> Z := field_S 0 0.
Definition G_028B90_ENABLE : Z -> Z := field_G 0 0.
Definition S_028B90_EN_MAX_VERT_OUT_PER_GS_INSTANCE : Z -> Z := field_S 31 31.
Definition G_028B90_EN_MAX_VERT_OUT_PER_GS_INSTANCE : Z -> Z := field_G 31 31.
Definition S_03096C_PRIM_GRP_SIZE_GFX10 : Z -> Z := field_S 0 8.
Definition G_03096C_PRIM_GRP_SIZE_GFX10 : Z -> Z := field_G 0 8.
Definition S_03096C_VERT_GRP_SIZE : Z -> Z := field_S 9 17.
Definition G_03096C_VERT_GRP_SIZE : Z -> Z := field_G 9 17.
Definition S_030980_NUM_PC_LINES : Z -> Z := field_S 1 10.
Definition G_030980_NUM_PC_LINES : Z -> Z := field_G 1 10.
Definition S_030980_OVERSUB_EN : Z -> Z := field_S 0 0.
Definition G_030980_OVERSUB_EN : Z -> Z := field_G 0 0.

(** ** Reading back what was written *)

Lemma testbit_field_S lo hi x i :
  0 <= lo <= hi -> 0 <= i ->
  Z.testbit (field_S lo hi x) i = (lo <=? i) && (i <=? hi) && Z.testbit x (i - lo).
Proof.
  intros ? ?. unfold field_S, field_mask. rewrite testbit_shiftl by done.
  destruct (Z.leb_spec lo i); simpl.
  - rewrite Z.land_spec, Z.testbit_ones_nonneg by lia.
    destruct (Z.leb_spec i hi), (Z.ltb_spec (i - lo) (hi - lo + 1)); try lia;
      by rewrite ?andb_true_r, ?andb_false_r.
  - by rewrite Z.testbit_neg_r by lia.
Qed.

Lemma testbit_field_G lo hi r i :
  0 <= lo <= hi -> 0 <= i ->
  Z.testbit (field_G lo hi r) i = (i <=? hi - lo) && Z.testbit r (i + lo).
Proof.
  intros ? ?. unfold field_G, field_mask.
  rewrite Z.land_spec, Z.shiftr_spec, Z.testbit_ones_nonneg by lia.
  destruct (Z.leb_spec i (hi - lo)), (Z.ltb_spec i (hi - lo + 1)); try lia;
    by rewrite ?andb_true_r, ?andb_false_r.
Qed.

#[export] Hint Rewrite testbit_field_S testbit_field_G using lia : bits.

Lemma field_S_width lo hi x :
  0 <= lo <= hi -> hi < 32 -> in_width 32 (field_S lo hi x).
Proof.
  intros. apply in_width_bits; [done| |].
  - unfold field_S. apply Z.shiftl_nonneg, Z.land_nonneg. right.
    unfold field_mask. rewrite Z.ones_equiv. pose proof (pow2_pos (hi - lo + 1)). lia.
  - intros i ?. rewrite testbit_field_S by lia. bcases.
Qed.
#[export] Hint Extern 1 (in_width 32 (field_S _ _ _)) => (apply field_S_width; lia) : widths.

(** A field reads back the low bits of the value placed in it, ... *)
Lemma field_G_S lo hi x : 0 <= lo <= hi -> field_G lo hi (field_S lo hi x) = wrap (hi - lo + 1) x.
Proof.
  intros. bitwise.
  replace (i + lo - lo) with i by lia. bcases.
Qed.

(** ... a disjoint field reads zero, ... *)
Lemma field_G_S_disjoint lo hi lo' hi' x :
  0 <= lo <= hi -> 0 <= lo' <= hi' -> hi < lo' \/ hi' < lo ->
  field_G lo hi (field_S lo' hi' x) = 0.
Proof.
  intros. bitwise. bcases.
Qed.

(** ... and a read distributes over the union of fields. *)
Lemma field_G_lor lo hi x y :
  0 <= lo <= hi -> field_G lo hi (x `lor` y) = field_G lo hi x `lor` field_G lo hi y.
Proof. intros. bitwise. by rewrite andb_orb_distrib_r. Qed.

(** A value that fits a field is placed there by a plain shift. *)
Lemma field_S_shiftl lo hi x :
  0 <= lo <= hi -> in_width (hi - lo + 1) x -> x ≪ lo = field_S lo hi x.
Proof.
  intros ? Hx. unfold field_S, field_mask. rewrite Z.land_ones by lia.
  by rewrite Z.mod_small.
Qed.

Lemma wrap_b2z w b : 0 < w -> wrap w (b2z b) = b2z b.
Proof.
  intros. apply wrap_id. destruct b; (split; [done|]); simpl b2z; [|by apply pow2_pos; lia].
  change 1 with (2 ^ 0) at 1. apply Z.pow_lt_mono_r; lia.
Qed.

(** [decode_fields] evaluates reads of a register word written as a union of
    fields. *)
Ltac decode_fields :=
  rewrite ?field_G_lor by lia;
  repeat first [rewrite field_G_S by lia | rewrite field_G_S_disjoint by lia];
  rewrite ?Z.lor_0_l, ?Z.lor_0_r.
