(* ===== verification/Mesa.v ===== *)
(** * Data shared with Mesa (src/amd, src/compiler, src/util)

    libpsbc drives Mesa's RADV and ACO code and reads the structures they fill.
    This file holds the parts of those structures that libpsbc reads or writes,
    field by field, and the helper macros it uses on them.  Field names carry a
    prefix per structure: [oi_] radv_vs_output_info, [so_] radv_streamout_info,
    [ngg_] gfx10_ngg_info, [vs_], [gs_], [tes_], [ps_], [tcs_] the per-stage parts
    of radv_shader_info, [ri_] radv_shader_info itself, [ud_]/[ul_] the user-data
    locations, [aa_] ac_shader_args, [ra_] radv_shader_args, [cfg_]
    ac_shader_config, [fact_] radeon_info. *)

From S2P Require Import Prelude.

(** ** Enumerations *)

(** Shader stages (compiler/shader_enums.h). *)
Inductive mesa_shader_stage : Type :=
| MESA_SHADER_NONE
| MESA_SHADER_VERTEX
| MESA_SHADER_TESS_CTRL
| MESA_SHADER_TESS_EVAL
| MESA_SHADER_GEOMETRY
| MESA_SHADER_FRAGMENT
| MESA_SHADER_COMPUTE
| MESA_SHADER_TASK
| MESA_SHADER_MESH
| MESA_SHADER_RAYGEN
| MESA_SHADER_ANY_HIT
| MESA_SHADER_CLOSEST_HIT
| MESA_SHADER_MISS
| MESA_SHADER_INTERSECTION
| MESA_SHADER_CALLABLE
| MESA_SHADER_KERNEL.

#[export] Instance mesa_shader_stage_eq_dec : EqDecision mesa_shader_stage.
Proof. solve_decision. Defined.

Definition mesa_shader_stage_val (x : mesa_shader_stage) : Z :=
  match x with
  | MESA_SHADER_NONE => -1
  | MESA_SHADER_VERTEX => 0
  | MESA_SHADER_TESS_CTRL => 1
  | MESA_SHADER_TESS_EVAL => 2
  | MESA_SHADER_GEOMETRY => 3
  | MESA_SHADER_FRAGMENT => 4
  | MESA_SHADER_COMPUTE => 5
  | MESA_SHADER_TASK => 6
  | MESA_SHADER_MESH => 7
  | MESA_SHADER_RAYGEN => 8
  | MESA_SHADER_ANY_HIT => 9
  | MESA_SHADER_CLOSEST_HIT => 10
  | MESA_SHADER_MISS => 11
  | MESA_SHADER_INTERSECTION => 12
  | MESA_SHADER_CALLABLE => 13
  | MESA_SHADER_KERNEL => 14
  end.

(** Hardware generations, in the order the code compares them. *)
Inductive amd_gfx_level : Type :=
| CLASS_UNKNOWN
| R300
| R400
| R500
| R600
| R700
| EVERGREEN
| CAYMAN
| GFX6
| GFX7
| GFX8
| GFX9
| GFX10
| GFX10_3
| GFX11
| GFX11_5
| GFX11_7
| GFX12
| GFX12_1.

#[export] Instance amd_gfx_level_eq_dec : EqDecision amd_gfx_level.
Proof. solve_decision. Defined.

Definition amd_gfx_level_val (x : amd_gfx_level) : Z :=
  match x with
  | CLASS_UNKNOWN => 0
  | R300 => 1
  | R400 => 2
  | R500 => 3
  | R600 => 4
  | R700 => 5
  | EVERGREEN => 6
  | CAYMAN => 7
  | GFX6 => 8
  | GFX7 => 9
  | GFX8 => 10
  | GFX9 => 11
  | GFX10 => 12
  | GFX10_3 => 13
  | GFX11 => 14
  | GFX11_5 => 15
  | GFX11_7 => 16
  | GFX12 => 17
  | GFX12_1 => 18
  end.

(** Chips. *)
Inductive radeon_family : Type :=
| CHIP_UNKNOWN
| CHIP_R300
| CHIP_R350
| CHIP_RV350
| CHIP_RV370
| CHIP_RV380
| CHIP_RS400
| CHIP_RC410
| CHIP_RS480
| CHIP_R420
| CHIP_R423
| CHIP_R430
| CHIP_R480
| CHIP_R481
| CHIP_RV410
| CHIP_RS600
| CHIP_RS690
| CHIP_RS740
| CHIP_RV515
| CHIP_R520
| CHIP_RV530
| CHIP_R580
| CHIP_RV560
| CHIP_RV570
| CHIP_R600
| CHIP_RV610
| CHIP_RV630
| CHIP_RV670
| CHIP_RV620
| CHIP_RV635
| CHIP_RS780
| CHIP_RS880
| CHIP_RV770
| CHIP_RV730
| CHIP_RV710
| CHIP_RV740
| CHIP_CEDAR
| CHIP_REDWOOD
| CHIP_JUNIPER
| CHIP_CYPRESS
| CHIP_HEMLOCK
| CHIP_PALM
| CHIP_SUMO
| CHIP_SUMO2
| CHIP_BARTS
| CHIP_TURKS
| CHIP_CAICOS
| CHIP_CAYMAN
| CHIP_ARUBA
| CHIP_TAHITI
| CHIP_PITCAIRN
| CHIP_VERDE
| CHIP_OLAND
| CHIP_HAINAN
| CHIP_BONAIRE
| CHIP_KAVERI
| CHIP_KABINI
| CHIP_HAWAII
| CHIP_TONGA
| CHIP_ICELAND
| CHIP_CARRIZO
| CHIP_FIJI
| CHIP_STONEY
| CHIP_POLARIS10
| CHIP_POLARIS11
| CHIP_POLARIS12
| CHIP_VEGAM
| CHIP_VEGA10
| CHIP_VEGA12
| CHIP_VEGA20
| CHIP_RAVEN
| CHIP_RAVEN2
| CHIP_RENOIR
| CHIP_MI100
| CHIP_MI200
| CHIP_GFX940
| CHIP_NAVI10
| CHIP_NAVI12
| CHIP_NAVI14
| CHIP_GFX1013
| CHIP_NAVI21
| CHIP_NAVI22
| CHIP_VANGOGH
| CHIP_NAVI23
| CHIP_NAVI24
| CHIP_REMBRANDT
| CHIP_RAPHAEL_MENDOCINO
| CHIP_NAVI31
| CHIP_NAVI32
| CHIP_NAVI33
| CHIP_PHOENIX
| CHIP_PHOENIX2
| CHIP_STRIX1
| CHIP_STRIX_HALO
| CHIP_KRACKAN1
| CHIP_GFX1153
| CHIP_GFX1156
| CHIP_GFX1170
| CHIP_GFX1200
| CHIP_GFX1201
| CHIP_GFX1210
| CHIP_LAST.

Definition radeon_family_val (x : radeon_family) : Z :=
  match x with
  | CHIP_UNKNOWN => 0
  | CHIP_R300 => 1
  | CHIP_R350 => 2
  | CHIP_RV350 => 3
  | CHIP_RV370 => 4
  | CHIP_RV380 => 5
  | CHIP_RS400 => 6
  | CHIP_RC410 => 7
  | CHIP_RS480 => 8
  | CHIP_R420 => 9
  | CHIP_R423 => 10
  | CHIP_R430 => 11
  | CHIP_R480 => 12
  | CHIP_R481 => 13
  | CHIP_RV410 => 14
  | CHIP_RS600 => 15
  | CHIP_RS690 => 16
  | CHIP_RS740 => 17
  | CHIP_RV515 => 18
  | CHIP_R520 => 19
  | CHIP_RV530 => 20
  | CHIP_R580 => 21
  | CHIP_RV560 => 22
  | CHIP_RV570 => 23
  | CHIP_R600 => 24
  | CHIP_RV610 => 25
  | CHIP_RV630 => 26
  | CHIP_RV670 => 27
  | CHIP_RV620 => 28
  | CHIP_RV635 => 29
  | CHIP_RS780 => 30
  | CHIP_RS880 => 31
  | CHIP_RV770 => 32
  | CHIP_RV730 => 33
  | CHIP_RV710 => 34
  | CHIP_RV740 => 35
  | CHIP_CEDAR => 36
  | CHIP_REDWOOD => 37
  | CHIP_JUNIPER => 38
  | CHIP_CYPRESS => 39
  | CHIP_HEMLOCK => 40
  | CHIP_PALM => 41
  | CHIP_SUMO => 42
  | CHIP_SUMO2 => 43
  | CHIP_BARTS => 44
  | CHIP_TURKS => 45
  | CHIP_CAICOS => 46
  | CHIP_CAYMAN => 47
  | CHIP_ARUBA => 48
  | CHIP_TAHITI => 49
  | CHIP_PITCAIRN => 50
  | CHIP_VERDE => 51
  | CHIP_OLAND => 52
  | CHIP_HAINAN => 53
  | CHIP_BONAIRE => 54
  | CHIP_KAVERI => 55
  | CHIP_KABINI => 56
  | CHIP_HAWAII => 57
  | CHIP_TONGA => 58
  | CHIP_ICELAND => 59
  | CHIP_CARRIZO => 60
  | CHIP_FIJI => 61
  | CHIP_STONEY => 62
  | CHIP_POLARIS10 => 63
  | CHIP_POLARIS11 => 64
  | CHIP_POLARIS12 => 65
  | CHIP_VEGAM => 66
  | CHIP_VEGA10 => 67
  | CHIP_VEGA12 => 68
  | CHIP_VEGA20 => 69
  | CHIP_RAVEN => 70
  | CHIP_RAVEN2 => 71
  | CHIP_RENOIR => 72
  | CHIP_MI100 => 73
  | CHIP_MI200 => 74
  | CHIP_GFX940 => 75
  | CHIP_NAVI10 => 76
  | CHIP_NAVI12 => 77
  | CHIP_NAVI14 => 78
  | CHIP_GFX1013 => 79
  | CHIP_NAVI21 => 80
  | CHIP_NAVI22 => 81
  | CHIP_VANGOGH => 82
  | CHIP_NAVI23 => 83
  | CHIP_NAVI24 => 84
  | CHIP_REMBRANDT => 85
  | CHIP_RAPHAEL_MENDOCINO => 86
  | CHIP_NAVI31 => 87
  | CHIP_NAVI32 => 88
  | CHIP_NAVI33 => 89
  | CHIP_PHOENIX => 90
  | CHIP_PHOENIX2 => 91
  | CHIP_STRIX1 => 92
  | CHIP_STRIX_HALO => 93
  | CHIP_KRACKAN1 => 94
  | CHIP_GFX1153 => 95
  | CHIP_GFX1156 => 96
  | CHIP_GFX1170 => 97
  | CHIP_GFX1200 => 98
  | CHIP_GFX1201 => 99
  | CHIP_GFX1210 => 100
  | CHIP_LAST => 101
  end.

(** [a >= b], [a < b] and [a == b] on generations. *)
Definition gfx_ge (a b : amd_gfx_level) : bool := amd_gfx_level_val b <=? amd_gfx_level_val a.
Definition gfx_lt (a b : amd_gfx_level) : bool := amd_gfx_level_val a <? amd_gfx_level_val b.
Definition gfx_eqb (a b : amd_gfx_level) : bool := amd_gfx_level_val a =? amd_gfx_level_val b.
Definition stage_eqb (a b : mesa_shader_stage) : bool :=
  mesa_shader_stage_val a =? mesa_shader_stage_val b.

Lemma stage_eqb_eq a b : stage_eqb a b = true <-> a = b.
Proof.
  unfold stage_eqb. rewrite Z.eqb_eq. split; [|congruence].
  destruct a, b; simpl; first [done|discriminate].
Qed.

Lemma stage_eqb_refl a : stage_eqb a a = true.
Proof. by apply stage_eqb_eq. Qed.

(** Varying slots (enum gl_varying_slot). *)
Definition VARYING_SLOT_POS : Z := 0.
Definition VARYING_SLOT_PSIZ : Z := 12.
Definition VARYING_SLOT_CLIP_DIST0 : Z := 17.
Definition VARYING_SLOT_CLIP_DIST1 : Z := 18.
Definition VARYING_SLOT_CULL_DIST0 : Z := 19.
Definition VARYING_SLOT_CULL_DIST1 : Z := 20.
Definition VARYING_SLOT_PRIMITIVE_ID : Z := 21.
Definition VARYING_SLOT_LAYER : Z := 22.
Definition VARYING_SLOT_VIEWPORT : Z := 23.
Definition VARYING_SLOT_TESS_LEVEL_OUTER : Z := 26.
Definition VARYING_SLOT_TESS_LEVEL_INNER : Z := 27.
Definition VARYING_SLOT_VAR0 : Z := 32.

(** Tessellation domains and spacings, kept as the integers that
    prepare_stage_nir combines with [|=]. *)
Definition TESS_PRIMITIVE_UNSPECIFIED : Z := 0.
Definition TESS_PRIMITIVE_TRIANGLES : Z := 1.
Definition TESS_PRIMITIVE_QUADS : Z := 2.
Definition TESS_PRIMITIVE_ISOLINES : Z := 3.
Definition TESS_SPACING_UNSPECIFIED : Z := 0.
Definition TESS_SPACING_EQUAL : Z := 1.
Definition TESS_SPACING_FRACTIONAL_ODD : Z := 2.
Definition TESS_SPACING_FRACTIONAL_EVEN : Z := 3.

(** Fragment depth layouts. *)
Definition FRAG_DEPTH_LAYOUT_NONE : Z := 0.
Definition FRAG_DEPTH_LAYOUT_ANY : Z := 1.
Definition FRAG_DEPTH_LAYOUT_GREATER : Z := 2.
Definition FRAG_DEPTH_LAYOUT_LESS : Z := 3.
Definition FRAG_DEPTH_LAYOUT_UNCHANGED : Z := 4.

(** Primitive kinds (enum mesa_prim). *)
Definition MESA_PRIM_POINTS : Z := 0.
Definition MESA_PRIM_LINE_STRIP : Z := 3.
Definition MESA_PRIM_TRIANGLE_STRIP : Z := 5.

(** User-data location indices (enum radv_ud_index). *)
Definition AC_UD_SCRATCH_RING_OFFSETS : Z := 0.
Definition AC_UD_PUSH_CONSTANTS : Z := 1.
Definition AC_UD_INLINE_PUSH_CONSTANTS : Z := 2.
Definition AC_UD_VIEW_INDEX : Z := 4.
Definition AC_UD_STREAMOUT_BUFFERS : Z := 5.
Definition AC_UD_NGG_LDS_LAYOUT : Z := 10.
Definition AC_UD_NGG_STATE : Z := 11.
Definition AC_UD_TASK_RING_ENTRY : Z := 15.
Definition AC_UD_PS5_RING_TABLE : Z := AC_UD_TASK_RING_ENTRY.
Definition AC_UD_SHADER_START : Z := 20.
Definition AC_UD_VS_VERTEX_BUFFERS : Z := AC_UD_SHADER_START.
Definition AC_UD_VS_BASE_VERTEX_START_INSTANCE : Z := 21.
Definition AC_UD_MAX_UD : Z := 28.

(** Marker of a varying without a parameter export (ac_nir.h). *)
Definition AC_EXP_PARAM_UNDEFINED : Z := 255.

(** ** Bit-field macros (util/macros.h) and population count (util/bitscan.h) *)

Definition BITFIELD_BIT (b : Z) : Z := u32 (1 ≪ b).
Definition BITFIELD_MASK (b : Z) : Z :=
  if b =? 32 then UINT32_MAX else BITFIELD_BIT (b `land` 31) - 1.
Definition BITFIELD_RANGE (b count : Z) : Z :=
  BITFIELD_MASK (b + count) `land` not32 (BITFIELD_MASK b).

Definition util_bitcount (n : Z) : Z :=
  foldl (fun acc i => acc + b2z (Z.testbit n i)) 0 (seqZ 0 32).
Definition util_bitcount64 (n : Z) : Z :=
  foldl (fun acc i => acc + b2z (Z.testbit n i)) 0 (seqZ 0 64).

(** ** Structures *)

(** Exports of a pre-raster stage. *)
Record radv_vs_output_info : Type := mk_radv_vs_output_info {
  oi_vs_output_param_offset : list Z;
  oi_clip_dist_mask : Z;
  oi_cull_dist_mask : Z;
  oi_param_exports : Z;
  oi_prim_param_exports : Z;
  oi_writes_pointsize : bool;
  oi_writes_layer : bool;
  oi_writes_layer_per_primitive : bool;
  oi_writes_viewport_index : bool;
  oi_writes_viewport_index_per_primitive : bool;
  oi_writes_primitive_shading_rate : bool;
  oi_writes_primitive_shading_rate_per_primitive : bool;
  oi_export_prim_id : bool;
  oi_export_prim_id_per_primitive : bool
}.

#[export] Instance eta_radv_vs_output_info : Eta radv_vs_output_info := fun r =>
  mk_radv_vs_output_info r.(oi_vs_output_param_offset) r.(oi_clip_dist_mask) r.(oi_cull_dist_mask)
    r.(oi_param_exports) r.(oi_prim_param_exports) r.(oi_writes_pointsize)
    r.(oi_writes_layer) r.(oi_writes_layer_per_primitive)
    r.(oi_writes_viewport_index) r.(oi_writes_viewport_index_per_primitive)
    r.(oi_writes_primitive_shading_rate)
    r.(oi_writes_primitive_shading_rate_per_primitive) r.(oi_export_prim_id)
    r.(oi_export_prim_id_per_primitive).

Definition zero_radv_vs_output_info : radv_vs_output_info := {|
  oi_vs_output_param_offset := replicate 64 0;
  oi_clip_dist_mask := 0;
  oi_cull_dist_mask := 0;
  oi_param_exports := 0;
  oi_prim_param_exports := 0;
  oi_writes_pointsize := false;
  oi_writes_layer := false;
  oi_writes_layer_per_primitive := false;
  oi_writes_viewport_index := false;
  oi_writes_viewport_index_per_primitive := false;
  oi_writes_primitive_shading_rate := false;
  oi_writes_primitive_shading_rate_per_primitive := false;
  oi_export_prim_id := false;
  oi_export_prim_id_per_primitive := false
|}.

(** Transform-feedback buffers. *)
Record radv_streamout_info : Type := mk_radv_streamout_info {
  so_strides : list Z;
  so_enabled_stream_buffers_mask : Z
}.

#[export] Instance eta_radv_streamout_info : Eta radv_streamout_info := fun r =>
  mk_radv_streamout_info r.(so_strides) r.(so_enabled_stream_buffers_mask).

Definition zero_radv_streamout_info : radv_streamout_info := {|
  so_strides := replicate 4 0;
  so_enabled_stream_buffers_mask := 0
|}.

(** Subgroup limits of an NGG program. *)
Record gfx10_ngg_info : Type := mk_gfx10_ngg_info {
  ngg_ngg_emit_size : Z;
  ngg_hw_max_esverts : Z;
  ngg_max_gsprims : Z;
  ngg_max_out_verts : Z;
  ngg_prim_amp_factor : Z;
  ngg_vgt_esgs_ring_itemsize : Z;
  ngg_esgs_ring_size : Z;
  ngg_lds_size : Z;
  ngg_max_vert_out_per_gs_instance : bool
}.

#[export] Instance eta_gfx10_ngg_info : Eta gfx10_ngg_info := fun r =>
  mk_gfx10_ngg_info r.(ngg_ngg_emit_size) r.(ngg_hw_max_esverts) r.(ngg_max_gsprims)
    r.(ngg_max_out_verts) r.(ngg_prim_amp_factor) r.(ngg_vgt_esgs_ring_itemsize)
    r.(ngg_esgs_ring_size) r.(ngg_lds_size) r.(ngg_max_vert_out_per_gs_instance).

Definition zero_gfx10_ngg_info : gfx10_ngg_info := {|
  ngg_ngg_emit_size := 0;
  ngg_hw_max_esverts := 0;
  ngg_max_gsprims := 0;
  ngg_max_out_verts := 0;
  ngg_prim_amp_factor := 0;
  ngg_vgt_esgs_ring_itemsize := 0;
  ngg_esgs_ring_size := 0;
  ngg_lds_size := 0;
  ngg_max_vert_out_per_gs_instance := false
|}.

(** Vertex part of radv_shader_info. *)
Record radv_shader_info_vs : Type := mk_radv_shader_info_vs {
  vs_tcs_inputs_via_temp : Z;
  vs_tcs_inputs_via_lds : Z;
  vs_vb_desc_usage_mask : Z;
  vs_input_slot_usage_mask : Z;
  vs_num_linked_outputs : Z;
  vs_num_attributes : Z;
  vs_needs_draw_id : bool;
  vs_needs_instance_id : bool;
  vs_as_es : bool;
  vs_as_ls : bool;
  vs_tcs_in_out_eq : bool;
  vs_needs_base_instance : bool;
  vs_use_per_attribute_vb_descs : bool;
  vs_has_prolog : bool;
  vs_dynamic_inputs : bool;
  vs_dynamic_num_verts_per_prim : bool
}.

#[export] Instance eta_radv_shader_info_vs : Eta radv_shader_info_vs := fun r =>
  mk_radv_shader_info_vs r.(vs_tcs_inputs_via_temp) r.(vs_tcs_inputs_via_lds) r.(vs_vb_desc_usage_mask)
    r.(vs_input_slot_usage_mask) r.(vs_num_linked_outputs) r.(vs_num_attributes)
    r.(vs_needs_draw_id) r.(vs_needs_instance_id) r.(vs_as_es) r.(vs_as_ls)
    r.(vs_tcs_in_out_eq) r.(vs_needs_base_instance)
    r.(vs_use_per_attribute_vb_descs) r.(vs_has_prolog) r.(vs_dynamic_inputs)
    r.(vs_dynamic_num_verts_per_prim).

Definition zero_radv_shader_info_vs : radv_shader_info_vs := {|
  vs_tcs_inputs_via_temp := 0;
  vs_tcs_inputs_via_lds := 0;
  vs_vb_desc_usage_mask := 0;
  vs_input_slot_usage_mask := 0;
  vs_num_linked_outputs := 0;
  vs_num_attributes := 0;
  vs_needs_draw_id := false;
  vs_needs_instance_id := false;
  vs_as_es := false;
  vs_as_ls := false;
  vs_tcs_in_out_eq := false;
  vs_needs_base_instance := false;
  vs_use_per_attribute_vb_descs := false;
  vs_has_prolog := false;
  vs_dynamic_inputs := false;
  vs_dynamic_num_verts_per_prim := false
|}.

(** Geometry part. *)
Record radv_shader_info_gs : Type := mk_radv_shader_info_gs {
  gs_num_components_per_stream : list Z;
  gs_vertices_in : Z;
  gs_vertices_out : Z;
  gs_input_prim : Z;
  gs_output_prim : Z;
  gs_invocations : Z;
  gs_es_type : Z;
  gs_num_linked_inputs : Z;
  gs_has_pipeline_stat_query : bool
}.

#[export] Instance eta_radv_shader_info_gs : Eta radv_shader_info_gs := fun r =>
  mk_radv_shader_info_gs r.(gs_num_components_per_stream) r.(gs_vertices_in) r.(gs_vertices_out)
    r.(gs_input_prim) r.(gs_output_prim) r.(gs_invocations) r.(gs_es_type)
    r.(gs_num_linked_inputs) r.(gs_has_pipeline_stat_query).

Definition zero_radv_shader_info_gs : radv_shader_info_gs := {|
  gs_num_components_per_stream := replicate 4 0;
  gs_vertices_in := 0;
  gs_vertices_out := 0;
  gs_input_prim := 0;
  gs_output_prim := 0;
  gs_invocations := 0;
  gs_es_type := 0;
  gs_num_linked_inputs := 0;
  gs_has_pipeline_stat_query := false
|}.

(** Evaluation part. *)
Record radv_shader_info_tes : Type := mk_radv_shader_info_tes {
  tes_tcs_vertices_out : Z;
  tes_num_linked_inputs : Z;
  tes_num_linked_patch_inputs : Z;
  tes_num_linked_outputs : Z;
  tes__primitive_mode : Z;
  tes_spacing : Z;
  tes_as_es : bool;
  tes_ccw : bool;
  tes_point_mode : bool;
  tes_reads_tess_factors : bool
}.

#[export] Instance eta_radv_shader_info_tes : Eta radv_shader_info_tes := fun r =>
  mk_radv_shader_info_tes r.(tes_tcs_vertices_out) r.(tes_num_linked_inputs) r.(tes_num_linked_patch_inputs)
    r.(tes_num_linked_outputs) r.(tes__primitive_mode) r.(tes_spacing) r.(tes_as_es)
    r.(tes_ccw) r.(tes_point_mode) r.(tes_reads_tess_factors).

Definition zero_radv_shader_info_tes : radv_shader_info_tes := {|
  tes_tcs_vertices_out := 0;
  tes_num_linked_inputs := 0;
  tes_num_linked_patch_inputs := 0;
  tes_num_linked_outputs := 0;
  tes__primitive_mode := 0;
  tes_spacing := 0;
  tes_as_es := false;
  tes_ccw := false;
  tes_point_mode := false;
  tes_reads_tess_factors := false
|}.

(** Fragment part. *)
Record radv_shader_info_ps : Type := mk_radv_shader_info_ps {
  ps_input_mask : Z;
  ps_input_per_primitive_mask : Z;
  ps_float32_shaded_mask : Z;
  ps_explicit_shaded_mask : Z;
  ps_explicit_strict_shaded_mask : Z;
  ps_float16_shaded_mask : Z;
  ps_float16_hi_shaded_mask : Z;
  ps_num_inputs : Z;
  ps_input_clips_culls_mask : Z;
  ps_uses_sample_shading : bool;
  ps_needs_sample_positions : bool;
  ps_needs_poly_line_smooth : bool;
  ps_writes_memory : bool;
  ps_writes_z : bool;
  ps_writes_stencil : bool;
  ps_writes_sample_mask : bool;
  ps_writes_mrt0_alpha : bool;
  ps_mrt0_is_dual_src : bool;
  ps_exports_mrtz_via_epilog : bool;
  ps_has_pcoord : bool;
  ps_prim_id_input : bool;
  ps_viewport_index_input : bool;
  ps_can_discard : bool;
  ps_early_fragment_test : bool;
  ps_post_depth_coverage : bool;
  ps_reads_frag_coord_mask : Z;
  ps_depth_layout : Z;
  ps_reads_sample_mask_in : bool;
  ps_reads_front_face : bool;
  ps_reads_sample_id : bool;
  ps_reads_frag_shading_rate : bool;
  ps_reads_barycentric_model : bool;
  ps_reads_persp_sample : bool;
  ps_reads_persp_center : bool;
  ps_reads_persp_centroid : bool;
  ps_reads_linear_sample : bool;
  ps_reads_linear_center : bool;
  ps_reads_linear_centroid : bool;
  ps_reads_fully_covered : bool;
  ps_reads_pixel_coord : bool;
  ps_reads_layer : bool;
  ps_pops : bool;
  ps_pops_is_per_sample : bool;
  ps_spi_ps_input_ena : Z;
  ps_spi_ps_input_addr : Z;
  ps_colors_written : Z;
  ps_spi_shader_col_format : Z;
  ps_cb_shader_mask : Z;
  ps_color0_written : Z;
  ps_load_provoking_vtx : bool;
  ps_load_rasterization_prim : bool;
  ps_force_sample_iter_shading_rate : bool;
  ps_allow_flat_shading : bool;
  ps_selects_frag_coord_xy_dynamically : bool;
  ps_selects_quad_pos_dynamically : bool;
  ps_selects_sample_mask_in_dynamically : bool;
  ps_has_epilog : bool
}.

#[export] Instance eta_radv_shader_info_ps : Eta radv_shader_info_ps := fun r =>
  mk_radv_shader_info_ps r.(ps_input_mask) r.(ps_input_per_primitive_mask) r.(ps_float32_shaded_mask)
    r.(ps_explicit_shaded_mask) r.(ps_explicit_strict_shaded_mask)
    r.(ps_float16_shaded_mask) r.(ps_float16_hi_shaded_mask) r.(ps_num_inputs)
    r.(ps_input_clips_culls_mask) r.(ps_uses_sample_shading)
    r.(ps_needs_sample_positions) r.(ps_needs_poly_line_smooth) r.(ps_writes_memory)
    r.(ps_writes_z) r.(ps_writes_stencil) r.(ps_writes_sample_mask)
    r.(ps_writes_mrt0_alpha) r.(ps_mrt0_is_dual_src) r.(ps_exports_mrtz_via_epilog)
    r.(ps_has_pcoord) r.(ps_prim_id_input) r.(ps_viewport_index_input)
    r.(ps_can_discard) r.(ps_early_fragment_test) r.(ps_post_depth_coverage)
    r.(ps_reads_frag_coord_mask) r.(ps_depth_layout) r.(ps_reads_sample_mask_in)
    r.(ps_reads_front_face) r.(ps_reads_sample_id) r.(ps_reads_frag_shading_rate)
    r.(ps_reads_barycentric_model) r.(ps_reads_persp_sample)
    r.(ps_reads_persp_center) r.(ps_reads_persp_centroid) r.(ps_reads_linear_sample)
    r.(ps_reads_linear_center) r.(ps_reads_linear_centroid)
    r.(ps_reads_fully_covered) r.(ps_reads_pixel_coord) r.(ps_reads_layer)
    r.(ps_pops) r.(ps_pops_is_per_sample) r.(ps_spi_ps_input_ena)
    r.(ps_spi_ps_input_addr) r.(ps_colors_written) r.(ps_spi_shader_col_format)
    r.(ps_cb_shader_mask) r.(ps_color0_written) r.(ps_load_provoking_vtx)
    r.(ps_load_rasterization_prim) r.(ps_force_sample_iter_shading_rate)
    r.(ps_allow_flat_shading) r.(ps_selects_frag_coord_xy_dynamically)
    r.(ps_selects_quad_pos_dynamically) r.(ps_selects_sample_mask_in_dynamically)
    r.(ps_has_epilog).

Definition zero_radv_shader_info_ps : radv_shader_info_ps := {|
  ps_input_mask := 0;
  ps_input_per_primitive_mask := 0;
  ps_float32_shaded_mask := 0;
  ps_explicit_shaded_mask := 0;
  ps_explicit_strict_shaded_mask := 0;
  ps_float16_shaded_mask := 0;
  ps_float16_hi_shaded_mask := 0;
  ps_num_inputs := 0;
  ps_input_clips_culls_mask := 0;
  ps_uses_sample_shading := false;
  ps_needs_sample_positions := false;
  ps_needs_poly_line_smooth := false;
  ps_writes_memory := false;
  ps_writes_z := false;
  ps_writes_stencil := false;
  ps_writes_sample_mask := false;
  ps_writes_mrt0_alpha := false;
  ps_mrt0_is_dual_src := false;
  ps_exports_mrtz_via_epilog := false;
  ps_has_pcoord := false;
  ps_prim_id_input := false;
  ps_viewport_index_input := false;
  ps_can_discard := false;
  ps_early_fragment_test := false;
  ps_post_depth_coverage := false;
  ps_reads_frag_coord_mask := 0;
  ps_depth_layout := 0;
  ps_reads_sample_mask_in := false;
  ps_reads_front_face := false;
  ps_reads_sample_id := false;
  ps_reads_frag_shading_rate := false;
  ps_reads_barycentric_model := false;
  ps_reads_persp_sample := false;
  ps_reads_persp_center := false;
  ps_reads_persp_centroid := false;
  ps_reads_linear_sample := false;
  ps_reads_linear_center := false;
  ps_reads_linear_centroid := false;
  ps_reads_fully_covered := false;
  ps_reads_pixel_coord := false;
  ps_reads_layer := false;
  ps_pops := false;
  ps_pops_is_per_sample := false;
  ps_spi_ps_input_ena := 0;
  ps_spi_ps_input_addr := 0;
  ps_colors_written := 0;
  ps_spi_shader_col_format := 0;
  ps_cb_shader_mask := 0;
  ps_color0_written := 0;
  ps_load_provoking_vtx := false;
  ps_load_rasterization_prim := false;
  ps_force_sample_iter_shading_rate := false;
  ps_allow_flat_shading := false;
  ps_selects_frag_coord_xy_dynamically := false;
  ps_selects_quad_pos_dynamically := false;
  ps_selects_sample_mask_in_dynamically := false;
  ps_has_epilog := false
|}.

(** Control part. *)
Record radv_shader_info_tcs : Type := mk_radv_shader_info_tcs {
  tcs_highest_remapped_vram_output : Z;
  tcs_tes_inputs_read : Z;
  tcs_tes_patch_inputs_read : Z;
  tcs_tcs_vertices_out : Z;
  tcs_lds_size : Z;
  tcs_num_linked_inputs : Z;
  tcs_spacing : Z;
  tcs_ccw : bool;
  tcs_point_mode : bool;
  tcs_tes_reads_tess_factors : bool
}.

#[export] Instance eta_radv_shader_info_tcs : Eta radv_shader_info_tcs := fun r =>
  mk_radv_shader_info_tcs r.(tcs_highest_remapped_vram_output) r.(tcs_tes_inputs_read)
    r.(tcs_tes_patch_inputs_read) r.(tcs_tcs_vertices_out) r.(tcs_lds_size)
    r.(tcs_num_linked_inputs) r.(tcs_spacing) r.(tcs_ccw) r.(tcs_point_mode)
    r.(tcs_tes_reads_tess_factors).

Definition zero_radv_shader_info_tcs : radv_shader_info_tcs := {|
  tcs_highest_remapped_vram_output := 0;
  tcs_tes_inputs_read := 0;
  tcs_tes_patch_inputs_read := 0;
  tcs_tcs_vertices_out := 0;
  tcs_lds_size := 0;
  tcs_num_linked_inputs := 0;
  tcs_spacing := 0;
  tcs_ccw := false;
  tcs_point_mode := false;
  tcs_tes_reads_tess_factors := false
|}.

(** Location of one user-data item; [ud_sgpr_idx] is an [int8_t], -1 when unset. *)
Record radv_userdata_info : Type := mk_radv_userdata_info {
  ud_sgpr_idx : Z;
  ud_num_sgprs : Z
}.

#[export] Instance eta_radv_userdata_info : Eta radv_userdata_info := fun r =>
  mk_radv_userdata_info r.(ud_sgpr_idx) r.(ud_num_sgprs).

Definition zero_radv_userdata_info : radv_userdata_info := {|
  ud_sgpr_idx := -1;
  ud_num_sgprs := 0
|}.

(** All user-data locations of a stage. *)
Record radv_userdata_locations : Type := mk_radv_userdata_locations {
  ul_descriptor_sets : list radv_userdata_info;
  ul_shader_data : list radv_userdata_info;
  ul_descriptor_sets_enabled : Z
}.

#[export] Instance eta_radv_userdata_locations : Eta radv_userdata_locations := fun r =>
  mk_radv_userdata_locations r.(ul_descriptor_sets) r.(ul_shader_data) r.(ul_descriptor_sets_enabled).

Definition zero_radv_userdata_locations : radv_userdata_locations := {|
  ul_descriptor_sets := replicate 32 zero_radv_userdata_info;
  ul_shader_data := replicate (Z.to_nat AC_UD_MAX_UD) zero_radv_userdata_info;
  ul_descriptor_sets_enabled := 0
|}.

(** What RADV knows about a stage. *)
Record radv_shader_info : Type := mk_radv_shader_info {
  ri_workgroup_size : Z;
  ri_nir_shared_size : Z;
  ri_inline_push_constant_mask : Z;
  ri_push_constant_size : Z;
  ri_desc_set_used_mask : Z;
  ri_num_tess_patches : Z;
  ri_esgs_itemsize : Z;
  ri_user_sgprs_locs : radv_userdata_locations;
  ri_outinfo : radv_vs_output_info;
  ri_wave_size : Z;
  ri_stage : mesa_shader_stage;
  ri_next_stage : mesa_shader_stage;
  ri_can_inline_all_push_constants : bool;
  ri_loads_push_constants : bool;
  ri_uses_prim_id : bool;
  ri_is_ngg : bool;
  ri_is_ngg_passthrough : bool;
  ri_has_ngg_culling : bool;
  ri_inputs_linked : bool;
  ri_outputs_linked : bool;
  ri_merged_shader_compiled_separately : bool;
  ri_force_indirect_descriptors : bool;
  ri_ngg_wave_id_en : bool;
  ri_vs : radv_shader_info_vs;
  ri_gs : radv_shader_info_gs;
  ri_tes : radv_shader_info_tes;
  ri_ps : radv_shader_info_ps;
  ri_tcs : radv_shader_info_tcs;
  ri_so : radv_streamout_info;
  ri_ngg_info : gfx10_ngg_info
}.

#[export] Instance eta_radv_shader_info : Eta radv_shader_info := fun r =>
  mk_radv_shader_info r.(ri_workgroup_size) r.(ri_nir_shared_size) r.(ri_inline_push_constant_mask)
    r.(ri_push_constant_size) r.(ri_desc_set_used_mask) r.(ri_num_tess_patches)
    r.(ri_esgs_itemsize) r.(ri_user_sgprs_locs) r.(ri_outinfo) r.(ri_wave_size)
    r.(ri_stage) r.(ri_next_stage) r.(ri_can_inline_all_push_constants)
    r.(ri_loads_push_constants) r.(ri_uses_prim_id) r.(ri_is_ngg)
    r.(ri_is_ngg_passthrough) r.(ri_has_ngg_culling) r.(ri_inputs_linked)
    r.(ri_outputs_linked) r.(ri_merged_shader_compiled_separately)
    r.(ri_force_indirect_descriptors) r.(ri_ngg_wave_id_en) r.(ri_vs) r.(ri_gs)
    r.(ri_tes) r.(ri_ps) r.(ri_tcs) r.(ri_so) r.(ri_ngg_info).

Definition zero_radv_shader_info : radv_shader_info := {|
  ri_workgroup_size := 0;
  ri_nir_shared_size := 0;
  ri_inline_push_constant_mask := 0;
  ri_push_constant_size := 0;
  ri_desc_set_used_mask := 0;
  ri_num_tess_patches := 0;
  ri_esgs_itemsize := 0;
  ri_user_sgprs_locs := zero_radv_userdata_locations;
  ri_outinfo := zero_radv_vs_output_info;
  ri_wave_size := 0;
  ri_stage := MESA_SHADER_VERTEX;
  ri_next_stage := MESA_SHADER_VERTEX;
  ri_can_inline_all_push_constants := false;
  ri_loads_push_constants := false;
  ri_uses_prim_id := false;
  ri_is_ngg := false;
  ri_is_ngg_passthrough := false;
  ri_has_ngg_culling := false;
  ri_inputs_linked := false;
  ri_outputs_linked := false;
  ri_merged_shader_compiled_separately := false;
  ri_force_indirect_descriptors := false;
  ri_ngg_wave_id_en := false;
  ri_vs := zero_radv_shader_info_vs;
  ri_gs := zero_radv_shader_info_gs;
  ri_tes := zero_radv_shader_info_tes;
  ri_ps := zero_radv_shader_info_ps;
  ri_tcs := zero_radv_shader_info_tcs;
  ri_so := zero_radv_streamout_info;
  ri_ngg_info := zero_gfx10_ngg_info
|}.

(** A shader argument: its index and whether it is declared. *)
Record ac_arg : Type := mk_ac_arg {
  arg_index : Z;
  arg_used : bool
}.

#[export] Instance eta_ac_arg : Eta ac_arg := fun r =>
  mk_ac_arg r.(arg_index) r.(arg_used).

Definition zero_ac_arg : ac_arg := {|
  arg_index := 0;
  arg_used := false
|}.

(** Declared arguments; [aa_offsets] and [aa_sizes] hold the register offset and size of each. *)
Record ac_shader_args : Type := mk_ac_shader_args {
  aa_offsets : list Z;
  aa_sizes : list Z;
  aa_base_vertex : ac_arg;
  aa_start_instance : ac_arg;
  aa_draw_id : ac_arg;
  aa_vertex_buffers : ac_arg;
  aa_merged_wave_info : ac_arg;
  aa_gs_tg_info : ac_arg;
  aa_streamout_config : ac_arg;
  aa_streamout_write_index : ac_arg;
  aa_streamout_offset : list ac_arg;
  aa_push_constants : ac_arg;
  aa_inline_push_const_mask : Z;
  aa_view_index : ac_arg
}.

#[export] Instance eta_ac_shader_args : Eta ac_shader_args := fun r =>
  mk_ac_shader_args r.(aa_offsets) r.(aa_sizes) r.(aa_base_vertex) r.(aa_start_instance) r.(aa_draw_id)
    r.(aa_vertex_buffers) r.(aa_merged_wave_info) r.(aa_gs_tg_info)
    r.(aa_streamout_config) r.(aa_streamout_write_index) r.(aa_streamout_offset)
    r.(aa_push_constants) r.(aa_inline_push_const_mask) r.(aa_view_index).

Definition zero_ac_shader_args : ac_shader_args := {|
  aa_offsets := replicate 384 0;
  aa_sizes := replicate 384 0;
  aa_base_vertex := zero_ac_arg;
  aa_start_instance := zero_ac_arg;
  aa_draw_id := zero_ac_arg;
  aa_vertex_buffers := zero_ac_arg;
  aa_merged_wave_info := zero_ac_arg;
  aa_gs_tg_info := zero_ac_arg;
  aa_streamout_config := zero_ac_arg;
  aa_streamout_write_index := zero_ac_arg;
  aa_streamout_offset := replicate 4 zero_ac_arg;
  aa_push_constants := zero_ac_arg;
  aa_inline_push_const_mask := 0;
  aa_view_index := zero_ac_arg
|}.

(** RADV view of the arguments. *)
Record radv_shader_args : Type := mk_radv_shader_args {
  ra_ac : ac_shader_args;
  ra_descriptors : list ac_arg;
  ra_streamout_buffers : ac_arg;
  ra_ngg_state : ac_arg;
  ra_ngg_lds_layout : ac_arg;
  ra_ps5_ring_table : ac_arg;
  ra_prolog_inputs : ac_arg;
  ra_vs_inputs : list ac_arg;
  ra_user_sgprs_locs : radv_userdata_locations;
  ra_num_user_sgprs : Z
}.

#[export] Instance eta_radv_shader_args : Eta radv_shader_args := fun r =>
  mk_radv_shader_args r.(ra_ac) r.(ra_descriptors) r.(ra_streamout_buffers) r.(ra_ngg_state)
    r.(ra_ngg_lds_layout) r.(ra_ps5_ring_table) r.(ra_prolog_inputs)
    r.(ra_vs_inputs) r.(ra_user_sgprs_locs) r.(ra_num_user_sgprs).

Definition zero_radv_shader_args : radv_shader_args := {|
  ra_ac := zero_ac_shader_args;
  ra_descriptors := replicate 32 zero_ac_arg;
  ra_streamout_buffers := zero_ac_arg;
  ra_ngg_state := zero_ac_arg;
  ra_ngg_lds_layout := zero_ac_arg;
  ra_ps5_ring_table := zero_ac_arg;
  ra_prolog_inputs := zero_ac_arg;
  ra_vs_inputs := replicate 32 zero_ac_arg;
  ra_user_sgprs_locs := zero_radv_userdata_locations;
  ra_num_user_sgprs := 0
|}.

(** Register settings computed by ACO. *)
Record ac_shader_config : Type := mk_ac_shader_config {
  cfg_num_sgprs : Z;
  cfg_num_vgprs : Z;
  cfg_num_shared_vgprs : Z;
  cfg_spilled_sgprs : Z;
  cfg_spilled_vgprs : Z;
  cfg_lds_size : Z;
  cfg_spi_ps_input_ena : Z;
  cfg_spi_ps_input_addr : Z;
  cfg_float_mode : Z;
  cfg_scratch_bytes_per_wave : Z;
  cfg_wgp_mode : bool;
  cfg_rsrc1 : Z;
  cfg_rsrc2 : Z;
  cfg_rsrc3 : Z
}.

#[export] Instance eta_ac_shader_config : Eta ac_shader_config := fun r =>
  mk_ac_shader_config r.(cfg_num_sgprs) r.(cfg_num_vgprs) r.(cfg_num_shared_vgprs) r.(cfg_spilled_sgprs)
    r.(cfg_spilled_vgprs) r.(cfg_lds_size) r.(cfg_spi_ps_input_ena)
    r.(cfg_spi_ps_input_addr) r.(cfg_float_mode) r.(cfg_scratch_bytes_per_wave)
    r.(cfg_wgp_mode) r.(cfg_rsrc1) r.(cfg_rsrc2) r.(cfg_rsrc3).

Definition zero_ac_shader_config : ac_shader_config := {|
  cfg_num_sgprs := 0;
  cfg_num_vgprs := 0;
  cfg_num_shared_vgprs := 0;
  cfg_spilled_sgprs := 0;
  cfg_spilled_vgprs := 0;
  cfg_lds_size := 0;
  cfg_spi_ps_input_ena := 0;
  cfg_spi_ps_input_addr := 0;
  cfg_float_mode := 0;
  cfg_scratch_bytes_per_wave := 0;
  cfg_wgp_mode := false;
  cfg_rsrc1 := 0;
  cfg_rsrc2 := 0;
  cfg_rsrc3 := 0
|}.

(** Fields of radeon_info read by ac_compute_late_alloc. *)
Record radeon_info : Type := mk_radeon_info {
  fact_gfx_level : amd_gfx_level;
  fact_family : radeon_family;
  fact_pc_lines : Z;
  fact_min_good_cu_per_sa : Z
}.

(** ** Reading arguments and locations

    [args[a.arg_index].offset] and [shader_data[i].sgpr_idx] as the [uint32_t]
    they are stored to. *)
Definition arg_offset (args : ac_shader_args) (a : ac_arg) : Z :=
  nth (Z.to_nat (arg_index a)) (aa_offsets args) 0.
Definition arg_size (args : ac_shader_args) (a : ac_arg) : Z :=
  nth (Z.to_nat (arg_index a)) (aa_sizes args) 0.
Definition sgpr_u32 (u : radv_userdata_info) : Z := u32 (ud_sgpr_idx u).
Definition shader_data_sgpr (l : radv_userdata_locations) (i : Z) : Z :=
  sgpr_u32 (nth (Z.to_nat i) (ul_shader_data l) zero_radv_userdata_info).
Definition descriptor_set_sgpr (l : radv_userdata_locations) (i : Z) : Z :=
  sgpr_u32 (nth (Z.to_nat i) (ul_descriptor_sets l) zero_radv_userdata_info).

(** ** Facts about the bit-field helpers *)

Lemma bitcount_step n k :
  0 <= k ->
  foldl (fun acc i => acc + b2z (Z.testbit n i)) 0 (seqZ 0 (k + 1)) =
  foldl (fun acc i => acc + b2z (Z.testbit n i)) 0 (seqZ 0 k) + b2z (Z.testbit n k).
Proof. intros. by rewrite seqZ_succ, foldl_app by done. Qed.

Lemma b2z_range b : 0 <= b2z b <= 1.
Proof. by destruct b. Qed.

(** The count of a word is bounded by the width it fits in. *)
Lemma bitcount_fold_bound n w k :
  in_width w n -> 0 <= w -> 0 <= k ->
  0 <= foldl (fun acc i => acc + b2z (Z.testbit n i)) 0 (seqZ 0 k) <= Z.min w k.
Proof.
  intros Hn Hw Hk. pattern k. apply natlike_ind; [simpl; lia| |done].
  intros j Hj IH. rewrite <-Z.add_1_r, bitcount_step by done.
  pose proof (b2z_range (Z.testbit n j)). destruct (Z_lt_dec j w); [lia|].
  rewrite (testbit_high w) by (done || lia). simpl. lia.
Qed.

Lemma util_bitcount_bound w n : in_width w n -> 0 <= w <= 32 -> 0 <= util_bitcount n <= w.
Proof. intros. pose proof (bitcount_fold_bound n w 32 ltac:(done) ltac:(lia) ltac:(lia)). unfold util_bitcount. lia. Qed.

Lemma util_bitcount64_bound w n : in_width w n -> 0 <= w <= 64 -> 0 <= util_bitcount64 n <= w.
Proof. intros. pose proof (bitcount_fold_bound n w 64 ltac:(done) ltac:(lia) ltac:(lia)). unfold util_bitcount64. lia. Qed.

Lemma BITFIELD_BIT_small b : 0 <= b < 32 -> BITFIELD_BIT b = 2 ^ b.
Proof.
  intros. unfold BITFIELD_BIT. rewrite Z.shiftl_mul_pow2, Z.mul_1_l by lia.
  apply wrap_id. pose proof (pow2_pos b). pose proof (Z.pow_lt_mono_r 2 b 32). unfold in_width. lia.
Qed.

Lemma BITFIELD_MASK_ones b : 0 <= b <= 32 -> BITFIELD_MASK b = Z.ones b.
Proof.
  intros. unfold BITFIELD_MASK. destruct (Z.eqb_spec b 32) as [->|]; [done|].
  assert (b `land` 31 = b) as ->.
  { change 31 with (Z.ones 5). rewrite Z.land_ones by lia. apply Z.mod_small. lia. }
  rewrite BITFIELD_BIT_small by lia. rewrite Z.ones_equiv. lia.
Qed.

Lemma testbit_BITFIELD_MASK b i :
  0 <= b <= 32 -> 0 <= i -> Z.testbit (BITFIELD_MASK b) i = (i <? b).
Proof. intros. by rewrite BITFIELD_MASK_ones, Z.testbit_ones_nonneg by lia. Qed.

Lemma testbit_BITFIELD_RANGE b c i :
  0 <= b -> 0 <= c -> b + c <= 32 -> 0 <= i ->
  Z.testbit (BITFIELD_RANGE b c) i = (b <=? i) && (i <? b + c).
Proof.
  intros. unfold BITFIELD_RANGE. rewrite Z.land_spec, testbit_not_w by lia.
  rewrite !testbit_BITFIELD_MASK by lia. bcases.
Qed.
#[export] Hint Rewrite testbit_BITFIELD_MASK testbit_BITFIELD_RANGE using lia : bits.
