(* ===== verification/Nir.v ===== *)
(** * The NIR that libpsbc reads and rewrites (src/compiler/nir)

    A shader is its [info] record and, per function body and per block, a list of
    instructions.  Of an instruction the model keeps what libpsbc looks at: the
    opcode and the constant indices of an intrinsic, its sources, the texture
    sources of a texture instruction, and for everything else only that it is
    something else.  A source is known by its component count, its value when it
    is a compile-time constant, and the variable its dereference chain names.

    An instruction that a pass replaces becomes the expression the builder
    emitted in its place; [nir_eval] gives such an expression its 32-bit value. *)

From S2P Require Import Prelude Mesa.

(** ** Values built by nir_builder *)

(** Vector system values. *)
Inductive nir_vec : Type :=
| nir_load_workgroup_size
| nir_load_local_invocation_id.

(** Scalar expressions. *)
Inductive nir_def : Type :=
| nir_imm_int (n : Z)
| nir_imm_bool (b : bool)
| nir_channel (v : nir_vec) (c : nat)
| nir_iadd (a b : nir_def)
| nir_imul (a b : nir_def)
| nir_iadd_imm (a : nir_def) (n : Z)
| nir_udiv_imm (a : nir_def) (n : Z).

(** Values of the vectors for one invocation. *)
Definition nir_env : Type := nir_vec -> nat -> Z.

Fixpoint nir_eval (env : nir_env) (d : nir_def) : Z :=
  match d with
  | nir_imm_int n => u32 n
  | nir_imm_bool b => b2z b
  | nir_channel v c => u32 (env v c)
  | nir_iadd a b => u32 (nir_eval env a + nir_eval env b)
  | nir_imul a b => u32 (nir_eval env a * nir_eval env b)
  | nir_iadd_imm a n => u32 (nir_eval env a + n)
  | nir_udiv_imm a n => nir_eval env a / n
  end.

(** ** Instructions *)

(** Opcodes libpsbc distinguishes; the payload of [nir_intrinsic_other] keeps
    the remaining ones apart. *)
Inductive nir_intrinsic_op : Type :=
| nir_intrinsic_load_ubo
| nir_intrinsic_load_subgroup_id
| nir_intrinsic_load_local_invocation_index
| nir_intrinsic_load_num_subgroups
| nir_intrinsic_load_input
| nir_intrinsic_load_input_vertex
| nir_intrinsic_load_interpolated_input
| nir_intrinsic_load_push_constant
| nir_intrinsic_vulkan_resource_index
| nir_intrinsic_image_deref_load
| nir_intrinsic_image_deref_sparse_load
| nir_intrinsic_image_deref_store
| nir_intrinsic_image_deref_atomic
| nir_intrinsic_image_deref_atomic_swap
| nir_intrinsic_image_deref_size
| nir_intrinsic_image_deref_samples
| nir_intrinsic_load_use_float_frag_coord_xy_amd
| nir_intrinsic_other (op : Z).

#[export] Instance nir_intrinsic_op_eq_dec : EqDecision nir_intrinsic_op.
Proof. solve_decision. Defined.

(** The packed nir_io_semantics index: location, slot count and the other bits. *)
Record nir_io_semantics : Type := mk_nir_io_semantics {
  io_location : Z;
  io_num_slots : Z;
  io_rest : Z
}.

#[export] Instance eta_nir_io_semantics : Eta nir_io_semantics := fun r =>
  mk_nir_io_semantics r.(io_location) r.(io_num_slots) r.(io_rest).

Definition zero_nir_io_semantics : nir_io_semantics := {|
  io_location := 0;
  io_num_slots := 0;
  io_rest := 0
|}.

(** Descriptor address of a variable. *)
Record nir_variable : Type := mk_nir_variable {
  var_descriptor_set : Z;
  var_binding : Z
}.

#[export] Instance eta_nir_variable : Eta nir_variable := fun r =>
  mk_nir_variable r.(var_descriptor_set) r.(var_binding).

Definition zero_nir_variable : nir_variable := {|
  var_descriptor_set := 0;
  var_binding := 0
|}.

(** A source operand. *)
Record nir_src : Type := mk_nir_src {
  src_num_components : Z;
  src_const : option Z;
  src_variable : option nir_variable
}.

#[export] Instance eta_nir_src : Eta nir_src := fun r =>
  mk_nir_src r.(src_num_components) r.(src_const) r.(src_variable).

Definition zero_nir_src : nir_src := {|
  src_num_components := 0;
  src_const := None;
  src_variable := None
|}.

(** An intrinsic with its constant indices. *)
Record nir_intrinsic_instr : Type := mk_nir_intrinsic_instr {
  in_intrinsic : nir_intrinsic_op;
  in_num_components : Z;
  in_bit_size : Z;
  in_base : Z;
  in_range : Z;
  in_component : Z;
  in_dest_type : Z;
  in_io_semantics : nir_io_semantics;
  in_desc_set : Z;
  in_binding : Z;
  in_src : list nir_src
}.

#[export] Instance eta_nir_intrinsic_instr : Eta nir_intrinsic_instr := fun r =>
  mk_nir_intrinsic_instr r.(in_intrinsic) r.(in_num_components) r.(in_bit_size)
    r.(in_base) r.(in_range) r.(in_component) r.(in_dest_type) r.(in_io_semantics)
    r.(in_desc_set) r.(in_binding) r.(in_src).

Definition zero_nir_intrinsic_instr : nir_intrinsic_instr := {|
  in_intrinsic := nir_intrinsic_other 0;
  in_num_components := 0;
  in_bit_size := 0;
  in_base := 0;
  in_range := 0;
  in_component := 0;
  in_dest_type := 0;
  in_io_semantics := zero_nir_io_semantics;
  in_desc_set := 0;
  in_binding := 0;
  in_src := []
|}.

(** Kinds of texture sources. *)
Inductive nir_tex_src_type : Type :=
| nir_tex_src_texture_deref
| nir_tex_src_sampler_deref
| nir_tex_src_other.

#[export] Instance nir_tex_src_type_eq_dec : EqDecision nir_tex_src_type.
Proof. solve_decision. Defined.

Definition nir_tex_instr : Type := list (nir_tex_src_type * nir_src).

Inductive nir_instr : Type :=
| nir_instr_type_intrinsic (i : nir_intrinsic_instr)
| nir_instr_type_tex (t : nir_tex_instr)
| nir_instr_type_expr (d : nir_def)
| nir_instr_type_other (tag : Z).

(** Accessors with the names of nir.h. *)
Definition nir_src_is_const (s : nir_src) : bool := bool_decide (is_Some (src_const s)).
Definition nir_src_as_uint (s : nir_src) : Z := default 0 (src_const s).
Definition intrinsic_src (i : nir_intrinsic_instr) (n : nat) : nir_src :=
  nth n (in_src i) zero_nir_src.
Definition nir_imm_src (n : Z) : nir_src := mk_nir_src 1 (Some n) None.

(** Position of the offset among the sources of an input load
    (nir_get_io_offset_src_number). *)
Definition nir_get_io_offset_src_number (op : nir_intrinsic_op) : option nat :=
  match op with
  | nir_intrinsic_load_input => Some 0%nat
  | nir_intrinsic_load_input_vertex => Some 1%nat
  | nir_intrinsic_load_interpolated_input => Some 1%nat
  | _ => None
  end.

(** ** Shaders *)

(** The fields of shader_info libpsbc reads. *)
Record shader_info : Type := mk_shader_info {
  si_stage : mesa_shader_stage;
  si_inputs_read : Z;
  si_outputs_written : Z;
  si_patch_inputs_read : Z;
  si_clip_distance_array_size : Z;
  si_cull_distance_array_size : Z;
  si_workgroup_size : list Z;
  si_workgroup_size_variable : bool;
  si_fs_uses_sample_shading : bool;
  si_gs_output_primitive : Z;
  si_tess_primitive_mode : Z;
  si_tess_spacing : Z;
  si_tess_ccw : bool;
  si_tess_point_mode : bool;
  si_tess_tcs_vertices_out : Z;
  si_tess_tcs_outputs_read_by_tes : Z;
  si_tess_tcs_patch_outputs_read_by_tes : Z
}.

#[export] Instance eta_shader_info : Eta shader_info := fun r =>
  mk_shader_info r.(si_stage) r.(si_inputs_read) r.(si_outputs_written)
    r.(si_patch_inputs_read) r.(si_clip_distance_array_size)
    r.(si_cull_distance_array_size) r.(si_workgroup_size) r.(si_workgroup_size_variable)
    r.(si_fs_uses_sample_shading) r.(si_gs_output_primitive) r.(si_tess_primitive_mode)
    r.(si_tess_spacing) r.(si_tess_ccw) r.(si_tess_point_mode)
    r.(si_tess_tcs_vertices_out) r.(si_tess_tcs_outputs_read_by_tes)
    r.(si_tess_tcs_patch_outputs_read_by_tes).

Definition zero_shader_info : shader_info := {|
  si_stage := MESA_SHADER_NONE;
  si_inputs_read := 0;
  si_outputs_written := 0;
  si_patch_inputs_read := 0;
  si_clip_distance_array_size := 0;
  si_cull_distance_array_size := 0;
  si_workgroup_size := [0; 0; 0];
  si_workgroup_size_variable := false;
  si_fs_uses_sample_shading := false;
  si_gs_output_primitive := 0;
  si_tess_primitive_mode := 0;
  si_tess_spacing := 0;
  si_tess_ccw := false;
  si_tess_point_mode := false;
  si_tess_tcs_vertices_out := 0;
  si_tess_tcs_outputs_read_by_tes := 0;
  si_tess_tcs_patch_outputs_read_by_tes := 0
|}.

(** A shader: function bodies as lists of blocks. *)
Record nir_shader : Type := mk_nir_shader {
  sh_info : shader_info;
  sh_impls : list (list (list nir_instr));
  sh_scratch_size : Z
}.

#[export] Instance eta_nir_shader : Eta nir_shader := fun r =>
  mk_nir_shader r.(sh_info) r.(sh_impls) r.(sh_scratch_size).

Definition zero_nir_shader : nir_shader := {|
  sh_info := zero_shader_info;
  sh_impls := [];
  sh_scratch_size := 0
|}.

(** Instructions in the order the nested [nir_foreach_*] loops visit them. *)
Definition nir_instrs (sh : nir_shader) : list nir_instr := concat (concat (sh_impls sh)).

(** The intrinsics among them. *)
Definition nir_intrinsics (sh : nir_shader) : list nir_intrinsic_instr :=
  omap (fun i => match i with nir_instr_type_intrinsic x => Some x | _ => None end)
    (nir_instrs sh).

(** [nir_shader_instructions_pass]: a callback per instruction, [None] when it
    leaves the instruction alone, otherwise the instructions it stands for. *)
Definition nir_rewrite (f : nir_instr -> option (list nir_instr)) (i : nir_instr) :
    list nir_instr := default [i] (f i).

Definition nir_shader_instructions_pass (f : nir_instr -> option (list nir_instr))
    (sh : nir_shader) : nir_shader :=
  sh <| sh_impls := map (map (mbind (nir_rewrite f))) (sh_impls sh) |>.

(** The pass does to the visited sequence what it does to each instruction. *)
Lemma nir_instrs_pass f sh :
  nir_instrs (nir_shader_instructions_pass f sh) = nir_instrs sh ≫= nir_rewrite f.
Proof.
  unfold nir_instrs, nir_shader_instructions_pass. simpl.
  rewrite <-concat_map. induction (concat (sh_impls sh)) as [|b l IH]; [done|].
  simpl. by rewrite IH, bind_app.
Qed.

Lemma nir_info_pass f sh : sh_info (nir_shader_instructions_pass f sh) = sh_info sh.
Proof. done. Qed.

(** A rewrite that may fail, applied to every instruction in place. *)
Lemma nir_instrs_mapM (f : nir_instr -> option nir_instr) impls impls' :
  mapM (mapM (mapM f)) impls = Some impls' ->
  Forall2 (fun i i' => f i = Some i') (concat (concat impls)) (concat (concat impls')).
Proof.
  intros H%mapM_Some. do 2 apply Forall2_concat. eapply Forall2_impl; [exact H|].
  intros bs bs' Hb%mapM_Some. eapply Forall2_impl; [exact Hb|]. by intros b b' ?%mapM_Some.
Qed.

Lemma mapM_None_elem {A B} (f : A -> option B) l :
  mapM f l = None -> exists x, x ∈ l /\ f x = None.
Proof. intros H%mapM_None. by apply Exists_exists in H. Qed.

Lemma nir_instrs_mapM_None (f : nir_instr -> option nir_instr) impls :
  mapM (mapM (mapM f)) impls = None ->
  exists i, i ∈ concat (concat impls) /\ f i = None.
Proof.
  intros (bs & Hbs & (b & Hb & (i & Hi & Hn)%mapM_None_elem)%mapM_None_elem)%mapM_None_elem.
  exists i. split; [|done]. apply elem_of_concat. exists b. split; [|done].
  apply elem_of_concat. by exists bs.
Qed.
