(* ===== verification/ShaderUtil.v ===== *)
(** * Register words derived from shader information

    The pure helpers of psbc_compile.c that turn shader facts into register
    words, and the helpers of src/amd/common/ac_shader_util.c they use: colour
    and depth export formats, position exports, tessellation parameters, late
    allocation, NGG workgroup sizes, and the per-target hardware description.
    Reading a register back through its fields recovers the facts it was built
    from. *)

From S2P Require Import Prelude Types Regs Mesa Nir.

Module ShaderUtil.

(** ** Colour export formats *)

(** The [i]-th 4-bit slot of a format word. *)
Definition nibble (x i : Z) : Z := (x ≫ (4 * i)) `land` 0xf.

Definition compact_step (formats i : Z) (st : Z * Z) : Z * Z :=
  let '(compacted, slot) := st in
  let format := nibble formats i in
  if truthy format then (compacted `lor` u32 (format ≪ (4 * slot)), slot + 1)
  else (compacted, slot).

Definition compact_spi_shader_col_format (formats : Z) : Z :=
  fst (loop 8 (compact_step formats) (0, 0)).

Definition ac_get_spi_shader_z_format
    (writes_z writes_stencil writes_samplemask writes_mrt0_alpha : bool) : Z :=
  if writes_mrt0_alpha then
    if writes_stencil || writes_samplemask then V_028710_SPI_SHADER_32_ABGR
    else V_028710_SPI_SHADER_32_AR
  else if writes_samplemask then
    if writes_z then V_028710_SPI_SHADER_32_ABGR else V_028710_SPI_SHADER_UINT16_ABGR
  else if writes_stencil then V_028710_SPI_SHADER_32_GR
  else if writes_z then V_028710_SPI_SHADER_32_R
  else V_028710_SPI_SHADER_ZERO.

(** The component mask of one format; a value outside the switch reaches
    [assert(0)], a no-op in release builds, and enables nothing. *)
Definition cb_components (format : Z) : Z :=
  if format =? V_028714_SPI_SHADER_ZERO then 0
  else if format =? V_028714_SPI_SHADER_32_R then 0x1
  else if format =? V_028714_SPI_SHADER_32_GR then 0x3
  else if format =? V_028714_SPI_SHADER_32_AR then 0x9
  else if (format =? V_028714_SPI_SHADER_FP16_ABGR)
       || (format =? V_028714_SPI_SHADER_UNORM16_ABGR)
       || (format =? V_028714_SPI_SHADER_SNORM16_ABGR)
       || (format =? V_028714_SPI_SHADER_UINT16_ABGR)
       || (format =? V_028714_SPI_SHADER_SINT16_ABGR)
       || (format =? V_028714_SPI_SHADER_32_ABGR) then 0xf
  else 0.

Definition ac_get_cb_shader_mask (spi_shader_col_format : Z) : Z :=
  if spi_shader_col_format =? UINT32_MAX then UINT32_MAX
  else loop 8 (fun i mask =>
         mask `lor` u32 (cb_components (nibble spi_shader_col_format i) ≪ (i * 4))) 0.

(** ** Position exports *)

Definition writes_misc (o : radv_vs_output_info) : bool :=
  oi_writes_pointsize o || oi_writes_viewport_index o ||
  oi_writes_layer o || oi_writes_primitive_shading_rate o.

Definition num_clip_dist_comps (info : radv_shader_info) : Z :=
  util_bitcount (oi_clip_dist_mask (ri_outinfo info)).
Definition num_cull_dist_comps (info : radv_shader_info) : Z :=
  if ri_has_ngg_culling info then 0 else util_bitcount (oi_cull_dist_mask (ri_outinfo info)).

(** The count and the two masks the C function returns through pointers. *)
Definition get_num_pos_exports (info : radv_shader_info) : Z * Z * Z :=
  let clip := num_clip_dist_comps info in
  let cull := num_cull_dist_comps info in
  let clip_cull_mask := BITFIELD_MASK (clip + cull) in
  let num := 1 in
  let num := if writes_misc (ri_outinfo info) then num + 1 else num in
  let num := if truthy (clip_cull_mask `land` 0x0f) then num + 1 else num in
  let num := if truthy (clip_cull_mask `land` 0xf0) then num + 1 else num in
  (num, BITFIELD_MASK clip, BITFIELD_RANGE clip cull).

Definition num_pos_exports (info : radv_shader_info) : Z := (get_num_pos_exports info).1.1.

Definition build_pa_cl_vs_out_cntl (rinfo : radv_shader_info) (gfx_level : amd_gfx_level)
    (num_pos_exports : Z) : Z :=
  let '(_, clip_dist_mask, cull_dist_mask) := get_num_pos_exports rinfo in
  let total_mask := clip_dist_mask `lor` cull_dist_mask in
  let o := ri_outinfo rinfo in
  let misc_vec_ena :=
    oi_writes_pointsize o || oi_writes_layer o ||
    oi_writes_viewport_index o || oi_writes_primitive_shading_rate o in
  S_02881C_USE_VTX_POINT_SIZE (b2z (oi_writes_pointsize o)) `lor`
  S_02881C_USE_VTX_RENDER_TARGET_INDX (b2z (oi_writes_layer o)) `lor`
  S_02881C_USE_VTX_VIEWPORT_INDX (b2z (oi_writes_viewport_index o)) `lor`
  S_02881C_USE_VTX_VRS_RATE (b2z (oi_writes_primitive_shading_rate o)) `lor`
  S_02881C_VS_OUT_MISC_VEC_ENA (b2z misc_vec_ena) `lor`
  S_02881C_VS_OUT_MISC_SIDE_BUS_ENA
    (b2z (misc_vec_ena || (gfx_ge gfx_level GFX10_3 && (num_pos_exports >? 1)))) `lor`
  S_02881C_VS_OUT_CCDIST0_VEC_ENA (b2z (truthy (total_mask `land` 0x0f))) `lor`
  S_02881C_VS_OUT_CCDIST1_VEC_ENA (b2z (truthy (total_mask `land` 0xf0))) `lor`
  u32 (total_mask ≪ 8) `lor` clip_dist_mask.

Definition pos_export_format (enabled : bool) : Z :=
  if enabled then V_02870C_SPI_SHADER_4COMP else V_02870C_SPI_SHADER_NONE.

Definition build_spi_shader_pos_format (num_pos_exports : Z) : Z :=
  S_02870C_POS0_EXPORT_FORMAT V_02870C_SPI_SHADER_4COMP `lor`
  S_02870C_POS1_EXPORT_FORMAT (pos_export_format (num_pos_exports >? 1)) `lor`
  S_02870C_POS2_EXPORT_FORMAT (pos_export_format (num_pos_exports >? 2)) `lor`
  S_02870C_POS3_EXPORT_FORMAT (pos_export_format (num_pos_exports >? 3)).

(** ** Depth block *)

Definition conservative_z_export (depth_layout : Z) : Z :=
  if depth_layout =? FRAG_DEPTH_LAYOUT_GREATER then V_02880C_EXPORT_GREATER_THAN_Z
  else if depth_layout =? FRAG_DEPTH_LAYOUT_LESS then V_02880C_EXPORT_LESS_THAN_Z
  else V_02880C_EXPORT_ANY_Z.

Definition compute_db_shader_control (info : radv_shader_info) : Z :=
  let ps := ri_ps info in
  let z_order :=
    if ps_early_fragment_test ps || negb (ps_writes_memory ps)
    then V_02880C_EARLY_Z_THEN_LATE_Z else V_02880C_LATE_Z in
  S_02880C_Z_EXPORT_ENABLE (b2z (ps_writes_z ps)) `lor`
  S_02880C_STENCIL_TEST_VAL_EXPORT_ENABLE (b2z (ps_writes_stencil ps)) `lor`
  S_02880C_KILL_ENABLE (b2z (ps_can_discard ps)) `lor`
  S_02880C_MASK_EXPORT_ENABLE (b2z (ps_writes_sample_mask ps)) `lor`
  S_02880C_CONSERVATIVE_Z_EXPORT (conservative_z_export (ps_depth_layout ps)) `lor`
  S_02880C_Z_ORDER z_order `lor`
  S_02880C_DEPTH_BEFORE_SHADER (b2z (ps_early_fragment_test ps)) `lor`
  S_02880C_PRE_SHADER_DEPTH_COVERAGE_ENABLE (b2z (ps_post_depth_coverage ps)) `lor`
  S_02880C_EXEC_ON_HIER_FAIL (b2z (ps_writes_memory ps)) `lor`
  S_02880C_EXEC_ON_NOOP (b2z (ps_writes_memory ps)) `lor`
  S_02880C_PRIMITIVE_ORDERED_PIXEL_SHADER (b2z (ps_pops ps)).

(** ** Tessellation *)

Definition tf_type (mode : Z) : Z :=
  if mode =? TESS_PRIMITIVE_ISOLINES then V_028B6C_TESS_ISOLINE
  else if mode =? TESS_PRIMITIVE_TRIANGLES then V_028B6C_TESS_TRIANGLE
  else if mode =? TESS_PRIMITIVE_QUADS then V_028B6C_TESS_QUAD
  else V_028B6C_TESS_TRIANGLE.

Definition tf_partition (spacing : Z) : Z :=
  if spacing =? TESS_SPACING_EQUAL then V_028B6C_PART_INTEGER
  else if spacing =? TESS_SPACING_FRACTIONAL_ODD then V_028B6C_PART_FRAC_ODD
  else if spacing =? TESS_SPACING_FRACTIONAL_EVEN then V_028B6C_PART_FRAC_EVEN
  else V_028B6C_PART_INTEGER.

Definition tf_topology (info : shader_info) : Z :=
  if si_tess_point_mode info then V_028B6C_OUTPUT_POINT
  else if si_tess_primitive_mode info =? TESS_PRIMITIVE_ISOLINES then V_028B6C_OUTPUT_LINE
  else if si_tess_ccw info then V_028B6C_OUTPUT_TRIANGLE_CCW
  else V_028B6C_OUTPUT_TRIANGLE_CW.

Definition tess_tf_param (nir : nir_shader) : Z :=
  let info := sh_info nir in
  S_028B6C_TYPE (tf_type (si_tess_primitive_mode info)) `lor`
  S_028B6C_PARTITIONING (tf_partition (si_tess_spacing info)) `lor`
  S_028B6C_TOPOLOGY (tf_topology info).

(** ** Late allocation and workgroup sizes (ac_shader_util.c) *)

(** The two results of ac_compute_late_alloc: the wave limit and the CU mask. *)
Definition ac_compute_late_alloc (info : radeon_info) (ngg ngg_culling uses_scratch : bool) :
    Z * Z :=
  let cus := fact_min_good_cu_per_sa info in
  if cus <=? 2 then (0, 0xffff)
  else if uses_scratch then (0, 0xffff)
  else if ngg && (radeon_family_val (fact_family info) =? radeon_family_val CHIP_NAVI14)
  then (0, 0xffff)
  else
    let '(late_alloc_wave64, cu_mask) :=
      if gfx_ge (fact_gfx_level info) GFX10 then
        let w := if ngg_culling then u32 (cus * 10)
                 else if gfx_ge (fact_gfx_level info) GFX11 then 63
                 else u32 (cus * 4) in
        let w := if gfx_eqb (fact_gfx_level info) GFX10 && ngg then MIN2 w 64 else w in
        (w, 0xffff `land` (if gfx_eqb (fact_gfx_level info) GFX10
                           then not32 (BITFIELD_RANGE 2 2)
                           else not32 (BITFIELD_RANGE 1 1)))
      else
        let w := if cus <=? 4 then 2 else u32 ((cus - 2) * 4) in
        (w, if w >? 2 then 0xfffe else 0xffff) in
    (MIN2 late_alloc_wave64
       (if ngg then G_00B204_SPI_SHADER_LATE_ALLOC_GS_GFX10 UINT32_MAX
        else G_00B11C_LIMIT UINT32_MAX),
     cu_mask).

Definition MAX3 (a b c : Z) : Z := if a >? b then MAX2 a c else MAX2 b c.
Definition MAX4 (a b c d : Z) : Z := if a >? b then MAX3 a c d else MAX3 b c d.
Definition CLAMP (x lo hi : Z) : Z := if x >? lo then (if x >? hi then hi else x) else lo.

Definition ac_compute_ngg_workgroup_size
    (es_verts gs_inst_prims max_vtx_out prim_amp_factor : Z) : Z :=
  let max_vtx_in := if es_verts <? 256 then es_verts else u32 (3 * gs_inst_prims) in
  let max_prim_in := gs_inst_prims in
  let max_prim_out := u32 (gs_inst_prims * prim_amp_factor) in
  CLAMP (MAX4 max_vtx_in max_vtx_out max_prim_in max_prim_out) 1 256.

(** ** Targets *)

Definition setup_target (target : PsbcTarget) : amd_gfx_level * radeon_family * bool :=
  match target with
  | PSBC_TARGET_PS5 => (GFX10_3, CHIP_NAVI21, false)
  | PSBC_TARGET_PS4_NEO => (GFX8, CHIP_TONGA, true)
  | PSBC_TARGET_PS4_BASE => (GFX7, CHIP_KAVERI, false)
  end.

(** The hardware limits setup_ac_info fills. *)
Record ac_compiler_info : Type := mk_ac_compiler_info {
  ai_gfx_level : amd_gfx_level;
  ai_lds_size_per_workgroup : Z;
  ai_max_waves_per_simd : Z;
  ai_num_physical_sgprs_per_simd : Z;
  ai_num_physical_wave64_vgprs_per_simd : Z;
  ai_num_simd_per_compute_unit : Z;
  ai_min_sgpr_alloc : Z;
  ai_max_sgpr_alloc : Z;
  ai_sgpr_alloc_granularity : Z;
  ai_min_wave64_vgpr_alloc : Z;
  ai_max_vgpr_alloc : Z;
  ai_wave64_vgpr_alloc_granularity : Z;
  ai_has_packed_math_16bit : bool;
  ai_has_accelerated_dot_product : bool;
  ai_has_fma_mix : bool
}.

#[export] Instance eta_ac_compiler_info : Eta ac_compiler_info := fun r =>
  mk_ac_compiler_info r.(ai_gfx_level) r.(ai_lds_size_per_workgroup)
    r.(ai_max_waves_per_simd) r.(ai_num_physical_sgprs_per_simd)
    r.(ai_num_physical_wave64_vgprs_per_simd) r.(ai_num_simd_per_compute_unit)
    r.(ai_min_sgpr_alloc) r.(ai_max_sgpr_alloc) r.(ai_sgpr_alloc_granularity)
    r.(ai_min_wave64_vgpr_alloc) r.(ai_max_vgpr_alloc)
    r.(ai_wave64_vgpr_alloc_granularity) r.(ai_has_packed_math_16bit)
    r.(ai_has_accelerated_dot_product) r.(ai_has_fma_mix).

Definition zero_ac_compiler_info : ac_compiler_info := {|
  ai_gfx_level := CLASS_UNKNOWN;
  ai_lds_size_per_workgroup := 0;
  ai_max_waves_per_simd := 0;
  ai_num_physical_sgprs_per_simd := 0;
  ai_num_physical_wave64_vgprs_per_simd := 0;
  ai_num_simd_per_compute_unit := 0;
  ai_min_sgpr_alloc := 0;
  ai_max_sgpr_alloc := 0;
  ai_sgpr_alloc_granularity := 0;
  ai_min_wave64_vgpr_alloc := 0;
  ai_max_vgpr_alloc := 0;
  ai_wave64_vgpr_alloc_granularity := 0;
  ai_has_packed_math_16bit := false;
  ai_has_accelerated_dot_product := false;
  ai_has_fma_mix := false
|}.

Definition setup_ac_info (ac_info : ac_compiler_info) (gfxlevel : amd_gfx_level) :
    ac_compiler_info :=
  let ac_info := ac_info
    <| ai_gfx_level := gfxlevel |>
    <| ai_lds_size_per_workgroup := if gfx_ge gfxlevel GFX7 then 64 * 1024 else 32 * 1024 |> in
  if gfx_ge gfxlevel GFX10_3 then ac_info
    <| ai_max_waves_per_simd := 16 |>
    <| ai_num_physical_sgprs_per_simd := 108 * 16 |>
    <| ai_num_physical_wave64_vgprs_per_simd := 512 |>
    <| ai_num_simd_per_compute_unit := 2 |>
    <| ai_min_sgpr_alloc := 108 |>
    <| ai_max_sgpr_alloc := 108 |>
    <| ai_sgpr_alloc_granularity := 108 |>
    <| ai_min_wave64_vgpr_alloc := 8 |>
    <| ai_max_vgpr_alloc := 256 |>
    <| ai_wave64_vgpr_alloc_granularity := 8 |>
    <| ai_has_packed_math_16bit := true |>
    <| ai_has_fma_mix := true |>
  else if gfx_eqb gfxlevel GFX10 then ac_info
    <| ai_max_waves_per_simd := 20 |>
    <| ai_num_physical_sgprs_per_simd := 128 * 20 |>
    <| ai_num_physical_wave64_vgprs_per_simd := 256 |>
    <| ai_num_simd_per_compute_unit := 2 |>
    <| ai_min_sgpr_alloc := 1 |>
    <| ai_max_sgpr_alloc := 128 |>
    <| ai_sgpr_alloc_granularity := 1 |>
    <| ai_min_wave64_vgpr_alloc := 4 |>
    <| ai_max_vgpr_alloc := 256 |>
    <| ai_wave64_vgpr_alloc_granularity := 4 |>
    <| ai_has_packed_math_16bit := true |>
  else if gfx_eqb gfxlevel GFX8 then ac_info
    <| ai_max_waves_per_simd := 10 |>
    <| ai_num_physical_sgprs_per_simd := 16 * 10 |>
    <| ai_num_physical_wave64_vgprs_per_simd := 128 |>
    <| ai_num_simd_per_compute_unit := 1 |>
    <| ai_min_sgpr_alloc := 1 |>
    <| ai_max_sgpr_alloc := 16 |>
    <| ai_sgpr_alloc_granularity := 1 |>
    <| ai_min_wave64_vgpr_alloc := 4 |>
    <| ai_max_vgpr_alloc := 128 |>
    <| ai_wave64_vgpr_alloc_granularity := 4 |>
  else ac_info
    <| ai_max_waves_per_simd := 10 |>
    <| ai_num_physical_sgprs_per_simd := 12 * 10 |>
    <| ai_num_physical_wave64_vgprs_per_simd := 64 |>
    <| ai_num_simd_per_compute_unit := 1 |>
    <| ai_min_sgpr_alloc := 1 |>
    <| ai_max_sgpr_alloc := 12 |>
    <| ai_sgpr_alloc_granularity := 1 |>
    <| ai_min_wave64_vgpr_alloc := 4 |>
    <| ai_max_vgpr_alloc := 64 |>
    <| ai_wave64_vgpr_alloc_granularity := 4 |>.

(** ** Stage mapping *)

Definition psbc_to_mesa_stage (s : PsbcStage) : mesa_shader_stage :=
  match s with
  | PSBC_STAGE_VERTEX => MESA_SHADER_VERTEX
  | PSBC_STAGE_TESS_CTRL => MESA_SHADER_TESS_CTRL
  | PSBC_STAGE_TESS_EVAL => MESA_SHADER_TESS_EVAL
  | PSBC_STAGE_GEOMETRY => MESA_SHADER_GEOMETRY
  | PSBC_STAGE_FRAGMENT => MESA_SHADER_FRAGMENT
  | PSBC_STAGE_COMPUTE => MESA_SHADER_COMPUTE
  | PSBC_STAGE_TASK => MESA_SHADER_TASK
  | PSBC_STAGE_EXPORT => MESA_SHADER_VERTEX
  | PSBC_STAGE_LOCAL => MESA_SHADER_VERTEX
  | PSBC_STAGE_NONE => MESA_SHADER_NONE
  end.

(** ** Nibbles *)

Lemma nibble_range x i : in_width 4 (nibble x i).
Proof.
  unfold nibble. apply in_width_bits; [done|apply Z.land_nonneg; by right|].
  intros j ?. change 0xf with (Z.ones 4). autorewrite with bits. bcases.
Qed.

Lemma testbit_nibble x i j :
  0 <= i -> 0 <= j -> Z.testbit (nibble x i) j = (j <? 4) && Z.testbit x (j + 4 * i).
Proof.
  intros. unfold nibble. change 0xf with (Z.ones 4). autorewrite with bits.
  by rewrite andb_comm.
Qed.
#[export] Hint Rewrite testbit_nibble using lia : bits.

(** A word assembled from a list of 4-bit slots, slot 0 lowest. *)
Fixpoint of_nibbles (l : list Z) : Z :=
  match l with [] => 0 | n :: l => n + 16 * of_nibbles l end.

Definition nibbles (k x : Z) : list Z := map (nibble x) (seqZ 0 k).

Lemma of_nibbles_range l :
  Forall (in_width 4) l -> in_width (4 * Z.of_nat (length l)) (of_nibbles l).
Proof.
  induction 1 as [|n l [? ?] ? [? IH]]; [done|]. simpl length. unfold in_width in *.
  replace (4 * Z.of_nat (S (length l))) with (4 + 4 * Z.of_nat (length l)) by lia.
  rewrite Z.pow_add_r by lia. change (2 ^ 4) with 16 in *. simpl. lia.
Qed.

Lemma of_nibbles_snoc l n :
  of_nibbles (l ++ [n]) = of_nibbles l + n * 2 ^ (4 * Z.of_nat (length l)).
Proof.
  induction l as [|m l IH]; [simpl; lia|]. simpl app. simpl of_nibbles. rewrite IH.
  simpl length. replace (4 * Z.of_nat (S (length l))) with (4 + 4 * Z.of_nat (length l)) by lia.
  rewrite Z.pow_add_r by lia. lia.
Qed.

(** Adding a slot above the ones already there is the C [|=]. *)
Lemma lor_above k x n :
  0 <= k -> in_width k x -> 0 <= n -> x `lor` (n ≪ k) = x + n * 2 ^ k.
Proof.
  intros Hk Hx Hn. rewrite <-Z.shiftl_mul_pow2 by done.
  rewrite <-Z.lxor_lor, Z.add_nocarry_lxor; [done| |];
    (bitwise; destruct (Z_lt_dec i k);
     [by rewrite (Z.testbit_neg_r n) by lia; rewrite andb_false_r
     |by rewrite (testbit_high k x) by (done || lia)]).
Qed.

Lemma of_nibbles_lor l n :
  Forall (in_width 4) l -> 0 <= n ->
  of_nibbles l `lor` (n ≪ (4 * Z.of_nat (length l))) = of_nibbles (l ++ [n]).
Proof.
  intros. rewrite of_nibbles_snoc. apply lor_above; [lia|by apply of_nibbles_range|done].
Qed.

Lemma nibble_of_nibbles l k :
  Forall (in_width 4) l -> 0 <= k -> nibble (of_nibbles l) k = nth (Z.to_nat k) l 0.
Proof.
  intros Hl Hk. unfold nibble. change 0xf with (Z.ones 4). rewrite Z.land_ones by done.
  rewrite Z.shiftr_div_pow2 by lia. revert k Hk.
  induction Hl as [|n l [Hn0 Hn1] Hl IH]; intros k Hk.
  { simpl of_nibbles. rewrite Z.div_0_l by (apply Z.pow_nonzero; lia).
    by destruct (Z.to_nat k). }
  destruct (decide (k = 0)) as [->|].
  { simpl. rewrite Z.div_1_r. change (2 ^ 4) with 16 in *.
    rewrite (Z.mul_comm 16), Z_mod_plus_full. by apply Z.mod_small. }
  replace (Z.to_nat k) with (S (Z.to_nat (k - 1))) by lia. simpl nth.
  rewrite <-(IH (k - 1)) by lia. f_equal.
  replace (4 * k) with (4 + 4 * (k - 1)) by lia. rewrite Z.pow_add_r by lia.
  rewrite <-Z.div_div by (try apply pow2_pos; lia). f_equal. simpl.
  change (2 ^ 4) with 16 in *. rewrite (Z.mul_comm 16), Z_div_plus_full by lia.
  rewrite Z.div_small by lia. lia.
Qed.

Lemma nibbles_range k x : Forall (in_width 4) (nibbles k x).
Proof. apply Forall_map, Forall_true. intros. apply nibble_range. Qed.

Lemma nibbles_succ k x : 0 <= k -> nibbles (k + 1) x = nibbles k x ++ [nibble x k].
Proof. intros. unfold nibbles. by rewrite seqZ_succ, map_app by done. Qed.


(** The formats of the first [k] slots that export something. *)
Definition used_slots (k x : Z) : list Z := filter (fun n : Z => n <> 0) (nibbles k x).

Lemma used_slots_range k x : Forall (in_width 4) (used_slots k x).
Proof.
  apply Forall_forall. intros n [_ Hn]%list_elem_of_filter.
  by apply (proj1 (Forall_forall _ _) (nibbles_range k x)).
Qed.

Lemma used_slots_length k x : 0 <= k -> Z.of_nat (length (used_slots k x)) <= k.
Proof.
  intros. unfold used_slots. pose proof (length_filter (fun n : Z => n <> 0) (nibbles k x)) as H1.
  unfold nibbles in H1 at 2. rewrite length_map, length_seqZ in H1. lia.
Qed.

Lemma used_slots_succ k x :
  0 <= k ->
  used_slots (k + 1) x = used_slots k x ++ (if nibble x k =? 0 then [] else [nibble x k]).
Proof.
  intros. unfold used_slots. rewrite nibbles_succ, filter_app by done. f_equal.
  destruct (Z.eqb_spec (nibble x k) 0).
  - by rewrite filter_cons_False by naive_solver.
  - by rewrite filter_cons_True.
Qed.

Lemma shiftl_fits n k : in_width 4 n -> 0 <= k <= 28 -> in_width 32 (n ≪ k).
Proof.
  intros [? ?] ?. split; [by apply Z.shiftl_nonneg|]. rewrite Z.shiftl_mul_pow2 by lia.
  apply (Z.lt_le_trans _ (2 ^ 4 * 2 ^ k)).
  { apply Z.mul_lt_mono_pos_r; [apply pow2_pos|]; lia. }
  rewrite <-Z.pow_add_r by lia. apply Z.pow_le_mono_r; lia.
Qed.

(** The colour-format loop keeps the non-empty slots seen so far, in order. *)
Lemma compact_loop formats k :
  0 <= k <= 8 ->
  loop k (compact_step formats) (0, 0) =
    (of_nibbles (used_slots k formats), Z.of_nat (length (used_slots k formats))).
Proof.
  intros [Hk Hk8]. revert Hk8. pattern k. apply natlike_ind; [done| |done].
  intros j Hj IH Hj8. rewrite <-Z.add_1_r, loop_succ, IH, used_slots_succ by lia.
  unfold compact_step, truthy. pose proof (used_slots_length j formats Hj).
  pose proof (nibble_range formats j) as Hn.
  destruct (Z.eqb_spec (nibble formats j) 0); simpl negb; cbv iota.
  - by rewrite app_nil_r.
  - rewrite length_app, wrap_id by (apply shiftl_fits; [done|lia]).
    rewrite of_nibbles_lor by (apply used_slots_range || apply Hn).
    f_equal. simpl. lia.
Qed.

(** Compaction keeps exactly the non-zero formats, in attachment order, in
    consecutive export slots from 0, and leaves every later slot empty. *)
Theorem compact_spi_shader_col_format_spec formats k :
  0 <= k ->
  nibble (compact_spi_shader_col_format formats) k =
    nth (Z.to_nat k) (used_slots 8 formats) 0.
Proof.
  intros. unfold compact_spi_shader_col_format. rewrite compact_loop by lia. simpl fst.
  by apply nibble_of_nibbles; [apply used_slots_range|].
Qed.

(** Attachments 0 and 2 export; both land in consecutive slots. *)
Lemma compact_spi_shader_col_format_witness :
  nibble (compact_spi_shader_col_format 0x904) 1 = 9.
Proof. rewrite compact_spi_shader_col_format_spec by done. vm_compute. reflexivity. Defined.

(** The shader mask has one nibble per attachment, at the attachment's own
    position. *)
Lemma cb_components_range f : in_width 4 (cb_components f).
Proof. unfold cb_components. repeat case_match; done. Qed.

Lemma cb_mask_loop f k :
  0 <= k <= 8 ->
  loop k (fun i mask => mask `lor` u32 (cb_components (nibble f i) ≪ (i * 4))) 0 =
    of_nibbles (map (fun i => cb_components (nibble f i)) (seqZ 0 k)).
Proof.
  intros [Hk Hk8]. revert Hk8. pattern k. apply natlike_ind; [done| |done].
  intros j Hj IH Hj8. rewrite <-Z.add_1_r, loop_succ, IH, seqZ_succ, map_app by lia.
  rewrite wrap_id by (apply shiftl_fits; [apply cb_components_range|lia]).
  simpl map. rewrite <-of_nibbles_lor;
    [|apply Forall_map, Forall_true; intros; apply cb_components_range|apply cb_components_range].
  rewrite length_map, length_seqZ. do 2 f_equal. lia.
Qed.

(** CB_SHADER_MASK enables, for each of the eight attachments, exactly the
    components its export format carries, at the attachment's own position
    (compaction does not move it); all ones asks for the full mask. *)
Theorem ac_get_cb_shader_mask_spec f i :
  0 <= i < 8 ->
  nibble (ac_get_cb_shader_mask f) i =
    if f =? UINT32_MAX then 0xf else cb_components (nibble f i).
Proof.
  intros Hi. unfold ac_get_cb_shader_mask. destruct (Z.eqb_spec f UINT32_MAX) as [->|].
  - bitwise. change UINT32_MAX with (Z.ones 32). change 0xf with (Z.ones 4).
    autorewrite with bits. bcases.
  - rewrite cb_mask_loop by lia. rewrite nibble_of_nibbles;
      [|apply Forall_map, Forall_true; intros; apply cb_components_range|lia].
    rewrite (nth_indep _ 0 (cb_components (nibble f 0)))
      by (rewrite length_map, length_seqZ; lia).
    change (cb_components (nibble f 0)) with ((fun i => cb_components (nibble f i)) 0).
    rewrite map_nth. do 2 f_equal. apply nth_lookup_Some, lookup_seqZ. lia.
Qed.

Lemma ac_get_cb_shader_mask_witness :
  nibble (ac_get_cb_shader_mask 0x904) 2 = 0xf /\ nibble (ac_get_cb_shader_mask 0x904) 1 = 0.
Proof. rewrite !ac_get_cb_shader_mask_spec by done. done. Defined.

(** ** Position exports *)

(** The distance masks are [uint8_t]. *)
Definition outinfo_wf (o : radv_vs_output_info) : Prop :=
  in_width 8 (oi_clip_dist_mask o) /\ in_width 8 (oi_cull_dist_mask o).

Lemma dist_comps_bound info :
  outinfo_wf (ri_outinfo info) ->
  0 <= num_clip_dist_comps info <= 8 /\ 0 <= num_cull_dist_comps info <= 8.
Proof.
  intros [H1 H2]. unfold num_clip_dist_comps, num_cull_dist_comps.
  pose proof (util_bitcount_bound 8 _ H1 ltac:(lia)).
  pose proof (util_bitcount_bound 8 _ H2 ltac:(lia)). case_match; lia.
Qed.

(** Whether a run of low ones meets a group of bits. *)
Lemma truthy_ones_land n k :
  0 <= n -> 0 <= k -> truthy (Z.ones n `land` (0xf ≪ k)) = (k <? n).
Proof.
  intros. unfold truthy. destruct (Z.ltb_spec k n).
  - destruct (Z.eqb_spec (Z.ones n `land` (0xf ≪ k)) 0) as [E|]; [|done].
    apply (f_equal (fun z => Z.testbit z k)) in E. revert E. autorewrite with bits.
    rewrite Z.sub_diag. change (Z.testbit 15 0) with true.
    destruct (Z.ltb_spec k n); [done|lia].
  - assert (Z.ones n `land` (0xf ≪ k) = 0) as ->; [|done].
    bitwise. destruct (Z.ltb_spec i n); [|done].
    by rewrite (Z.testbit_neg_r 0xf) by lia.
Qed.

Lemma truthy_low_nibble n : 0 <= n <= 32 -> truthy (BITFIELD_MASK n `land` 0x0f) = (0 <? n).
Proof. intros. rewrite BITFIELD_MASK_ones by lia. apply (truthy_ones_land n 0); lia. Qed.

Lemma truthy_high_nibble n : 0 <= n <= 32 -> truthy (BITFIELD_MASK n `land` 0xf0) = (4 <? n).
Proof. intros. rewrite BITFIELD_MASK_ones by lia. apply (truthy_ones_land n 4); lia. Qed.

(** The clip and cull masks together are the run of all distance components. *)
Lemma dist_masks_union a b :
  0 <= a -> 0 <= b -> a + b <= 32 ->
  BITFIELD_MASK a `lor` BITFIELD_RANGE a b = BITFIELD_MASK (a + b).
Proof. intros. bitwise. bcases. Qed.

(** Between one and four positions are exported: the position itself, one
    vector if any of point size, layer, viewport or shading rate is written, and
    one vector per started group of four packed distances; the clip and cull
    masks are disjoint and together name exactly the packed components. *)
Theorem get_num_pos_exports_spec info :
  outinfo_wf (ri_outinfo info) ->
  let clip := num_clip_dist_comps info in
  let cull := num_cull_dist_comps info in
  let '(num, clip_mask, cull_mask) := get_num_pos_exports info in
  num = 1 + b2z (writes_misc (ri_outinfo info)) + (Z.min (clip + cull) 8 + 3) / 4 /\
  1 <= num <= 4 /\
  clip_mask `land` cull_mask = 0 /\
  clip_mask `lor` cull_mask = Z.ones (clip + cull).
Proof.
  intros Hwf. pose proof (dist_comps_bound info Hwf) as [? ?]. cbv zeta.
  unfold get_num_pos_exports. cbv zeta.
  set (a := num_clip_dist_comps info) in *. set (b := num_cull_dist_comps info) in *.
  rewrite truthy_low_nibble, truthy_high_nibble by lia.
  rewrite dist_masks_union, BITFIELD_MASK_ones by lia.
  assert (Z.ones a `land` BITFIELD_RANGE a b = 0) as ->.
  { bitwise. bcases. }
  assert ((Z.min (a + b) 8 + 3) / 4 =
          (if 0 <? a + b then 1 else 0) + (if 4 <? a + b then 1 else 0)) as ->.
  { zcases; Z.to_euclidean_division_equations; lia. }
  destruct (writes_misc _), (Z.ltb_spec 0 (a + b)), (Z.ltb_spec 4 (a + b)); simpl b2z;
    repeat split; try lia; rewrite BITFIELD_MASK_ones by lia; done.
Qed.

(** Five clip distances, one cull distance and a point size: four exports. *)
Definition example_pos_info : radv_shader_info :=
  zero_radv_shader_info <| ri_outinfo := zero_radv_vs_output_info
    <| oi_clip_dist_mask := 0x1f |> <| oi_cull_dist_mask := 0x01 |>
    <| oi_writes_pointsize := true |> |>.

Lemma get_num_pos_exports_witness : num_pos_exports example_pos_info = 4.
Proof.
  pose proof (get_num_pos_exports_spec example_pos_info ltac:(done)) as H.
  unfold num_pos_exports. destruct (get_num_pos_exports example_pos_info) as [[num c] d] eqn:E.
  simpl fst. destruct H as [-> _]. vm_compute. reflexivity.
Defined.

(** The position-format register marks exactly the exported positions. *)
Theorem build_spi_shader_pos_format_decodes n i :
  1 <= n <= 4 -> 0 <= i < 4 ->
  nibble (build_spi_shader_pos_format n) i =
    if i <? n then V_02870C_SPI_SHADER_4COMP else V_02870C_SPI_SHADER_NONE.
Proof.
  intros. assert (n = 1 \/ n = 2 \/ n = 3 \/ n = 4) as Hn by lia.
  assert (i = 0 \/ i = 1 \/ i = 2 \/ i = 3) as Hi by lia.
  destruct_or! Hn; destruct_or! Hi; subst; reflexivity.
Qed.

Lemma build_spi_shader_pos_format_witness :
  nibble (build_spi_shader_pos_format 2) 1 = 4 /\ nibble (build_spi_shader_pos_format 2) 2 = 0.
Proof. rewrite !build_spi_shader_pos_format_decodes by done. done. Defined.

(** ** Reading the registers back *)

Ltac unfold_fields :=
  unfold S_02881C_USE_VTX_POINT_SIZE, S_02881C_USE_VTX_RENDER_TARGET_INDX,
    S_02881C_USE_VTX_VIEWPORT_INDX, S_02881C_USE_VTX_VRS_RATE,
    S_02881C_VS_OUT_MISC_VEC_ENA, S_02881C_VS_OUT_MISC_SIDE_BUS_ENA,
    S_02881C_VS_OUT_CCDIST0_VEC_ENA, S_02881C_VS_OUT_CCDIST1_VEC_ENA,
    G_02881C_USE_VTX_POINT_SIZE, G_02881C_USE_VTX_RENDER_TARGET_INDX,
    G_02881C_USE_VTX_VIEWPORT_INDX, G_02881C_USE_VTX_VRS_RATE,
    G_02881C_VS_OUT_MISC_VEC_ENA, G_02881C_VS_OUT_MISC_SIDE_BUS_ENA,
    G_02881C_VS_OUT_CCDIST0_VEC_ENA, G_02881C_VS_OUT_CCDIST1_VEC_ENA,
    S_02880C_Z_EXPORT_ENABLE, S_02880C_STENCIL_TEST_VAL_EXPORT_ENABLE,
    S_02880C_KILL_ENABLE, S_02880C_MASK_EXPORT_ENABLE, S_02880C_CONSERVATIVE_Z_EXPORT,
    S_02880C_Z_ORDER, S_02880C_DEPTH_BEFORE_SHADER,
    S_02880C_PRE_SHADER_DEPTH_COVERAGE_ENABLE, S_02880C_EXEC_ON_HIER_FAIL,
    S_02880C_EXEC_ON_NOOP, S_02880C_PRIMITIVE_ORDERED_PIXEL_SHADER,
    G_02880C_Z_EXPORT_ENABLE, G_02880C_STENCIL_TEST_VAL_EXPORT_ENABLE,
    G_02880C_KILL_ENABLE, G_02880C_MASK_EXPORT_ENABLE, G_02880C_CONSERVATIVE_Z_EXPORT,
    G_02880C_Z_ORDER, G_02880C_DEPTH_BEFORE_SHADER,
    G_02880C_PRE_SHADER_DEPTH_COVERAGE_ENABLE, G_02880C_EXEC_ON_HIER_FAIL,
    G_02880C_EXEC_ON_NOOP, G_02880C_PRIMITIVE_ORDERED_PIXEL_SHADER,
    S_028B6C_TYPE, S_028B6C_PARTITIONING, S_028B6C_TOPOLOGY,
    G_028B6C_TYPE, G_028B6C_PARTITIONING, G_028B6C_TOPOLOGY.

Lemma ones_width n w : 0 <= n <= w -> in_width w (Z.ones n).
Proof.
  intros. rewrite Z.ones_equiv. pose proof (pow2_pos n). pose proof (Z.pow_le_mono_r 2 n w).
  unfold in_width. lia.
Qed.

(** With at most eight packed distances, PA_CL_VS_OUT_CNTL reads back as the
    exports the shader makes: the clip mask in the low byte, every packed
    component in the second byte, a distance vector enabled when it holds a
    component, the misc vector when one of its four values is written. *)
Theorem build_pa_cl_vs_out_cntl_decodes rinfo gfx_level n :
  outinfo_wf (ri_outinfo rinfo) ->
  let clip := num_clip_dist_comps rinfo in
  let cull := num_cull_dist_comps rinfo in
  clip + cull <= 8 ->
  let w := build_pa_cl_vs_out_cntl rinfo gfx_level n in
  let o := ri_outinfo rinfo in
  field_G 0 7 w = Z.ones clip /\
  field_G 8 15 w = Z.ones (clip + cull) /\
  G_02881C_USE_VTX_POINT_SIZE w = b2z (oi_writes_pointsize o) /\
  G_02881C_USE_VTX_RENDER_TARGET_INDX w = b2z (oi_writes_layer o) /\
  G_02881C_USE_VTX_VIEWPORT_INDX w = b2z (oi_writes_viewport_index o) /\
  G_02881C_USE_VTX_VRS_RATE w = b2z (oi_writes_primitive_shading_rate o) /\
  G_02881C_VS_OUT_MISC_VEC_ENA w = b2z (writes_misc o) /\
  G_02881C_VS_OUT_CCDIST0_VEC_ENA w = b2z (0 <? clip + cull) /\
  G_02881C_VS_OUT_CCDIST1_VEC_ENA w = b2z (4 <? clip + cull).
Proof.
  intros Hwf. cbv zeta. intros Hsum. pose proof (dist_comps_bound rinfo Hwf) as [? ?].
  unfold build_pa_cl_vs_out_cntl, get_num_pos_exports. cbv zeta.
  set (clip := num_clip_dist_comps rinfo) in *. set (cull := num_cull_dist_comps rinfo) in *.
  rewrite dist_masks_union by lia.
  rewrite truthy_low_nibble, truthy_high_nibble by lia.
  rewrite !BITFIELD_MASK_ones by lia.
  rewrite (wrap_id 32) by (split; [apply Z.shiftl_nonneg, ones_width with (w := 32); lia|];
    rewrite Z.shiftl_mul_pow2 by lia; pose proof (ones_width (clip + cull) 8 ltac:(lia)) as [? ?];
    change (2 ^ 8) with 256 in *; lia).
  rewrite (field_S_shiftl 8 15) by (try apply ones_width; lia).
  rewrite <-(Z.shiftl_0_r (Z.ones clip)), (field_S_shiftl 0 7) by (try apply ones_width; lia).
  replace (oi_writes_pointsize (ri_outinfo rinfo) || oi_writes_layer (ri_outinfo rinfo) ||
     oi_writes_viewport_index (ri_outinfo rinfo) ||
     oi_writes_primitive_shading_rate (ri_outinfo rinfo))
    with (writes_misc (ri_outinfo rinfo))
    by (unfold writes_misc; by destruct (oi_writes_pointsize _), (oi_writes_layer _),
          (oi_writes_viewport_index _)).
  unfold_fields. repeat split; decode_fields; rewrite ?wrap_b2z by lia; try done;
    rewrite <-?(field_S_shiftl 0 7), ?Z.shiftl_0_r by (try apply ones_width; lia);
    apply wrap_id, ones_width; lia.
Qed.

Lemma build_pa_cl_vs_out_cntl_witness :
  field_G 8 15 (build_pa_cl_vs_out_cntl example_pos_info GFX10_3 4) = 0x3f.
Proof.
  destruct (build_pa_cl_vs_out_cntl_decodes example_pos_info GFX10_3 4) as (_ & -> & _).
  - done.
  - vm_compute. done.
  - reflexivity.
Defined.

Lemma wrap_small w x : 0 <= x < 2 ^ w -> wrap w x = x.
Proof. apply wrap_id. Qed.

(** DB_SHADER_CONTROL reads back as the facts of the fragment shader: what it
    exports, whether it may discard, the conservative depth direction, and early
    depth exactly when the shader asks for it or has no memory side effects. *)
Theorem compute_db_shader_control_decodes info :
  let w := compute_db_shader_control info in
  let ps := ri_ps info in
  G_02880C_Z_EXPORT_ENABLE w = b2z (ps_writes_z ps) /\
  G_02880C_STENCIL_TEST_VAL_EXPORT_ENABLE w = b2z (ps_writes_stencil ps) /\
  G_02880C_KILL_ENABLE w = b2z (ps_can_discard ps) /\
  G_02880C_MASK_EXPORT_ENABLE w = b2z (ps_writes_sample_mask ps) /\
  G_02880C_CONSERVATIVE_Z_EXPORT w = conservative_z_export (ps_depth_layout ps) /\
  (G_02880C_Z_ORDER w = V_02880C_EARLY_Z_THEN_LATE_Z <->
     ps_early_fragment_test ps = true \/ ps_writes_memory ps = false) /\
  G_02880C_DEPTH_BEFORE_SHADER w = b2z (ps_early_fragment_test ps) /\
  G_02880C_PRE_SHADER_DEPTH_COVERAGE_ENABLE w = b2z (ps_post_depth_coverage ps) /\
  G_02880C_EXEC_ON_HIER_FAIL w = b2z (ps_writes_memory ps) /\
  G_02880C_EXEC_ON_NOOP w = b2z (ps_writes_memory ps) /\
  G_02880C_PRIMITIVE_ORDERED_PIXEL_SHADER w = b2z (ps_pops ps).
Proof.
  cbv zeta. unfold compute_db_shader_control. cbv zeta. unfold_fields.
  repeat match goal with |- _ /\ _ => split end;
    decode_fields; rewrite ?wrap_b2z by lia; try done.
  - apply wrap_small. unfold conservative_z_export. by repeat case_match.
  - destruct (ps_early_fragment_test _), (ps_writes_memory _); vm_compute; intuition congruence.
Qed.

(** VGT_TF_PARAM reads back as the declared domain, partitioning and output
    topology; point mode takes precedence over lines, lines over triangles. *)
Theorem tess_tf_param_decodes nir :
  let w := tess_tf_param nir in
  G_028B6C_TYPE w = tf_type (si_tess_primitive_mode (sh_info nir)) /\
  G_028B6C_PARTITIONING w = tf_partition (si_tess_spacing (sh_info nir)) /\
  G_028B6C_TOPOLOGY w = tf_topology (sh_info nir).
Proof.
  cbv zeta. unfold tess_tf_param. cbv zeta. unfold_fields.
  repeat split; decode_fields; apply wrap_small.
  - unfold tf_type. by repeat case_match.
  - unfold tf_partition. by repeat case_match.
  - unfold tf_topology. by repeat case_match.
Qed.

(** ** Late allocation and workgroups *)

Lemma MIN2_min a b : MIN2 a b = Z.min a b.
Proof. unfold MIN2. zcases; lia. Qed.

Lemma MAX4_max a b c d : MAX4 a b c d = Z.max (Z.max a b) (Z.max c d).
Proof. unfold MAX4, MAX3. rewrite !MAX2_max. zcases; lia. Qed.

Lemma CLAMP_clamp x lo hi : lo <= hi -> CLAMP x lo hi = Z.max lo (Z.min x hi).
Proof. intros. unfold CLAMP. zcases; lia. Qed.

Definition late_alloc_disabled (info : radeon_info) (ngg uses_scratch : bool) : bool :=
  (fact_min_good_cu_per_sa info <=? 2) || uses_scratch ||
  (ngg && (radeon_family_val (fact_family info) =? radeon_family_val CHIP_NAVI14)).

(** The late-allocation limit always fits its register field (7 bits for the
    GS field of an NGG program, 6 bits for the VS field) and is zero with every
    CU enabled on each configuration where late allocation could hang; at most two
    of the sixteen CUs are ever masked. *)
Theorem ac_compute_late_alloc_spec info ngg culling scratch :
  0 <= fact_min_good_cu_per_sa info ->
  let '(limit, cu_mask) := ac_compute_late_alloc info ngg culling scratch in
  0 <= limit <= (if ngg then 127 else 63) /\
  14 <= util_bitcount cu_mask <= 16 /\
  (late_alloc_disabled info ngg scratch = true -> limit = 0 /\ cu_mask = 0xffff).
Proof.
  intros Hc. unfold ac_compute_late_alloc, late_alloc_disabled.
  assert (G_00B204_SPI_SHADER_LATE_ALLOC_GS_GFX10 UINT32_MAX = 127) as -> by reflexivity.
  assert (G_00B11C_LIMIT UINT32_MAX = 63) as -> by reflexivity.
  assert (Hoff : forall P, 0 <= 0 <= (if ngg then 127 else 63) /\
    14 <= util_bitcount 0xffff <= 16 /\ (P = true -> 0 = 0 /\ 0xffff = 0xffff)).
  { intros. split; [by destruct ngg|]. split; [by vm_compute|by auto]. }
  destruct (Z.leb_spec (fact_min_good_cu_per_sa info) 2); [apply Hoff|].
  destruct scratch; [apply Hoff|].
  destruct (ngg && _) eqn:E; [apply Hoff|]. simpl orb. cbv zeta.
  pose proof (wrap_nonneg 32 (fact_min_good_cu_per_sa info * 10) ltac:(done)).
  pose proof (wrap_nonneg 32 (fact_min_good_cu_per_sa info * 4) ltac:(done)).
  pose proof (wrap_nonneg 32 ((fact_min_good_cu_per_sa info - 2) * 4) ltac:(done)).
  repeat match goal with |- context [if ?b then _ else _] => destruct b end;
    (rewrite ?MIN2_min; split; [lia|]; split; [by vm_compute|discriminate]).
Qed.

Definition example_navi21 : radeon_info := mk_radeon_info GFX10_3 CHIP_NAVI21 1024 20.

Lemma ac_compute_late_alloc_witness :
  0 <= (ac_compute_late_alloc example_navi21 true false false).1 <= 127.
Proof. apply (ac_compute_late_alloc_spec example_navi21 true false false). done. Defined.

(** An NGG workgroup has between 1 and 256 invocations, and when no product
    overflows and nothing exceeds 256 it has an invocation for every input
    vertex, input primitive, output vertex and output primitive. *)
Theorem ac_compute_ngg_workgroup_size_spec es prims vout amp :
  0 <= es -> 0 <= prims -> 0 <= vout -> 0 <= amp ->
  let s := ac_compute_ngg_workgroup_size es prims vout amp in
  1 <= s <= 256 /\
  (es < 256 -> vout <= 256 -> prims <= 256 -> prims * amp <= 256 ->
   es <= s /\ vout <= s /\ prims <= s /\ prims * amp <= s).
Proof.
  intros ? ? ? ?. cbv zeta. unfold ac_compute_ngg_workgroup_size. cbv zeta.
  rewrite CLAMP_clamp, MAX4_max by lia. split; [lia|]. intros.
  rewrite (wrap_small 32 (prims * amp)) by lia. zcases; lia.
Qed.

Lemma ac_compute_ngg_workgroup_size_witness :
  126 <= ac_compute_ngg_workgroup_size 128 126 128 1.
Proof. apply (ac_compute_ngg_workgroup_size_spec 128 126 128 1); lia. Defined.

End ShaderUtil.
