(* ===== verification/Lowering.v ===== *)
(** * NIR rewrites made by libpsbc itself

    The callbacks psbc_compile.c passes to nir_shader_instructions_pass and
    nir_shader_intrinsics_pass: Gallium constant-buffer slots, compute subgroup
    numbering on PS5, provoking-vertex selection for flat inputs, and the
    fragment-coordinate selection.  Each is a function from an instruction to
    what replaces it, [None] where the C callback returns false. *)

From S2P Require Import Prelude Types Mesa Nir.

Module Lowering.

(** ** Gallium constant buffers *)

(** The vulkan_resource_index built for a constant slot. *)
Definition gallium_resource_index (slot : Z) : nir_intrinsic_instr :=
  zero_nir_intrinsic_instr
    <| in_intrinsic := nir_intrinsic_vulkan_resource_index |>
    <| in_num_components := 3 |> <| in_bit_size := 32 |>
    <| in_desc_set := 0 |> <| in_binding := PSBC_GALLIUM_UBO_BINDING_BASE + slot |>
    <| in_src := [nir_imm_src 0] |>.

Definition lower_gallium_ubo_index (instruction : nir_instr) : option (list nir_instr) :=
  match instruction with
  | nir_instr_type_intrinsic intrinsic =>
      let slot_src := intrinsic_src intrinsic 0 in
      if negb (bool_decide (in_intrinsic intrinsic = nir_intrinsic_load_ubo)) ||
         negb (src_num_components slot_src =? 1) then None
      else if negb (nir_src_is_const slot_src) then None
      else
        let slot := nir_src_as_uint slot_src in
        if slot >=? PSBC_MAX_DESCRIPTOR_BINDINGS - PSBC_GALLIUM_UBO_BINDING_BASE then None
        else Some
          [nir_instr_type_intrinsic (gallium_resource_index slot);
           nir_instr_type_intrinsic
             (intrinsic <| in_src := <[0%nat := mk_nir_src 3 None None]> (in_src intrinsic) |>)]
  | _ => None
  end.

(** ** Compute subgroup numbering *)

(** [nir_channel(b, size, c)] of the workgroup size, or its constant. *)
Definition workgroup_dim (info : shader_info) (c : nat) : nir_def :=
  if si_workgroup_size_variable info then nir_channel nir_load_workgroup_size c
  else nir_imm_int (nth c (si_workgroup_size info) 0).

Definition lower_ps5_compute_subgroup_id (info : shader_info) (wave_size : Z)
    (instruction : nir_instr) : option (list nir_instr) :=
  match instruction with
  | nir_instr_type_intrinsic intrinsic =>
      let op := in_intrinsic intrinsic in
      if negb (bool_decide (op = nir_intrinsic_load_subgroup_id)) &&
         negb (bool_decide (op = nir_intrinsic_load_local_invocation_index)) &&
         negb (bool_decide (op = nir_intrinsic_load_num_subgroups)) then None
      else if negb (wave_size =? 32) && negb (wave_size =? 64) then None
      else if bool_decide (op = nir_intrinsic_load_num_subgroups) then
        let invocations :=
          if si_workgroup_size_variable info then
            nir_imul (nir_channel nir_load_workgroup_size 0)
              (nir_imul (nir_channel nir_load_workgroup_size 1)
                 (nir_channel nir_load_workgroup_size 2))
          else nir_imm_int (nth 0 (si_workgroup_size info) 0 *
                 nth 1 (si_workgroup_size info) 0 * nth 2 (si_workgroup_size info) 0) in
        Some [nir_instr_type_expr
                (nir_udiv_imm (nir_iadd_imm invocations (wave_size - 1)) wave_size)]
      else
        let x := nir_channel nir_load_local_invocation_id 0 in
        let y := nir_channel nir_load_local_invocation_id 1 in
        let z := nir_channel nir_load_local_invocation_id 2 in
        let width := workgroup_dim info 0 in
        let height := workgroup_dim info 1 in
        let index := nir_iadd x (nir_imul width (nir_iadd y (nir_imul height z))) in
        Some [nir_instr_type_expr
                (if bool_decide (op = nir_intrinsic_load_local_invocation_index)
                 then index else nir_udiv_imm index wave_size)]
  | _ => None
  end.

(** ** Flat inputs *)

Definition ps5_last_provoking_vertex (primitive_type : Z) : Z :=
  if primitive_type =? 1 then 0
  else if (primitive_type =? 2) || (primitive_type =? 3) then 1
  else if (primitive_type =? 4) || (primitive_type =? 5) || (primitive_type =? 6) then 2
  else 0.

Definition lower_flat_input_vertex (options : PsbcCompileOptions)
    (intrinsic : nir_intrinsic_instr) : option nir_intrinsic_instr :=
  let vertex_id := ps5_last_provoking_vertex (co_primitive_type options) in
  if negb (bool_decide (in_intrinsic intrinsic = nir_intrinsic_load_input)) then None
  else if co_primitive_id_per_primitive options &&
          (io_location (in_io_semantics intrinsic) =? VARYING_SLOT_PRIMITIVE_ID) then None
  else Some (zero_nir_intrinsic_instr
    <| in_intrinsic := nir_intrinsic_load_input_vertex |>
    <| in_num_components := in_num_components intrinsic |>
    <| in_bit_size := in_bit_size intrinsic |>
    <| in_src := [nir_imm_src vertex_id; intrinsic_src intrinsic 0] |>
    <| in_base := in_base intrinsic |>
    <| in_component := in_component intrinsic |>
    <| in_dest_type := in_dest_type intrinsic |>
    <| in_io_semantics := in_io_semantics intrinsic |>).

(** ** Fragment coordinates *)

Definition fold_use_float_frag_coord_xy (use_float : bool)
    (intrin : nir_intrinsic_instr) : option nir_def :=
  if negb (bool_decide
       (in_intrinsic intrin = nir_intrinsic_load_use_float_frag_coord_xy_amd)) then None
  else Some (nir_imm_bool use_float).

(** A callback on intrinsics as one on instructions (nir_shader_intrinsics_pass). *)
Definition on_intrinsics (f : nir_intrinsic_instr -> option nir_instr) (i : nir_instr) :
    option (list nir_instr) :=
  match i with
  | nir_instr_type_intrinsic x => option_map (fun y => [y]) (f x)
  | _ => None
  end.

(** ** Subgroup numbering is correct *)

(** What one invocation of a [w * h * d] workgroup sees: its coordinates and, for
    a variable workgroup, the size. *)
Definition dims_agree (info : shader_info) (env : nir_env) (w h d : Z) : Prop :=
  if si_workgroup_size_variable info then
    env nir_load_workgroup_size 0%nat = w /\ env nir_load_workgroup_size 1%nat = h /\
    env nir_load_workgroup_size 2%nat = d
  else si_workgroup_size info = [w; h; d].

Definition invocation_at (env : nir_env) (w h d : Z) : Prop :=
  0 <= env nir_load_local_invocation_id 0%nat < w /\
  0 <= env nir_load_local_invocation_id 1%nat < h /\
  0 <= env nir_load_local_invocation_id 2%nat < d.

(** Row-major position of an invocation in its workgroup. *)
Definition linear_index (env : nir_env) (w h : Z) : Z :=
  env nir_load_local_invocation_id 0%nat +
  w * (env nir_load_local_invocation_id 1%nat +
       h * env nir_load_local_invocation_id 2%nat).

(** The expression an instruction was replaced by. *)
Definition lowered_value (env : nir_env) (l : option (list nir_instr)) : option Z :=
  match l with Some [nir_instr_type_expr e] => Some (nir_eval env e) | _ => None end.

Definition subgroup_intrinsic (op : nir_intrinsic_op) : nir_instr :=
  nir_instr_type_intrinsic (zero_nir_intrinsic_instr <| in_intrinsic := op |>).

Lemma linear_index_bound env w h d :
  invocation_at env w h d -> 0 <= linear_index env w h < w * h * d.
Proof.
  unfold invocation_at, linear_index. intros (Hx & Hy & Hz).
  generalize dependent (env nir_load_local_invocation_id 0%nat).
  generalize dependent (env nir_load_local_invocation_id 1%nat).
  generalize dependent (env nir_load_local_invocation_id 2%nat). intros z Hz y Hy x Hx.
  assert (0 <= y + h * z <= h * d - 1) by nia. nia.
Qed.

(** Distinct invocations have distinct linear indices. *)
Lemma linear_index_inj env env' w h d :
  invocation_at env w h d -> invocation_at env' w h d ->
  linear_index env w h = linear_index env' w h ->
  forall c, (c < 3)%nat ->
    env nir_load_local_invocation_id c = env' nir_load_local_invocation_id c.
Proof.
  unfold invocation_at, linear_index. intros (?&?&?) (?&?&?) E.
  set (v := env nir_load_local_invocation_id) in *.
  set (v' := env' nir_load_local_invocation_id) in *.
  assert (v 0%nat = v' 0%nat /\ v 1%nat + h * v 2%nat = v' 1%nat + h * v' 2%nat) as [E0 E1].
  { rewrite (Z.add_comm (v 0%nat)), (Z.add_comm (v' 0%nat)) in E.
    apply Z.div_mod_unique in E; [|lia|lia]. lia. }
  assert (v 1%nat = v' 1%nat /\ v 2%nat = v' 2%nat) as [E2 E3].
  { rewrite (Z.add_comm (v 1%nat)), (Z.add_comm (v' 1%nat)) in E1.
    apply Z.div_mod_unique in E1; [|lia|lia]. lia. }
  intros [|[|[|c]]] Hc; done || lia.
Qed.

Lemma eval_workgroup_dim info env w h d :
  dims_agree info env w h d -> in_width 32 w -> in_width 32 h ->
  nir_eval env (workgroup_dim info 0) = w /\ nir_eval env (workgroup_dim info 1) = h.
Proof.
  unfold dims_agree, workgroup_dim. intros Hd Hw Hh.
  destruct (si_workgroup_size_variable info); simpl.
  - destruct Hd as (-> & -> & _). by rewrite !wrap_id.
  - rewrite Hd. simpl. by rewrite !wrap_id.
Qed.

Lemma eval_linear_index info env w h d :
  dims_agree info env w h d -> invocation_at env w h d -> w * h * d < 2 ^ 32 ->
  nir_eval env
    (nir_iadd (nir_channel nir_load_local_invocation_id 0)
       (nir_imul (workgroup_dim info 0)
          (nir_iadd (nir_channel nir_load_local_invocation_id 1)
             (nir_imul (workgroup_dim info 1) (nir_channel nir_load_local_invocation_id 2)))))
  = linear_index env w h.
Proof.
  intros Hd Hi Hs. pose proof (linear_index_bound env w h d Hi) as Hl.
  destruct Hi as (Hx & Hy & Hz). unfold linear_index in *.
  assert (0 < w /\ 0 < h /\ 0 < d) as (?&?&?) by lia.
  assert (1 <= h * d /\ 1 <= w * d) as [? ?] by lia.
  assert (w <= w * h * d /\ h <= w * h * d) as [? ?] by (split; nia).
  cbn [nir_eval].
  destruct (eval_workgroup_dim info env w h d Hd) as [-> ->]; [unfold in_width; lia..|].
  rewrite !wrap_add_l, !wrap_add_r.
  rewrite <-(wrap_add_r 32 _ (h * u32 _)), wrap_mul_r, wrap_add_r.
  rewrite <-(wrap_add_r 32 _ (w * u32 _)), wrap_mul_r, wrap_add_r.
  apply wrap_id. unfold in_width. lia.
Qed.

(** The number of subgroups of a workgroup: invocations over wave size, rounded up. *)
Definition num_subgroups_of (w h d wave : Z) : Z := (w * h * d + wave - 1) / wave.

Lemma eval_num_subgroups info env w h d wave :
  dims_agree info env w h d -> invocation_at env w h d -> wave = 32 \/ wave = 64 ->
  w * h * d + 64 <= 2 ^ 32 ->
  lowered_value env (lower_ps5_compute_subgroup_id info wave
    (subgroup_intrinsic nir_intrinsic_load_num_subgroups)) =
    Some (num_subgroups_of w h d wave).
Proof.
  intros Hd (?&?&?) Hwave Hs. unfold lower_ps5_compute_subgroup_id, subgroup_intrinsic.
  simpl in_intrinsic. rewrite !bool_decide_eq_false_2, bool_decide_eq_true_2 by done.
  assert (negb (wave =? 32) && negb (wave =? 64) = false) as ->
    by (destruct Hwave as [->| ->]; done).
  simpl. unfold dims_agree in Hd. unfold num_subgroups_of.
  assert (0 < w /\ 0 < h /\ 0 < d) as (?&?&?) by lia.
  assert (1 <= h * d /\ 1 <= w * d /\ 1 <= w * h) as (?&?&?) by lia.
  assert (w <= w * h * d /\ h <= w * h * d /\ d <= w * h * d /\ h * d <= w * h * d)
    as (?&?&?&?) by (repeat split; nia).
  assert (w * (h * d) = w * h * d) by lia.
  destruct (si_workgroup_size_variable info); simpl.
  - destruct Hd as (-> & -> & ->). do 2 f_equal.
    rewrite (wrap_id 32 w), (wrap_id 32 h), (wrap_id 32 d), (wrap_id 32 (h * d)),
      (wrap_id 32 (w * (h * d))), wrap_id by (unfold in_width; lia). lia.
  - rewrite Hd. simpl. do 2 f_equal.
    rewrite (wrap_id 32 (w * h * d)), wrap_id by (unfold in_width; lia). lia.
Qed.

(** On PS5 compute the replaced system values are right for every
    workgroup shape that fits 32 bits: LocalInvocationIndex is the row-major
    position of the invocation, SubgroupId its wave, NumSubgroups the number of
    waves, and the subgroup id is always below that number. *)
Lemma lower_ps5_compute_values info env w h d wave :
  dims_agree info env w h d -> invocation_at env w h d -> wave = 32 \/ wave = 64 ->
  w * h * d + 64 <= 2 ^ 32 ->
  let lower op := lowered_value env
    (lower_ps5_compute_subgroup_id info wave (subgroup_intrinsic op)) in
  lower nir_intrinsic_load_local_invocation_index = Some (linear_index env w h) /\
  lower nir_intrinsic_load_subgroup_id = Some (linear_index env w h / wave) /\
  lower nir_intrinsic_load_num_subgroups = Some (num_subgroups_of w h d wave) /\
  0 <= linear_index env w h / wave < num_subgroups_of w h d wave.
Proof.
  intros Hd Hi Hwave Hs. cbv zeta.
  assert (negb (wave =? 32) && negb (wave =? 64) = false) as Hw
    by (destruct Hwave as [->| ->]; done).
  pose proof (linear_index_bound env w h d Hi) as Hl.
  pose proof (eval_linear_index info env w h d Hd Hi ltac:(lia)) as He.
  split; [|split; [|split]].
  - unfold lower_ps5_compute_subgroup_id. simpl. rewrite Hw. simpl. by rewrite <-He.
  - unfold lower_ps5_compute_subgroup_id. simpl. rewrite Hw. simpl. by rewrite <-He.
  - by apply eval_num_subgroups.
  - unfold num_subgroups_of. destruct Hwave as [->| ->];
      Z.to_euclidean_division_equations; lia.
Qed.

(** An 8x8x4 workgroup, invocation (3, 2, 1) in wave 2 of 8. *)
Definition example_compute_info : shader_info :=
  zero_shader_info <| si_stage := MESA_SHADER_COMPUTE |> <| si_workgroup_size := [8; 8; 4] |>.
Definition example_invocation : nir_env := fun v c =>
  match v with nir_load_local_invocation_id => nth c [3; 2; 1] 0 | _ => 0 end.

Lemma lower_ps5_compute_subgroup_id_witness :
  lowered_value example_invocation
    (lower_ps5_compute_subgroup_id example_compute_info 32
       (subgroup_intrinsic nir_intrinsic_load_subgroup_id)) = Some 2.
Proof.
  destruct (lower_ps5_compute_values
    example_compute_info example_invocation 8 8 4 32) as (_ & -> & _).
  - done.
  - done.
  - by left.
  - done.
  - reflexivity.
Defined.

End Lowering.
