(* ===== verification/InputSemantics.v ===== *)
(** * AGC linkage semantics (psbc_compile.c)

    A pixel shader's attributes and a pre-raster shader's parameter exports are
    paired by 32-bit semantic words whose low byte is the match key.  This file
    models how the words are built: the split of inputs that are read both flat
    and interpolated, the pixel input list and the producer's output list. *)

From S2P Require Import Prelude Types Mesa Nir.

Module InputSemantics.

(** ** Interpolation modes *)

Definition ps5_input_interpolation_mode (intrinsic : nir_intrinsic_instr) : Z :=
  match in_intrinsic intrinsic with
  | nir_intrinsic_load_interpolated_input => 2
  | nir_intrinsic_load_input => 1
  | nir_intrinsic_load_input_vertex => 1
  | _ => 0
  end.

(** Per generic location: how it is read and its flat alias. *)
Record Ps5MixedInputState : Type := mk_Ps5MixedInputState {
  mx_modes : list Z;
  mx_flat_attribute : list Z;
  mx_primitive_id_attribute : Z
}.

#[export] Instance eta_Ps5MixedInputState : Eta Ps5MixedInputState := fun r =>
  mk_Ps5MixedInputState r.(mx_modes) r.(mx_flat_attribute) r.(mx_primitive_id_attribute).

Definition zero_Ps5MixedInputState : Ps5MixedInputState := {|
  mx_modes := replicate (Z.to_nat PSBC_MAX_SEMANTICS) 0;
  mx_flat_attribute := replicate (Z.to_nat PSBC_MAX_SEMANTICS) UINT8_MAX;
  mx_primitive_id_attribute := UINT8_MAX
|}.

Definition classify_ps5_input (instruction : nir_instr) (st : Ps5MixedInputState) :
    Ps5MixedInputState :=
  match instruction with
  | nir_instr_type_intrinsic intrinsic =>
      let mode := ps5_input_interpolation_mode intrinsic in
      if mode =? 0 then st
      else
        let io := in_io_semantics intrinsic in
        if io_location io <? VARYING_SLOT_VAR0 then st
        else loop (io_num_slots io) (fun slot st =>
          let location := io_location io - VARYING_SLOT_VAR0 + slot in
          if location <? PSBC_MAX_SEMANTICS then
            st <| mx_modes := put location (at_ 0 (mx_modes st) location `lor` mode) (mx_modes st) |>
          else st) st
  | _ => st
  end.

Definition remap_ps5_flat_input (state : Ps5MixedInputState) (instruction : nir_instr) :
    option (list nir_instr) :=
  match instruction with
  | nir_instr_type_intrinsic intrinsic =>
      if negb (ps5_input_interpolation_mode intrinsic =? 1) then None
      else
        let io := in_io_semantics intrinsic in
        if (io_location io =? VARYING_SLOT_PRIMITIVE_ID) &&
           negb (mx_primitive_id_attribute state =? UINT8_MAX) then
          Some [nir_instr_type_intrinsic
                  (intrinsic <| in_base := mx_primitive_id_attribute state |>)]
        else if (io_location io <? VARYING_SLOT_VAR0) || negb (io_num_slots io =? 1) then None
        else
          let location := io_location io - VARYING_SLOT_VAR0 in
          if (location >=? PSBC_MAX_SEMANTICS) || negb (at_ 0 (mx_modes state) location =? 3)
          then None
          else Some [nir_instr_type_intrinsic
                       (intrinsic <| in_base := at_ 0 (mx_flat_attribute state) location |>)]
  | _ => None
  end.

(** One location of the alias loop: a location read both ways takes the next
    attribute; running out of attributes stops the split. *)
Definition assign_flat_alias (location : Z) (acc : Ps5MixedInputState * Z) :
    option (Ps5MixedInputState * Z) :=
  let '(state, next) := acc in
  if negb (at_ 0 (mx_modes state) location =? 3) then Some (state, next)
  else if next >=? PSBC_MAX_SEMANTICS then None
  else Some (state <| mx_flat_attribute := put location (u8 next) (mx_flat_attribute state) |>,
             next + 1).

(** The attribute assignment: the classified inputs, their aliases, and the number
    of attributes used. *)
Definition classify_inputs (nir : nir_shader) : Ps5MixedInputState :=
  foldl (fun st i => classify_ps5_input i st) zero_Ps5MixedInputState (nir_instrs nir).

Definition assign_ps5_attributes (state : Ps5MixedInputState) (num_inputs : Z)
    (per_primitive_id : bool) : option (Ps5MixedInputState * Z) :=
  let next := u32 (num_inputs - b2z per_primitive_id) in
  '(state, next) ← try_loop PSBC_MAX_SEMANTICS assign_flat_alias (state, next);
  if per_primitive_id then
    if next >=? PSBC_MAX_SEMANTICS then None
    else Some (state <| mx_primitive_id_attribute := u8 next |>, next + 1)
  else Some (state, next).

(** The shader and the input count after the split; [None] where the C function
    returns false. *)
Definition split_ps5_mixed_inputs (nir : nir_shader) (info : radv_shader_info)
    (primitive_id_per_primitive : bool) : option (nir_shader * radv_shader_info) :=
  let per_primitive_id := primitive_id_per_primitive && ps_prim_id_input (ri_ps info) in
  '(state, next) ← assign_ps5_attributes (classify_inputs nir) (ps_num_inputs (ri_ps info))
                     per_primitive_id;
  if next =? ps_num_inputs (ri_ps info) then Some (nir, info)
  else Some (nir_shader_instructions_pass (remap_ps5_flat_input state) nir,
             info <| ri_ps := ri_ps info <| ps_num_inputs := next |> |>).

(** ** The pixel input list *)

(** Words describing the pixel attributes, in attribute order. *)
Record PsbcInputSemantics : Type := mk_PsbcInputSemantics {
  is_valid : bool;
  is_count : Z;
  is_words : list Z
}.

#[export] Instance eta_PsbcInputSemantics : Eta PsbcInputSemantics := fun r =>
  mk_PsbcInputSemantics r.(is_valid) r.(is_count) r.(is_words).

Definition zero_PsbcInputSemantics : PsbcInputSemantics := {|
  is_valid := false;
  is_count := 0;
  is_words := replicate (Z.to_nat PSBC_MAX_SEMANTICS) 0
|}.

(** The two local arrays of build_input_semantics. *)
(** The word of each attribute and whether it was seen. *)
Record AttributeWords : Type := mk_AttributeWords {
  aw_words_by_attribute : list Z;
  aw_seen : list bool
}.

#[export] Instance eta_AttributeWords : Eta AttributeWords := fun r =>
  mk_AttributeWords r.(aw_words_by_attribute) r.(aw_seen).

Definition zero_AttributeWords : AttributeWords := {|
  aw_words_by_attribute := replicate (Z.to_nat PSBC_MAX_SEMANTICS) 0;
  aw_seen := replicate (Z.to_nat PSBC_MAX_SEMANTICS) false
|}.

(** Recording a word; an attribute described twice must get the same word. *)
Definition record_word (attribute word : Z) (st : AttributeWords) : option AttributeWords :=
  if at_ false (aw_seen st) attribute &&
     negb (at_ 0 (aw_words_by_attribute st) attribute =? word) then None
  else Some (st <| aw_words_by_attribute := put attribute word (aw_words_by_attribute st) |>
                <| aw_seen := put attribute true (aw_seen st) |>).

Definition is_primitive_id (io : nir_io_semantics) : bool :=
  io_location io =? VARYING_SLOT_PRIMITIVE_ID.
Definition is_clip_distance (io : nir_io_semantics) : bool :=
  (io_location io =? VARYING_SLOT_CLIP_DIST0) || (io_location io =? VARYING_SLOT_CLIP_DIST1).
Definition is_cull_distance (io : nir_io_semantics) : bool :=
  (io_location io =? VARYING_SLOT_CULL_DIST0) || (io_location io =? VARYING_SLOT_CULL_DIST1).

(** The word of slot [slot] of a generic or PrimitiveID load. *)
Definition input_word (primitive_id_per_primitive : bool) (mode : Z) (io : nir_io_semantics)
    (slot : Z) : Z :=
  let primitive_id := is_primitive_id io in
  let location := if primitive_id then 0 else io_location io - VARYING_SLOT_VAR0 + slot in
  let word := if primitive_id then PSBC_SEMANTIC_PRIMITIVE_ID else 15 + location in
  if (mode =? 1) && negb (primitive_id && primitive_id_per_primitive)
  then word `lor` BITFIELD_BIT 22 else word.

Definition input_semantics_step (info : shader_info) (generic_count : Z)
    (primitive_id_per_primitive : bool) (intrin : nir_intrinsic_instr) (st : AttributeWords) :
    option AttributeWords :=
  let mode := ps5_input_interpolation_mode intrin in
  if mode =? 0 then Some st
  else
    let io := in_io_semantics intrin in
    let primitive_id := is_primitive_id io in
    if primitive_id && (negb (io_num_slots io =? 1) || negb (mode =? 1)) then None
    else if is_clip_distance io || is_cull_distance io then
      if is_cull_distance io then None
      else
        let declared := si_clip_distance_array_size info + si_cull_distance_array_size info in
        let attribute := u32 (in_base intrin) in
        let distance_register := io_location io - VARYING_SLOT_CLIP_DIST0 in
        if negb (io_num_slots io =? 1) || (declared =? 0) || (declared >? 8) ||
           (attribute >=? generic_count) || (distance_register >? 1) then None
        else record_word attribute (PSBC_SEMANTIC_DISTANCE_REGISTER + distance_register) st
    else if negb primitive_id && (io_location io <? VARYING_SLOT_VAR0) then Some st
    else try_loop (io_num_slots io) (fun slot st =>
      let location := if primitive_id then 0 else io_location io - VARYING_SLOT_VAR0 + slot in
      let attribute := u32 (in_base intrin + slot) in
      if (location >=? PSBC_MAX_SEMANTICS) || (attribute >=? generic_count) then None
      else record_word attribute (input_word primitive_id_per_primitive mode io slot) st) st.

(** The final loop: every attribute must have been seen. *)
Definition collect_word (st : AttributeWords) (attribute : Z) (result : PsbcInputSemantics) :
    option PsbcInputSemantics :=
  if negb (at_ false (aw_seen st) attribute) then None
  else Some (result
    <| is_words := put (is_count result) (at_ 0 (aw_words_by_attribute st) attribute) (is_words result) |>
    <| is_count := is_count result + 1 |>).

Definition has_unsupported_inputs (ps : radv_shader_info_ps) : bool :=
  truthy (ps_input_per_primitive_mask ps) || truthy (ps_explicit_shaded_mask ps) ||
  truthy (ps_explicit_strict_shaded_mask ps) || truthy (ps_float16_shaded_mask ps) ||
  truthy (ps_float16_hi_shaded_mask ps).

(** The final loop stops at the first attribute no load described, keeping what it
    already stored. *)
Fixpoint collect_words (st : AttributeWords) (attributes : list Z) (result : PsbcInputSemantics) :
    bool * PsbcInputSemantics :=
  match attributes with
  | [] => (true, result)
  | attribute :: attributes =>
      match collect_word st attribute result with
      | Some result => collect_words st attributes result
      | None => (false, result)
      end
  end.

(** The C function's return value and what it leaves in [*result]. *)
Definition build_input_semantics (nir : nir_shader) (info : radv_shader_info)
    (primitive_id_per_primitive : bool) : bool * PsbcInputSemantics :=
  let result := zero_PsbcInputSemantics in
  let generic_count := ps_num_inputs (ri_ps info) in
  if generic_count >? PSBC_MAX_SEMANTICS then (false, result)
  else if has_unsupported_inputs (ri_ps info) then (false, result)
  else
    match try_each (input_semantics_step (sh_info nir) generic_count primitive_id_per_primitive)
            (nir_intrinsics nir) zero_AttributeWords with
    | None => (false, result)
    | Some st =>
        let '(seen, result) := collect_words st (seqZ 0 generic_count) result in
        if seen then (true, result <| is_valid := true |>) else (false, result)
    end.

(** ** The producer's output list *)

Definition param_offset (info : radv_shader_info) (slot : Z) : Z :=
  at_ 0 (oi_vs_output_param_offset (ri_outinfo info)) slot.

Definition push_output (word : Z) (m : PsbcShaderMetadata) : PsbcShaderMetadata :=
  m <| md_output_semantics := put (md_output_semantic_count m) word (md_output_semantics m) |>
    <| md_output_semantic_count := md_output_semantic_count m + 1 |>.

Definition output_varying (info : radv_shader_info) (semantic : Z) (m : PsbcShaderMetadata) :
    PsbcShaderMetadata :=
  let parameter := param_offset info (VARYING_SLOT_VAR0 + semantic) in
  if parameter <? PSBC_MAX_SEMANTICS
  then push_output ((15 + semantic) `lor` (parameter ≪ 8)) m else m.

(** PrimitiveID and ViewportIndex: published when exported, if there is room. *)
Definition output_named (info : radv_shader_info) (slot key : Z) (m : PsbcShaderMetadata) :
    PsbcShaderMetadata + PsbcShaderMetadata :=
  let parameter := param_offset info slot in
  if parameter <? PSBC_MAX_SEMANTICS then
    if md_output_semantic_count m >=? PSBC_MAX_SEMANTICS then inr m
    else inl (push_output (key `lor` (parameter ≪ 8)) m)
  else inl m.

Definition output_distance (info : radv_shader_info) (register_index : Z)
    (acc : PsbcShaderMetadata + PsbcShaderMetadata) : PsbcShaderMetadata + PsbcShaderMetadata :=
  match acc with
  | inr m => inr m
  | inl m =>
      let parameter := param_offset info (VARYING_SLOT_CLIP_DIST0 + register_index) in
      if (md_output_semantic_count m >=? PSBC_MAX_SEMANTICS) ||
         (parameter >=? PSBC_MAX_SEMANTICS) then inr m
      else inl (push_output ((PSBC_SEMANTIC_DISTANCE_REGISTER + register_index) `lor`
                             (parameter ≪ 8)) m)
  end.

Definition distance_registers (info : radv_shader_info) : Z :=
  (util_bitcount (oi_clip_dist_mask (ri_outinfo info)) +
   util_bitcount (oi_cull_dist_mask (ri_outinfo info)) + 3) / 4.

(** The return value and the metadata it leaves; [inr] is an early [return
    false], whose partial list stays in the metadata. *)
Definition fill_output_semantics (info : radv_shader_info) (metadata : PsbcShaderMetadata) :
    bool * PsbcShaderMetadata :=
  let m := loop PSBC_MAX_SEMANTICS (output_varying info) metadata in
  match output_named info VARYING_SLOT_PRIMITIVE_ID PSBC_SEMANTIC_PRIMITIVE_ID m with
  | inr m => (false, m)
  | inl m =>
      match output_named info VARYING_SLOT_VIEWPORT PSBC_SEMANTIC_VIEWPORT_INDEX m with
      | inr m => (false, m)
      | inl m =>
          match loop (distance_registers info) (output_distance info) (inl m) with
          | inr m => (false, m)
          | inl m =>
              (md_output_semantic_count m =?
                 oi_param_exports (ri_outinfo info) + oi_prim_param_exports (ri_outinfo info), m)
          end
      end
  end.

(** ** What the pixel input list means *)

(** Attributes and words an input load stands for, [None] when the load has no
    representation. *)
Definition input_entries (info : shader_info) (generic_count : Z) (per_primitive : bool)
    (i : nir_intrinsic_instr) : option (list (Z * Z)) :=
  let mode := ps5_input_interpolation_mode i in
  let io := in_io_semantics i in
  let declared := si_clip_distance_array_size info + si_cull_distance_array_size info in
  let slots := seqZ 0 (io_num_slots io) in
  if mode =? 0 then Some []
  else if is_primitive_id io && (negb (io_num_slots io =? 1) || negb (mode =? 1)) then None
  else if is_cull_distance io then None
  else if is_clip_distance io then
    if (io_num_slots io =? 1) && (0 <? declared) && (declared <=? 8) &&
       (u32 (in_base i) <? generic_count)
    then Some [(u32 (in_base i),
                PSBC_SEMANTIC_DISTANCE_REGISTER + (io_location io - VARYING_SLOT_CLIP_DIST0))]
    else None
  else if negb (is_primitive_id io) && (io_location io <? VARYING_SLOT_VAR0) then Some []
  else if existsb (fun slot =>
            ((if is_primitive_id io then 0 else io_location io - VARYING_SLOT_VAR0 + slot)
               >=? PSBC_MAX_SEMANTICS) ||
            (u32 (in_base i + slot) >=? generic_count)) slots then None
  else Some (map (fun slot => (u32 (in_base i + slot), input_word per_primitive mode io slot)) slots).

Definition record_entry (e : Z * Z) : AttributeWords -> option AttributeWords :=
  record_word e.1 e.2.

(** Widths: the distance sizes are 4-bit fields, num_slots a 6-bit one. *)
Definition info_wf (info : shader_info) : Prop :=
  0 <= si_clip_distance_array_size info /\ 0 <= si_cull_distance_array_size info.

Lemma input_semantics_step_entries info count pp i st :
  info_wf info ->
  input_semantics_step info count pp i st =
    match input_entries info count pp i with
    | Some es => try_each record_entry es st
    | None => None
    end.
Proof.
  intros [? ?]. unfold input_semantics_step, input_entries.
  set (mode := ps5_input_interpolation_mode i). set (io := in_io_semantics i).
  destruct (mode =? 0); [done|]. destruct (is_primitive_id io && _); [done|].
  destruct (is_cull_distance io) eqn:Hcull; [by rewrite orb_true_r|].
  rewrite orb_false_r. destruct (is_clip_distance io) eqn:Hclip.
  - assert ((io_location io - VARYING_SLOT_CLIP_DIST0 >? 1) = false) as ->.
    { unfold is_clip_distance in Hclip. apply orb_true_iff in Hclip.
      rewrite !Z.eqb_eq in Hclip. destruct Hclip as [->| ->]; done. }
    rewrite orb_false_r.
    destruct (Z.eqb_spec (io_num_slots io) 1); [|done]. simpl negb.
    set (d := si_clip_distance_array_size info + si_cull_distance_array_size info) in *.
    zcases; try lia; simpl; try done; by case_match.
  - destruct (negb (is_primitive_id io) && _); [done|].
    unfold try_loop. rewrite try_each_guard. case_match; [done|].
    by rewrite try_each_map.
Qed.

(** The recorded words as a partial map. *)
Definition view (st : AttributeWords) (a : Z) : option Z :=
  if at_ false (aw_seen st) a then Some (at_ 0 (aw_words_by_attribute st) a) else None.

Definition aw_wf (st : AttributeWords) : Prop :=
  length (aw_words_by_attribute st) = Z.to_nat PSBC_MAX_SEMANTICS /\
  length (aw_seen st) = Z.to_nat PSBC_MAX_SEMANTICS.

Lemma record_word_spec a w st :
  aw_wf st -> 0 <= a < PSBC_MAX_SEMANTICS ->
  match record_word a w st with
  | Some st' => aw_wf st' /\ (view st a = None \/ view st a = Some w) /\
                forall b, 0 <= b -> view st' b = if a =? b then Some w else view st b
  | None => exists w', view st a = Some w' /\ w' <> w
  end.
Proof.
  intros [H1 H2] Ha. unfold record_word, view. unfold PSBC_MAX_SEMANTICS in *.
  destruct (at_ false (aw_seen st) a) eqn:Es; simpl andb.
  1: destruct (Z.eqb_spec (at_ 0 (aw_words_by_attribute st) a) w) as [E|E]; simpl negb; cbv iota;
    [|by eauto].
  all: split; [split; simpl; by rewrite length_put|]; split; [subst; auto|].
  all: intros b Hb; simpl; rewrite !at_put by lia; by destruct (Z.eqb_spec a b).
Qed.

Lemma record_entries_spec es st :
  aw_wf st -> (forall a w, (a, w) ∈ es -> 0 <= a < PSBC_MAX_SEMANTICS) ->
  match try_each record_entry es st with
  | Some st' => aw_wf st' /\ forall b w, 0 <= b ->
      view st' b = Some w <-> view st b = Some w \/ (b, w) ∈ es
  | None => exists a w w', w <> w' /\ (view st a = Some w \/ (a, w) ∈ es) /\ (a, w') ∈ es
  end.
Proof.
  revert st. induction es as [|[a w] es IH]; intros st Hst Hes; simpl.
  { split; [done|]. intros. rewrite elem_of_nil. naive_solver. }
  pose proof (record_word_spec a w st Hst (Hes a w ltac:(left))) as Hr.
  unfold record_entry at 1. simpl. destruct (record_word a w st) as [st1|]; cycle 1.
  { destruct Hr as (w' & Hv & Hne). exists a, w', w. split; [done|]. split; [by left|left]. }
  destruct Hr as (Hst1 & Hva & Hv1).
  specialize (IH st1 Hst1 ltac:(intros; eapply Hes; by right)).
  destruct (try_each record_entry es st1) as [st'|].
  - destruct IH as [? IH]. split; [done|]. intros b v Hb. rewrite IH, Hv1 by done.
    rewrite elem_of_cons. destruct (Z.eqb_spec a b) as [->|]; naive_solver congruence.
  - destruct IH as (b & v & v' & Hne & [Hb|Hb] & Hb'); exists b, v, v'.
    + pose proof (Hes b v' ltac:(by right)). rewrite Hv1 in Hb by lia.
      split; [done|]. split; [|by right].
      destruct (Z.eqb_spec a b) as [->|]; [|by left]. right. simplify_eq. left.
    + split; [done|]. split; [right; by right|by right].
Qed.

(** The collecting loop copies the words when every attribute was seen. *)
Lemma collect_loop st n :
  aw_wf st -> 0 <= n <= PSBC_MAX_SEMANTICS ->
  try_loop n (collect_word st) zero_PsbcInputSemantics =
    if forallb (at_ false (aw_seen st)) (seqZ 0 n)
    then Some (mk_PsbcInputSemantics false n
      (take (Z.to_nat n) (aw_words_by_attribute st) ++
       replicate (Z.to_nat (PSBC_MAX_SEMANTICS - n)) 0))
    else None.
Proof.
  intros [H1 _] [Hn0 Hn]. revert Hn. pattern n. apply natlike_ind; [done| |done].
  clear n Hn0. intros n Hn0 IH Hn. unfold try_loop in *. unfold PSBC_MAX_SEMANTICS in *.
  rewrite <-Z.add_1_r, seqZ_succ, try_each_app, IH, forallb_app by lia. clear IH. simpl.
  rewrite andb_true_r. destruct (forallb _ _); [|done]. simpl. unfold collect_word.
  destruct (at_ false (aw_seen st) n); [|done]. simpl. do 2 f_equal.
  rewrite !Z2Nat.inj_add, Nat.add_1_r by lia.
  rewrite (take_S_r _ _ (at_ 0 (aw_words_by_attribute st) n)) by (apply lookup_at; lia).
  unfold put. rewrite insert_app_r_alt by (rewrite length_take; lia).
  rewrite length_take, Nat.min_l, Nat.sub_diag by lia.
  replace (Z.to_nat (32 - n)) with (S (Z.to_nat (32 - (n + 1)))) by lia.
  simpl. by rewrite <-app_assoc.
Qed.

(** [words] is the input list of the shader: one word per attribute, each load
    agreeing with the words of the attributes it reads, and each word coming
    from a load. *)
Definition describes_inputs (nir : nir_shader) (info : radv_shader_info)
    (per_primitive : bool) (words : list Z) : Prop :=
  let count := ps_num_inputs (ri_ps info) in
  let entries := input_entries (sh_info nir) count per_primitive in
  Z.of_nat (length words) = count /\
  (forall i, i ∈ nir_intrinsics nir -> exists es, entries i = Some es /\
     forall a w, (a, w) ∈ es -> words !! Z.to_nat a = Some w) /\
  (forall a w, words !! a = Some w ->
     exists i es, i ∈ nir_intrinsics nir /\ entries i = Some es /\ (Z.of_nat a, w) ∈ es).

Lemma input_entries_range info count pp i es a w :
  input_entries info count pp i = Some es -> (a, w) ∈ es -> 0 <= a < count.
Proof.
  unfold input_entries. intros H Hin.
  pose proof (fun x => wrap_nonneg 32 x ltac:(done)) as Hw.
  assert (Hnil : Some [] = Some es -> 0 <= a < count).
  { intros. simplify_eq. by apply elem_of_nil in Hin. }
  destruct (_ =? 0) in H; [by apply Hnil|]. destruct (is_primitive_id _ && _) in H; [done|].
  destruct (is_cull_distance _) in H; [done|]. destruct (is_clip_distance _) in H.
  { destruct (_ && (u32 (in_base i) <? count)) eqn:E in H; [|done].
    apply andb_true_iff in E as [_ E%Z.ltb_lt]. simplify_eq.
    apply list_elem_of_singleton in Hin. simplify_eq. split; [apply Hw|done]. }
  destruct (negb _ && _) in H; [by apply Hnil|]. destruct (existsb _ _) eqn:E in H; [done|].
  simplify_eq. apply list_elem_of_In, in_map_iff in Hin as (slot & ? & Hs). simplify_eq.
  split; [apply Hw|]. apply existsb_false_forall with (x := slot) in E; [|done].
  apply orb_false_iff in E as [_ E]. lia.
Qed.

(** All loads recorded: either every load is representable and the recorded map
    is the union of their entries, or no consistent list exists. *)
Lemma record_inputs_spec info count pp l st :
  info_wf info -> count <= PSBC_MAX_SEMANTICS -> aw_wf st ->
  match try_each (input_semantics_step info count pp) l st with
  | Some st' => aw_wf st' /\
      exists ess, mapM (input_entries info count pp) l = Some ess /\
      forall b w, 0 <= b -> view st' b = Some w <-> view st b = Some w \/ (b, w) ∈ concat ess
  | None => mapM (input_entries info count pp) l = None \/
      exists ess a w w', mapM (input_entries info count pp) l = Some ess /\ w <> w' /\
        (view st a = Some w \/ (a, w) ∈ concat ess) /\ (a, w') ∈ concat ess
  end.
Proof.
  intros Hinfo Hcount Hst.
  rewrite (try_each_ext _ (fun i st => match input_entries info count pp i with
    | Some es => try_each record_entry es st | None => None end))
    by (intros; by apply input_semantics_step_entries).
  destruct (mapM (input_entries info count pp) l) as [ess|] eqn:Em.
  - apply mapM_Some in Em.
    assert (Heq : try_each (fun i st => match input_entries info count pp i with
      | Some es => try_each record_entry es st | None => None end) l st =
      try_each record_entry (concat ess) st).
    { rewrite <-try_each_concat. clear Hst. revert st.
      induction Em as [|i es l ess Hi _ IH]; intros st; [done|]. simpl. rewrite Hi.
      by destruct (try_each record_entry es st). }
    rewrite Heq. assert (Hr : forall a w, (a, w) ∈ concat ess -> 0 <= a < PSBC_MAX_SEMANTICS).
    { intros a w (es & Hes & Hin)%elem_of_concat.
      apply list_elem_of_lookup in Hes as [k Hk].
      destruct (Forall2_lookup_r _ _ _ _ _ Em Hk) as (i & _ & Hi).
      pose proof (input_entries_range _ _ _ _ _ _ _ Hi Hin). lia. }
    pose proof (record_entries_spec (concat ess) st Hst Hr) as H.
    destruct (try_each record_entry (concat ess) st).
    + destruct H as [? H]. split; [done|]. eauto.
    + right. destruct H as (a & w & w' & H). exists ess, a, w, w'. naive_solver.
  - enough (try_each (fun i st => match input_entries info count pp i with
      | Some es => try_each record_entry es st | None => None end) l st = None) as -> by (by left).
    clear Hst. revert st Em. induction l as [|i l IH]; intros st Em; [done|]. simpl in *.
    destruct (input_entries info count pp i) as [es|]; [|done]. simpl in Em.
    destruct (try_each record_entry es st); [|done]. apply IH.
    by destruct (mapM (input_entries info count pp) l).
Qed.

Lemma zero_aw_wf : aw_wf zero_AttributeWords.
Proof. done. Qed.

Lemma view_zero a : view zero_AttributeWords a = None.
Proof.
  unfold view. change (aw_seen zero_AttributeWords) with (replicate 32 false).
  by rewrite at_replicate.
Qed.

Lemma seen_view st a : at_ false (aw_seen st) a = true <-> is_Some (view st a).
Proof. unfold view. destruct (at_ _ _ _); split; by try intros [? ?]. Qed.

Lemma mapM_entries_elem {A B} (f : A -> option B) l ys i :
  mapM f l = Some ys -> i ∈ l -> exists y, f i = Some y /\ y ∈ ys.
Proof.
  intros H%mapM_Some [k Hk]%list_elem_of_lookup.
  destruct (Forall2_lookup_l _ _ _ _ _ H Hk) as (y & Hy & Hf).
  exists y. split; [done|]. by eapply list_elem_of_lookup_2.
Qed.

Lemma mapM_entries_source {A B} (f : A -> option B) l ys y :
  mapM f l = Some ys -> y ∈ ys -> exists i, i ∈ l /\ f i = Some y.
Proof.
  intros H%mapM_Some [k Hk]%list_elem_of_lookup.
  destruct (Forall2_lookup_r _ _ _ _ _ H Hk) as (i & Hi & Hf).
  exists i. split; [by eapply list_elem_of_lookup_2|done].
Qed.

(** Looking a recorded word up in the collected list. *)
Lemma collected_lookup st (n : Z) k w :
  aw_wf st -> 0 <= n <= PSBC_MAX_SEMANTICS -> forallb (at_ false (aw_seen st)) (seqZ 0 n) = true ->
  take (Z.to_nat n) (aw_words_by_attribute st) !! k = Some w <->
    Z.of_nat k < n /\ view st (Z.of_nat k) = Some w.
Proof.
  intros [Hlen _] Hn Hall. unfold PSBC_MAX_SEMANTICS in *. rewrite lookup_take_Some.
  assert (Hk : Z.of_nat k < n -> view st (Z.of_nat k) = aw_words_by_attribute st !! k).
  { intros Hk. unfold view. rewrite forallb_forall in Hall. rewrite Hall.
    - rewrite <-(lookup_at 0) by lia. by rewrite Nat2Z.id.
    - apply list_elem_of_In, elem_of_seqZ. lia. }
  split; [intros [H1 H2]; rewrite Hk by lia; split; [lia|done]
         |intros [H1 H2]; rewrite Hk in H2 by lia; split; [done|lia]].
Qed.

(** The description alone, without what a failing run leaves behind. *)
Definition described_semantics (nir : nir_shader) (info : radv_shader_info)
    (primitive_id_per_primitive : bool) : option PsbcInputSemantics :=
  let generic_count := ps_num_inputs (ri_ps info) in
  if generic_count >? PSBC_MAX_SEMANTICS then None
  else if has_unsupported_inputs (ri_ps info) then None
  else
    st ← try_each (input_semantics_step (sh_info nir) generic_count primitive_id_per_primitive)
           (nir_intrinsics nir) zero_AttributeWords;
    result ← try_loop generic_count (collect_word st) zero_PsbcInputSemantics;
    Some (result <| is_valid := true |>).

Lemma collect_words_spec st l r :
  match try_each (collect_word st) l r with
  | Some r' => collect_words st l r = (true, r')
  | None => exists r', collect_words st l r = (false, r') /\ is_valid r' = is_valid r
  end.
Proof.
  revert r. induction l as [|a l IH]; intros r; [done|]. simpl.
  destruct (collect_word st a r) as [r1|] eqn:E; [|by exists r].
  specialize (IH r1). case_match; [done|]. destruct IH as (r' & -> & Hv).
  exists r'. split; [done|]. rewrite Hv. unfold collect_word in E. by case_match; simplify_eq.
Qed.

Lemma build_input_semantics_spec nir info pp :
  match described_semantics nir info pp with
  | Some r => build_input_semantics nir info pp = (true, r)
  | None => exists r, build_input_semantics nir info pp = (false, r) /\ is_valid r = false
  end.
Proof.
  unfold described_semantics, build_input_semantics.
  destruct (_ >? _); [by eexists|].
  destruct (has_unsupported_inputs _); [by eexists|]. destruct (try_each _ _ _) as [st|]; [|by eexists]. simpl.
  unfold try_loop. pose proof (collect_words_spec st (seqZ 0 (ps_num_inputs (ri_ps info)))
    zero_PsbcInputSemantics) as Hc.
  destruct (try_each _ _ _) as [r|]; simpl; [by rewrite Hc|].
  destruct Hc as (r' & -> & Hv). by exists r'.
Qed.


Lemma described_semantics_sound nir info pp r :
  info_wf (sh_info nir) -> 0 <= ps_num_inputs (ri_ps info) ->
  described_semantics nir info pp = Some r ->
  is_valid r = true /\ is_count r = ps_num_inputs (ri_ps info) /\
  describes_inputs nir info pp (take (Z.to_nat (is_count r)) (is_words r)).
Proof.
  intros Hinfo Hc0. set (count := ps_num_inputs (ri_ps info)) in *.
  unfold described_semantics. fold count.
  destruct (Z.gtb_spec count PSBC_MAX_SEMANTICS) as [|Hc]; [done|]. case_match; [done|].
  pose proof (record_inputs_spec (sh_info nir) count pp (nir_intrinsics nir) _ Hinfo Hc zero_aw_wf) as Hr.
  destruct (try_each _ _ _) as [st|]; [|done]. destruct Hr as (Hst & ess & Hm & Hv).
  simpl. rewrite collect_loop by (done || lia).
  destruct (forallb _ _) eqn:Hall; [|done]. simpl. intros [= <-]. simpl.
  split; [done|]. split; [done|]. destruct Hst as [Hlen ?].
  rewrite take_app_le, take_take, Nat.min_id
    by (rewrite length_take; unfold PSBC_MAX_SEMANTICS in *; lia).
  split; [rewrite length_take; unfold PSBC_MAX_SEMANTICS in *; lia|]. fold count.
  split.
  + intros i Hi. destruct (mapM_entries_elem _ _ _ _ Hm Hi) as (es & Hes & Hin).
    exists es. split; [done|]. intros a w Haw.
    pose proof (input_entries_range _ _ _ _ _ _ _ Hes Haw).
    apply collected_lookup; [done|lia|done|]. rewrite Z2Nat.id by lia. split; [lia|].
    apply Hv; [lia|]. right. apply elem_of_concat. eauto.
  + intros a w Ha. apply collected_lookup in Ha as [? Ha]; [|done|lia|done].
    apply Hv in Ha as [Ha|Ha]; [by rewrite view_zero in Ha| |lia].
    apply elem_of_concat in Ha as (es & Hes & Ha).
    destruct (mapM_entries_source _ _ _ _ Hm Hes) as (i & ? & ?). eauto.
Qed.

(** A consistent description rules out both ways of failing. *)
Lemma describes_no_failure nir info pp words ess a w w' :
  describes_inputs nir info pp words ->
  mapM (input_entries (sh_info nir) (ps_num_inputs (ri_ps info)) pp) (nir_intrinsics nir) = Some ess ->
  (a, w) ∈ concat ess -> (a, w') ∈ concat ess -> w = w'.
Proof.
  intros (_ & Hload & _) Hm (es & Hes & Hw)%elem_of_concat (es' & Hes' & Hw')%elem_of_concat.
  destruct (mapM_entries_source _ _ _ _ Hm Hes) as (i & Hi & Hie).
  destruct (mapM_entries_source _ _ _ _ Hm Hes') as (i' & Hi' & Hie').
  destruct (Hload i Hi) as (? & ? & Hl). destruct (Hload i' Hi') as (? & ? & Hl').
  simplify_eq. apply Hl in Hw. apply Hl' in Hw'. congruence.
Qed.

Lemma described_semantics_complete nir info pp words :
  info_wf (sh_info nir) -> 0 <= ps_num_inputs (ri_ps info) <= PSBC_MAX_SEMANTICS ->
  has_unsupported_inputs (ri_ps info) = false -> describes_inputs nir info pp words ->
  exists r, described_semantics nir info pp = Some r /\
    take (Z.to_nat (is_count r)) (is_words r) = words.
Proof.
  intros Hinfo [Hc0 Hc] Hun Hd.
  pose proof (fun ess a w w' => describes_no_failure nir info pp words ess a w w' Hd) as Hnf.
  destruct Hd as (Hlen & Hload & Hsrc).
  set (count := ps_num_inputs (ri_ps info)) in *.
  unfold described_semantics. fold count.
  destruct (Z.gtb_spec count PSBC_MAX_SEMANTICS); [lia|]. rewrite Hun.
  pose proof (record_inputs_spec (sh_info nir) count pp (nir_intrinsics nir) _ Hinfo Hc zero_aw_wf) as Hr.
  destruct (try_each _ _ _) as [st|].
  + destruct Hr as (Hst & ess & Hm & Hv). simpl. rewrite collect_loop by (done || lia).
    assert (Hvw : forall k w, words !! k = Some w -> view st (Z.of_nat k) = Some w).
    { intros k w Hk. destruct (Hsrc k w Hk) as (i & es & Hi & Hes & Hin).
      apply Hv; [lia|]. right. apply elem_of_concat.
      destruct (mapM_entries_elem _ _ _ _ Hm Hi) as (es' & ? & ?). naive_solver. }
    assert (Hall : forallb (at_ false (aw_seen st)) (seqZ 0 count) = true).
    { apply forallb_forall. intros a Ha%list_elem_of_In%elem_of_seqZ. apply seen_view.
      destruct (lookup_lt_is_Some_2 words (Z.to_nat a)) as [w Hw]; [lia|].
      exists w. rewrite <-(Z2Nat.id a) by lia. by apply Hvw. }
    rewrite Hall. simpl. eexists. split; [done|]. simpl.
    pose proof (proj1 Hst) as Hl. rewrite take_app_le, take_take, Nat.min_id
      by (rewrite length_take; unfold PSBC_MAX_SEMANTICS in *; lia).
    apply list_eq_same_length with (n := Z.to_nat count);
      [lia|rewrite length_take; unfold PSBC_MAX_SEMANTICS in *; lia|].
    intros k x y Hk Hx Hy. apply collected_lookup in Hx as [_ Hx]; [|done|lia|done].
    apply Hvw in Hy. congruence.
  + exfalso. destruct Hr as [Hm|(ess & a & w & w' & Hm & Hne & [Hw|Hw] & Hw')].
    * apply mapM_None in Hm. apply Exists_exists in Hm as (i & Hi & Hn).
      destruct (Hload i Hi) as (es & ? & _). congruence.
    * by rewrite view_zero in Hw.
    * by eapply Hne, Hnf.
Qed.


(** Two interpolated loads of location 0, a flat load of location 1 and the
    primitive id, on attributes 0, 1 and 2. *)
Definition example_load (op : nir_intrinsic_op) (location base : Z) : nir_instr :=
  nir_instr_type_intrinsic (zero_nir_intrinsic_instr
    <| in_intrinsic := op |> <| in_base := base |> <| in_num_components := 1 |>
    <| in_io_semantics := mk_nir_io_semantics location 1 0 |>).
Definition example_pixel_nir : nir_shader :=
  zero_nir_shader <| sh_impls :=
    [[[example_load nir_intrinsic_load_interpolated_input 32 0; nir_instr_type_other 7];
      [example_load nir_intrinsic_load_input 33 1;
       example_load nir_intrinsic_load_interpolated_input 32 0;
       example_load nir_intrinsic_load_input VARYING_SLOT_PRIMITIVE_ID 2]]] |>.
Definition example_pixel_info : radv_shader_info :=
  zero_radv_shader_info <| ri_ps := zero_radv_shader_info_ps <| ps_num_inputs := 3 |>
    <| ps_prim_id_input := true |> |>.


(** ** Splitting mixed inputs *)

(** How many of the first [l] locations are read both flat and interpolated. *)
Definition mixed_before (modes : list Z) (l : Z) : Z :=
  foldl (fun acc k => acc + b2z (at_ 0 modes k =? 3)) 0 (seqZ 0 l).

Lemma mixed_before_succ modes l :
  0 <= l -> mixed_before modes (l + 1) = mixed_before modes l + b2z (at_ 0 modes l =? 3).
Proof. intros. unfold mixed_before. by rewrite seqZ_succ, foldl_app by done. Qed.

Lemma mixed_before_mono modes l l' :
  0 <= l <= l' -> mixed_before modes l <= mixed_before modes l'.
Proof.
  intros [Hl Hl']. replace l' with (l + (l' - l)) by lia.
  assert (0 <= l' - l) as Hd by lia. revert Hd. generalize (l' - l). intros d Hd.
  pattern d. apply natlike_ind; [rewrite Z.add_0_r; lia| |done].
  intros k Hk IH. rewrite Z.add_succ_r, <-Z.add_1_r, mixed_before_succ by lia.
  pose proof (b2z_range (at_ 0 modes (l + k) =? 3)). lia.
Qed.

Lemma alias_loop state base n :
  length (mx_flat_attribute state) = Z.to_nat PSBC_MAX_SEMANTICS ->
  0 <= base -> 0 <= n <= PSBC_MAX_SEMANTICS ->
  match try_loop n assign_flat_alias (state, base) with
  | Some (st, next) =>
      next = base + mixed_before (mx_modes state) n /\
      mx_modes st = mx_modes state /\
      length (mx_flat_attribute st) = Z.to_nat PSBC_MAX_SEMANTICS /\
      mx_primitive_id_attribute st = mx_primitive_id_attribute state /\
      forall l, 0 <= l < n -> at_ 0 (mx_modes state) l = 3 ->
        at_ 0 (mx_flat_attribute st) l = base + mixed_before (mx_modes state) l /\
        base + mixed_before (mx_modes state) l < PSBC_MAX_SEMANTICS
  | None => PSBC_MAX_SEMANTICS < base + mixed_before (mx_modes state) n
  end.
Proof.
  intros Hlen Hb [Hn0 Hn]. revert Hn. pattern n. apply natlike_ind; [|clear n Hn0|done].
  { intros _. simpl. repeat split; try done; [unfold mixed_before; simpl; lia|lia..]. }
  intros n Hn0 IH Hn. unfold try_loop, PSBC_MAX_SEMANTICS in *.
  rewrite <-Z.add_1_r in *. rewrite mixed_before_succ by done. pose proof (b2z_range (at_ 0 (mx_modes state) n =? 3)).
  rewrite seqZ_succ, try_each_app by done. specialize (IH ltac:(lia)).
  destruct (try_each assign_flat_alias (seqZ 0 n) (state, base)) as [[st next]|]; simpl; [|lia].
  destruct IH as (-> & Hm & Hl & Hp & Ha). rewrite Hm.
  pose proof (mixed_before_mono (mx_modes state) 0 n ltac:(lia)) as Hpos.
  change (mixed_before (mx_modes state) 0) with 0 in Hpos.
  destruct (Z.eqb_spec (at_ 0 (mx_modes state) n) 3) as [E|E]; simpl negb; cbv iota; simpl b2z.
  - rewrite Z.geb_leb. unfold PSBC_MAX_SEMANTICS.
    destruct (Z.leb_spec 32 (base + mixed_before (mx_modes state) n)); [lia|]. cbn. rewrite length_put. repeat split; try done; try lia;
      (destruct (decide (l = n)) as [->|]; [|rewrite ?at_put_ne by lia; apply Ha; [lia|done]]).
    + rewrite at_put_eq by lia. apply wrap_id. unfold in_width. simpl. lia.
    + lia.
  - simpl. repeat split; try done; try lia; (apply Ha; [|done]);
      (destruct (decide (l = n)) as [->|]; [done|lia]).
Qed.

(** An input load covers a generic location when the location is one of its
    slots. *)
Definition covers (i : nir_instr) (mode l : Z) : bool :=
  match i with
  | nir_instr_type_intrinsic x =>
      let io := in_io_semantics x in
      (ps5_input_interpolation_mode x =? mode) && (VARYING_SLOT_VAR0 <=? io_location io) &&
      (io_location io - VARYING_SLOT_VAR0 <=? l) &&
      (l <? io_location io - VARYING_SLOT_VAR0 + io_num_slots io)
  | _ => false
  end.

(** A location is mixed when it is read both flat (1) and interpolated (2). *)
Definition mixed (nir : nir_shader) (l : Z) : bool :=
  existsb (fun i => covers i 1 l) (nir_instrs nir) &&
  existsb (fun i => covers i 2 l) (nir_instrs nir).

Definition mixed_count (nir : nir_shader) (l : Z) : Z :=
  foldl (fun acc k => acc + b2z (mixed nir k)) 0 (seqZ 0 l).

(** num_slots is an unsigned bit-field. *)
Definition slots_wf (i : nir_instr) : Prop :=
  match i with
  | nir_instr_type_intrinsic x => 0 <= io_num_slots (in_io_semantics x)
  | _ => True
  end.

Lemma classify_step i st l :
  length (mx_modes st) = Z.to_nat PSBC_MAX_SEMANTICS -> slots_wf i ->
  0 <= l < PSBC_MAX_SEMANTICS ->
  length (mx_modes (classify_ps5_input i st)) = Z.to_nat PSBC_MAX_SEMANTICS /\
  at_ 0 (mx_modes (classify_ps5_input i st)) l =
    at_ 0 (mx_modes st) l `lor` ((if covers i 1 l then 1 else 0) `lor` (if covers i 2 l then 2 else 0)).
Proof.
  intros Hlen Hwf Hl. destruct i as [x| | |]; simpl; try (by rewrite Z.lor_0_r).
  set (mode := ps5_input_interpolation_mode x). set (io := in_io_semantics x).
  assert (mode = 0 \/ mode = 1 \/ mode = 2) as Hmode
    by (unfold mode, ps5_input_interpolation_mode; case_match; auto).
  destruct (Z.eqb_spec mode 0) as [E0|E0]; [rewrite E0; simpl; by rewrite Z.lor_0_r|].
  destruct (Z.ltb_spec (io_location io) VARYING_SLOT_VAR0).
  { destruct (Z.leb_spec VARYING_SLOT_VAR0 (io_location io)); [lia|].
    by rewrite !andb_false_r, Z.lor_0_r. }
  destruct (Z.leb_spec VARYING_SLOT_VAR0 (io_location io)); [|lia]. rewrite !andb_true_r.
  set (base := io_location io - VARYING_SLOT_VAR0) in *. simpl in Hwf. fold io in Hwf.
  pose proof (loop_ind (fun k st' => length (mx_modes st') = Z.to_nat PSBC_MAX_SEMANTICS /\
    at_ 0 (mx_modes st') l = at_ 0 (mx_modes st) l `lor`
      (if (base <=? l) && (l <? base + k) then mode else 0))
    (io_num_slots io) (fun slot st =>
      if base + slot <? PSBC_MAX_SEMANTICS then
        st <| mx_modes := put (base + slot) (at_ 0 (mx_modes st) (base + slot) `lor` mode) (mx_modes st) |>
      else st) st Hwf) as Hloop.
  destruct Hloop as [Hl1 ->]; [| |split; [done|]].
  - split; [done|]. by destruct (Z.leb_spec base l), (Z.ltb_spec l (base + 0)); [lia|rewrite Z.lor_0_r..].
  - intros k st' Hk [Hlen' Hat]. destruct (Z.ltb_spec (base + k) PSBC_MAX_SEMANTICS); simpl.
    + rewrite length_put. split; [done|]. rewrite at_put by lia.
      destruct (Z.eqb_spec (base + k) l) as [<-|].
      * rewrite Hat. zcases; try lia; simpl; by rewrite ?Z.lor_0_r.
      * rewrite Hat. zcases; try lia; done.
    + split; [done|]. rewrite Hat. zcases; try lia; done.
  - f_equal. destruct Hmode as [|[->| ->]]; [done| |]; simpl;
      destruct ((base <=? l) && (l <? base + io_num_slots io)); done.
Qed.

Lemma classify_inputs_modes nir l :
  Forall slots_wf (nir_instrs nir) -> 0 <= l < PSBC_MAX_SEMANTICS ->
  (at_ 0 (mx_modes (classify_inputs nir)) l =? 3) = mixed nir l.
Proof.
  intros Hwf Hl. unfold classify_inputs, mixed.
  enough (forall st li, length (mx_modes st) = Z.to_nat PSBC_MAX_SEMANTICS -> Forall slots_wf li ->
    at_ 0 (mx_modes (foldl (fun st i => classify_ps5_input i st) st li)) l =
    at_ 0 (mx_modes st) l `lor`
      ((if existsb (fun i => covers i 1 l) li then 1 else 0) `lor`
       (if existsb (fun i => covers i 2 l) li then 2 else 0))) as H.
  { rewrite H by done.
    change (mx_modes zero_Ps5MixedInputState) with (replicate 32 0). rewrite at_replicate.
    by destruct (existsb _ _), (existsb _ _). }
  intros st li Hst His. revert st Hst. induction His as [|i li Hi _ IH]; intros st Hst; simpl.
  { by rewrite Z.lor_0_r. }
  destruct (classify_step i st l Hst Hi Hl) as [H1 H2]. rewrite IH, H2 by done.
  rewrite <-Z.lor_assoc. f_equal.
  destruct (covers i 1 l), (covers i 2 l), (existsb _ li), (existsb _ li); done.
Qed.

Lemma mixed_before_count nir l :
  Forall slots_wf (nir_instrs nir) -> 0 <= l <= PSBC_MAX_SEMANTICS ->
  mixed_before (mx_modes (classify_inputs nir)) l = mixed_count nir l.
Proof.
  intros Hwf [Hl0 Hl]. revert Hl. pattern l. apply natlike_ind; [done| |done].
  intros k Hk IH Hk'. rewrite <-Z.add_1_r, mixed_before_succ, IH by lia.
  unfold mixed_count. rewrite seqZ_succ, foldl_app by done. simpl.
  by rewrite classify_inputs_modes by (done || lia).
Qed.

(** Where a load reads its attribute after a split with at least one alias:
    flat loads of a mixed location read the location's alias, numbered after the
    [base] original per-vertex attributes in location order, and a per-primitive
    PrimitiveID takes the last attribute. *)
Definition redirect (nir : nir_shader) (base : Z) (per_primitive_id : bool) (i : nir_instr) :
    nir_instr :=
  match i with
  | nir_instr_type_intrinsic x =>
      let io := in_io_semantics x in
      let l := io_location io - VARYING_SLOT_VAR0 in
      if negb (ps5_input_interpolation_mode x =? 1) then i
      else if is_primitive_id io && per_primitive_id then
        nir_instr_type_intrinsic (x <| in_base := base + mixed_count nir PSBC_MAX_SEMANTICS |>)
      else if (0 <=? l) && (l <? PSBC_MAX_SEMANTICS) && (io_num_slots io =? 1) && mixed nir l then
        nir_instr_type_intrinsic (x <| in_base := base + mixed_count nir l |>)
      else i
  | _ => i
  end.

Lemma mixed_count_mono nir l l' :
  Forall slots_wf (nir_instrs nir) -> 0 <= l <= l' -> l' <= PSBC_MAX_SEMANTICS ->
  mixed_count nir l <= mixed_count nir l'.
Proof.
  intros. rewrite <-!mixed_before_count by (done || lia). by apply mixed_before_mono.
Qed.

Lemma mixed_count_step nir l :
  0 <= l -> mixed nir l = true -> mixed_count nir (l + 1) = mixed_count nir l + 1.
Proof. intros Hl Hm. unfold mixed_count. rewrite seqZ_succ, foldl_app by done. simpl. by rewrite Hm. Qed.

(** Classification leaves the alias table alone. *)
Lemma classify_flat i st :
  mx_flat_attribute (classify_ps5_input i st) = mx_flat_attribute st /\
  mx_primitive_id_attribute (classify_ps5_input i st) = mx_primitive_id_attribute st.
Proof.
  destruct i as [x| | |]; simpl; try done. repeat (case_match; [done|]).
  apply (foldl_preserves (fun st' => mx_flat_attribute st' = mx_flat_attribute st /\
    mx_primitive_id_attribute st' = mx_primitive_id_attribute st)); [|done].
  intros st' k [<- <-]. by case_match.
Qed.

(** Some location is the last mixed one, and its alias bounds the count. *)
Lemma last_alias nir base :
  Forall slots_wf (nir_instrs nir) -> 0 < mixed_count nir PSBC_MAX_SEMANTICS ->
  (forall l, 0 <= l < PSBC_MAX_SEMANTICS -> mixed nir l = true ->
     base + mixed_count nir l < PSBC_MAX_SEMANTICS) ->
  base + mixed_count nir PSBC_MAX_SEMANTICS <= PSBC_MAX_SEMANTICS.
Proof.
  intros Hwf Hpos Hb.
  enough (forall k, 0 <= k -> k <= PSBC_MAX_SEMANTICS -> mixed_count nir k = 0 \/
    exists l, 0 <= l < k /\ mixed nir l = true /\ mixed_count nir k = mixed_count nir l + 1) as H.
  { destruct (H PSBC_MAX_SEMANTICS ltac:(done) ltac:(done)) as [|(l & Hl & Hm & E)]; [lia|].
    pose proof (Hb l Hl Hm). lia. }
  intros k Hk. pattern k. apply natlike_ind; [by left| |done]. clear k Hk.
  intros k Hk IH Hk'. rewrite <-Z.add_1_r. destruct (mixed nir k) eqn:Em.
  { right. exists k. split; [lia|]. split; [done|]. by apply mixed_count_step. }
  assert (mixed_count nir (k + 1) = mixed_count nir k) as ->.
  { unfold mixed_count. rewrite seqZ_succ, foldl_app by done. simpl. rewrite Em. simpl. lia. }
  destruct (IH ltac:(lia)) as [|(l & Hl & ?)]; [by left|]. right. exists l. split; [lia|done].
Qed.

(** The remapping pass does what [redirect] says. *)
Lemma remap_redirect nir base (per : bool) st i :
  (forall l, 0 <= l < PSBC_MAX_SEMANTICS -> mixed nir l = true ->
     at_ 0 (mx_flat_attribute st) l = base + mixed_count nir l) ->
  (forall l, 0 <= l < PSBC_MAX_SEMANTICS -> (at_ 0 (mx_modes st) l =? 3) = mixed nir l) ->
  (if per then mx_primitive_id_attribute st = base + mixed_count nir PSBC_MAX_SEMANTICS /\
               mx_primitive_id_attribute st <> UINT8_MAX
   else mx_primitive_id_attribute st = UINT8_MAX) ->
  nir_rewrite (remap_ps5_flat_input st) i = [redirect nir base per i].
Proof.
  intros Hal Hmodes Hp. unfold nir_rewrite. destruct i as [x| | |]; simpl; try done.
  destruct (negb _); [done|]. set (io := in_io_semantics x). fold (is_primitive_id io).
  assert (negb (mx_primitive_id_attribute st =? UINT8_MAX) = per) as ->.
  { destruct per; [destruct Hp as [_ Hp]|]; by destruct (Z.eqb_spec (mx_primitive_id_attribute st) UINT8_MAX). }
  destruct (is_primitive_id io && per) eqn:E.
  { apply andb_true_iff in E as [_ ->]. destruct Hp as [-> _]. done. }
  set (l := io_location io - VARYING_SLOT_VAR0).
  destruct (Z.ltb_spec (io_location io) VARYING_SLOT_VAR0).
  { destruct (Z.leb_spec 0 l); [lia|]. done. }
  destruct (Z.leb_spec 0 l); [|lia]. simpl.
  destruct (io_num_slots io =? 1); simpl; [|by rewrite andb_false_r].
  rewrite Z.geb_leb. destruct (Z.leb_spec PSBC_MAX_SEMANTICS l), (Z.ltb_spec l PSBC_MAX_SEMANTICS);
    try lia; simpl; [done|].
  rewrite Hmodes by done. destruct (mixed nir l) eqn:Em; simpl; [|done]. by rewrite Hal.
Qed.

(** The assignment in terms of the shader. *)
Lemma assign_spec nir num_inputs (per : bool) :
  Forall slots_wf (nir_instrs nir) -> b2z per <= num_inputs < 2 ^ 32 ->
  match assign_ps5_attributes (classify_inputs nir) num_inputs per with
  | Some (st, next) =>
      next = num_inputs + mixed_count nir PSBC_MAX_SEMANTICS /\
      (0 < mixed_count nir PSBC_MAX_SEMANTICS -> next <= PSBC_MAX_SEMANTICS) /\
      forall i, nir_rewrite (remap_ps5_flat_input st) i =
                [redirect nir (num_inputs - b2z per) per i]
  | None => PSBC_MAX_SEMANTICS < num_inputs + mixed_count nir PSBC_MAX_SEMANTICS
  end.
Proof.
  intros Hwf Hn. unfold assign_ps5_attributes. pose proof (b2z_range per).
  rewrite (wrap_id 32) by (unfold in_width; lia).
  set (base := num_inputs - b2z per).
  assert (Hst : length (mx_flat_attribute (classify_inputs nir)) = 32%nat /\
                mx_primitive_id_attribute (classify_inputs nir) = UINT8_MAX).
  { apply (foldl_preserves (fun st => length (mx_flat_attribute st) = 32%nat /\
      mx_primitive_id_attribute st = UINT8_MAX)); [|done].
    intros st i Hi. by destruct (classify_flat i st) as [-> ->]. }
  pose proof (alias_loop (classify_inputs nir) base PSBC_MAX_SEMANTICS
    (proj1 Hst) ltac:(lia) ltac:(done)) as Ha.
  destruct (try_loop _ _ _) as [[st next]|]; simpl;
    [|rewrite mixed_before_count in Ha by done; lia].
  destruct Ha as (Hnext & Hm & Hl & Hp & Ha). rewrite mixed_before_count in Hnext by done.
  pose proof (mixed_count_mono nir 0 PSBC_MAX_SEMANTICS Hwf ltac:(done) ltac:(done)) as Hpos.
  change (mixed_count nir 0) with 0 in Hpos.
  assert (Hal : forall l, 0 <= l < PSBC_MAX_SEMANTICS -> mixed nir l = true ->
    at_ 0 (mx_flat_attribute st) l = base + mixed_count nir l).
  { intros l Hr Hmix. rewrite <-mixed_before_count by (done || lia). apply Ha; [done|].
    apply Z.eqb_eq. by rewrite classify_inputs_modes. }
  assert (Hfit : 0 < mixed_count nir PSBC_MAX_SEMANTICS -> next <= PSBC_MAX_SEMANTICS).
  { intros Hpm. rewrite Hnext. apply (last_alias nir base); [done..|].
    intros l Hr Hmix. rewrite <-mixed_before_count by (done || lia). apply Ha; [done|].
    apply Z.eqb_eq. by rewrite classify_inputs_modes. }
  assert (Hmodes : forall l, 0 <= l < PSBC_MAX_SEMANTICS ->
    (at_ 0 (mx_modes st) l =? 3) = mixed nir l).
  { intros. rewrite Hm. by apply classify_inputs_modes. }
  destruct per; simpl b2z in *.
  - destruct (Z.geb_spec next PSBC_MAX_SEMANTICS); [lia|]. split; [lia|]. split; [lia|].
    intros i. apply remap_redirect; simpl; [done|done|].
    rewrite wrap_id by (unfold in_width, PSBC_MAX_SEMANTICS in *; simpl; lia).
    unfold UINT8_MAX, PSBC_MAX_SEMANTICS in *. simpl. lia.
  - split; [lia|]. split; [done|]. intros i. apply remap_redirect; [done|done|].
    rewrite Hp. by destruct Hst as [_ ->].
Qed.

(** C30: splitting is exact.  It fails only when the original attributes plus one
    alias per mixed location exceed the 32 available; otherwise the pixel stage
    has that many attributes, and the only loads that moved are the flat loads of
    mixed locations (to their own alias, in location order after the original
    per-vertex attributes) and a per-primitive PrimitiveID (to the last
    attribute). *)
Theorem split_ps5_mixed_inputs_exact nir info pp :
  let n := ps_num_inputs (ri_ps info) in
  let per := pp && ps_prim_id_input (ri_ps info) in
  let extra := mixed_count nir PSBC_MAX_SEMANTICS in
  Forall slots_wf (nir_instrs nir) -> b2z per <= n < 2 ^ 32 ->
  match split_ps5_mixed_inputs nir info pp with
  | Some (nir', info') =>
      ps_num_inputs (ri_ps info') = n + extra /\
      (0 < extra -> n + extra <= PSBC_MAX_SEMANTICS) /\
      nir_instrs nir' =
        if extra =? 0 then nir_instrs nir
        else map (redirect nir (n - b2z per) per) (nir_instrs nir)
  | None => PSBC_MAX_SEMANTICS < n + extra
  end.
Proof.
  cbv zeta. intros Hwf Hn. unfold split_ps5_mixed_inputs.
  pose proof (assign_spec nir _ _ Hwf Hn) as Ha.
  destruct (assign_ps5_attributes _ _ _) as [[st next]|]; cbv [mbind option_bind]; [|exact Ha].
  destruct Ha as (-> & Hfit & Hre).
  destruct (Z.eqb_spec (ps_num_inputs (ri_ps info) + mixed_count nir PSBC_MAX_SEMANTICS)
    (ps_num_inputs (ri_ps info))).
  - assert (mixed_count nir PSBC_MAX_SEMANTICS = 0) as E by lia. rewrite E in *.
    split; [lia|]. split; [lia|done].
  - split; [done|]. split; [done|]. destruct (Z.eqb_spec (mixed_count nir PSBC_MAX_SEMANTICS) 0); [lia|].
    rewrite nir_instrs_pass. clear -Hre. induction (nir_instrs nir) as [|i l IH]; [done|].
    rewrite bind_cons, Hre, IH. done.
Qed.

(** Distinct mixed locations have distinct aliases, all below the PrimitiveID. *)
Lemma aliases_distinct nir l l' :
  Forall slots_wf (nir_instrs nir) -> 0 <= l < l' -> l' < PSBC_MAX_SEMANTICS ->
  mixed nir l = true -> mixed nir l' = true ->
  mixed_count nir l < mixed_count nir l' < mixed_count nir PSBC_MAX_SEMANTICS.
Proof.
  intros Hwf Hl Hl' Hm Hm'.
  pose proof (mixed_count_mono nir (l + 1) l' Hwf ltac:(lia) ltac:(lia)).
  pose proof (mixed_count_mono nir (l' + 1) PSBC_MAX_SEMANTICS Hwf ltac:(lia) ltac:(done)).
  rewrite mixed_count_step in * by (done || lia). lia.
Qed.

(** Location 0 read both ways and a per-primitive PrimitiveID: the flat load
    moves to attribute 2, the id to attribute 3. *)
Definition example_mixed_nir : nir_shader :=
  zero_nir_shader <| sh_impls :=
    [[[example_load nir_intrinsic_load_interpolated_input 32 0;
       example_load nir_intrinsic_load_input 32 0;
       example_load nir_intrinsic_load_interpolated_input 33 1;
       example_load nir_intrinsic_load_input VARYING_SLOT_PRIMITIVE_ID 2]]] |>.

Lemma split_ps5_mixed_inputs_witness :
  option_map (fun r => (ps_num_inputs (ri_ps r.2), nir_instrs r.1))
    (split_ps5_mixed_inputs example_mixed_nir example_pixel_info true) =
  Some (4, [example_load nir_intrinsic_load_interpolated_input 32 0;
            example_load nir_intrinsic_load_input 32 2;
            example_load nir_intrinsic_load_interpolated_input 33 1;
            example_load nir_intrinsic_load_input VARYING_SLOT_PRIMITIVE_ID 3]).
Proof.
  pose proof (split_ps5_mixed_inputs_exact example_mixed_nir example_pixel_info true) as H.
  cbv zeta in H. specialize (H ltac:(repeat constructor; done) ltac:(done)).
  destruct (split_ps5_mixed_inputs example_mixed_nir example_pixel_info true) as [[nir' info']|].
  - destruct H as (H1 & _ & H2). simpl option_map. rewrite H1, H2. vm_compute. reflexivity.
  - exfalso. vm_compute in H. discriminate.
Defined.

(** ** The producer's list *)

Definition semantic_word (key parameter : Z) : Z := key `lor` (parameter ≪ 8).

Definition varying_words (info : radv_shader_info) (k : Z) : list Z :=
  omap (fun s => let p := param_offset info (VARYING_SLOT_VAR0 + s) in
                 if p <? PSBC_MAX_SEMANTICS then Some (semantic_word (15 + s) p) else None)
    (seqZ 0 k).

Definition named_words (info : radv_shader_info) (slot key : Z) : list Z :=
  let p := param_offset info slot in
  if p <? PSBC_MAX_SEMANTICS then [semantic_word key p] else [].

Definition distance_words (info : radv_shader_info) (k : Z) : list Z :=
  map (fun r => semantic_word (PSBC_SEMANTIC_DISTANCE_REGISTER + r)
                  (param_offset info (VARYING_SLOT_CLIP_DIST0 + r))) (seqZ 0 k).

(** Every parameter the stage exports, named. *)
Definition output_words (info : radv_shader_info) : list Z :=
  varying_words info PSBC_MAX_SEMANTICS ++
  named_words info VARYING_SLOT_PRIMITIVE_ID PSBC_SEMANTIC_PRIMITIVE_ID ++
  named_words info VARYING_SLOT_VIEWPORT PSBC_SEMANTIC_VIEWPORT_INDEX ++
  distance_words info (distance_registers info).

(** The published list is [l]. *)
Definition publishes (m : PsbcShaderMetadata) (l : list Z) : Prop :=
  length (md_output_semantics m) = Z.to_nat PSBC_MAX_SEMANTICS /\
  md_output_semantic_count m = Z.of_nat (length l) /\
  Z.of_nat (length l) <= PSBC_MAX_SEMANTICS /\
  take (length l) (md_output_semantics m) = l.

Lemma publishes_push m l w :
  publishes m l -> Z.of_nat (length l) < PSBC_MAX_SEMANTICS -> publishes (push_output w m) (l ++ [w]).
Proof.
  intros (H1 & H2 & H3 & H4) Hlt. unfold publishes, push_output. simpl.
  rewrite length_put, length_app, H2. simpl. split; [done|]. split; [lia|]. split; [lia|].
  unfold PSBC_MAX_SEMANTICS in *. rewrite Nat.add_1_r.
  rewrite (take_S_r _ _ w).
  - f_equal. unfold put. rewrite Nat2Z.id. by rewrite take_insert_ge.
  - unfold put. rewrite Nat2Z.id. apply list_lookup_insert_eq. lia.
Qed.

Lemma publishes_varyings info m k :
  publishes m [] -> 0 <= k <= PSBC_MAX_SEMANTICS ->
  publishes (loop k (output_varying info) m) (varying_words info k) /\
  Z.of_nat (length (varying_words info k)) <= k.
Proof.
  intros Hm [Hk0 Hk]. revert Hk. pattern k. apply natlike_ind; [done| |done].
  intros j Hj IH Hk. rewrite <-Z.add_1_r, loop_succ by done.
  destruct (IH ltac:(lia)) as [Hp Hl]. unfold varying_words in *.
  rewrite seqZ_succ, omap_app by done. unfold output_varying at 1. simpl.
  destruct (Z.ltb_spec (param_offset info (VARYING_SLOT_VAR0 + j)) PSBC_MAX_SEMANTICS); simpl.
  - split; [apply publishes_push; [done|lia]|]. rewrite length_app. simpl. lia.
  - rewrite app_nil_r. split; [done|lia].
Qed.

Lemma output_named_spec info slot key m l :
  publishes m l ->
  match output_named info slot key m with
  | inl m' => publishes m' (l ++ named_words info slot key)
  | inr m' => m' = m /\ PSBC_MAX_SEMANTICS < Z.of_nat (length (l ++ named_words info slot key))
  end.
Proof.
  intros Hm. pose proof Hm as (_ & Hc & Hle & _). unfold output_named, named_words.
  destruct (_ <? _); [|by rewrite app_nil_r]. rewrite Hc, length_app. simpl.
  destruct (Z.geb_spec (Z.of_nat (length l)) PSBC_MAX_SEMANTICS); [split; [done|lia]|].
  by apply publishes_push.
Qed.

Definition distances_exported (info : radv_shader_info) (k : Z) : Prop :=
  forall r, 0 <= r < k -> param_offset info (VARYING_SLOT_CLIP_DIST0 + r) < PSBC_MAX_SEMANTICS.

Lemma distance_loop info m l k :
  publishes m l -> 0 <= k ->
  match loop k (output_distance info) (inl m) with
  | inl m' => publishes m' (l ++ distance_words info k) /\ distances_exported info k
  | inr m' => (exists l', publishes m' l') /\
              (PSBC_MAX_SEMANTICS < Z.of_nat (length (l ++ distance_words info k)) \/
               ~ distances_exported info k)
  end.
Proof.
  intros Hm Hk. pattern k. apply natlike_ind; [|clear k Hk|done].
  { rewrite loop_0. split; [by rewrite app_nil_r|intros r; lia]. }
  intros k Hk IH. rewrite <-Z.add_1_r, loop_succ by done.
  assert (Hw : distance_words info (k + 1) = distance_words info k ++
    [semantic_word (PSBC_SEMANTIC_DISTANCE_REGISTER + k)
       (param_offset info (VARYING_SLOT_CLIP_DIST0 + k))]).
  { unfold distance_words. by rewrite seqZ_succ, map_app. }
  rewrite Hw, app_assoc, length_app.
  destruct (loop k (output_distance info) (inl m)) as [m'|m']; simpl output_distance.
  - destruct IH as [Hp Hd]. pose proof Hp as (_ & Hc & Hle & _).
    rewrite Hc, !Z.geb_leb.
    destruct (Z.leb_spec PSBC_MAX_SEMANTICS (Z.of_nat (length (l ++ distance_words info k)))); simpl orb.
    { split; [by eauto|]. left. simpl. lia. }
    destruct (Z.leb_spec PSBC_MAX_SEMANTICS (param_offset info (VARYING_SLOT_CLIP_DIST0 + k))).
    { split; [by eauto|]. right. intros H'. specialize (H' k ltac:(lia)). lia. }
    split; [by apply publishes_push|]. intros r Hr.
    destruct (decide (r = k)) as [->|]; [lia|]. apply Hd. lia.
  - destruct IH as [? [?|Hnd]]; (split; [done|]); [left; lia|right].
    intros H'. apply Hnd. intros r Hr. apply H'. lia.
Qed.

Lemma distance_registers_nonneg info : 0 <= distance_registers info.
Proof.
  unfold distance_registers. apply Z.div_pos; [|done].
  assert (forall n, 0 <= util_bitcount n) as H; [|pose proof (H (oi_clip_dist_mask (ri_outinfo info)));
    pose proof (H (oi_cull_dist_mask (ri_outinfo info))); lia].
  intros n. unfold util_bitcount. apply (foldl_preserves (fun x => 0 <= x)); [|done].
  intros a b ?. pose proof (b2z_range (Z.testbit n b)). lia.
Qed.

(** Success, the list and its bounds. *)
Lemma fill_output_semantics_spec info m :
  md_output_semantic_count m = 0 ->
  length (md_output_semantics m) = Z.to_nat PSBC_MAX_SEMANTICS ->
  let '(ok, m') := fill_output_semantics info m in
  0 <= md_output_semantic_count m' <= PSBC_MAX_SEMANTICS /\
  (ok = true <->
     Z.of_nat (length (output_words info)) <= PSBC_MAX_SEMANTICS /\
     distances_exported info (distance_registers info) /\
     Z.of_nat (length (output_words info)) =
       oi_param_exports (ri_outinfo info) + oi_prim_param_exports (ri_outinfo info)) /\
  (ok = true -> publishes m' (output_words info)).
Proof.
  intros H0 Hlen. unfold fill_output_semantics.
  destruct (publishes_varyings info m PSBC_MAX_SEMANTICS) as [Hv _]; [done|done|].
  assert (Hw : Z.of_nat (length (output_words info)) =
    Z.of_nat (length (varying_words info PSBC_MAX_SEMANTICS)) +
    Z.of_nat (length (named_words info VARYING_SLOT_PRIMITIVE_ID PSBC_SEMANTIC_PRIMITIVE_ID)) +
    Z.of_nat (length (named_words info VARYING_SLOT_VIEWPORT PSBC_SEMANTIC_VIEWPORT_INDEX)) +
    Z.of_nat (length (distance_words info (distance_registers info)))).
  { unfold output_words. rewrite !length_app. lia. }
  assert (Hb : forall m' l, publishes m' l -> 0 <= md_output_semantic_count m' <= PSBC_MAX_SEMANTICS).
  { intros m' l (_ & -> & ? & _). lia. }
  pose proof (output_named_spec info VARYING_SLOT_PRIMITIVE_ID PSBC_SEMANTIC_PRIMITIVE_ID _ _ Hv) as Hp.
  destruct (output_named info VARYING_SLOT_PRIMITIVE_ID _ _) as [m1|m1]; cycle 1.
  { destruct Hp as [-> Hp]. rewrite length_app in Hp. split; [by eapply Hb|].
    split; [|done]. split; [done|lia]. }
  pose proof (output_named_spec info VARYING_SLOT_VIEWPORT PSBC_SEMANTIC_VIEWPORT_INDEX _ _ Hp) as Hq.
  destruct (output_named info VARYING_SLOT_VIEWPORT _ _) as [m2|m2]; cycle 1.
  { destruct Hq as [-> Hq]. rewrite !length_app in Hq. split; [by eapply Hb|].
    split; [|done]. split; [done|lia]. }
  pose proof (distance_loop info _ _ _ Hq (distance_registers_nonneg info)) as Hd.
  destruct (loop (distance_registers info) (output_distance info) (inl m2)) as [m3|m3]; cycle 1.
  { destruct Hd as [[l' Hl'] Hd]. rewrite !length_app in Hd. split; [by eapply Hb|].
    split; [|done]. split; [done|]. intros (? & ? & _). destruct Hd; [lia|done]. }
  destruct Hd as [Hd Hx].
  assert (E : output_words info = ((varying_words info PSBC_MAX_SEMANTICS ++
    named_words info VARYING_SLOT_PRIMITIVE_ID PSBC_SEMANTIC_PRIMITIVE_ID) ++
    named_words info VARYING_SLOT_VIEWPORT PSBC_SEMANTIC_VIEWPORT_INDEX) ++
    distance_words info (distance_registers info))
    by (unfold output_words; by rewrite !app_assoc).
  rewrite <-E in Hd. clear E Hw Hv Hp Hq.
  split; [by eapply Hb|]. pose proof Hd as (_ & -> & Hle & _). rewrite Z.eqb_eq.
  split; [|done]. split; [intros; by repeat split|by intros (_ & _ & ?)].
Qed.

(** Success does not depend on the rest of the metadata. *)
Lemma fill_output_semantics_ok info m m' :
  md_output_semantic_count m = 0 -> length (md_output_semantics m) = Z.to_nat PSBC_MAX_SEMANTICS ->
  md_output_semantic_count m' = 0 -> length (md_output_semantics m') = Z.to_nat PSBC_MAX_SEMANTICS ->
  (fill_output_semantics info m).1 = (fill_output_semantics info m').1.
Proof.
  intros H1 H2 H3 H4.
  pose proof (fill_output_semantics_spec info m H1 H2) as H.
  pose proof (fill_output_semantics_spec info m' H3 H4) as H'.
  destruct (fill_output_semantics info m) as [[] ?], (fill_output_semantics info m') as [[] ?];
    destruct H as (_ & H & _), H' as (_ & H' & _); [done| | |done].
  - symmetry. apply H'. by apply H.
  - apply H. by apply H'.
Qed.

(** C31: fill_output_semantics succeeds exactly when every parameter the stage
    exports is named within the 32 available words, and then the published list
    is one word per named parameter (varyings in location order, PrimitiveID,
    ViewportIndex, distance registers), each carrying its export index; whatever
    happens the list never overruns its array. *)
Theorem fill_output_semantics_exact info m :
  md_output_semantic_count m = 0 ->
  length (md_output_semantics m) = Z.to_nat PSBC_MAX_SEMANTICS ->
  let '(ok, m') := fill_output_semantics info m in
  0 <= md_output_semantic_count m' <= PSBC_MAX_SEMANTICS /\
  (ok = true <->
     Z.of_nat (length (output_words info)) <= PSBC_MAX_SEMANTICS /\
     distances_exported info (distance_registers info) /\
     Z.of_nat (length (output_words info)) =
       oi_param_exports (ri_outinfo info) + oi_prim_param_exports (ri_outinfo info)) /\
  (ok = true -> publishes m' (output_words info)).
Proof. exact (fill_output_semantics_spec info m). Qed.

(** A stage that exports location 0, its primitive id and five clip distances. *)
Definition example_offsets (pairs : list (Z * Z)) : list Z :=
  foldl (fun l p => put p.1 p.2 l) (replicate 64 AC_EXP_PARAM_UNDEFINED) pairs.
Definition example_producer (viewport : bool) : radv_shader_info :=
  zero_radv_shader_info <| ri_outinfo := zero_radv_vs_output_info
    <| oi_clip_dist_mask := 0x1f |> <| oi_param_exports := if viewport then 5 else 4 |>
    <| oi_vs_output_param_offset := example_offsets
         ([(32, 0); (VARYING_SLOT_PRIMITIVE_ID, 1); (VARYING_SLOT_CLIP_DIST0, 2);
           (VARYING_SLOT_CLIP_DIST1, 3)] ++
          if viewport then [(VARYING_SLOT_VIEWPORT, 4)] else []) |> |>.

Lemma fill_output_semantics_witness :
  publishes (fill_output_semantics (example_producer false) zero_PsbcShaderMetadata).2
    [0x00f; 0x12f; 0x230; 0x331].
Proof.
  pose proof (fill_output_semantics_exact (example_producer false) zero_PsbcShaderMetadata
    eq_refl eq_refl) as H.
  destruct (fill_output_semantics (example_producer false) zero_PsbcShaderMetadata)
    as [ok m'] eqn:E. destruct H as (_ & Hok & Hp). simpl snd.
  assert (output_words (example_producer false) = [0x00f; 0x12f; 0x230; 0x331]) as <-
    by (vm_compute; reflexivity).
  apply Hp. vm_compute in E. by injection E as <- _.
Defined.

(** ** Match keys *)

(** The low byte, by which producer and consumer words are paired. *)
Definition semantic_key (word : Z) : Z := word `land` 0xff.
#[local] Arguments semantic_key : simpl never.
#[local] Arguments semantic_word : simpl never.

Lemma semantic_key_word key p : in_width 8 key -> 0 <= p -> semantic_key (semantic_word key p) = key.
Proof.
  intros Hk Hp. unfold semantic_key, semantic_word. change 0xff with (Z.ones 8).
  bitwise. destruct (Z.ltb_spec i 8).
  - rewrite (Z.testbit_neg_r p) by lia. by rewrite orb_false_r, andb_true_r.
  - by rewrite andb_false_r, (testbit_high 8) by done.
Qed.

(** The parameter offsets are [uint8_t]. *)
Definition offsets_wf (info : radv_shader_info) : Prop := forall s, 0 <= param_offset info s.

Lemma varying_keys info k :
  offsets_wf info -> 0 <= k <= PSBC_MAX_SEMANTICS ->
  NoDup (map semantic_key (varying_words info k)) /\
  forall x, x ∈ map semantic_key (varying_words info k) -> 15 <= x < 15 + k.
Proof.
  intros Hwf [Hk0 Hk]. revert Hk. pattern k. apply natlike_ind; [|clear k Hk0|done].
  { intros _. split; [constructor|]. intros x Hx. by apply elem_of_nil in Hx. }
  intros k Hk0 IH Hk. rewrite <-Z.add_1_r in *. destruct (IH ltac:(lia)) as [Hnd Hr].
  unfold varying_words in *. rewrite seqZ_succ, omap_app, map_app by done. simpl.
  destruct (_ <? _); simpl;
    [|rewrite app_nil_r; split; [done|]; intros x Hx; specialize (Hr x Hx); lia].
  rewrite semantic_key_word by (try apply Hwf; unfold in_width, PSBC_MAX_SEMANTICS in *; simpl; lia).
  split.
  - apply NoDup_app. split; [done|]. split; [|apply NoDup_singleton].
    intros x Hx ->%list_elem_of_singleton. specialize (Hr _ Hx). lia.
  - intros x [Hx| ->%list_elem_of_singleton]%elem_of_app; [specialize (Hr x Hx)|]; lia.
Qed.

Lemma named_keys info slot key :
  offsets_wf info -> in_width 8 key ->
  map semantic_key (named_words info slot key) =
    if param_offset info slot <? PSBC_MAX_SEMANTICS then [key] else [].
Proof.
  intros Hwf Hk. unfold named_words. case_match; [|done]. simpl.
  by rewrite semantic_key_word by (done || apply Hwf).
Qed.

Lemma distance_keys info k :
  offsets_wf info -> 0 <= k <= 8 ->
  map semantic_key (distance_words info k) = seqZ PSBC_SEMANTIC_DISTANCE_REGISTER k.
Proof.
  intros Hwf Hk. unfold distance_words. rewrite map_map.
  transitivity (map (Z.add PSBC_SEMANTIC_DISTANCE_REGISTER) (seqZ 0 k));
    [|apply (fmap_add_seqZ PSBC_SEMANTIC_DISTANCE_REGISTER 0 k)].
  apply map_ext_in. intros r [? ?]%list_elem_of_In%elem_of_seqZ.
  apply semantic_key_word; [|apply Hwf].
  unfold in_width, PSBC_SEMANTIC_DISTANCE_REGISTER. simpl. lia.
Qed.

Lemma elem_of_if {A} (x y : A) (b : bool) : x ∈ (if b then [y] else []) -> x = y.
Proof. destruct b; [apply list_elem_of_singleton|intros H; by apply elem_of_nil in H]. Qed.

(** Producer words have pairwise distinct match keys except in one case: a
    stage that exports its viewport index and more than four packed distances
    gives the second distance register the viewport's key. *)
Theorem output_keys_distinct info :
  offsets_wf info -> distance_registers info <= 8 ->
  NoDup (map semantic_key (output_words info)) <->
  ~ (2 <= distance_registers info /\
     param_offset info VARYING_SLOT_VIEWPORT < PSBC_MAX_SEMANTICS).
Proof.
  intros Hwf Hd. pose proof (distance_registers_nonneg info).
  destruct (varying_keys info PSBC_MAX_SEMANTICS Hwf ltac:(done)) as [Hnd Hr].
  unfold output_words. rewrite !map_app, !named_keys, distance_keys by (done || lia).
  set (vs := map semantic_key (varying_words info PSBC_MAX_SEMANTICS)) in *.
  set (dr := distance_registers info) in *.
  set (view := param_offset info VARYING_SLOT_VIEWPORT <? PSBC_MAX_SEMANTICS).
  assert (Hview : view = true <-> param_offset info VARYING_SLOT_VIEWPORT < PSBC_MAX_SEMANTICS)
    by apply Z.ltb_lt.
  assert (H1 : NoDup ((if view then [PSBC_SEMANTIC_VIEWPORT_INDEX] else []) ++
                      seqZ PSBC_SEMANTIC_DISTANCE_REGISTER dr) <-> ~ (2 <= dr /\ view = true)).
  { rewrite NoDup_app. unfold PSBC_SEMANTIC_VIEWPORT_INDEX, PSBC_SEMANTIC_DISTANCE_REGISTER.
    destruct view.
    - split.
      + intros (_ & Hn & _) [? _]. apply (Hn 49 ltac:(left)), elem_of_seqZ. lia.
      + intros Hn. split; [apply NoDup_singleton|]. split; [|apply NoDup_seqZ].
        intros x ->%list_elem_of_singleton [? ?]%elem_of_seqZ. apply Hn. split; [lia|done].
    - split; [naive_solver|]. intros _. split; [constructor|]. split; [|apply NoDup_seqZ].
      intros x Hx. by apply elem_of_nil in Hx. }
  rewrite <-Hview, <-H1, !NoDup_app. unfold PSBC_SEMANTIC_PRIMITIVE_ID,
    PSBC_SEMANTIC_VIEWPORT_INDEX, PSBC_SEMANTIC_DISTANCE_REGISTER, PSBC_MAX_SEMANTICS in *.
  split; [by intros (_ & _ & _ & _ & ?)|].
  intros Hlast. split; [done|]. split.
  { intros x Hx [->%elem_of_if|[->%elem_of_if|Hx']%elem_of_app]%elem_of_app; specialize (Hr _ Hx);
      rewrite ?elem_of_seqZ in *; lia. }
  split; [destruct (param_offset info VARYING_SLOT_PRIMITIVE_ID <? 32); [apply NoDup_singleton|constructor]|]. split; [|done].
  intros x ->%elem_of_if [Hx%elem_of_if|Hx]%elem_of_app; rewrite ?elem_of_seqZ in *; lia.
Qed.

Lemma example_producer_wf b : offsets_wf (example_producer b).
Proof.
  intros s. unfold param_offset.
  assert (Forall (Z.le 0) (oi_vs_output_param_offset (ri_outinfo (example_producer b)))) as H.
  { destruct b; vm_compute; repeat constructor; done. }
  unfold at_. rewrite nth_lookup. destruct (_ !! _) as [x|] eqn:E; [|done].
  by apply (Forall_lookup_1 _ _ _ _ H E).
Qed.

(** Five clip distances and a viewport index collide; without the viewport they
    do not. *)
Lemma output_keys_distinct_witness :
  ~ NoDup (map semantic_key (output_words (example_producer true))) /\
  NoDup (map semantic_key (output_words (example_producer false))).
Proof.
  split.
  - rewrite (output_keys_distinct (example_producer true) (example_producer_wf true)
      ltac:(by vm_compute)). intros H. apply H. by vm_compute.
  - apply (output_keys_distinct (example_producer false) (example_producer_wf false));
      [by vm_compute|]. intros [_ H]. vm_compute in H. discriminate.
Defined.

(** ** The list stays within its table *)

Definition semantics_wf (s : PsbcInputSemantics) : Prop :=
  Z.of_nat (length (is_words s)) = PSBC_MAX_SEMANTICS /\ 0 <= is_count s <= PSBC_MAX_SEMANTICS.

Lemma collect_words_bounds st attributes result :
  let r := (collect_words st attributes result).2 in
  length (is_words r) = length (is_words result) /\
  is_count result <= is_count r <= is_count result + Z.of_nat (length attributes).
Proof.
  revert result. induction attributes as [|a attributes IH]; intros result; cbn [collect_words].
  { simpl. split; [done|lia]. }
  unfold collect_word. destruct (negb _); [simpl; split; [done|lia]|].
  specialize (IH (result <| is_words := put (is_count result) (at_ 0 (aw_words_by_attribute st) a) (is_words result) |>
    <| is_count := is_count result + 1 |>)). cbn [is_words is_count set] in IH. rewrite length_put in IH.
  destruct IH as [IH1 IH2]. cbn zeta. split; [exact IH1|]. rewrite length_cons. simpl in IH2. lia.
Qed.

Lemma build_input_semantics_wf nir info per_primitive :
  semantics_wf (build_input_semantics nir info per_primitive).2.
Proof.
  unfold build_input_semantics. rewrite Z.gtb_ltb.
  destruct (Z.ltb_spec PSBC_MAX_SEMANTICS (ps_num_inputs (ri_ps info))); [done|].
  destruct (has_unsupported_inputs _); [done|]. destruct (try_each _ _ _) as [st|]; [|done].
  pose proof (collect_words_bounds st (seqZ 0 (ps_num_inputs (ri_ps info))) zero_PsbcInputSemantics) as [Hl Hc].
  destruct (collect_words _ _ _) as [seen r]. simpl in Hl, Hc. rewrite length_seqZ in Hc.
  unfold PSBC_MAX_SEMANTICS in *. assert (semantics_wf r) by (unfold semantics_wf, PSBC_MAX_SEMANTICS; lia).
  by destruct seen.
Qed.

End InputSemantics.
