(* ===== verification/Distance.v ===== *)
(** * Relinking fragment distance inputs (link_fragment_distance_layout)

    Clip and cull distances are separate built-ins that share packed vectors: the
    clip components come first and the cull components follow.  A fragment shader
    compiled alone packs its cull distances after the clip distances it declares
    itself; the producer may declare more.  The relinking moves the cull
    components so that they start after the producer's clip count. *)

From S2P Require Import Prelude Types Mesa Nir.

Module Distance.

(** Loads the pass looks at. *)
Definition is_distance_load (i : nir_intrinsic_instr) : bool :=
  (bool_decide (in_intrinsic i = nir_intrinsic_load_input) ||
   bool_decide (in_intrinsic i = nir_intrinsic_load_interpolated_input)) &&
  ((io_location (in_io_semantics i) =? VARYING_SLOT_CLIP_DIST0) ||
   (io_location (in_io_semantics i) =? VARYING_SLOT_CLIP_DIST1)).

(** The offset source, when the opcode has one. *)
Definition nir_get_io_offset_src (i : nir_intrinsic_instr) : option (nat * nir_src) :=
  n ← nir_get_io_offset_src_number (in_intrinsic i); Some (n, intrinsic_src i n).

(** One instruction; [None] where the C function returns false. *)
Definition relink_instr (old_clip cull prefix : Z) (instr : nir_instr) : option nir_instr :=
  match instr with
  | nir_instr_type_intrinsic i =>
      if negb (is_distance_load i) then Some instr
      else
        match nir_get_io_offset_src i with
        | None => None
        | Some (n, offset) =>
            if negb (nir_src_is_const offset) || negb (in_num_components i =? 1) ||
               (nir_src_as_uint offset >? 1) || (in_component i >? 3) then None
            else
              let io := in_io_semantics i in
              let component := (io_location io - VARYING_SLOT_CLIP_DIST0) * 4 +
                               in_component i + nir_src_as_uint offset * 4 in
              if component <? old_clip then Some instr
              else if component - old_clip >=? cull then None
              else
                let component := component + (prefix - old_clip) in
                Some (nir_instr_type_intrinsic (i
                  <| in_io_semantics := io
                       <| io_location := VARYING_SLOT_CLIP_DIST0 + component / 4 |>
                       <| io_num_slots := 1 |> |>
                  <| in_component := component `mod` 4 |>
                  <| in_src := <[n := nir_imm_src 0]> (in_src i) |>))
        end
  | _ => Some instr
  end.

Definition link_fragment_distance_layout (nir_lower_io_to_scalar : nir_shader -> nir_shader)
    (nir : nir_shader) (opts : PsbcCompileOptions) : option nir_shader :=
  if negb (co_fragment_distance_layout_valid opts) ||
     negb (stage_eqb (si_stage (sh_info nir)) MESA_SHADER_FRAGMENT) then Some nir
  else
    let old_clip := si_clip_distance_array_size (sh_info nir) in
    let cull := si_cull_distance_array_size (sh_info nir) in
    let prefix := co_fragment_clip_distance_count opts in
    if (prefix >? 8) || (prefix <? old_clip) || (cull >? 8 - prefix) then None
    else if (cull =? 0) || (prefix =? old_clip) then Some nir
    else
      let nir := nir_lower_io_to_scalar nir in
      impls ← mapM (mapM (mapM (relink_instr old_clip cull prefix))) (sh_impls nir);
      Some (nir <| sh_impls := impls |>).

(** ** Packed component addresses *)

(** The packed distance component a load reads: four per register, plus the
    constant register offset. *)
Definition distance_component (i : nir_intrinsic_instr) : option Z :=
  '(_, offset) ← nir_get_io_offset_src i;
  off ← src_const offset;
  Some ((io_location (in_io_semantics i) - VARYING_SLOT_CLIP_DIST0) * 4 +
        in_component i + off * 4).

(** Clip components stay, the cull components start at [prefix]. *)
Definition relocate (old_clip prefix c : Z) : Z :=
  if c <? old_clip then c else c + (prefix - old_clip).

Lemma relocate_inj old_clip prefix c c' :
  old_clip <= prefix -> relocate old_clip prefix c = relocate old_clip prefix c' -> c = c'.
Proof. unfold relocate. intros ?. zcases; lia. Qed.

(** What the pass does to one instruction. *)
Definition relinked (old_clip cull prefix : Z) (i i' : nir_instr) : Prop :=
  match i with
  | nir_instr_type_intrinsic x =>
      if is_distance_load x then
        exists x' c, i' = nir_instr_type_intrinsic x' /\
          is_distance_load x' = true /\
          in_intrinsic x' = in_intrinsic x /\ in_base x' = in_base x /\
          distance_component x = Some c /\ 0 <= c < old_clip + cull /\
          distance_component x' = Some (relocate old_clip prefix c)
      else i' = i
  | _ => i' = i
  end.

(** The indices of a load are unsigned, and it has the sources its opcode
    needs. *)
Definition load_wf (i : nir_instr) : Prop :=
  match i with
  | nir_instr_type_intrinsic x =>
      0 <= in_component x /\
      (forall n, nir_get_io_offset_src_number (in_intrinsic x) = Some n ->
        (n < length (in_src x))%nat /\ 0 <= nir_src_as_uint (intrinsic_src x n))
  | _ => True
  end.

Lemma relink_instr_spec old_clip cull prefix i i' :
  0 <= old_clip <= prefix -> 0 <= cull -> prefix + cull <= 8 -> load_wf i ->
  relink_instr old_clip cull prefix i = Some i' -> relinked old_clip cull prefix i i'.
Proof.
  intros Hp Hc H8 Hwf. destruct i as [x| | |]; simpl; try congruence.
  destruct (is_distance_load x) eqn:Hd; simpl negb; [|by intros [= <-]].
  unfold nir_get_io_offset_src, distance_component, nir_get_io_offset_src.
  destruct Hwf as [Hcomp Hsrc].
  destruct (nir_get_io_offset_src_number (in_intrinsic x)) as [n|] eqn:En; [|done].
  destruct (Hsrc n eq_refl) as [Hn Hoff]. simpl.
  unfold nir_src_is_const, nir_src_as_uint in *.
  destruct (src_const (intrinsic_src x n)) as [off|] eqn:Eo; [|done].
  rewrite bool_decide_eq_true_2 by eauto. simpl in *.
  destruct (in_num_components x =? 1); simpl; [|done].
  destruct (Z.gtb_spec off 1); [done|]. destruct (Z.gtb_spec (in_component x) 3); [done|]. simpl.
  pose proof Hd as Hl. unfold is_distance_load in Hl. apply andb_true_iff in Hl as [Hop Hloc].
  apply orb_true_iff in Hloc. rewrite !Z.eqb_eq in Hloc.
  set (c := (io_location (in_io_semantics x) - VARYING_SLOT_CLIP_DIST0) * 4 + in_component x + off * 4).
  assert (0 <= c) by (unfold c; destruct Hloc as [->| ->]; unfold VARYING_SLOT_CLIP_DIST0,
    VARYING_SLOT_CLIP_DIST1; lia).
  destruct (Z.ltb_spec c old_clip).
  - intros [= <-]. exists x, c. rewrite ?En. simpl. rewrite ?Eo. simpl. fold c.
    unfold relocate. destruct (Z.ltb_spec c old_clip); [|lia].
    repeat split; try done; lia.
  - rewrite Z.geb_leb. destruct (Z.leb_spec cull (c - old_clip)); [done|]. intros [= <-].
    eexists _, c. split; [done|]. simpl. rewrite En. simpl.
    assert (0 <= (c + (prefix - old_clip)) / 4 <= 1) by (Z.to_euclidean_division_equations; lia).
    split; [unfold is_distance_load; simpl; rewrite Hop; simpl;
      unfold VARYING_SLOT_CLIP_DIST0, VARYING_SLOT_CLIP_DIST1; zcases; simpl; lia || done|].
    unfold intrinsic_src. simpl. rewrite nth_lookup, list_lookup_insert_eq by done. simpl.
    repeat split; try done; try lia. f_equal. unfold relocate.
    destruct (Z.ltb_spec c old_clip); [lia|].
    pose proof (Z.div_mod (c + (prefix - old_clip)) 4). lia.
Qed.

(** ** Correctness *)

Section correctness.
  Context (nir_lower_io_to_scalar : nir_shader -> nir_shader).


(** Relinking is refused exactly when the declared widths do not fit the
    eight packed components or a distance load cannot be placed. *)
Theorem link_fragment_distance_layout_refuses nir opts :
  let old_clip := si_clip_distance_array_size (sh_info nir) in
  let cull := si_cull_distance_array_size (sh_info nir) in
  let prefix := co_fragment_clip_distance_count opts in
  link_fragment_distance_layout nir_lower_io_to_scalar nir opts = None <->
  co_fragment_distance_layout_valid opts = true /\
  si_stage (sh_info nir) = MESA_SHADER_FRAGMENT /\
  (8 < prefix \/ prefix < old_clip \/ 8 - prefix < cull \/
   (cull <> 0 /\ prefix <> old_clip /\
    exists i, i ∈ nir_instrs (nir_lower_io_to_scalar nir) /\
      relink_instr old_clip cull prefix i = None)).
Proof.
  cbv zeta. unfold link_fragment_distance_layout. cbv zeta.
  rewrite <-stage_eqb_eq.
  destruct (co_fragment_distance_layout_valid opts); simpl; [|naive_solver].
  destruct (stage_eqb _ _); simpl; [|naive_solver].
  set (old_clip := si_clip_distance_array_size (sh_info nir)).
  set (cull := si_cull_distance_array_size (sh_info nir)).
  set (prefix := co_fragment_clip_distance_count opts).
  destruct (Z.gtb_spec prefix 8); [naive_solver|].
  destruct (Z.ltb_spec prefix old_clip); [naive_solver|].
  destruct (Z.gtb_spec cull (8 - prefix)); [naive_solver lia|]. simpl.
  destruct (Z.eqb_spec cull 0); [simpl; naive_solver lia|].
  destruct (Z.eqb_spec prefix old_clip); [simpl; naive_solver lia|]. simpl.
  destruct (mapM _ _) as [impls|] eqn:E; simpl.
  - split; [done|]. intros (_ & _ & [?|[?|[?|(_ & _ & i & Hi & Hn)]]]); [lia..|].
    apply nir_instrs_mapM in E. apply list_elem_of_lookup in Hi as [k Hk].
    destruct (Forall2_lookup_l _ _ _ _ _ E Hk) as (i' & _ & ?). congruence.
  - split; [|done]. intros _. do 2 (split; [done|]). do 3 right. do 2 (split; [done|]).
    unfold nir_instrs. by apply nir_instrs_mapM_None.
Qed.

End correctness.

(** A pixel shader with one clip and one cull distance, linked to a producer with
    three clip distances: the cull read moves from component 1 to component 3. *)
Definition example_distance_load (component : Z) : nir_instr :=
  nir_instr_type_intrinsic (zero_nir_intrinsic_instr
    <| in_intrinsic := nir_intrinsic_load_input |> <| in_num_components := 1 |>
    <| in_component := component |> <| in_src := [nir_imm_src 0] |>
    <| in_io_semantics := mk_nir_io_semantics VARYING_SLOT_CLIP_DIST0 1 0 |>).
Definition example_distance_nir : nir_shader :=
  zero_nir_shader <| sh_info := zero_shader_info <| si_stage := MESA_SHADER_FRAGMENT |>
      <| si_clip_distance_array_size := 1 |> <| si_cull_distance_array_size := 1 |> |>
    <| sh_impls := [[[example_distance_load 0; example_distance_load 1]]] |>.
Definition example_distance_opts (count : Z) : PsbcCompileOptions :=
  zero_PsbcCompileOptions <| co_fragment_distance_layout_valid := true |>
    <| co_fragment_clip_distance_count := count |>.


(** Seven producer clip distances leave no room for two cull distances. *)
Definition example_distance_nir2 : nir_shader :=
  example_distance_nir <| sh_info := sh_info example_distance_nir
    <| si_cull_distance_array_size := 2 |> |>.

End Distance.
