(* ===== verification/Usage.v ===== *)
(** * Push-constant and descriptor usage (psbc_compile.c)

    The walks over the optimized shader that tell a consumer which push-constant
    dwords and which descriptor bindings a stage really uses, and the fallback
    that keeps an unidentified use from looking unused. *)

From S2P Require Import Prelude Types Mesa Nir Lowering.

Module Usage.

(** ** Push constants *)

(** First byte and size of a load: exact for a constant offset, otherwise the
    declared range. *)
Definition push_range (intrin : nir_intrinsic_instr) : Z * Z :=
  let offset := u64 (in_base intrin) in
  let size := in_range intrin in
  if nir_src_is_const (intrinsic_src intrin 0) then
    (u64 (offset + nir_src_as_uint (intrinsic_src intrin 0)),
     in_num_components intrin * (in_bit_size intrin / 8))
  else (offset, size).

(** The inner loop: every dword from [offset / 4] to the one holding the last
    byte. *)
Definition mark_dwords (offset size mask : Z) : Z :=
  foldl (fun m dw => m `lor` (1 ≪ dw)) mask
    (seqZ (offset / 4) ((offset + size + 3) / 4 - offset / 4)).

Definition push_step (intrin : nir_intrinsic_instr) (mask : Z) : option Z :=
  if negb (bool_decide (in_intrinsic intrin = nir_intrinsic_load_push_constant)) then Some mask
  else
    let '(offset, size) := push_range intrin in
    if (size =? 0) || (offset >=? 256) || (size >? 256 - offset) then None
    else Some (mark_dwords offset size mask).

(** The return value and the mask left behind it. *)
Definition gather_push_dwords (nir : nir_shader) : bool * Z :=
  match try_each push_step (nir_intrinsics nir) 0 with
  | Some mask => (true, mask)
  | None => (false, 0)
  end.

(** ** Descriptors *)

(** The set mask and the per-set binding masks. *)
Record DescriptorUse : Type := mk_DescriptorUse {
  du_set_mask : Z;
  du_binding_mask : list Z
}.

#[export] Instance eta_DescriptorUse : Eta DescriptorUse := fun r =>
  mk_DescriptorUse r.(du_set_mask) r.(du_binding_mask).

Definition zero_DescriptorUse : DescriptorUse := {|
  du_set_mask := 0;
  du_binding_mask := replicate (Z.to_nat PSBC_MAX_DESCRIPTOR_SETS) 0
|}.

Definition record_descriptor_use (set binding : Z) (u : DescriptorUse) : DescriptorUse :=
  if set >=? PSBC_MAX_DESCRIPTOR_SETS then u
  else
    let u := u <| du_set_mask := du_set_mask u `lor` (1 ≪ set) |> in
    if binding <? 64
    then u <| du_binding_mask :=
                put set (at_ 0 (du_binding_mask u) set `lor` (1 ≪ binding)) (du_binding_mask u) |>
    else u.

Definition record_variable (s : nir_src) (u : DescriptorUse) : DescriptorUse :=
  match src_variable s with
  | Some var => record_descriptor_use (var_descriptor_set var) (var_binding var) u
  | None => u
  end.

Definition gather_instr (i : nir_instr) (u : DescriptorUse) : DescriptorUse :=
  match i with
  | nir_instr_type_intrinsic intrin =>
      match in_intrinsic intrin with
      | nir_intrinsic_vulkan_resource_index =>
          record_descriptor_use (in_desc_set intrin) (in_binding intrin) u
      | nir_intrinsic_image_deref_load | nir_intrinsic_image_deref_sparse_load
      | nir_intrinsic_image_deref_store | nir_intrinsic_image_deref_atomic
      | nir_intrinsic_image_deref_atomic_swap | nir_intrinsic_image_deref_size
      | nir_intrinsic_image_deref_samples => record_variable (intrinsic_src intrin 0) u
      | _ => u
      end
  | nir_instr_type_tex tex =>
      foldl (fun u '(ty, src) =>
        match ty with
        | nir_tex_src_texture_deref | nir_tex_src_sampler_deref => record_variable src u
        | nir_tex_src_other => u
        end) u tex
  | _ => u
  end.

Definition gather_static_descriptor_use (nir : nir_shader) (u : DescriptorUse) : DescriptorUse :=
  foldl (fun u i => gather_instr i u) u (nir_instrs nir).

(** *** The published masks of a compile with static descriptor use *)

(** Sets RADV reports as used in which the walk named no binding. *)
Definition unknown_sets (used : Z) (masks : list Z) : Z :=
  loop PSBC_MAX_DESCRIPTOR_SETS (fun set unknown =>
    if truthy (at_ 0 masks set) then unknown `land` not32 (1 ≪ set) else unknown) used.

Definition merge_masks (a b : list Z) : list Z :=
  loop PSBC_MAX_DESCRIPTOR_SETS (fun set m => put set (at_ 0 m set `lor` at_ 0 b set) m) a.

(** Declared bindings of unknown sets. *)
Definition add_declared (unknown : Z) (declared : PsbcDescriptorBinding) (masks : list Z) : list Z :=
  let set := db_set declared in
  if (set >=? PSBC_MAX_DESCRIPTOR_SETS) || (db_binding declared >=? 64) ||
     negb (truthy (unknown `land` (1 ≪ set))) then masks
  else put set (at_ 0 masks set `lor` (1 ≪ db_binding declared)) masks.

(** The stage's shader and RADV set mask, and those of the merged half if the
    program has one. *)
Definition static_binding_masks (declared : list PsbcDescriptorBinding)
    (nir : nir_shader) (used : Z) (previous : option (nir_shader * Z)) : list Z :=
  let masks := du_binding_mask (gather_static_descriptor_use nir zero_DescriptorUse) in
  let unknown := unknown_sets used masks in
  let '(masks, unknown) :=
    match previous with
    | Some (previous_nir, previous_used) =>
        let previous_masks :=
          du_binding_mask (gather_static_descriptor_use previous_nir zero_DescriptorUse) in
        (merge_masks masks previous_masks,
         unknown `lor` unknown_sets previous_used previous_masks)
    | None => (masks, unknown)
    end in
  foldl (fun m d => add_declared unknown d m) masks declared.

(** ** Exactness of the push-constant mask *)

Lemma testbit_mark_dwords offset size mask d :
  0 <= offset -> 0 <= size -> 0 <= d ->
  Z.testbit (mark_dwords offset size mask) d =
    Z.testbit mask d || ((offset / 4 <=? d) && (d <? (offset + size + 3) / 4)).
Proof.
  intros Ho Hs Hd. unfold mark_dwords.
  assert (Hlo : 0 <= offset / 4) by (apply Z.div_pos; lia).
  assert (Hn : 0 <= (offset + size + 3) / 4 - offset / 4).
  { assert (offset / 4 <= (offset + size + 3) / 4) by (apply Z.div_le_mono; lia). lia. }
  replace ((offset + size + 3) / 4) with
    (offset / 4 + ((offset + size + 3) / 4 - offset / 4)) at 2 by lia.
  revert Hn. generalize ((offset + size + 3) / 4 - offset / 4). generalize dependent (offset / 4).
  intros lo Hlo n Hn. pattern n. apply natlike_ind; [| |done].
  { simpl. destruct (Z.leb_spec lo d), (Z.ltb_spec d (lo + 0)); try lia; by rewrite orb_false_r. }
  intros k Hk IH. rewrite <-Z.add_1_r. replace (k + 1) with (k + Z.of_nat 1) by lia.
  rewrite seqZ_app, foldl_app by lia. simpl. autorewrite with bits.
  rewrite IH. destruct (Z.testbit mask d); simpl; [done|]. zcases; try lia; done.
Qed.

(** Dwords a byte range touches. *)
Lemma dword_touched offset size d :
  0 <= offset -> 0 < size ->
  offset / 4 <= d < (offset + size + 3) / 4 <->
  exists byte, offset <= byte < offset + size /\ byte / 4 = d.
Proof.
  intros Ho Hs. split.
  - intros [H1 H2]. exists (Z.max offset (4 * d)).
    assert (offset < 4 * d + 4) by (Z.to_euclidean_division_equations; lia).
    assert (4 * d < offset + size) by (Z.to_euclidean_division_equations; lia).
    split; [lia|]. symmetry. apply (Z.div_unique _ _ _ (Z.max offset (4 * d) - 4 * d)); lia.
  - intros (b & Hb & <-). Z.to_euclidean_division_equations; lia.
Qed.

Definition is_push_load (i : nir_intrinsic_instr) : Prop :=
  in_intrinsic i = nir_intrinsic_load_push_constant.

(** The load stays in the 256-byte block and is not empty. *)
Definition push_in_bounds (i : nir_intrinsic_instr) : Prop :=
  0 < (push_range i).2 /\ (push_range i).1 + (push_range i).2 <= 256.

(** Unsigned fields of a load. *)
Definition push_wf (i : nir_intrinsic_instr) : Prop :=
  0 <= in_range i /\ 0 <= in_num_components i /\ 0 <= in_bit_size i.

Lemma push_range_nonneg i : push_wf i -> 0 <= (push_range i).1 /\ 0 <= (push_range i).2.
Proof.
  intros (?&?&?). unfold push_range. case_match; simpl; (split; [by apply wrap_nonneg|]); [|done].
  apply Z.mul_nonneg_nonneg; [done|]. by apply Z.div_pos.
Qed.

Lemma push_step_spec i mask :
  push_wf i ->
  match push_step i mask with
  | Some m => (is_push_load i -> push_in_bounds i) /\
      forall d, 0 <= d -> Z.testbit m d = true <-> Z.testbit mask d = true \/
        (is_push_load i /\ exists byte, (push_range i).1 <= byte < (push_range i).1 + (push_range i).2 /\
           byte / 4 = d)
  | None => is_push_load i /\ ~ push_in_bounds i
  end.
Proof.
  intros Hwf. destruct (push_range_nonneg i Hwf) as [H1 H2]. unfold push_step, is_push_load, push_in_bounds.
  case_bool_decide as Hop; simpl; [|split; [done|]; naive_solver].
  destruct (push_range i) as [offset size]; simpl in *.
  destruct (Z.eqb_spec size 0); simpl; [split; [done|lia]|].
  destruct (Z.geb_spec offset 256); simpl; [split; [done|lia]|].
  destruct (Z.gtb_spec size (256 - offset)); simpl; [split; [done|lia]|].
  split; [lia|]. intros d Hd. rewrite testbit_mark_dwords, orb_true_iff, andb_true_iff by lia.
  rewrite Z.leb_le, Z.ltb_lt, dword_touched by lia. naive_solver.
Qed.

(** C33: gather_push_dwords is exact.  It succeeds precisely when every push
    constant load is non-empty and inside the 256-byte block, and then bit [d] of
    the mask is set if and only if some load touches a byte of dword [d]; on
    failure it reports an empty mask. *)
Theorem gather_push_dwords_exact nir :
  Forall push_wf (nir_intrinsics nir) ->
  let '(ok, mask) := gather_push_dwords nir in
  (ok = true <-> forall i, i ∈ nir_intrinsics nir -> is_push_load i -> push_in_bounds i) /\
  (ok = false -> mask = 0) /\
  (ok = true -> forall d, 0 <= d -> Z.testbit mask d = true <->
     exists i byte, i ∈ nir_intrinsics nir /\ is_push_load i /\
       (push_range i).1 <= byte < (push_range i).1 + (push_range i).2 /\ byte / 4 = d).
Proof.
  intros Hwf. unfold gather_push_dwords.
  enough (forall m, match try_each push_step (nir_intrinsics nir) m with
    | Some mask => (forall i, i ∈ nir_intrinsics nir -> is_push_load i -> push_in_bounds i) /\
        forall d, 0 <= d -> Z.testbit mask d = true <-> Z.testbit m d = true \/
          exists i byte, i ∈ nir_intrinsics nir /\ is_push_load i /\
            (push_range i).1 <= byte < (push_range i).1 + (push_range i).2 /\ byte / 4 = d
    | None => exists i, i ∈ nir_intrinsics nir /\ is_push_load i /\ ~ push_in_bounds i
    end) as H.
  { specialize (H 0). destruct (try_each _ _ _) as [mask|].
    - destruct H as [Hb Hm]. split; [done|]. split; [done|]. intros _ d Hd.
      rewrite Hm, Z.testbit_0_l by done. split; [by intros [|]|by right].
    - destruct H as (i & ? & ? & ?). split; [|done]. split; [done|]. intros Hall.
      exfalso. eauto. }
  induction Hwf as [|i l Hi _ IH]; intros m; simpl.
  { split; [intros i Hi; by apply elem_of_nil in Hi|]. intros d _.
    split; [by left|]. intros [?|(i & _ & Hi & _)]; [done|by apply elem_of_nil in Hi]. }
  pose proof (push_step_spec i m Hi) as Hs. destruct (push_step i m) as [m'|]; cycle 1.
  { exists i. split; [left|done]. }
  destruct Hs as [Hb Hm]. specialize (IH m'). destruct (try_each push_step l m') as [mask|].
  - destruct IH as [Hbl Hml]. split.
    + intros j [->|Hj]%elem_of_cons; [done|by apply Hbl].
    + intros d Hd. rewrite Hml, Hm by done. setoid_rewrite elem_of_cons. clear. split.
      * intros [[?|(? & byte & ?)]|(j & byte & ? & ?)]; [by left|right; exists i, byte; auto
          |right; exists j, byte; auto].
      * intros [?|(j & byte & [->|?] & ? & ?)]; [by do 2 left|left; right; eauto|right; eauto 6].
  - destruct IH as (j & Hj & ?). exists j. split; [by right|done].
Qed.

(** Two loads: eight bytes at 4 through a constant offset, and a dynamic load with
    a declared 16-byte range at 64. *)
Definition example_push_load (base range : Z) (src : nir_src) : nir_instr :=
  nir_instr_type_intrinsic (zero_nir_intrinsic_instr
    <| in_intrinsic := nir_intrinsic_load_push_constant |> <| in_base := base |>
    <| in_range := range |> <| in_num_components := 2 |> <| in_bit_size := 32 |>
    <| in_src := [src] |>).
Definition example_push_nir : nir_shader :=
  zero_nir_shader <| sh_impls := [[[example_push_load 0 16 (nir_imm_src 4);
                                    example_push_load 64 16 zero_nir_src]]] |>.

Lemma gather_push_dwords_witness :
  gather_push_dwords example_push_nir = (true, 0xf0006) /\
  forall i, i ∈ nir_intrinsics example_push_nir -> is_push_load i -> push_in_bounds i.
Proof.
  split; [vm_compute; reflexivity|].
  pose proof (gather_push_dwords_exact example_push_nir) as H.
  destruct (gather_push_dwords example_push_nir) as [ok mask] eqn:E.
  apply H; [|vm_compute in E; by injection E].
  repeat (apply Forall_cons_2; [done|]). apply Forall_nil_2.
Defined.

(** ** Exactness of the descriptor masks *)

Definition variable_ref (s : nir_src) : list (Z * Z) :=
  match src_variable s with
  | Some var => [(var_descriptor_set var, var_binding var)]
  | None => []
  end.

(** The (set, binding) pairs an instruction names. *)
Definition descriptor_refs (i : nir_instr) : list (Z * Z) :=
  match i with
  | nir_instr_type_intrinsic intrin =>
      match in_intrinsic intrin with
      | nir_intrinsic_vulkan_resource_index => [(in_desc_set intrin, in_binding intrin)]
      | nir_intrinsic_image_deref_load | nir_intrinsic_image_deref_sparse_load
      | nir_intrinsic_image_deref_store | nir_intrinsic_image_deref_atomic
      | nir_intrinsic_image_deref_atomic_swap | nir_intrinsic_image_deref_size
      | nir_intrinsic_image_deref_samples => variable_ref (intrinsic_src intrin 0)
      | _ => []
      end
  | nir_instr_type_tex tex =>
      tex ≫= (fun '(ty, src) =>
        match ty with
        | nir_tex_src_texture_deref | nir_tex_src_sampler_deref => variable_ref src
        | nir_tex_src_other => []
        end)
  | _ => []
  end.

Definition record_refs (refs : list (Z * Z)) (u : DescriptorUse) : DescriptorUse :=
  foldl (fun u r => record_descriptor_use r.1 r.2 u) u refs.

Lemma record_variable_refs s u : record_variable s u = record_refs (variable_ref s) u.
Proof. unfold record_variable, variable_ref. by case_match. Qed.

Lemma gather_instr_refs i u : gather_instr i u = record_refs (descriptor_refs i) u.
Proof.
  destruct i as [x|tex| |]; try done.
  - simpl. destruct (in_intrinsic x); try done; apply record_variable_refs.
  - simpl. revert u. induction tex as [|[ty s] tex IH]; intros u; [done|].
    simpl. rewrite IH. unfold record_refs. rewrite foldl_app. f_equal.
    destruct ty; try done; apply record_variable_refs.
Qed.

Lemma gather_refs nir u :
  gather_static_descriptor_use nir u = record_refs (nir_instrs nir ≫= descriptor_refs) u.
Proof.
  unfold gather_static_descriptor_use. revert u.
  induction (nir_instrs nir) as [|i l IH]; intros u; [done|]. simpl.
  rewrite IH, gather_instr_refs. unfold record_refs. by rewrite foldl_app.
Qed.

(** The pair ([set], [b]) is reported. *)
Definition reports (masks : list Z) (set b : Z) : bool := Z.testbit (at_ 0 masks set) b.

Definition masks_wf (masks : list Z) : Prop :=
  length masks = Z.to_nat PSBC_MAX_DESCRIPTOR_SETS.

Lemma reports_put masks set x s b :
  masks_wf masks -> 0 <= set < PSBC_MAX_DESCRIPTOR_SETS -> 0 <= s -> 0 <= b -> 0 <= x ->
  reports (put set (at_ 0 masks set `lor` (1 ≪ x)) masks) s b =
    reports masks s b || ((set =? s) && (x =? b)).
Proof.
  intros Hwf Hset Hs Hb Hx. unfold reports.
  rewrite at_put by (unfold masks_wf, PSBC_MAX_DESCRIPTOR_SETS in *; lia).
  destruct (Z.eqb_spec set s) as [->|]; [|by rewrite orb_false_r].
  autorewrite with bits. f_equal. bcases.
Qed.

Lemma record_use_spec set binding u s b :
  masks_wf (du_binding_mask u) -> 0 <= set -> 0 <= binding ->
  0 <= s < PSBC_MAX_DESCRIPTOR_SETS -> 0 <= b < 64 ->
  masks_wf (du_binding_mask (record_descriptor_use set binding u)) /\
  reports (du_binding_mask (record_descriptor_use set binding u)) s b =
    reports (du_binding_mask u) s b || ((set =? s) && (binding =? b)).
Proof.
  intros Hwf Hset Hbind Hs Hb. unfold record_descriptor_use. rewrite Z.geb_leb.
  destruct (Z.leb_spec PSBC_MAX_DESCRIPTOR_SETS set).
  { split; [done|]. destruct (Z.eqb_spec set s); [lia|]. by rewrite orb_false_r. }
  destruct (Z.ltb_spec binding 64); simpl.
  - split; [unfold masks_wf; by rewrite length_put|]. apply reports_put; (done || lia).
  - split; [done|]. destruct (Z.eqb_spec binding b); [lia|]. by rewrite andb_false_r, orb_false_r.
Qed.

(** Set and binding numbers are unsigned. *)
Definition refs_wf (nir : nir_shader) : Prop :=
  Forall (fun r => 0 <= r.1 /\ 0 <= r.2) (nir_instrs nir ≫= descriptor_refs).

(** The shader names binding [b] of [set]. *)
Definition names (nir : nir_shader) (set b : Z) : Prop :=
  (set, b) ∈ nir_instrs nir ≫= descriptor_refs.

Lemma record_refs_spec refs u s b :
  masks_wf (du_binding_mask u) -> Forall (fun r => 0 <= r.1 /\ 0 <= r.2) refs ->
  0 <= s < PSBC_MAX_DESCRIPTOR_SETS -> 0 <= b < 64 ->
  masks_wf (du_binding_mask (record_refs refs u)) /\
  (reports (du_binding_mask (record_refs refs u)) s b = true <->
   reports (du_binding_mask u) s b = true \/ (s, b) ∈ refs).
Proof.
  intros Hwf Hr Hs Hb. revert u Hwf. induction Hr as [|[set x] refs [H1 H2] _ IH]; intros u Hwf.
  { split; [done|]. rewrite elem_of_nil. naive_solver. }
  simpl in *. destruct (record_use_spec set x u s b) as [Hw He]; [done..|].
  destruct (IH _ Hw) as [Hw' Hi]. split; [done|].
  etrans; [exact Hi|]. rewrite He, orb_true_iff, andb_true_iff, !Z.eqb_eq, elem_of_cons.
  split; [intros [[?|[-> ->]]|?]; auto|intros [?|[[= -> ->]|?]]; auto].
Qed.

(** The descriptor walk is exact: a binding is reported if and only if some
    instruction of the shader names it, for every set and binding the metadata
    can represent. *)
Theorem gather_static_descriptor_use_exact nir s b :
  refs_wf nir -> 0 <= s < PSBC_MAX_DESCRIPTOR_SETS -> 0 <= b < 64 ->
  reports (du_binding_mask (gather_static_descriptor_use nir zero_DescriptorUse)) s b = true <->
  exists i, i ∈ nir_instrs nir /\ (s, b) ∈ descriptor_refs i.
Proof.
  intros Hwf Hs Hb. rewrite gather_refs.
  destruct (record_refs_spec (nir_instrs nir ≫= descriptor_refs) zero_DescriptorUse s b)
    as [_ H]; [done..|]. rewrite H, list_elem_of_bind.
  change (du_binding_mask zero_DescriptorUse) with (replicate 4 0).
  unfold reports. rewrite at_replicate, Z.testbit_0_l. naive_solver.
Qed.

(** A resource index on binding 5 of set 1 and a texture of set 0, binding 3. *)
Definition example_descriptor_nir : nir_shader :=
  zero_nir_shader <| sh_impls := [[[
    nir_instr_type_intrinsic (zero_nir_intrinsic_instr
      <| in_intrinsic := nir_intrinsic_vulkan_resource_index |>
      <| in_desc_set := 1 |> <| in_binding := 5 |>);
    nir_instr_type_tex [(nir_tex_src_texture_deref, mk_nir_src 1 None (Some (mk_nir_variable 0 3)))]]]] |>.

Lemma gather_static_descriptor_use_witness :
  exists i, i ∈ nir_instrs example_descriptor_nir /\ (1, 5) ∈ descriptor_refs i.
Proof.
  apply (gather_static_descriptor_use_exact example_descriptor_nir 1 5); [|done|done|vm_compute; reflexivity].
  repeat (apply Forall_cons_2; [done|]). apply Forall_nil_2.
Defined.

(** ** The fallback for unidentified uses *)

Lemma unknown_sets_spec used masks s :
  in_width 32 used -> 0 <= s < PSBC_MAX_DESCRIPTOR_SETS ->
  Z.testbit (unknown_sets used masks) s = Z.testbit used s && (at_ 0 masks s =? 0).
Proof.
  intros Hu Hs. unfold unknown_sets.
  enough (forall k, 0 <= k -> Z.testbit (loop k (fun set unknown =>
    if truthy (at_ 0 masks set) then unknown `land` not32 (1 ≪ set) else unknown) used) s =
    Z.testbit used s && ((k <=? s) || (at_ 0 masks s =? 0))) as H.
  { rewrite H by done. by destruct (Z.leb_spec PSBC_MAX_DESCRIPTOR_SETS s); [lia|]. }
  intros k Hk. pattern k. apply natlike_ind; [| |done].
  { rewrite loop_0. destruct (Z.leb_spec 0 s); [|lia]. by rewrite andb_true_r. }
  clear k Hk. intros k Hk IH. rewrite <-Z.add_1_r, loop_succ by done.
  assert (Ht : truthy (at_ 0 masks k) = negb (at_ 0 masks k =? 0)) by done. rewrite Ht.
  destruct (Z.eqb_spec (at_ 0 masks k) 0) as [E|E]; simpl negb; cbv iota; clear Ht.
  - rewrite IH. destruct (decide (k = s)) as [->|]; [rewrite E; simpl; by rewrite !orb_true_r|].
    f_equal. f_equal. zcases; lia || done.
  - autorewrite with bits. rewrite IH. destruct (decide (k = s)) as [->|].
    + rewrite Z.sub_diag. simpl. rewrite !andb_false_r. symmetry.
      destruct (Z.leb_spec (s + 1) s); [lia|]. destruct (Z.eqb_spec (at_ 0 masks s) 0); [done|].
      by rewrite andb_false_r.
    + unfold PSBC_MAX_DESCRIPTOR_SETS in *. destruct (Z.ltb_spec s 32); [|lia].
      destruct (Z.eqb_spec (s - k) 0); [lia|]. simpl. rewrite andb_true_r.
      do 2 f_equal. zcases; lia || done.
Qed.

Lemma merge_masks_spec a b s x :
  masks_wf a -> 0 <= s < PSBC_MAX_DESCRIPTOR_SETS ->
  masks_wf (merge_masks a b) /\ reports (merge_masks a b) s x = reports a s x || reports b s x.
Proof.
  intros Ha Hs. unfold merge_masks.
  pose proof (loop_ind (fun k m => masks_wf m /\ forall i, 0 <= i < PSBC_MAX_DESCRIPTOR_SETS ->
      at_ 0 m i = if i <? k then at_ 0 a i `lor` at_ 0 b i else at_ 0 a i)
    PSBC_MAX_DESCRIPTOR_SETS (fun set m => put set (at_ 0 m set `lor` at_ 0 b set) m) a) as H.
  destruct H as [Hw He]; [done|split; [done|]; intros i Hi; by destruct (Z.ltb_spec i 0); [lia|]| |].
  - intros k m Hk [Hm He]. split; [unfold masks_wf; by rewrite length_put|]. intros i Hi.
    rewrite at_put by (unfold masks_wf, PSBC_MAX_DESCRIPTOR_SETS in *; lia).
    rewrite !He by lia. destruct (Z.eqb_spec k i) as [->|]; zcases; lia || done.
  - split; [done|]. unfold reports. rewrite He by done.
    destruct (Z.ltb_spec s PSBC_MAX_DESCRIPTOR_SETS); [|lia]. apply Z.lor_spec.
Qed.

(** Binding [b] of [s] is declared, and can be represented. *)
Definition declares (declared : list PsbcDescriptorBinding) (s b : Z) : Prop :=
  exists d, d ∈ declared /\ db_set d = s /\ db_binding d = b.

Definition declared_wf (d : PsbcDescriptorBinding) : Prop := 0 <= db_set d /\ 0 <= db_binding d.

Lemma add_declared_spec unknown declared masks s b :
  masks_wf masks -> Forall declared_wf declared ->
  0 <= s < PSBC_MAX_DESCRIPTOR_SETS -> 0 <= b < 64 ->
  reports (foldl (fun m d => add_declared unknown d m) masks declared) s b = true <->
  reports masks s b = true \/ (declares declared s b /\ Z.testbit unknown s = true).
Proof.
  intros Hm Hd Hs Hb. revert masks Hm.
  induction Hd as [|d declared [Hd1 Hd2] _ IH]; intros masks Hm; simpl.
  { unfold declares. setoid_rewrite elem_of_nil. naive_solver. }
  assert (Hstep : masks_wf (add_declared unknown d masks) /\
    (reports (add_declared unknown d masks) s b = true <-> reports masks s b = true \/
      (db_set d = s /\ db_binding d = b /\ Z.testbit unknown s = true))).
  { unfold add_declared. rewrite !Z.geb_leb.
    destruct (Z.leb_spec PSBC_MAX_DESCRIPTOR_SETS (db_set d)); simpl;
      [split; [done|]; split; [by left|]; intros [?|(? & ? & _)]; [done|lia]|].
    destruct (Z.leb_spec 64 (db_binding d)); simpl;
      [split; [done|]; split; [by left|]; intros [?|(? & ? & _)]; [done|lia]|].
    rewrite land_bit_truthy by done. destruct (Z.testbit unknown (db_set d)) eqn:E; simpl.
    - split; [unfold masks_wf; by rewrite length_put|]. rewrite reports_put by (done || lia).
      rewrite orb_true_iff, andb_true_iff, !Z.eqb_eq. naive_solver.
    - split; [done|]. split; [by left|]. intros [?|(<- & _ & ?)]; [done|congruence]. }
  destruct Hstep as [Hw He]. etrans; [apply (IH _ Hw)|]. rewrite He. unfold declares.
  setoid_rewrite elem_of_cons. clear. split.
  - intros [[?|(? & ? & ?)]|[(d' & ? & ?) ?]]; [by left|right; split; [|done]; exists d; auto
      |right; split; [|done]; exists d'; auto].
  - intros [?|[(d' & [->|?] & ? & ?) ?]]; [by do 2 left|left; right; auto|right; eauto].
Qed.

(** A stage uses [s] without naming any binding of it. *)
Definition unidentified (nir : nir_shader) (used s : Z) : Prop :=
  Z.testbit used s = true /\ forall b, 0 <= b < 64 -> ~ names nir s b.

(** The recorded masks are 64-bit words. *)
Lemma record_refs_width refs u s :
  (forall s, 0 <= s -> in_width 64 (at_ 0 (du_binding_mask u) s)) -> masks_wf (du_binding_mask u) ->
  Forall (fun r => 0 <= r.1 /\ 0 <= r.2) refs -> 0 <= s ->
  in_width 64 (at_ 0 (du_binding_mask (record_refs refs u)) s).
Proof.
  intros Hu Hw Hr Hs. revert u Hu Hw. induction Hr as [|[set x] refs [? ?] _ IH]; intros u Hu Hw;
    [by apply Hu|]. simpl in *. apply IH; unfold record_descriptor_use; rewrite Z.geb_leb;
    destruct (Z.leb_spec PSBC_MAX_DESCRIPTOR_SETS set); try done;
    destruct (Z.ltb_spec x 64); try done; simpl; [|unfold masks_wf; by rewrite length_put].
  intros s' Hs'. unfold masks_wf, PSBC_MAX_DESCRIPTOR_SETS in *.
  rewrite at_put by lia. case_match; [apply in_width_lor; [by apply Hu|]|by apply Hu].
  rewrite Z.shiftl_1_l. split; [by apply Z.pow_nonneg|by apply Z.pow_lt_mono_r].
Qed.

Lemma masks_zero refs s :
  Forall (fun r => 0 <= r.1 /\ 0 <= r.2) refs -> 0 <= s < PSBC_MAX_DESCRIPTOR_SETS ->
  (forall b, 0 <= b < 64 ->
     ~ reports (du_binding_mask (record_refs refs zero_DescriptorUse)) s b = true) ->
  at_ 0 (du_binding_mask (record_refs refs zero_DescriptorUse)) s = 0.
Proof.
  intros Hr Hs Hn. apply Z.bits_inj'. intros i Hi. rewrite Z.testbit_0_l.
  destruct (Z_lt_dec i 64).
  - specialize (Hn i ltac:(lia)). unfold reports in Hn. by destruct (Z.testbit _ i).
  - apply (testbit_high 64); [|lia]. apply record_refs_width; [|done|done|lia].
    intros s'. change (du_binding_mask zero_DescriptorUse) with (replicate 4 0).
    by rewrite at_replicate.
Qed.

Lemma gather_names nir s :
  refs_wf nir -> 0 <= s < PSBC_MAX_DESCRIPTOR_SETS ->
  let masks := du_binding_mask (gather_static_descriptor_use nir zero_DescriptorUse) in
  masks_wf masks /\
  (forall b, 0 <= b < 64 -> reports masks s b = true <-> names nir s b) /\
  (forall used, in_width 32 used ->
     Z.testbit (unknown_sets used masks) s = true <-> unidentified nir used s).
Proof.
  intros Hwf Hs. cbv zeta. rewrite gather_refs.
  set (u := record_refs (nir_instrs nir ≫= descriptor_refs) zero_DescriptorUse).
  assert (Hr : forall b, 0 <= b < 64 -> masks_wf (du_binding_mask u) /\
    (reports (du_binding_mask u) s b = true <-> names nir s b)).
  { intros b Hb. destruct (record_refs_spec (nir_instrs nir ≫= descriptor_refs)
      zero_DescriptorUse s b) as [? H]; [done..|]. split; [done|]. unfold names, u. rewrite H.
    unfold reports at 1. change (du_binding_mask zero_DescriptorUse) with (replicate 4 0).
    rewrite at_replicate, Z.testbit_0_l. naive_solver. }
  split; [apply (Hr 0); lia|]. split; [intros b Hb; by apply Hr|].
  intros used Hu. rewrite unknown_sets_spec by done. rewrite andb_true_iff, Z.eqb_eq.
  unfold unidentified. split; intros [H1 H2]; (split; [done|]).
  - intros b Hb Hn. apply Hr in Hn; [|done]. unfold reports in Hn. by rewrite H2, Z.testbit_0_l in Hn.
  - apply (masks_zero (nir_instrs nir ≫= descriptor_refs) s); [exact Hwf|done|].
    intros b Hb Hrep. apply (H2 b Hb). by apply Hr.
Qed.

(** Names and unidentified uses over both halves of a program. *)
Definition either_names (nir : nir_shader) (previous : option (nir_shader * Z)) (s b : Z) : Prop :=
  names nir s b \/ exists p used, previous = Some (p, used) /\ names p s b.
Definition either_unidentified (nir : nir_shader) (used : Z) (previous : option (nir_shader * Z))
    (s : Z) : Prop :=
  unidentified nir used s \/ exists p pu, previous = Some (p, pu) /\ unidentified p pu s.

(** The shapes the theorem quantifies over: unsigned numbers, 32-bit set masks. *)
Definition usage_wf (declared : list PsbcDescriptorBinding) (nir : nir_shader) (used : Z)
    (previous : option (nir_shader * Z)) : Prop :=
  Forall declared_wf declared /\ refs_wf nir /\ in_width 32 used /\
  match previous with Some (p, pu) => refs_wf p /\ in_width 32 pu | None => True end.

(** C32: the published binding masks are exact up to the safe fallback: a binding
    is reported if and only if one of the halves names it, or it is declared in a
    set that one of the halves uses without naming any of its bindings.  In
    particular a precise mask of one half never hides an unidentified use of the
    other. *)
Theorem static_binding_masks_exact declared nir used previous s b :
  usage_wf declared nir used previous ->
  0 <= s < PSBC_MAX_DESCRIPTOR_SETS -> 0 <= b < 64 ->
  reports (static_binding_masks declared nir used previous) s b = true <->
  either_names nir previous s b \/
  (declares declared s b /\ either_unidentified nir used previous s).
Proof.
  intros (Hd & Hn & Hu & Hp) Hs Hb. unfold static_binding_masks, either_names, either_unidentified.
  destruct (gather_names nir s Hn Hs) as (Hw & Hr & Hun).
  set (masks := du_binding_mask (gather_static_descriptor_use nir zero_DescriptorUse)) in *.
  destruct previous as [[p pu]|].
  - destruct Hp as [Hpr Hpu]. destruct (gather_names p s Hpr Hs) as (_ & Hr' & Hun').
    set (pm := du_binding_mask (gather_static_descriptor_use p zero_DescriptorUse)) in *.
    destruct (merge_masks_spec masks pm s b Hw Hs) as [Hmw Hm].
    rewrite add_declared_spec by done. rewrite Hm, Z.lor_spec, !orb_true_iff.
    rewrite Hr, Hr', Hun, Hun' by done. clear. split.
    + intros [[?|?]|[? [?|?]]]; [by do 2 left|left; right; by eauto|right; by auto|right; split; by eauto].
    + intros [[?|(? & ? & [= <- <-] & ?)]|[? [?|(? & ? & [= <- <-] & ?)]]]; auto.
  - rewrite add_declared_spec by done. rewrite Hr, Hun by done. clear. split.
    + intros [?|[? ?]]; auto.
    + intros [[?|(? & ? & [=] & _)]|[? [?|(? & ? & [=] & _)]]]; auto.
Qed.

(** The stage names binding 5 of set 1; the other half uses set 1 through a
    pointer nothing names, so every declared binding of set 1 is reported. *)
Definition example_declared : list PsbcDescriptorBinding :=
  [mkPsbcDescriptorBinding 1 5 PSBC_DESCRIPTOR_UNIFORM_BUFFER 1 0 16;
   mkPsbcDescriptorBinding 1 6 PSBC_DESCRIPTOR_STORAGE_BUFFER 1 16 16].

Lemma static_binding_masks_witness :
  either_unidentified example_descriptor_nir 3 (Some (zero_nir_shader, 2)) 1 /\
  reports (static_binding_masks example_declared example_descriptor_nir 3
             (Some (zero_nir_shader, 2))) 1 6 = true.
Proof.
  assert (Hu : either_unidentified example_descriptor_nir 3 (Some (zero_nir_shader, 2)) 1).
  { right. exists zero_nir_shader, 2. split; [done|]. split; [done|].
    intros b _ Hb. unfold names in Hb. simpl in Hb. by apply elem_of_nil in Hb. }
  split; [done|]. apply (static_binding_masks_exact _ _ _ _ 1 6); [|done|done|].
  - split; [repeat (apply Forall_cons_2; [done|]); apply Forall_nil_2|].
    split; [repeat (apply Forall_cons_2; [done|]); apply Forall_nil_2|]. split; [done|].
    split; [apply Forall_nil_2|done].
  - right. split; [|done]. eexists. split; [right; left|]. done.
Defined.

(** ** Gallium constant buffers are reported *)

(** After the Gallium lowering, every constant buffer slot a shader loads
    with a constant scalar index below the limit is reported by the descriptor
    walk as a binding of set 0. *)
Theorem lowered_gallium_slot_reported nir i slot :
  nir_instr_type_intrinsic i ∈ nir_instrs nir ->
  in_intrinsic i = nir_intrinsic_load_ubo ->
  src_num_components (intrinsic_src i 0) = 1 -> src_const (intrinsic_src i 0) = Some slot ->
  0 <= slot < PSBC_MAX_DESCRIPTOR_BINDINGS - PSBC_GALLIUM_UBO_BINDING_BASE ->
  let lowered := nir_shader_instructions_pass Lowering.lower_gallium_ubo_index nir in
  refs_wf lowered ->
  reports (du_binding_mask (gather_static_descriptor_use lowered zero_DescriptorUse))
    0 (PSBC_GALLIUM_UBO_BINDING_BASE + slot) = true.
Proof.
  intros Hin Hop Hc Hk Hs. cbv zeta. intros Hwf.
  unfold PSBC_MAX_DESCRIPTOR_BINDINGS, PSBC_GALLIUM_UBO_BINDING_BASE in *.
  destruct (gather_names _ 0 Hwf ltac:(done)) as (_ & Hr & _). apply Hr; [lia|].
  unfold names. apply list_elem_of_bind.
  exists (nir_instr_type_intrinsic (Lowering.gallium_resource_index slot)). split; [left|].
  rewrite nir_instrs_pass. apply list_elem_of_bind. exists (nir_instr_type_intrinsic i).
  split; [|done]. unfold nir_rewrite, Lowering.lower_gallium_ubo_index.
  rewrite bool_decide_eq_true_2 by done. rewrite Hc. simpl.
  unfold nir_src_is_const, nir_src_as_uint. rewrite Hk. rewrite bool_decide_eq_true_2 by eauto. simpl.
  unfold PSBC_MAX_DESCRIPTOR_BINDINGS, PSBC_GALLIUM_UBO_BINDING_BASE.
  destruct (Z.geb_spec slot (64 - 32)); [lia|]. left.
Qed.

Definition example_ubo_load : nir_intrinsic_instr :=
  zero_nir_intrinsic_instr <| in_intrinsic := nir_intrinsic_load_ubo |>
    <| in_src := [nir_imm_src 3; zero_nir_src] |>.

Lemma lowered_gallium_slot_witness :
  reports (du_binding_mask (gather_static_descriptor_use
    (nir_shader_instructions_pass Lowering.lower_gallium_ubo_index
       (zero_nir_shader <| sh_impls := [[[nir_instr_type_intrinsic example_ubo_load]]] |>))
    zero_DescriptorUse)) 0 35 = true.
Proof.
  apply (lowered_gallium_slot_reported _ example_ubo_load 3); try done; [left|].
  repeat (apply Forall_cons_2; [done|]). apply Forall_nil_2.
Defined.

End Usage.
