(* ===== verification/Validate.v ===== *)
(** * Validation of a compile request (psbc_compile.c)

    Everything psbc_compile_impl checks before it initialises the library: the
    SPIR-V structure and its opt-in capabilities, specialization maps, the stage
    combination, colour formats and the descriptor layout; and the selection of
    the parameters of a linked stage. *)

From S2P Require Import Prelude Types Regs Mesa Nir ShaderUtil.

Module Validate.

(** ** SPIR-V capabilities *)

Definition SpvOpCapability : Z := 17.
Definition SpvCapabilityInt16 : Z := 22.
Definition SpvCapabilityInt8 : Z := 39.
Definition SpvCapabilityStorageBuffer16BitAccess : Z := 4433.
Definition SpvCapabilityUniformAndStorageBuffer16BitAccess : Z := 4434.
Definition SpvCapabilityStorageBuffer8BitAccess : Z := 4448.
Definition SpvCapabilityUniformAndStorageBuffer8BitAccess : Z := 4449.
Definition SpvCapabilityVulkanMemoryModel : Z := 5345.
Definition SpvCapabilityVulkanMemoryModelDeviceScope : Z := 5346.
Definition SpvCapabilityPhysicalStorageBufferAddresses : Z := 5347.

(** The switch: whether the caller enabled a capability. *)
Definition capability_enabled (opts : PsbcCompileOptions) (capability : Z) : bool :=
  if capability =? SpvCapabilityInt8 then co_enable_int8 opts
  else if capability =? SpvCapabilityInt16 then co_enable_int16 opts
  else if capability =? SpvCapabilityStorageBuffer8BitAccess then
    co_enable_storage_buffer_8bit_access opts
  else if capability =? SpvCapabilityUniformAndStorageBuffer8BitAccess then
    co_enable_uniform_and_storage_buffer_8bit_access opts
  else if capability =? SpvCapabilityStorageBuffer16BitAccess then
    co_enable_storage_buffer_16bit_access opts
  else if capability =? SpvCapabilityUniformAndStorageBuffer16BitAccess then
    co_enable_uniform_and_storage_buffer_16bit_access opts
  else if capability =? SpvCapabilityPhysicalStorageBufferAddresses then
    co_enable_physical_storage_buffer_addresses opts
  else if capability =? SpvCapabilityVulkanMemoryModel then co_enable_vulkan_memory_model opts
  else if capability =? SpvCapabilityVulkanMemoryModelDeviceScope then
    co_enable_vulkan_memory_model_device_scope opts
  else true.

(** The instruction loop from [offset]; each step advances by at least one word,
    so [fuel] = the number of words is never used up. *)
Fixpoint scan_instructions (fuel : nat) (opts : PsbcCompileOptions) (spirv : list Z)
    (word_count offset : Z) : PsbcResult :=
  if offset <? word_count then
    match fuel with
    | O => PSBC_RESULT_INTERNAL_ERROR
    | S fuel =>
        let instruction := at_ 0 spirv offset in
        let words := u16 (instruction ≫ 16) in
        let opcode := instruction `land` 0xffff in
        if (words =? 0) || (words >? word_count - offset) then PSBC_RESULT_INVALID_SPIRV
        else if (opcode =? SpvOpCapability) && (words =? 2) &&
                negb (capability_enabled opts (at_ 0 spirv (offset + 1)))
        then PSBC_RESULT_UNSUPPORTED_CAPABILITY
        else scan_instructions fuel opts spirv word_count (offset + words)
    end
  else PSBC_RESULT_OK.

(** [spirv = None] is a null pointer. *)
Definition validate_spirv_capabilities (spirv : option (list Z)) (spirv_size : Z)
    (opts : PsbcCompileOptions) : PsbcResult :=
  match spirv with
  | None => PSBC_RESULT_INVALID_SPIRV
  | Some words =>
      if (spirv_size <? 5 * 4) || truthy (spirv_size `mod` 4) ||
         negb (at_ 0 words 0 =? 0x07230203) then PSBC_RESULT_INVALID_SPIRV
      else
        let word_count := spirv_size / 4 in
        scan_instructions (Z.to_nat word_count) opts words word_count 5
  end.

(** ** Specialization maps *)

Definition specialization_entry_valid (entries : list PsbcSpecializationConstant) (i : Z) : bool :=
  let e := at_ zero_PsbcSpecializationConstant entries i in
  negb (sc_size e =? 0) && negb (sc_size e >? PSBC_MAX_SPECIALIZATION_BYTES) &&
  forallb (fun j => negb (sc_constant_id (at_ zero_PsbcSpecializationConstant entries j) =?
                          sc_constant_id e)) (seqZ 0 i).

Definition specialization_parameters_valid (count : Z)
    (entries : list PsbcSpecializationConstant) : bool :=
  if count >? PSBC_MAX_SPECIALIZATION_CONSTANTS then false
  else forallb (specialization_entry_valid entries) (seqZ 0 count).

(** The arrays prepare_stage_nir hands to Vulkan: (id, offset, size) entries and the
    packed data. *)
Definition pack_specialization (entries : list PsbcSpecializationConstant) :
    list (Z * Z * Z) * list Z :=
  foldl (fun '(map_entries, data) source =>
    (map_entries ++ [(sc_constant_id source, Z.of_nat (length data), sc_size source)],
     data ++ take (Z.to_nat (sc_size source)) (sc_data source))) ([], []) entries.

(** ** Linked parameters *)

Definition select_linked_parameters (base : PsbcCompileOptions)
    (source : PsbcLinkedStageParameters) : PsbcCompileOptions :=
  if negb (lp_enabled source) then base
  else base
    <| co_entrypoint := lp_entrypoint source |>
    <| co_specialization_constant_count := lp_specialization_constant_count source |>
    <| co_specialization_constants := lp_specialization_constants source |>.

(** ** Descriptor layout *)

Definition valid_descriptor_type (t : PsbcDescriptorType) : bool :=
  bool_decide (t = PSBC_DESCRIPTOR_UNIFORM_BUFFER) ||
  bool_decide (t = PSBC_DESCRIPTOR_UNIFORM_TEXEL_BUFFER) ||
  bool_decide (t = PSBC_DESCRIPTOR_COMBINED_IMAGE_SAMPLER) ||
  bool_decide (t = PSBC_DESCRIPTOR_STORAGE_BUFFER) ||
  bool_decide (t = PSBC_DESCRIPTOR_INPUT_ATTACHMENT) ||
  bool_decide (t = PSBC_DESCRIPTOR_STORAGE_IMAGE) ||
  bool_decide (t = PSBC_DESCRIPTOR_SAMPLER) ||
  bool_decide (t = PSBC_DESCRIPTOR_SAMPLED_IMAGE) ||
  bool_decide (t = PSBC_DESCRIPTOR_STORAGE_TEXEL_BUFFER).

Definition expected_stride (t : PsbcDescriptorType) : Z :=
  match t with
  | PSBC_DESCRIPTOR_COMBINED_IMAGE_SAMPLER => 48
  | PSBC_DESCRIPTOR_INPUT_ATTACHMENT | PSBC_DESCRIPTOR_STORAGE_IMAGE
  | PSBC_DESCRIPTOR_SAMPLED_IMAGE => 32
  | _ => 16
  end.

Definition binding_refused (b : PsbcDescriptorBinding) : bool :=
  (db_set b >=? PSBC_MAX_DESCRIPTOR_SETS) ||
  (db_binding b >=? PSBC_MAX_DESCRIPTOR_BINDINGS) ||
  negb (valid_descriptor_type (db_type b)) || (db_array_size b =? 0) ||
  negb (db_stride b =? expected_stride (db_type b)) ||
  truthy (db_offset b `land` 15) ||
  (u64 (db_offset b + u64 (db_array_size b * db_stride b)) >? UINT32_MAX).

Definition descriptor_bindings_valid (count : Z) (bindings : list PsbcDescriptorBinding) : bool :=
  forallb (fun i =>
    let b := at_ zero_PsbcDescriptorBinding bindings i in
    negb (binding_refused b) &&
    forallb (fun j =>
      let other := at_ zero_PsbcDescriptorBinding bindings j in
      negb ((db_set other =? db_set b) && (db_binding other =? db_binding b)))
      (seqZ 0 i)) (seqZ 0 count).

(** ** The request and its guards *)

(** The arguments of psbc_compile_impl; None is a null pointer. *)
Record CompileRequest : Type := mk_CompileRequest {
  rq_spirv : option (list Z);
  rq_spirv_size : Z;
  rq_input_nir : option nir_shader;
  rq_previous_spirv : option (list Z);
  rq_previous_spirv_size : Z;
  rq_previous_input_nir : option nir_shader;
  rq_next_link_spirv : option (list Z);
  rq_next_link_spirv_size : Z
}.

#[export] Instance eta_CompileRequest : Eta CompileRequest := fun r =>
  mk_CompileRequest r.(rq_spirv) r.(rq_spirv_size) r.(rq_input_nir)
    r.(rq_previous_spirv) r.(rq_previous_spirv_size) r.(rq_previous_input_nir)
    r.(rq_next_link_spirv) r.(rq_next_link_spirv_size).

Definition zero_CompileRequest : CompileRequest := {|
  rq_spirv := None;
  rq_spirv_size := 0;
  rq_input_nir := None;
  rq_previous_spirv := None;
  rq_previous_spirv_size := 0;
  rq_previous_input_nir := None;
  rq_next_link_spirv := None;
  rq_next_link_spirv_size := 0
|}.

Definition given {A} (x : option A) : bool := match x with Some _ => true | None => false end.

Definition paired_previous (rq : CompileRequest) : bool :=
  given (rq_previous_spirv rq) || given (rq_previous_input_nir rq).
Definition paired_with (rq : CompileRequest) (opts : PsbcCompileOptions)
    (s : mesa_shader_stage) : bool :=
  paired_previous rq && stage_eqb (ShaderUtil.psbc_to_mesa_stage (co_stage opts)) s.
Definition paired_geometry (rq : CompileRequest) (opts : PsbcCompileOptions) : bool :=
  paired_with rq opts MESA_SHADER_GEOMETRY.
Definition paired_hull (rq : CompileRequest) (opts : PsbcCompileOptions) : bool :=
  paired_with rq opts MESA_SHADER_TESS_CTRL.
Definition paired_domain (rq : CompileRequest) (opts : PsbcCompileOptions) : bool :=
  paired_with rq opts MESA_SHADER_TESS_EVAL.
Definition paired_tess_geometry (rq : CompileRequest) (opts : PsbcCompileOptions) : bool :=
  paired_geometry rq opts && given (rq_next_link_spirv rq).

(** The API stage the previous shader must have. *)
Definition expected_previous_stage (rq : CompileRequest) (opts : PsbcCompileOptions) :
    mesa_shader_stage :=
  if paired_domain rq opts then MESA_SHADER_TESS_CTRL
  else if paired_tess_geometry rq opts then MESA_SHADER_TESS_EVAL
  else MESA_SHADER_VERTEX.

Definition is_ps5 (opts : PsbcCompileOptions) : bool :=
  bool_decide (co_target opts = PSBC_TARGET_PS5).

(** The dependent feature switches. *)
Definition features_inconsistent (opts : PsbcCompileOptions) : bool :=
  (co_enable_uniform_and_storage_buffer_8bit_access opts &&
   negb (co_enable_storage_buffer_8bit_access opts)) ||
  (co_enable_uniform_and_storage_buffer_16bit_access opts &&
   negb (co_enable_storage_buffer_16bit_access opts)) ||
  (co_enable_vulkan_memory_model_device_scope opts && negb (co_enable_vulkan_memory_model opts)).

Definition linked_specialization_valid (p : PsbcLinkedStageParameters) : bool :=
  negb (lp_enabled p) ||
  specialization_parameters_valid (lp_specialization_constant_count p)
    (lp_specialization_constants p).

(** One failing guard of a sequence of [if (...) return error;]. *)
Fixpoint first_error (guards : list (bool * PsbcResult)) : option PsbcResult :=
  match guards with
  | [] => None
  | (failed, r) :: guards => if failed then Some r else first_error guards
  end.

Definition not_ok (r : PsbcResult) : bool := negb (bool_decide (r = PSBC_RESULT_OK)).

(** The guards between memset and psbc_init, in order: the error to return, or
    [None] when the compile proceeds. *)
Definition impl_guards (rq : CompileRequest) (opts : PsbcCompileOptions) : option PsbcResult :=
  let mesa_stage := ShaderUtil.psbc_to_mesa_stage (co_stage opts) in
  let validation := validate_spirv_capabilities (rq_spirv rq) (rq_spirv_size rq) opts in
  let previous_validation :=
    validate_spirv_capabilities (rq_previous_spirv rq) (rq_previous_spirv_size rq) opts in
  let paired_previous := paired_previous rq in
  let paired_geometry := paired_geometry rq opts in
  let paired_hull := paired_hull rq opts in
  let paired_domain := paired_domain rq opts in
  first_error
    [ (features_inconsistent opts, PSBC_RESULT_INTERNAL_ERROR);
      (negb (given (rq_input_nir rq)) && not_ok validation, validation);
      (stage_eqb mesa_stage MESA_SHADER_NONE, PSBC_RESULT_UNSUPPORTED_STAGE);
      (paired_previous &&
         ((negb paired_geometry && negb paired_hull && negb paired_domain) ||
          (paired_geometry && negb (co_ngg opts)) || (paired_hull && co_ngg opts) ||
          negb (is_ps5 opts)), PSBC_RESULT_UNSUPPORTED_STAGE);
      (co_ps5_global_streamout opts && negb paired_geometry, PSBC_RESULT_UNSUPPORTED_STAGE);
      (co_primitive_id_per_primitive opts &&
         (negb (is_ps5 opts) || negb (stage_eqb mesa_stage MESA_SHADER_FRAGMENT)),
       PSBC_RESULT_UNSUPPORTED_STAGE);
      (match rq_previous_input_nir rq with
       | Some nir => negb (stage_eqb (si_stage (sh_info nir)) (expected_previous_stage rq opts))
       | None => false
       end, PSBC_RESULT_UNSUPPORTED_STAGE);
      (given (rq_previous_spirv rq) && not_ok previous_validation, previous_validation);
      (co_ngg opts &&
         (negb (is_ps5 opts) ||
          (negb (stage_eqb mesa_stage MESA_SHADER_VERTEX) &&
           negb (stage_eqb mesa_stage MESA_SHADER_TESS_EVAL) && negb paired_geometry)),
       PSBC_RESULT_UNSUPPORTED_STAGE);
      (co_descriptor_binding_count opts >? PSBC_MAX_DESCRIPTOR_BINDINGS,
       PSBC_RESULT_INTERNAL_ERROR);
      (negb (specialization_parameters_valid (co_specialization_constant_count opts)
               (co_specialization_constants opts)) ||
         negb (linked_specialization_valid (co_previous_parameters opts)) ||
         negb (linked_specialization_valid (co_next_link_parameters opts)),
       PSBC_RESULT_INTERNAL_ERROR);
      (truthy ((co_color_is_int8 opts `lor` co_color_is_int10 opts) `land` not32 0xff),
       PSBC_RESULT_INTERNAL_ERROR);
      (existsb (fun i => ShaderUtil.nibble (co_spi_shader_col_format opts) i >?
                         V_028714_SPI_SHADER_32_ABGR) (seqZ 0 8), PSBC_RESULT_INTERNAL_ERROR);
      (negb (descriptor_bindings_valid (co_descriptor_binding_count opts)
               (co_descriptor_bindings opts)), PSBC_RESULT_INTERNAL_ERROR) ].

(** ** The scan decides the SPIR-V grammar *)

(** An instruction: its first word holds its own length. *)
Definition well_formed (i : list Z) : Prop :=
  exists w operands, i = w :: operands /\ u16 (w ≫ 16) = Z.of_nat (length i).

(** The opcode and, for a two-word OpCapability, the capability it declares. *)
Definition declared_capability (i : list Z) : option Z :=
  match i with
  | [w; c] => if w `land` 0xffff =? SpvOpCapability then Some c else None
  | _ => None
  end.

Definition allowed (opts : PsbcCompileOptions) (i : list Z) : Prop :=
  match declared_capability i with
  | Some c => capability_enabled opts c = true
  | None => True
  end.

Lemma at_drop {A} (d : A) l k i : 0 <= k -> 0 <= i -> at_ d l (k + i) = at_ d (drop (Z.to_nat k) l) i.
Proof.
  intros. unfold at_. rewrite !nth_lookup, lookup_drop. do 2 f_equal. lia.
Qed.

(** One instruction taken from the front of the remaining words. *)
Lemma take_instruction (rest : list Z) (n : Z) w tl :
  rest = w :: tl -> 0 < n -> n <= Z.of_nat (length rest) ->
  exists operands, take (Z.to_nat n) rest = w :: operands /\
    Z.of_nat (length (take (Z.to_nat n) rest)) = n.
Proof.
  intros -> Hn Hle. replace (Z.to_nat n) with (S (Z.to_nat (n - 1))) by lia. simpl take.
  eexists. split; [done|]. simpl in *. rewrite length_take. lia.
Qed.

(** What the scan of the remaining words [rest] reports. *)
Inductive scanned (opts : PsbcCompileOptions) : list Z -> PsbcResult -> Prop :=
| scanned_end : scanned opts [] PSBC_RESULT_OK
| scanned_step i rest r :
    well_formed i -> allowed opts i -> scanned opts rest r -> scanned opts (i ++ rest) r
| scanned_refused i rest :
    well_formed i -> ~ allowed opts i ->
    scanned opts (i ++ rest) PSBC_RESULT_UNSUPPORTED_CAPABILITY
| scanned_invalid rest :
    rest <> [] -> (forall i tl, rest = i ++ tl -> ~ well_formed i) ->
    scanned opts rest PSBC_RESULT_INVALID_SPIRV.

Lemma allowed_scan opts w operands :
  well_formed (w :: operands) ->
  (w `land` 0xffff =? SpvOpCapability) && (u16 (w ≫ 16) =? 2) &&
    negb (capability_enabled opts (at_ 0 (w :: operands) 1)) = false <-> allowed opts (w :: operands).
Proof.
  intros (w' & ops' & [= <- <-] & Hlen). rewrite Hlen. unfold allowed, declared_capability.
  destruct operands as [|c [|d tl]].
  - simpl. rewrite andb_false_r. done.
  - simpl. change (at_ 0 [w; c] 1) with c. rewrite andb_true_r.
    destruct (_ =? SpvOpCapability); simpl; [|done]. by destruct (capability_enabled opts c).
  - assert ((Z.of_nat (length (w :: c :: d :: tl)) =? 2) = false) as ->
      by (apply Z.eqb_neq; cbn [length]; lia).
    by rewrite andb_false_r.
Qed.

Lemma well_formed_unique w tl i tl' :
  w :: tl = i ++ tl' -> well_formed i -> Z.of_nat (length i) = u16 (w ≫ 16).
Proof. intros E (w' & ops & -> & Hl). simpl in E. injection E as <- _. by rewrite Hl. Qed.

Lemma scan_scanned opts words fuel offset :
  0 <= offset <= Z.of_nat (length words) -> (length words < fuel + S (Z.to_nat offset))%nat ->
  scanned opts (drop (Z.to_nat offset) words)
    (scan_instructions fuel opts words (Z.of_nat (length words)) offset).
Proof.
  revert offset. induction fuel as [|fuel IH]; intros offset Ho Hf; cbn [scan_instructions].
  { destruct (Z.ltb_spec offset (Z.of_nat (length words))); [lia|].
    rewrite drop_ge by lia. constructor. }
  destruct (Z.ltb_spec offset (Z.of_nat (length words))); [|rewrite drop_ge by lia; constructor].
  assert (Hlen : length (drop (Z.to_nat offset) words) = (length words - Z.to_nat offset)%nat)
    by apply length_drop.
  assert (Hw0 : at_ 0 words offset = at_ 0 (drop (Z.to_nat offset) words) 0)
    by (rewrite <-at_drop by lia; f_equal; lia).
  rewrite Hw0, at_drop by lia. clear Hw0.
  destruct (drop (Z.to_nat offset) words) as [|w tl] eqn:Ed; [simpl in Hlen; lia|].
  change (at_ 0 (w :: tl) 0) with w. set (n := u16 (w ≫ 16)).
  pose proof (wrap_nonneg 16 (w ≫ 16) ltac:(done)) as Hn0. fold n in Hn0.
  destruct (Z.eqb_spec n 0) as [E0|E0]; simpl orb.
  { constructor; [done|]. intros i tl' E Hwf. pose proof (well_formed_unique _ _ _ _ E Hwf).
    destruct Hwf as (? & ? & -> & _). cbn [length] in *. lia. }
  rewrite Z.gtb_ltb. destruct (Z.ltb_spec (Z.of_nat (length words) - offset) n).
  { constructor; [done|]. intros i tl' E Hwf. pose proof (well_formed_unique _ _ _ _ E Hwf) as Hi.
    fold n in Hi. apply (f_equal length) in E. rewrite length_app in E. lia. }
  destruct (take_instruction (w :: tl) n w tl eq_refl) as (ops & Ht & Hl); [lia|lia|].
  assert (Hwf : well_formed (w :: ops)) by (exists w, ops; rewrite <-Ht, Hl; done).
  assert (Hat : (w `land` 0xffff =? SpvOpCapability) && (n =? 2) &&
      negb (capability_enabled opts (at_ 0 (w :: tl) 1)) =
    (w `land` 0xffff =? SpvOpCapability) && (n =? 2) &&
      negb (capability_enabled opts (at_ 0 (w :: ops) 1))).
  { destruct (Z.eqb_spec n 2) as [E2|]; [|by rewrite !andb_false_r]. do 3 f_equal.
    rewrite E2 in Ht. change (Z.to_nat 2) with 2%nat in Ht.
    destruct tl as [|c tl]; [simpl in Hlen; lia|]. simpl in Ht. by injection Ht as <-. }
  rewrite Hat. clear Hat. pose proof (allowed_scan opts w ops Hwf) as Ha. fold n in Ha.
  rewrite <-(take_drop (Z.to_nat n) (w :: tl)), Ht.
  match goal with |- context [if ?b then _ else _] => destruct b end.
  { apply scanned_refused; [done|]. intros ?%Ha. done. }
  apply scanned_step; [done|by apply Ha|].
  rewrite <-Ed, drop_drop. replace (Z.to_nat offset + Z.to_nat n)%nat with (Z.to_nat (offset + n)) by lia.
  apply IH; lia.
Qed.

(** The first instruction of a word sequence is determined by the sequence. *)
Lemma first_instruction_unique i i' rest rest' :
  well_formed i -> well_formed i' -> i ++ rest = i' ++ rest' -> i = i' /\ rest = rest'.
Proof.
  intros Hi Hi' E. apply app_inj_1; [|done].
  pose proof Hi as (w & ops & -> & H). pose proof Hi' as (w' & ops' & -> & H').
  simpl in E. injection E as <- _. rewrite H in H'. lia.
Qed.

Lemma well_formed_nonempty i rest : well_formed i -> i ++ rest <> [].
Proof. by intros (w & ops & -> & _). Qed.

Lemma scanned_step_inv opts i rest r :
  well_formed i -> scanned opts (i ++ rest) r ->
  (allowed opts i /\ scanned opts rest r) \/
  (~ allowed opts i /\ r = PSBC_RESULT_UNSUPPORTED_CAPABILITY).
Proof.
  intros Hi H. inversion H as [E|i' rest' r' Hi' Ha Hs E|i' rest' Hi' Ha E|l Hne Hbad E]; subst.
  - by destruct (well_formed_nonempty i rest Hi).
  - destruct (first_instruction_unique _ _ _ _ Hi Hi' (eq_sym E)) as [-> ->]. by left.
  - destruct (first_instruction_unique _ _ _ _ Hi Hi' (eq_sym E)) as [-> ->]. by right.
  - by destruct (Hbad i rest eq_refl).
Qed.

Lemma scanned_nil_inv opts r : scanned opts [] r -> r = PSBC_RESULT_OK.
Proof.
  intros H. inversion H as [E|i' rest' r' Hi' Ha Hs E|i' rest' Hi' Ha E|l Hne Hbad E]; subst; try done.
  all: by destruct (well_formed_nonempty _ _ Hi' E).
Qed.

(** The rest decomposes into acceptable instructions, up to [tail]. *)
Definition accepted (opts : PsbcCompileOptions) (rest tail : list Z) : Prop :=
  exists l, rest = concat l ++ tail /\ Forall well_formed l /\ Forall (allowed opts) l.

Lemma scanned_accepted opts rest tail r :
  accepted opts rest tail -> scanned opts rest r -> scanned opts tail r.
Proof.
  intros (l & -> & Hwf & Hal). revert Hal. induction Hwf as [|i l Hi _ IH]; intros Hal H; [done|].
  inversion Hal as [|? ? Ha Hl]; subst. simpl in H. rewrite <-app_assoc in H.
  destruct (scanned_step_inv _ _ _ _ Hi H) as [[_ ?]|[? _]]; [by apply IH|done].
Qed.

Lemma accepted_cons opts i rest tail :
  well_formed i -> allowed opts i -> accepted opts rest tail -> accepted opts (i ++ rest) tail.
Proof.
  intros Hi Ha (l & -> & Hl & Hal). exists (i :: l). simpl. rewrite app_assoc.
  split; [done|]. split; by constructor.
Qed.

Lemma scanned_outcome opts rest r :
  scanned opts rest r ->
  match r with
  | PSBC_RESULT_OK => accepted opts rest []
  | PSBC_RESULT_UNSUPPORTED_CAPABILITY =>
      exists i tail, accepted opts rest (i ++ tail) /\ well_formed i /\ ~ allowed opts i
  | PSBC_RESULT_INVALID_SPIRV => True
  | _ => False
  end.
Proof.
  induction 1 as [|i rest r Hi Ha Hs IH|i rest Hi Ha|rest Hne Hbad].
  - exists []. by repeat constructor.
  - destruct r; try done.
    + by apply accepted_cons.
    + destruct IH as (j & tail & ? & ?). exists j, tail. split; [by apply accepted_cons|done].
  - exists i, rest. split; [|done]. exists []. by repeat constructor.
  - done.
Qed.

Definition spirv_header_ok (words : list Z) (size : Z) : Prop :=
  20 <= size /\ size `mod` 4 = 0 /\ at_ 0 words 0 = 0x07230203.

Lemma validate_scanned words size opts :
  Z.of_nat (length words) = size / 4 ->
  (spirv_header_ok words size /\
   scanned opts (drop 5 words) (validate_spirv_capabilities (Some words) size opts)) \/
  (~ spirv_header_ok words size /\
   validate_spirv_capabilities (Some words) size opts = PSBC_RESULT_INVALID_SPIRV).
Proof.
  intros Hlen. unfold validate_spirv_capabilities, spirv_header_ok, truthy.
  change (5 * 4) with 20. destruct (Z.ltb_spec size 20); [right; split; [lia|done]|].
  destruct (Z.eqb_spec (size `mod` 4) 0); [|right; split; [lia|done]].
  destruct (Z.eqb_spec (at_ 0 words 0) 0x07230203) as [E|E]; [|right; split; [lia|done]].
  left. split; [done|]. simpl orb. cbv iota. rewrite <-Hlen, Nat2Z.id.
  assert (5 <= size / 4) by (apply Z.div_le_lower_bound; lia).
  apply (scan_scanned opts words (length words) 5); simpl; lia.
Qed.

(** C28: capability validation is total and fails closed.  A module is accepted
    exactly when its header is right, the words after it split into well-formed
    instructions, and every capability it declares is enabled (or not gated); it
    is reported unsupported exactly when a disabled capability is declared after
    a well-formed acceptable prefix; anything else is invalid. *)
Theorem validate_spirv_capabilities_exact words size opts :
  Z.of_nat (length words) = size / 4 ->
  let r := validate_spirv_capabilities (Some words) size opts in
  (r = PSBC_RESULT_OK <-> spirv_header_ok words size /\ accepted opts (drop 5 words) []) /\
  (r = PSBC_RESULT_UNSUPPORTED_CAPABILITY <-> spirv_header_ok words size /\
     exists i tail, accepted opts (drop 5 words) (i ++ tail) /\ well_formed i /\ ~ allowed opts i) /\
  (r = PSBC_RESULT_OK \/ r = PSBC_RESULT_UNSUPPORTED_CAPABILITY \/ r = PSBC_RESULT_INVALID_SPIRV).
Proof.
  intros Hlen. cbv zeta.
  destruct (validate_scanned words size opts Hlen) as [[Hh Hs]|[Hh ->]];
    [|split; [|split; [|auto]]; split; (done || by intros [? _])].
  pose proof (scanned_outcome _ _ _ Hs) as Ho. revert Hs Ho.
  generalize (validate_spirv_capabilities (Some words) size opts). intros r Hs Ho. split; [|split].
  - split; [by intros ->|]. intros [_ Ha]. by apply (scanned_nil_inv opts), (scanned_accepted opts _ _ r Ha).
  - split; [by intros ->|]. intros (_ & i & tail & Ha & Hi & Hn).
    apply (scanned_accepted opts _ _ r Ha) in Hs.
    by destruct (scanned_step_inv _ _ _ _ Hi Hs) as [[? _]|[_ ?]].
  - destruct r; auto; done.
Qed.

(** A module declaring Shader and Int8. *)
Definition example_module : list Z :=
  [0x07230203; 0x10500; 0; 8; 0; 0x20011; 1; 0x20011; 39].

Lemma validate_spirv_capabilities_witness :
  exists i tail, accepted zero_PsbcCompileOptions (drop 5 example_module) (i ++ tail) /\
    well_formed i /\ ~ allowed zero_PsbcCompileOptions i.
Proof.
  destruct (validate_spirv_capabilities_exact example_module 36 zero_PsbcCompileOptions eq_refl)
    as (_ & H & _). apply H. vm_compute. reflexivity.
Defined.

(** ** Specialization maps *)

Lemma take_lookup_at {A} (d : A) l n i :
  0 <= n <= Z.of_nat (length l) -> 0 <= i < n ->
  take (Z.to_nat n) l !! Z.to_nat i = Some (at_ d l i).
Proof. intros. rewrite lookup_take_lt by lia. apply lookup_at. lia. Qed.

(** Pairwise checks against all earlier entries are a NoDup check. *)
Lemma forallb_pairs_NoDup {A K} (d : A) (key : A -> K) (same : A -> A -> bool) l n :
  (forall x y, same x y = true <-> key x = key y) ->
  0 <= n <= Z.of_nat (length l) ->
  forallb (fun i => forallb (fun j => negb (same (at_ d l j) (at_ d l i))) (seqZ 0 i)) (seqZ 0 n) = true
  <-> NoDup (map key (take (Z.to_nat n) l)).
Proof.
  intros Hsame Hn. rewrite forallb_forall.
  assert (Hkey : forall k, 0 <= k < n ->
    map key (take (Z.to_nat n) l) !! Z.to_nat k = Some (key (at_ d l k))).
  { intros k Hk. rewrite (list_lookup_fmap key), (take_lookup_at d) by lia. done. }
  split.
  - intros H. apply NoDup_alt. intros i j x Hi Hj.
    assert (Hlt : forall i j, map key (take (Z.to_nat n) l) !! i = Some x ->
      map key (take (Z.to_nat n) l) !! j = Some x -> ~ (i < j)%nat).
    { clear i j Hi Hj. intros i j Hi Hj Hij.
      assert (Z.of_nat j < n).
      { apply lookup_lt_Some in Hj. rewrite length_map, length_take in Hj. lia. }
      rewrite <-(Nat2Z.id i), Hkey in Hi by lia. rewrite <-(Nat2Z.id j), Hkey in Hj by lia.
      specialize (H (Z.of_nat j) ltac:(apply list_elem_of_In, elem_of_seqZ; lia)).
      rewrite forallb_forall in H.
      specialize (H (Z.of_nat i) ltac:(apply list_elem_of_In, elem_of_seqZ; lia)).
      apply negb_true_iff in H. rewrite (proj2 (Hsame _ _)) in H; [done|congruence]. }
    destruct (Nat.lt_trichotomy i j) as [Hij|[?|Hij]];
      [by destruct (Hlt i j Hi Hj Hij)|done|by destruct (Hlt j i Hj Hi Hij)].
  - intros Hnd i Hi%list_elem_of_In%elem_of_seqZ. apply forallb_forall.
    intros j Hj%list_elem_of_In%elem_of_seqZ. apply negb_true_iff.
    destruct (same (at_ d l j) (at_ d l i)) eqn:E; [|done]. apply Hsame in E.
    pose proof (Hkey i ltac:(lia)) as Hki. pose proof (Hkey j ltac:(lia)) as Hkj.
    rewrite E in Hkj. pose proof (NoDup_lookup _ _ _ _ Hnd Hki Hkj). lia.
Qed.

(** A loop of two checks is two loops. *)
Lemma forallb_and {A} (f g : A -> bool) l :
  forallb (fun x => f x && g x) l = forallb f l && forallb g l.
Proof.
  induction l as [|x l IH]; [done|]. simpl. rewrite IH.
  by destruct (f x), (g x), (forallb f l), (forallb g l).
Qed.

Lemma forallb_range {A} (d : A) (f : A -> bool) l n :
  0 <= n <= Z.of_nat (length l) ->
  forallb (fun i => f (at_ d l i)) (seqZ 0 n) = true <-> Forall (fun x => f x = true) (take (Z.to_nat n) l).
Proof.
  intros Hn. rewrite forallb_forall, Forall_lookup. split.
  - intros H i x Hi. pose proof (lookup_lt_Some _ _ _ Hi) as Hl. rewrite length_take in Hl.
    rewrite <-(Nat2Z.id i), (take_lookup_at d) in Hi by lia. injection Hi as <-.
    apply H, list_elem_of_In, elem_of_seqZ. lia.
  - intros H i Hi%list_elem_of_In%elem_of_seqZ. eapply (H (Z.to_nat i)), take_lookup_at; lia.
Qed.

(** A specialization map is accepted exactly when it has at most 64 entries,
    each of one to eight bytes, with pairwise distinct constant ids. *)
Theorem specialization_parameters_valid_exact count entries :
  0 <= count -> length entries = Z.to_nat PSBC_MAX_SPECIALIZATION_CONSTANTS ->
  let used := take (Z.to_nat count) entries in
  specialization_parameters_valid count entries = true <->
  count <= PSBC_MAX_SPECIALIZATION_CONSTANTS /\
  Forall (fun e => sc_size e <> 0 /\ sc_size e <= PSBC_MAX_SPECIALIZATION_BYTES) used /\
  NoDup (map sc_constant_id used).
Proof.
  intros Hc Hlen. cbv zeta. unfold specialization_parameters_valid.
  rewrite Z.gtb_ltb. destruct (Z.ltb_spec PSBC_MAX_SPECIALIZATION_CONSTANTS count); [naive_solver lia|].
  unfold PSBC_MAX_SPECIALIZATION_CONSTANTS in *. unfold specialization_entry_valid.
  rewrite forallb_and, andb_true_iff.
  rewrite (forallb_range zero_PsbcSpecializationConstant (fun e => negb (sc_size e =? 0) &&
    negb (sc_size e >? PSBC_MAX_SPECIALIZATION_BYTES))) by lia.
  rewrite (forallb_pairs_NoDup zero_PsbcSpecializationConstant sc_constant_id
    (fun x y => sc_constant_id x =? sc_constant_id y)) by (lia || (intros; apply Z.eqb_eq)).
  assert (Hf : forall l, Forall (fun e => negb (sc_size e =? 0) &&
      negb (sc_size e >? PSBC_MAX_SPECIALIZATION_BYTES) = true) l <->
    Forall (fun e => sc_size e <> 0 /\ sc_size e <= PSBC_MAX_SPECIALIZATION_BYTES) l).
  { intros l. rewrite !Forall_forall. setoid_rewrite andb_true_iff.
    setoid_rewrite negb_true_iff. setoid_rewrite Z.eqb_neq. setoid_rewrite Z.gtb_ltb.
    by setoid_rewrite Z.ltb_ge. }
  rewrite Hf. naive_solver lia.
Qed.

Definition example_specialization (id size : Z) : PsbcSpecializationConstant :=
  mkPsbcSpecializationConstant id size [id; 2; 3; 4; 5; 6; 7; 8].
Definition example_entries (l : list PsbcSpecializationConstant) : list PsbcSpecializationConstant :=
  l ++ replicate (64 - length l) zero_PsbcSpecializationConstant.

Lemma specialization_parameters_valid_witness :
  NoDup (map sc_constant_id (take 2 (example_entries [example_specialization 7 4; example_specialization 9 8]))).
Proof.
  apply (specialization_parameters_valid_exact 2
    (example_entries [example_specialization 7 4; example_specialization 9 8])); vm_compute; done.
Defined.

Lemma pack_specialization_snoc l e :
  pack_specialization (l ++ [e]) =
    ((pack_specialization l).1 ++
       [(sc_constant_id e, Z.of_nat (length (pack_specialization l).2), sc_size e)],
     (pack_specialization l).2 ++ take (Z.to_nat (sc_size e)) (sc_data e)).
Proof. unfold pack_specialization. rewrite foldl_app. simpl. by destruct (foldl _ _ l). Qed.

(** A constant with its declared bytes present. *)
Definition constant_wf (e : PsbcSpecializationConstant) : Prop :=
  length (sc_data e) = Z.to_nat PSBC_MAX_SPECIALIZATION_BYTES /\
  0 < sc_size e <= PSBC_MAX_SPECIALIZATION_BYTES.

(** Packing keeps every specialization constant: the map has one entry per
    constant in order, the bytes at each entry's offset are the constant's bytes,
    and the packed data fits the fixed buffer of eight bytes per constant. *)
Theorem pack_specialization_roundtrip l :
  Forall constant_wf l ->
  let '(entries, data) := pack_specialization l in
  Z.of_nat (length data) <= PSBC_MAX_SPECIALIZATION_BYTES * Z.of_nat (length l) /\
  Forall2 (fun e '(id, offset, size) =>
    id = sc_constant_id e /\ size = sc_size e /\ 0 <= offset /\
    offset + size <= Z.of_nat (length data) /\
    take (Z.to_nat size) (drop (Z.to_nat offset) data) = take (Z.to_nat size) (sc_data e)) l entries.
Proof.
  induction l as [|e l IH] using rev_ind; intros Hwf; [by split|].
  apply Forall_app in Hwf as [Hl [He _]%Forall_cons]. rewrite pack_specialization_snoc.
  specialize (IH Hl). destruct (pack_specialization l) as [entries data]. simpl in *.
  destruct IH as [Hlen Hent]. destruct He as [Hd Hs]. unfold PSBC_MAX_SPECIALIZATION_BYTES in *.
  rewrite !length_app, length_take. simpl. split; [lia|].
  apply Forall2_app.
  - eapply Forall2_impl_in_l; [exact Hl|exact Hent|].
    intros x [[id off] size] [_ Hx] (-> & -> & H0 & Hle & Heq).
    split; [done|]. split; [done|]. split; [done|]. split; [lia|].
    rewrite drop_app_le by lia. rewrite take_app_le by (rewrite length_drop; lia). done.
  - constructor; [|constructor]. split; [done|]. split; [done|]. split; [lia|]. split; [lia|].
    by rewrite Nat2Z.id, drop_app_length, take_take, Nat.min_id.
Qed.

Lemma pack_specialization_witness :
  pack_specialization [example_specialization 7 4; example_specialization 9 8] =
    ([(7, 0, 4); (9, 4, 8)], [7; 2; 3; 4; 9; 2; 3; 4; 5; 6; 7; 8]) /\
  Z.of_nat (length (pack_specialization [example_specialization 7 4; example_specialization 9 8]).2) <= 16.
Proof.
  split; [reflexivity|].
  pose proof (pack_specialization_roundtrip [example_specialization 7 4; example_specialization 9 8]) as H.
  destruct (pack_specialization _) as [entries data]. apply H.
  repeat (apply Forall_cons_2; [done|]). apply Forall_nil_2.
Defined.

(** ** Descriptor layouts *)

(** What a declared binding must satisfy; the record fits the 32-bit descriptor
    set without wrapping. *)
Definition binding_ok (b : PsbcDescriptorBinding) : Prop :=
  db_set b < PSBC_MAX_DESCRIPTOR_SETS /\ db_binding b < PSBC_MAX_DESCRIPTOR_BINDINGS /\
  db_type b <> PSBC_DESCRIPTOR_NONE /\ db_array_size b <> 0 /\
  db_stride b = expected_stride (db_type b) /\ db_offset b `mod` 16 = 0 /\
  db_offset b + db_array_size b * db_stride b <= UINT32_MAX.

Definition binding_wf (b : PsbcDescriptorBinding) : Prop :=
  in_width 32 (db_offset b) /\ in_width 32 (db_array_size b) /\ in_width 32 (db_stride b).

Lemma valid_descriptor_type_iff t : valid_descriptor_type t = true <-> t <> PSBC_DESCRIPTOR_NONE.
Proof. by destruct t. Qed.

Lemma binding_refused_iff b : binding_wf b -> negb (binding_refused b) = true <-> binding_ok b.
Proof.
  intros (Ho & Ha & Hs). unfold binding_refused, binding_ok.
  rewrite negb_true_iff, !orb_false_iff, !negb_false_iff, valid_descriptor_type_iff.
  rewrite !Z.geb_leb, Z.gtb_ltb, !Z.leb_gt, Z.eqb_neq, Z.eqb_eq, Z.ltb_ge.
  unfold truthy. rewrite negb_false_iff, Z.eqb_eq.
  change 15 with (Z.ones 4). rewrite Z.land_ones by done. change (2 ^ 4) with 16.
  assert (He : db_stride b = expected_stride (db_type b) ->
    u64 (db_offset b + u64 (db_array_size b * db_stride b)) = db_offset b + db_array_size b * db_stride b).
  { intros E. assert (16 <= db_stride b <= 48) by (rewrite E; by destruct (db_type b)).
    unfold in_width in *. rewrite (wrap_id 64 (_ * _)), wrap_id; [done|unfold in_width; nia|].
    unfold in_width. nia. }
  split.
  - intros ((((((? & ?) & ?) & ?) & Hst) & ?) & Hle). rewrite He in Hle by done. done.
  - intros (? & ? & ? & ? & Hst & ? & ?). rewrite He by done. done.
Qed.

Lemma descriptor_bindings_valid_iff count bindings :
  0 <= count <= PSBC_MAX_DESCRIPTOR_BINDINGS ->
  length bindings = Z.to_nat PSBC_MAX_DESCRIPTOR_BINDINGS -> Forall binding_wf bindings ->
  let used := take (Z.to_nat count) bindings in
  descriptor_bindings_valid count bindings = true <->
  Forall binding_ok used /\ NoDup (map (fun b => (db_set b, db_binding b)) used).
Proof.
  intros Hc Hlen Hwf. cbv zeta. unfold PSBC_MAX_DESCRIPTOR_BINDINGS in *.
  unfold descriptor_bindings_valid. rewrite forallb_and, andb_true_iff.
  rewrite (forallb_range zero_PsbcDescriptorBinding (fun b => negb (binding_refused b))) by lia.
  rewrite (forallb_pairs_NoDup zero_PsbcDescriptorBinding (fun b => (db_set b, db_binding b))
    (fun x y => (db_set x =? db_set y) && (db_binding x =? db_binding y))).
  - assert (Forall (fun x => negb (binding_refused x) = true) (take (Z.to_nat count) bindings) <->
      Forall binding_ok (take (Z.to_nat count) bindings)) as ->; [|done].
    assert (Hw : Forall binding_wf (take (Z.to_nat count) bindings)) by (by apply Forall_take).
    rewrite !Forall_forall in *. split; intros H x Hx; apply binding_refused_iff; auto.
  - intros x y. rewrite andb_true_iff, !Z.eqb_eq. split; [by intros [-> ->]|by intros [= -> ->]].
  - lia.
Qed.

(** C37: a descriptor layout is accepted exactly when every binding is in range,
    has a real type with the stride that type requires, starts on a 16-byte
    boundary, ends within 32 bits, and no (set, binding) pair is declared
    twice. *)
Theorem descriptor_bindings_valid_exact count bindings :
  0 <= count <= PSBC_MAX_DESCRIPTOR_BINDINGS ->
  length bindings = Z.to_nat PSBC_MAX_DESCRIPTOR_BINDINGS -> Forall binding_wf bindings ->
  let used := take (Z.to_nat count) bindings in
  descriptor_bindings_valid count bindings = true <->
  Forall binding_ok used /\ NoDup (map (fun b => (db_set b, db_binding b)) used).
Proof. exact (descriptor_bindings_valid_iff count bindings). Qed.

Definition example_bindings : list PsbcDescriptorBinding :=
  [mkPsbcDescriptorBinding 0 0 PSBC_DESCRIPTOR_COMBINED_IMAGE_SAMPLER 4 0 48;
   mkPsbcDescriptorBinding 0 1 PSBC_DESCRIPTOR_STORAGE_BUFFER 1 192 16] ++
  replicate 62 zero_PsbcDescriptorBinding.

Lemma descriptor_bindings_valid_witness : Forall binding_ok (take 2 example_bindings).
Proof.
  apply (descriptor_bindings_valid_exact 2 example_bindings); [done|done| |vm_compute; reflexivity].
  apply Forall_app. split; [by repeat constructor|]. by apply Forall_replicate.
Defined.

(** ** The instruction loop ends *)

(** With enough fuel the loop has decided, and more fuel does not change it. *)
Lemma scan_decided opts spirv word_count fuel more offset :
  0 <= offset -> (Z.to_nat (word_count - offset) <= fuel)%nat -> (fuel <= more)%nat ->
  scan_instructions more opts spirv word_count offset = scan_instructions fuel opts spirv word_count offset /\
  scan_instructions fuel opts spirv word_count offset <> PSBC_RESULT_INTERNAL_ERROR.
Proof.
  revert more offset. induction fuel as [|fuel IH]; intros more offset Ho Hf Hm; destruct more as [|more];
    cbn [scan_instructions]; destruct (Z.ltb_spec offset word_count); try done; try lia.
  destruct ((_ =? 0) || _) eqn:Ew; [done|]. destruct (_ && _ && _); [done|].
  rewrite orb_false_iff, Z.eqb_neq, Z.gtb_ltb, Z.ltb_ge in Ew. destruct Ew as [Hw _].
  pose proof (wrap_nonneg 16 (at_ 0 spirv offset ≫ 16) ltac:(lia)).
  apply IH; lia.
Qed.

(** C25: the loop over the instructions of a module ends on every sequence of words,
    also a malformed one: it decides within one round per remaining word, and the
    verdict does not depend on the bound. *)
Theorem scan_instructions_terminates opts spirv word_count offset fuel :
  0 <= offset -> (Z.to_nat (word_count - offset) <= fuel)%nat ->
  scan_instructions fuel opts spirv word_count offset =
    scan_instructions (Z.to_nat (word_count - offset)) opts spirv word_count offset /\
  scan_instructions fuel opts spirv word_count offset <> PSBC_RESULT_INTERNAL_ERROR.
Proof.
  intros Ho Hf. destruct (scan_decided opts spirv word_count _ fuel offset Ho (le_n _) Hf) as [-> Hn]. by split.
Qed.

(** An instruction that claims no words, at the end of a module. *)
Lemma scan_instructions_terminates_witness :
  scan_instructions 1000 zero_PsbcCompileOptions [0x20011; 1; 0] 3 0 = PSBC_RESULT_INVALID_SPIRV.
Proof.
  destruct (scan_instructions_terminates zero_PsbcCompileOptions [0x20011; 1; 0] 3 0 1000) as [-> _];
    [lia|lia|reflexivity].
Defined.

End Validate.
