(* ===== verification/Metadata.v ===== *)
(** * Shader metadata (fill_shader_metadata of psbc_compile.c)

    The typed metadata published next to the machine code: user-data locations,
    descriptor use, and the register writes of the hardware stage the program
    runs in.  The C function is one long sequence of assignments; it is modelled
    block by block, each block a function on the metadata record. *)

From S2P Require Import Prelude Types Regs Mesa Nir ShaderUtil InputSemantics Usage.

Module Metadata.

(** Everything the metadata and the binary are built from. *)
Record BuildContext : Type := mk_BuildContext {
  ctx_nir : nir_shader;
  ctx_rinfo : radv_shader_info;
  ctx_es_info : option radv_shader_info;
  ctx_ls_merged : bool;
  ctx_domain_linked : bool;
  ctx_rargs : radv_shader_args;
  ctx_config : ac_shader_config;
  ctx_gfx_level : amd_gfx_level;
  ctx_family : radeon_family;
  ctx_stage : mesa_shader_stage;
  ctx_psbc_stage : PsbcStage;
  ctx_spirv_data : option (list Z);
  ctx_spirv_size : Z;
  ctx_target : PsbcTarget;
  ctx_ngg : bool;
  ctx_neo : bool;
  ctx_address32_hi : Z;
  ctx_options : PsbcCompileOptions;
  ctx_input_semantics : option InputSemantics.PsbcInputSemantics;
  ctx_descriptor_used_binding_mask : list Z;
  ctx_hull_push_use_valid : bool;
  ctx_push_use_valid : bool;
  ctx_stage_push_dwords : Z;
  ctx_previous_stage_push_dwords : Z;
  ctx_hull_vertex_push_dwords : Z;
  ctx_hull_control_push_dwords : Z
}.

#[export] Instance eta_BuildContext : Eta BuildContext := fun r =>
  mk_BuildContext r.(ctx_nir) r.(ctx_rinfo) r.(ctx_es_info) r.(ctx_ls_merged)
    r.(ctx_domain_linked) r.(ctx_rargs) r.(ctx_config) r.(ctx_gfx_level) r.(ctx_family)
    r.(ctx_stage) r.(ctx_psbc_stage) r.(ctx_spirv_data) r.(ctx_spirv_size)
    r.(ctx_target) r.(ctx_ngg) r.(ctx_neo) r.(ctx_address32_hi) r.(ctx_options)
    r.(ctx_input_semantics) r.(ctx_descriptor_used_binding_mask)
    r.(ctx_hull_push_use_valid) r.(ctx_push_use_valid) r.(ctx_stage_push_dwords)
    r.(ctx_previous_stage_push_dwords) r.(ctx_hull_vertex_push_dwords)
    r.(ctx_hull_control_push_dwords).

Definition zero_BuildContext : BuildContext := {|
  ctx_nir := zero_nir_shader;
  ctx_rinfo := zero_radv_shader_info;
  ctx_es_info := None;
  ctx_ls_merged := false;
  ctx_domain_linked := false;
  ctx_rargs := zero_radv_shader_args;
  ctx_config := zero_ac_shader_config;
  ctx_gfx_level := GFX10_3;
  ctx_family := CHIP_NAVI21;
  ctx_stage := MESA_SHADER_VERTEX;
  ctx_psbc_stage := PSBC_STAGE_VERTEX;
  ctx_spirv_data := None;
  ctx_spirv_size := 0;
  ctx_target := PSBC_TARGET_PS5;
  ctx_ngg := false;
  ctx_neo := false;
  ctx_address32_hi := 0;
  ctx_options := zero_PsbcCompileOptions;
  ctx_input_semantics := None;
  ctx_descriptor_used_binding_mask := replicate 4 0;
  ctx_hull_push_use_valid := false;
  ctx_push_use_valid := false;
  ctx_stage_push_dwords := 0;
  ctx_previous_stage_push_dwords := 0;
  ctx_hull_vertex_push_dwords := 0;
  ctx_hull_control_push_dwords := 0
|}.

(** ** Register lists *)

(** A full list silently drops the write. *)
Definition metadata_add_register (registers : list PsbcRegisterWrite) (count limit offset value : Z) :
    list PsbcRegisterWrite * Z :=
  if count >=? limit then (registers, count)
  else (put count (mkPsbcRegisterWrite offset 0 value) registers, count + 1).

Definition add_cx (offset value : Z) (m : PsbcShaderMetadata) : PsbcShaderMetadata :=
  let '(registers, count) := metadata_add_register (md_context_registers m)
    (md_context_register_count m) PSBC_MAX_CONTEXT_REGISTERS offset value in
  m <| md_context_registers := registers |> <| md_context_register_count := count |>.

Definition add_sh (offset value : Z) (m : PsbcShaderMetadata) : PsbcShaderMetadata :=
  let '(registers, count) := metadata_add_register (md_shader_registers m)
    (md_shader_register_count m) PSBC_MAX_SHADER_REGISTERS offset value in
  m <| md_shader_registers := registers |> <| md_shader_register_count := count |>.

Definition add_all (add : Z -> Z -> PsbcShaderMetadata -> PsbcShaderMetadata)
    (writes : list (Z * Z)) (m : PsbcShaderMetadata) : PsbcShaderMetadata :=
  foldl (fun m w => add w.1 w.2 m) m writes.

Definition unresolve (flag : Z) (m : PsbcShaderMetadata) : PsbcShaderMetadata :=
  m <| md_unresolved_fields := md_unresolved_fields m `lor` flag |>.

Definition reg_write (offset value : Z) : PsbcRegisterWrite := mkPsbcRegisterWrite offset 0 value.

(** [if (c) m = f(m)]. *)
Definition when (c : bool) (f : PsbcShaderMetadata -> PsbcShaderMetadata)
    (m : PsbcShaderMetadata) : PsbcShaderMetadata := if c then f m else m.

Definition ud (ctx : BuildContext) (i : Z) : Z :=
  shader_data_sgpr (ra_user_sgprs_locs (ctx_rargs ctx)) i.
Definition ac (ctx : BuildContext) : ac_shader_args := ra_ac (ctx_rargs ctx).
Definition offset_of (ctx : BuildContext) (a : ac_arg) : Z := arg_offset (ac ctx) a.
Definition is_stage (ctx : BuildContext) (s : mesa_shader_stage) : bool :=
  stage_eqb (ctx_stage ctx) s.

(** ** Identity, push constants, rings, scratch *)

Definition md_identity (ctx : BuildContext) : PsbcShaderMetadata :=
  zero_PsbcShaderMetadata
    <| md_version := PSBC_SHADER_METADATA_VERSION |>
    <| md_target := ctx_target ctx |>
    <| md_source_stage := ctx_psbc_stage ctx |>
    <| md_unresolved_fields := PSBC_UNRESOLVED_PROGRAM_CHECKSUM |>
    <| md_clip_distance_mask := oi_clip_dist_mask (ri_outinfo (ctx_rinfo ctx)) |>
    <| md_cull_distance_mask := oi_cull_dist_mask (ri_outinfo (ctx_rinfo ctx)) |>
    <| md_address32_hi := ctx_address32_hi ctx |>
    <| md_user_sgpr_count := ra_num_user_sgprs (ctx_rargs ctx) |>
    <| md_hull_push_use_valid := ctx_hull_push_use_valid ctx |>
    <| md_push_use_valid := ctx_push_use_valid ctx |>
    <| md_stage_push_dwords := ctx_stage_push_dwords ctx |>
    <| md_previous_stage_push_dwords := ctx_previous_stage_push_dwords ctx |>
    <| md_hull_vertex_push_dwords := ctx_hull_vertex_push_dwords ctx |>
    <| md_hull_control_push_dwords := ctx_hull_control_push_dwords ctx |>.

Definition md_resources (ctx : BuildContext) (m : PsbcShaderMetadata) : PsbcShaderMetadata :=
  let m := when (ri_loads_push_constants (ctx_rinfo ctx) && arg_used (aa_push_constants (ac ctx)))
    (fun m => m <| md_push_constants_valid := true |>
      <| md_push_constants_user_data_dword := ud ctx AC_UD_PUSH_CONSTANTS |>
      <| md_push_constant_size := ri_push_constant_size (ctx_rinfo ctx) |>) m in
  let m := when (arg_used (ra_ps5_ring_table (ctx_rargs ctx)))
    (fun m => m <| md_ps5_ring_table_valid := true |>
      <| md_ps5_ring_table_user_data_dword := ud ctx AC_UD_PS5_RING_TABLE |>) m in
  let m := when (ctx_ngg ctx && arg_used (ra_ngg_lds_layout (ctx_rargs ctx)))
    (fun m => m <| md_ngg_lds_layout_valid := true |>
      <| md_ngg_lds_layout_user_data_dword := ud ctx AC_UD_NGG_LDS_LAYOUT |>
      <| md_ngg_lds_layout := ngg_esgs_ring_size (ri_ngg_info (ctx_rinfo ctx)) |>) m in
  when (truthy (cfg_scratch_bytes_per_wave (ctx_config ctx)))
    (fun m => m <| md_scratch_valid := true |>
      <| md_scratch_bytes_per_wave := cfg_scratch_bytes_per_wave (ctx_config ctx) |>
      <| md_scratch_size_per_thread := sh_scratch_size (ctx_nir ctx) |>
      <| md_scratch_buffer_table_user_data_dword := ud ctx AC_UD_SCRATCH_RING_OFFSETS |>) m.

(** ** Descriptor sets *)

Definition set_is_bound (ctx : BuildContext) (set : Z) : bool :=
  arg_used (at_ zero_ac_arg (ra_descriptors (ctx_rargs ctx)) set) &&
  negb (descriptor_set_sgpr (ra_user_sgprs_locs (ctx_rargs ctx)) set =? UINT32_MAX).

Definition md_descriptor_sets (ctx : BuildContext) (m : PsbcShaderMetadata) : PsbcShaderMetadata :=
  let m := loop PSBC_MAX_DESCRIPTOR_SETS (fun set => when (set_is_bound ctx set)
    (fun m => m
      <| md_descriptor_set_valid := put set true (md_descriptor_set_valid m) |>
      <| md_descriptor_set_user_data_dword :=
           put set (descriptor_set_sgpr (ra_user_sgprs_locs (ctx_rargs ctx)) set)
             (md_descriptor_set_user_data_dword m) |>)) m in
  m <| md_descriptor_set0_valid := at_ false (md_descriptor_set_valid m) 0 |>
    <| md_descriptor_set0_user_data_dword := at_ 0 (md_descriptor_set_user_data_dword m) 0 |>.

(** ** Vertex inputs and draw parameters *)

Definition has_vertex_half (ctx : BuildContext) : bool :=
  is_stage ctx MESA_SHADER_TESS_CTRL && vs_as_ls (ri_vs (ctx_rinfo ctx)).

Definition runs_vertex (ctx : BuildContext) : bool :=
  has_vertex_half ctx || is_stage ctx MESA_SHADER_VERTEX ||
  (is_stage ctx MESA_SHADER_GEOMETRY && ctx_ngg ctx).

(** An argument placed in the block of the base vertex. *)
Definition dword_after_base (ctx : BuildContext) (m : PsbcShaderMetadata) (a : ac_arg) : Z :=
  u32 (md_base_vertex_user_data_dword m + offset_of ctx a -
       offset_of ctx (aa_base_vertex (ac ctx))).

Definition md_draw_arguments (ctx : BuildContext) (m : PsbcShaderMetadata) : PsbcShaderMetadata :=
  let vs := ri_vs (ctx_rinfo ctx) in
  let m := when (runs_vertex ctx && arg_used (aa_vertex_buffers (ac ctx)) &&
      (negb (has_vertex_half ctx) || truthy (vs_vb_desc_usage_mask vs)))
    (fun m => m <| md_vertex_buffer_table_valid := true |>
      <| md_vertex_buffer_usage_mask := vs_vb_desc_usage_mask vs |>
      <| md_vertex_buffer_per_attribute := vs_use_per_attribute_vb_descs vs |>
      <| md_vertex_buffer_table_user_data_dword := ud ctx AC_UD_VS_VERTEX_BUFFERS |>) m in
  let m := when (runs_vertex ctx && arg_used (aa_base_vertex (ac ctx)))
    (fun m => m <| md_base_vertex_valid := true |>
      <| md_base_vertex_user_data_dword := ud ctx AC_UD_VS_BASE_VERTEX_START_INSTANCE |>) m in
  let m := when (runs_vertex ctx && arg_used (aa_base_vertex (ac ctx)) &&
                 arg_used (aa_draw_id (ac ctx)))
    (fun m => m <| md_draw_id_valid := true |>
      <| md_draw_id_user_data_dword := dword_after_base ctx m (aa_draw_id (ac ctx)) |>) m in
  let m := when (runs_vertex ctx && arg_used (aa_start_instance (ac ctx)))
    (fun m => m <| md_start_instance_valid := true |>
      <| md_start_instance_user_data_dword := dword_after_base ctx m (aa_start_instance (ac ctx)) |>) m in
  when ((is_stage ctx MESA_SHADER_VERTEX || is_stage ctx MESA_SHADER_FRAGMENT) &&
        arg_used (aa_view_index (ac ctx)))
    (fun m => m <| md_view_index_valid := true |>
      <| md_view_index_user_data_dword := ud ctx AC_UD_VIEW_INDEX |>) m.

(** ** Streamout *)

Definition md_streamout (ctx : BuildContext) (m : PsbcShaderMetadata) : PsbcShaderMetadata :=
  let so := ri_so (ctx_rinfo ctx) in
  let args := ac ctx in
  when (truthy (so_enabled_stream_buffers_mask so) && arg_used (ra_streamout_buffers (ctx_rargs ctx)) &&
        (ctx_ngg ctx || (arg_used (aa_streamout_config args) && arg_used (aa_streamout_write_index args))))
    (fun m =>
      let m := m <| md_streamout_valid := true |>
        <| md_streamout_buffer_table_user_data_dword := ud ctx AC_UD_STREAMOUT_BUFFERS |>
        <| md_streamout_enabled_stream_buffers_mask := so_enabled_stream_buffers_mask so |> in
      let m := when (negb (ctx_ngg ctx)) (fun m => m
        <| md_streamout_config_sgpr := offset_of ctx (aa_streamout_config args) |>
        <| md_streamout_write_index_sgpr := offset_of ctx (aa_streamout_write_index args) |>) m in
      loop 4 (fun i m =>
        let m := m <| md_streamout_strides_dwords :=
          put i (at_ 0 (so_strides so) i) (md_streamout_strides_dwords m) |> in
        when (negb (ctx_ngg ctx) && arg_used (at_ zero_ac_arg (aa_streamout_offset args) i))
          (fun m => m <| md_streamout_offset_sgprs :=
             put i (offset_of ctx (at_ zero_ac_arg (aa_streamout_offset args) i))
               (md_streamout_offset_sgprs m) |>) m) m) m.

(** ** Declared and used bindings *)

(** Every declared binding that the masks can represent. *)
Definition mark_declared (declared : PsbcDescriptorBinding) (masks : list Z) : list Z :=
  if (db_set declared >=? PSBC_MAX_DESCRIPTOR_SETS) || (db_binding declared >=? 64) then masks
  else put (db_set declared)
         (at_ 0 masks (db_set declared) `lor` (1 ≪ db_binding declared)) masks.

Definition md_bindings (ctx : BuildContext) (m : PsbcShaderMetadata) : PsbcShaderMetadata :=
  let opts := ctx_options ctx in
  let count := co_descriptor_binding_count opts in
  let m := m <| md_descriptor_binding_count := count |>
    <| md_descriptor_bindings :=
         take (Z.to_nat count) (co_descriptor_bindings opts) ++
         drop (Z.to_nat count) (md_descriptor_bindings m) |> in
  if truthy count && co_static_descriptor_use opts then
    m <| md_descriptor_used_binding_mask := ctx_descriptor_used_binding_mask ctx |>
  else
    m <| md_descriptor_used_binding_mask :=
           foldl (fun masks d => mark_declared d masks) (md_descriptor_used_binding_mask m)
             (take (Z.to_nat count) (md_descriptor_bindings m)) |>.

(** The part common to every stage. *)
Definition md_common (ctx : BuildContext) : PsbcShaderMetadata :=
  md_bindings ctx (md_streamout ctx (md_draw_arguments ctx
    (md_descriptor_sets ctx (md_resources ctx (md_identity ctx))))).

(** ** Parameter-cache allocation *)

Definition oversub_pc_lines (ctx : BuildContext) : Z :=
  let opts := ctx_options ctx in
  let facts := mk_radeon_info (ctx_gfx_level ctx) (ctx_family ctx) (co_ngg_pc_lines opts)
                 (co_ngg_min_good_cu_per_sa opts) in
  let '(late_alloc_wave64, _) := ShaderUtil.ac_compute_late_alloc facts (ctx_ngg ctx)
    (co_ngg_culling opts) (co_ngg_uses_scratch opts) in
  let lines := if truthy late_alloc_wave64 then co_ngg_pc_lines opts / 4 else 0 in
  if co_ngg_culling opts then
    let exports := oi_param_exports (ri_outinfo (ctx_rinfo ctx)) in
    let oversub_factor := if exports >? 4 then 4 else if exports >? 2 then 3 else 2 in
    u32 (lines * oversub_factor)
  else lines.

Definition publish_ge_pc_alloc (ctx : BuildContext) (m : PsbcShaderMetadata) : PsbcShaderMetadata :=
  when (co_ngg_device_facts (ctx_options ctx)) (fun m =>
    let lines := oversub_pc_lines ctx in
    m <| md_linkage_ge_pc_alloc_valid := true |>
      <| md_linkage_ge_pc_alloc := reg_write (PSBC_UC_OFFSET R_030980_GE_PC_ALLOC)
           (S_030980_OVERSUB_EN (b2z (lines >? 0)) `lor`
            S_030980_NUM_PC_LINES (u32 (lines - 1))) |>) m.

(** ** Pixel stage *)

Definition per_primitive_inputs (ctx : BuildContext) : Z :=
  b2z (bool_decide (ctx_target ctx = PSBC_TARGET_PS5) &&
       co_primitive_id_per_primitive (ctx_options ctx) && ps_prim_id_input (ri_ps (ctx_rinfo ctx))).

Definition fragment_cx (ctx : BuildContext) : list (Z * Z) :=
  let ps := ri_ps (ctx_rinfo ctx) in
  let cfg := ctx_config ctx in
  let param_gen := gfx_ge (ctx_gfx_level ctx) GFX11 && negb (truthy (ps_num_inputs ps)) &&
                   truthy (cfg_lds_size cfg) in
  [ (PSBC_CX_OFFSET R_028710_SPI_SHADER_Z_FORMAT,
     ShaderUtil.ac_get_spi_shader_z_format (ps_writes_z ps) (ps_writes_stencil ps)
       (ps_writes_sample_mask ps) (ps_writes_mrt0_alpha ps));
    (PSBC_CX_OFFSET R_028714_SPI_SHADER_COL_FORMAT,
     ShaderUtil.compact_spi_shader_col_format (ps_spi_shader_col_format ps));
    (PSBC_CX_OFFSET R_0286CC_SPI_PS_INPUT_ENA, cfg_spi_ps_input_ena cfg);
    (PSBC_CX_OFFSET R_0286D0_SPI_PS_INPUT_ADDR, cfg_spi_ps_input_addr cfg);
    (PSBC_CX_OFFSET R_0286D8_SPI_PS_IN_CONTROL,
     S_0286D8_NUM_INTERP (u32 (ps_num_inputs ps - per_primitive_inputs ctx)) `lor`
     S_0286D8_NUM_PRIM_INTERP (per_primitive_inputs ctx) `lor`
     S_0286D8_PS_W32_EN (b2z (ri_wave_size (ctx_rinfo ctx) =? 32)) `lor`
     S_0286D8_PARAM_GEN (b2z param_gen));
    (PSBC_CX_OFFSET R_0286E0_SPI_BARYC_CNTL, S_0286E0_FRONT_FACE_ALL_BITS 0);
    (PSBC_CX_OFFSET R_02880C_DB_SHADER_CONTROL,
     ShaderUtil.compute_db_shader_control (ctx_rinfo ctx));
    (PSBC_CX_OFFSET R_02823C_CB_SHADER_MASK,
     ShaderUtil.ac_get_cb_shader_mask (ps_spi_shader_col_format ps));
    (PSBC_CX_OFFSET R_028C40_PA_SC_SHADER_CONTROL, 0) ].

Definition fragment_sh (ctx : BuildContext) : list (Z * Z) :=
  [ (PSBC_SH_OFFSET R_00B020_SPI_SHADER_PGM_LO_PS, 0);
    (PSBC_SH_OFFSET R_00B024_SPI_SHADER_PGM_HI_PS, 0);
    (PSBC_SH_OFFSET R_00B028_SPI_SHADER_PGM_RSRC1_PS, cfg_rsrc1 (ctx_config ctx));
    (PSBC_SH_OFFSET R_00B02C_SPI_SHADER_PGM_RSRC2_PS, cfg_rsrc2 (ctx_config ctx)) ].

Definition md_fragment_linkage (ctx : BuildContext) (m : PsbcShaderMetadata) : PsbcShaderMetadata :=
  match ctx_input_semantics ctx with
  | Some s =>
      if InputSemantics.is_valid s then
        m <| md_input_semantic_count := InputSemantics.is_count s |>
          <| md_input_semantics :=
               take (Z.to_nat (InputSemantics.is_count s)) (InputSemantics.is_words s) ++
               drop (Z.to_nat (InputSemantics.is_count s)) (md_input_semantics m) |>
      else unresolve PSBC_UNRESOLVED_AGC_LINKAGE m
  | None => unresolve PSBC_UNRESOLVED_AGC_LINKAGE m
  end.

Definition md_fragment (ctx : BuildContext) (m : PsbcShaderMetadata) : PsbcShaderMetadata :=
  let m := m <| md_hardware_stage := PSBC_HW_STAGE_PIXEL |>
    <| md_ps_clip_distance_reads := si_clip_distance_array_size (sh_info (ctx_nir ctx)) |>
    <| md_ps_cull_distance_reads := si_cull_distance_array_size (sh_info (ctx_nir ctx)) |> in
  let m := md_fragment_linkage ctx m in
  add_all add_sh (fragment_sh ctx) (add_all add_cx (fragment_cx ctx) m).

(** ** NGG programs *)

Definition merged_tess_eval (ctx : BuildContext) : bool :=
  match ctx_es_info ctx with
  | Some es => stage_eqb (ri_stage es) MESA_SHADER_TESS_EVAL
  | None => false
  end.

Definition gs_num_invocations (ctx : BuildContext) : Z :=
  if stage_eqb (ri_stage (ctx_rinfo ctx)) MESA_SHADER_GEOMETRY
  then gs_invocations (ri_gs (ctx_rinfo ctx)) else 1.

Definition nparams (ctx : BuildContext) : Z :=
  MAX2 (oi_param_exports (ri_outinfo (ctx_rinfo ctx))) 1.

Definition export_output_semantics (ctx : BuildContext) (m : PsbcShaderMetadata) : PsbcShaderMetadata :=
  let '(ok, m) := InputSemantics.fill_output_semantics (ctx_rinfo ctx) m in
  if ok then m else unresolve PSBC_UNRESOLVED_AGC_LINKAGE m.

Definition md_ngg_linkage (ctx : BuildContext) (m : PsbcShaderMetadata) : PsbcShaderMetadata :=
  let info := ctx_rinfo ctx in
  let ngg := ri_ngg_info info in
  let has_geometry := is_stage ctx MESA_SHADER_GEOMETRY in
  let wave32 := ri_wave_size info =? 32 in
  let m := m <| md_linkage_valid := true |>
    <| md_linkage_ge_cntl := reg_write (PSBC_UC_OFFSET R_03096C_GE_CNTL)
         (S_03096C_PRIM_GRP_SIZE_GFX10 (ngg_max_gsprims ngg) `lor`
          S_03096C_VERT_GRP_SIZE (ngg_hw_max_esverts ngg)) |>
    <| md_linkage_stages_en := reg_write (PSBC_CX_OFFSET R_028B54_VGT_SHADER_STAGES_EN)
         (S_028B54_ES_EN (if merged_tess_eval ctx then V_028B54_ES_STAGE_DS
                          else V_028B54_ES_STAGE_REAL) `lor`
          S_028B54_GS_EN (b2z has_geometry) `lor`
          S_028B54_PRIMGEN_EN 1 `lor`
          S_028B54_MAX_PRIMGRP_IN_WAVE 2 `lor`
          S_028B54_GS_W32_EN (b2z wave32) `lor`
          S_028B54_VS_W32_EN (b2z (negb has_geometry && wave32)) `lor`
          S_028B54_NGG_WAVE_ID_EN (b2z (ri_ngg_wave_id_en info)) `lor`
          S_028B54_PRIMGEN_PASSTHRU_EN (b2z (ri_is_ngg_passthrough info))) |>
    <| md_linkage_user_vgpr_en := reg_write (PSBC_UC_OFFSET R_030988_GE_USER_VGPR_EN) 0 |> in
  match ctx_es_info ctx with
  | Some es =>
      m <| md_merged_geometry := true |>
        <| md_merged_es_source_stage :=
             if merged_tess_eval ctx then PSBC_STAGE_TESS_EVAL else PSBC_STAGE_VERTEX |>
        <| md_merged_es_itemsize := ri_esgs_itemsize es |>
        <| md_merged_esgs_ring_itemsize := ngg_vgt_esgs_ring_itemsize ngg |>
  | None => m
  end.

(** Registers written before the system SGPRs are published ... *)
Definition ngg_cx_first (ctx : BuildContext) : list (Z * Z) :=
  let info := ctx_rinfo ctx in
  let o := ri_outinfo info in
  let ngg := ri_ngg_info info in
  let pos := ShaderUtil.num_pos_exports info in
  let no_pc_export := (oi_param_exports o =? 0) && (oi_prim_param_exports o =? 0) in
  [ (PSBC_CX_OFFSET R_0286C4_SPI_VS_OUT_CONFIG,
     S_0286C4_VS_EXPORT_COUNT (nparams ctx - 1) `lor`
     S_0286C4_PRIM_EXPORT_COUNT (oi_prim_param_exports o) `lor`
     S_0286C4_NO_PC_EXPORT (b2z no_pc_export));
    (PSBC_CX_OFFSET R_028A84_VGT_PRIMITIVEID_EN,
     S_028A84_NGG_DISABLE_PROVOK_REUSE
       (b2z (is_stage ctx MESA_SHADER_VERTEX && oi_export_prim_id o)));
    (PSBC_CX_OFFSET R_02870C_SPI_SHADER_POS_FORMAT, ShaderUtil.build_spi_shader_pos_format pos);
    (PSBC_CX_OFFSET R_028708_SPI_SHADER_IDX_FORMAT,
     S_028708_IDX0_EXPORT_FORMAT V_028708_SPI_SHADER_1COMP);
    (PSBC_CX_OFFSET R_02881C_PA_CL_VS_OUT_CNTL,
     ShaderUtil.build_pa_cl_vs_out_cntl info (ctx_gfx_level ctx) pos);
    (PSBC_CX_OFFSET R_028B4C_GE_NGG_SUBGRP_CNTL,
     S_028B4C_PRIM_AMP_FACTOR (ngg_prim_amp_factor ngg) `lor` S_028B4C_THDS_PER_SUBGRP 0);
    (PSBC_CX_OFFSET R_028B90_VGT_GS_INSTANCE_CNT,
     S_028B90_CNT (gs_num_invocations ctx) `lor`
     S_028B90_ENABLE (b2z (gs_num_invocations ctx >? 1)) `lor`
     S_028B90_EN_MAX_VERT_OUT_PER_GS_INSTANCE (b2z (ngg_max_vert_out_per_gs_instance ngg)));
    (PSBC_CX_OFFSET R_028A44_VGT_GS_ONCHIP_CNTL,
     S_028A44_ES_VERTS_PER_SUBGRP (ngg_hw_max_esverts ngg) `lor`
     S_028A44_GS_PRIMS_PER_SUBGRP (ngg_max_gsprims ngg) `lor`
     S_028A44_GS_INST_PRIMS_IN_SUBGRP (u32 (ngg_max_gsprims ngg * gs_num_invocations ctx))) ].

(** ... and after it. *)
Definition ngg_cx_last (ctx : BuildContext) : list (Z * Z) :=
  let info := ctx_rinfo ctx in
  let ngg := ri_ngg_info info in
  let output_primitive :=
    if gs_output_prim (ri_gs info) =? MESA_PRIM_POINTS then V_028A6C_POINTLIST
    else if gs_output_prim (ri_gs info) =? MESA_PRIM_LINE_STRIP then V_028A6C_LINESTRIP
    else V_028A6C_TRISTRIP in
  [ (PSBC_CX_OFFSET R_0287FC_GE_MAX_OUTPUT_PER_SUBGROUP,
     S_0287FC_MAX_VERTS_PER_SUBGROUP (ngg_max_out_verts ngg));
    (PSBC_CX_OFFSET R_028AAC_VGT_ESGS_RING_ITEMSIZE, ngg_vgt_esgs_ring_itemsize ngg);
    (PSBC_CX_OFFSET R_028B38_VGT_GS_MAX_VERT_OUT, gs_vertices_out (ri_gs info)) ] ++
  if is_stage ctx MESA_SHADER_GEOMETRY then
    [ (PSBC_CX_OFFSET R_028A6C_VGT_GS_OUT_PRIM_TYPE, S_028A6C_OUTPRIM_TYPE output_primitive) ]
  else [].

Definition ngg_sh (ctx : BuildContext) : list (Z * Z) :=
  [ (PSBC_SH_OFFSET R_00B320_SPI_SHADER_PGM_LO_ES, 0);
    (PSBC_SH_OFFSET R_00B324_SPI_SHADER_PGM_HI_ES, 0);
    (PSBC_SH_OFFSET R_00B228_SPI_SHADER_PGM_RSRC1_GS, cfg_rsrc1 (ctx_config ctx));
    (PSBC_SH_OFFSET R_00B22C_SPI_SHADER_PGM_RSRC2_GS, cfg_rsrc2 (ctx_config ctx)) ] ++
  if bool_decide (ctx_target ctx = PSBC_TARGET_PS5) then
    [ (PSBC_SH_OFFSET R_00B21C_SPI_SHADER_PGM_RSRC3_GS,
       S_00B21C_CU_EN 0xffff `lor` S_00B21C_WAVE_LIMIT 0x3f);
      (PSBC_SH_OFFSET R_00B204_SPI_SHADER_PGM_RSRC4_GS,
       S_00B204_CU_EN_GFX10 0xffff `lor` S_00B204_SPI_SHADER_LATE_ALLOC_GS_GFX10 0) ]
  else [].

Definition md_esgs_sgprs (ctx : BuildContext) (m : PsbcShaderMetadata) : PsbcShaderMetadata :=
  let ngg := ri_ngg_info (ctx_rinfo ctx) in
  let inst_prims := u32 (ngg_max_gsprims ngg * gs_num_invocations ctx) in
  when (arg_used (aa_gs_tg_info (ac ctx)) && arg_used (aa_merged_wave_info (ac ctx))) (fun m => m
    <| md_esgs_system_sgprs_valid := true |>
    <| md_esgs_gs_tg_info_sgpr := offset_of ctx (aa_gs_tg_info (ac ctx)) |>
    <| md_esgs_merged_wave_info_sgpr := offset_of ctx (aa_merged_wave_info (ac ctx)) |>
    <| md_esgs_es_verts_per_subgroup := ngg_hw_max_esverts ngg |>
    <| md_esgs_gs_inst_prims_per_subgroup := inst_prims |>
    <| md_esgs_prim_amp_factor := ngg_prim_amp_factor ngg |>
    <| md_esgs_workgroup_size := ShaderUtil.ac_compute_ngg_workgroup_size
         (ngg_hw_max_esverts ngg) inst_prims (ngg_max_out_verts ngg) (ngg_prim_amp_factor ngg) |>) m.

(** The user-data window: the arguments published both as an SGPR offset and as a
    dword must agree on the base. *)
Definition window_pairs (ctx : BuildContext) (m : PsbcShaderMetadata) : list (ac_arg * Z * bool) :=
  [ (aa_base_vertex (ac ctx), md_base_vertex_user_data_dword m, md_base_vertex_valid m);
    (aa_start_instance (ac ctx), md_start_instance_user_data_dword m, md_start_instance_valid m);
    (aa_draw_id (ac ctx), md_draw_id_user_data_dword m, md_draw_id_valid m);
    (ra_ngg_lds_layout (ctx_rargs ctx), md_ngg_lds_layout_user_data_dword m,
     md_ngg_lds_layout_valid m) ].

(** State of the loop: the base found so far, [None] once a pair disagreed. *)
Definition window_step (ctx : BuildContext) (acc : option (option Z)) (p : ac_arg * Z * bool) :
    option (option Z) :=
  let '(a, dword, published) := p in
  match acc with
  | None => None
  | Some base =>
      if negb published || negb (arg_used a) then Some base
      else
        let offset := offset_of ctx a in
        if offset <? dword then None
        else match base with
             | None => Some (Some (offset - dword))
             | Some b => if offset - dword =? b then Some (Some b) else None
             end
  end.

Definition md_window (ctx : BuildContext) (m : PsbcShaderMetadata) : PsbcShaderMetadata :=
  match foldl (window_step ctx) (Some None) (window_pairs ctx m) with
  | Some (Some base) => m <| md_user_data_window_base := base |>
  | _ => m
  end.

Definition md_ngg (ctx : BuildContext) (m : PsbcShaderMetadata) : PsbcShaderMetadata :=
  let m := m <| md_hardware_stage := PSBC_HW_STAGE_NGG |> in
  let m := unresolve PSBC_UNRESOLVED_NGG_ESGS_RING_ITEMSIZE m in
  let m := export_output_semantics ctx m in
  let m := publish_ge_pc_alloc ctx (md_ngg_linkage ctx m) in
  let m := add_all add_cx (ngg_cx_first ctx) m in
  let m := md_window ctx (md_esgs_sgprs ctx m) in
  add_all add_sh (ngg_sh ctx) (add_all add_cx (ngg_cx_last ctx) m).

(** ** Legacy programs *)

(** A standalone legacy geometry shader is not a complete pipeline. *)
Definition md_legacy_geometry (ctx : BuildContext) (m : PsbcShaderMetadata) : PsbcShaderMetadata :=
  unresolve PSBC_UNRESOLVED_AGC_LINKAGE (m <| md_hardware_stage := PSBC_HW_STAGE_UNKNOWN |>).

(** The linkage registers of a legacy hardware vertex shader; the two users differ
    in the stage enables. *)
Definition md_legacy_linkage (ctx : BuildContext) (stages_en : Z) (m : PsbcShaderMetadata) :
    PsbcShaderMetadata :=
  m <| md_linkage_valid := true |>
    <| md_linkage_ge_cntl := reg_write (PSBC_UC_OFFSET R_03096C_GE_CNTL)
         (S_03096C_PRIM_GRP_SIZE_GFX10 128 `lor` S_03096C_VERT_GRP_SIZE 256) |>
    <| md_linkage_stages_en := reg_write (PSBC_CX_OFFSET R_028B54_VGT_SHADER_STAGES_EN) stages_en |>
    <| md_linkage_user_vgpr_en := reg_write (PSBC_UC_OFFSET R_030988_GE_USER_VGPR_EN) 0 |>.

Definition legacy_vs_cx (ctx : BuildContext) : list (Z * Z) :=
  let info := ctx_rinfo ctx in
  let pos := ShaderUtil.num_pos_exports info in
  [ (PSBC_CX_OFFSET R_0286C4_SPI_VS_OUT_CONFIG,
     S_0286C4_VS_EXPORT_COUNT (nparams ctx - 1) `lor`
     S_0286C4_NO_PC_EXPORT (b2z (oi_param_exports (ri_outinfo info) =? 0)));
    (PSBC_CX_OFFSET R_02870C_SPI_SHADER_POS_FORMAT, ShaderUtil.build_spi_shader_pos_format pos);
    (PSBC_CX_OFFSET R_02881C_PA_CL_VS_OUT_CNTL,
     ShaderUtil.build_pa_cl_vs_out_cntl info (ctx_gfx_level ctx) pos);
    (PSBC_CX_OFFSET R_028A40_VGT_GS_MODE, 0);
    (PSBC_CX_OFFSET R_028AB4_VGT_REUSE_OFF, 0);
    (PSBC_CX_OFFSET R_028A84_VGT_PRIMITIVEID_EN, 0) ].

Definition legacy_vs_sh (ctx : BuildContext) : list (Z * Z) :=
  [ (PSBC_SH_OFFSET R_00B120_SPI_SHADER_PGM_LO_VS, 0);
    (PSBC_SH_OFFSET R_00B124_SPI_SHADER_PGM_HI_VS, 0);
    (PSBC_SH_OFFSET R_00B128_SPI_SHADER_PGM_RSRC1_VS, cfg_rsrc1 (ctx_config ctx));
    (PSBC_SH_OFFSET R_00B12C_SPI_SHADER_PGM_RSRC2_VS, cfg_rsrc2 (ctx_config ctx));
    (PSBC_SH_OFFSET R_00B118_SPI_SHADER_PGM_RSRC3_VS,
     S_00B118_CU_EN 0xffff `lor` S_00B118_WAVE_LIMIT 0x3f);
    (PSBC_SH_OFFSET R_00B104_SPI_SHADER_PGM_RSRC4_VS, S_00B104_CU_EN 0xffff);
    (PSBC_SH_OFFSET R_00B11C_SPI_SHADER_LATE_ALLOC_VS, S_00B11C_LIMIT 0) ].

Definition md_vertex (ctx : BuildContext) (m : PsbcShaderMetadata) : PsbcShaderMetadata :=
  let m := m <| md_hardware_stage := PSBC_HW_STAGE_VERTEX |> in
  let m := md_legacy_linkage ctx
    (S_028B54_MAX_PRIMGRP_IN_WAVE 2 `lor`
     S_028B54_VS_W32_EN (b2z (ri_wave_size (ctx_rinfo ctx) =? 32))) m in
  let m := publish_ge_pc_alloc ctx m in
  add_all add_sh (legacy_vs_sh ctx) (add_all add_cx (legacy_vs_cx ctx) m).

(** ** Tessellation *)

Definition tess_ctrl_sh (ctx : BuildContext) : list (Z * Z) :=
  [ (PSBC_SH_OFFSET R_00B520_SPI_SHADER_PGM_LO_LS, 0);
    (PSBC_SH_OFFSET R_00B524_SPI_SHADER_PGM_HI_LS, 0);
    (PSBC_SH_OFFSET R_00B428_SPI_SHADER_PGM_RSRC1_HS, cfg_rsrc1 (ctx_config ctx));
    (PSBC_SH_OFFSET R_00B42C_SPI_SHADER_PGM_RSRC2_HS, cfg_rsrc2 (ctx_config ctx)) ].

(** The merged LS/HS user-data window, from the ring table. *)
Definition md_ring_window (ctx : BuildContext) (m : PsbcShaderMetadata) : PsbcShaderMetadata :=
  let offset := offset_of ctx (ra_ps5_ring_table (ctx_rargs ctx)) in
  when (has_vertex_half ctx && arg_used (ra_ps5_ring_table (ctx_rargs ctx)) &&
        (offset >=? md_ps5_ring_table_user_data_dword m))
    (fun m => m <| md_user_data_window_base :=
                     offset - md_ps5_ring_table_user_data_dword m |>) m.

Definition md_tess_ctrl (ctx : BuildContext) (m : PsbcShaderMetadata) : PsbcShaderMetadata :=
  let info := ctx_rinfo ctx in
  let m := md_ring_window ctx m in
  let m := add_all add_cx [ (PSBC_CX_OFFSET R_028B6C_VGT_TF_PARAM,
                             ShaderUtil.tess_tf_param (ctx_nir ctx)) ] m in
  let m := add_all add_sh (tess_ctrl_sh ctx) m in
  let m := when (truthy (tcs_lds_size (ri_tcs info)) || truthy (ri_num_tess_patches info))
    (fun m => m <| md_hull_tess_wg_valid := true |>
      <| md_hull_num_patches_per_wg := ri_num_tess_patches info |>
      <| md_hull_tcs_lds_size := tcs_lds_size (ri_tcs info) |>
      <| md_hull_workgroup_size := ri_workgroup_size info |>) m in
  if negb (ctx_ls_merged ctx) then unresolve PSBC_UNRESOLVED_TESS_PIPELINE m
  else m <| md_hardware_stage := PSBC_HW_STAGE_HULL |>.

(** The evaluation half linked as a legacy hardware vertex shader. *)
Definition md_legacy_domain (ctx : BuildContext) (m : PsbcShaderMetadata) : PsbcShaderMetadata :=
  let m := m <| md_hardware_stage := PSBC_HW_STAGE_VERTEX |> in
  let m := export_output_semantics ctx m in
  let m := md_legacy_linkage ctx
    (S_028B54_LS_EN V_028B54_LS_STAGE_ON `lor`
     S_028B54_HS_EN V_028B54_HS_STAGE_ON `lor`
     S_028B54_VS_EN V_028B54_VS_STAGE_DS `lor`
     S_028B54_DYNAMIC_HS 1 `lor`
     S_028B54_MAX_PRIMGRP_IN_WAVE 2 `lor`
     S_028B54_VS_W32_EN (b2z (ri_wave_size (ctx_rinfo ctx) =? 32))) m in
  let m := publish_ge_pc_alloc ctx m in
  let m := add_all add_cx (legacy_vs_cx ctx ++
    [ (PSBC_CX_OFFSET R_028A44_VGT_GS_ONCHIP_CNTL,
       S_028A44_ES_VERTS_PER_SUBGRP 250 `lor` S_028A44_GS_PRIMS_PER_SUBGRP 126 `lor`
       S_028A44_GS_INST_PRIMS_IN_SUBGRP 126) ]) m in
  add_all add_sh (legacy_vs_sh ctx) m.

(** ** The whole function *)

Definition fill_shader_metadata (ctx : BuildContext) : PsbcShaderMetadata :=
  let m := md_common ctx in
  if is_stage ctx MESA_SHADER_FRAGMENT then md_fragment ctx m
  else if (is_stage ctx MESA_SHADER_VERTEX || is_stage ctx MESA_SHADER_TESS_EVAL ||
           is_stage ctx MESA_SHADER_GEOMETRY) && ctx_ngg ctx then md_ngg ctx m
  else if is_stage ctx MESA_SHADER_GEOMETRY then md_legacy_geometry ctx m
  else if is_stage ctx MESA_SHADER_VERTEX then md_vertex ctx m
  else if is_stage ctx MESA_SHADER_TESS_CTRL then md_tess_ctrl ctx m
  else if is_stage ctx MESA_SHADER_TESS_EVAL && negb (ctx_ngg ctx) && ctx_domain_linked ctx then
    md_legacy_domain ctx m
  else if is_stage ctx MESA_SHADER_TESS_EVAL then unresolve PSBC_UNRESOLVED_TESS_PIPELINE m
  else m.

(** * Correctness *)

(** ** Published register writes *)

Definition register_writes (registers : list PsbcRegisterWrite) (count : Z) : list (Z * Z) :=
  map (fun r => (rw_offset r, rw_value r)) (take (Z.to_nat count) registers).
Definition cx_writes (m : PsbcShaderMetadata) : list (Z * Z) :=
  register_writes (md_context_registers m) (md_context_register_count m).
Definition sh_writes (m : PsbcShaderMetadata) : list (Z * Z) :=
  register_writes (md_shader_registers m) (md_shader_register_count m).

(** A register list of [limit] entries whose first [count] are published. *)
Definition list_wf (limit : Z) (registers : list PsbcRegisterWrite) (count : Z) : Prop :=
  Z.of_nat (length registers) = limit /\ 0 <= count <= limit.

Lemma metadata_add_register_spec registers count limit offset value :
  list_wf limit registers count -> count < limit ->
  let r := metadata_add_register registers count limit offset value in
  list_wf limit r.1 r.2 /\ r.2 = count + 1 /\
  register_writes r.1 r.2 = register_writes registers count ++ [(offset, value)].
Proof.
  intros [Hl Hc] Hlt. unfold metadata_add_register. rewrite Z.geb_leb.
  destruct (Z.leb_spec limit count); [lia|]. simpl. split_and!; [|done|].
  - split; [rewrite length_put; lia|lia].
  - unfold register_writes, put. rewrite Z2Nat.inj_add by lia.
    change (Z.to_nat 1) with 1%nat. rewrite Nat.add_1_r.
    rewrite (take_S_r _ _ (mkPsbcRegisterWrite offset 0 value)).
    + rewrite map_app, take_insert_ge by lia. done.
    + apply list_lookup_insert_eq. lia.
Qed.

(** Both lists grow the same way. *)
Section register_list.
  Context (add : Z -> Z -> PsbcShaderMetadata -> PsbcShaderMetadata)
    (registers : PsbcShaderMetadata -> list PsbcRegisterWrite)
    (count : PsbcShaderMetadata -> Z) (limit : Z).
  Hypothesis add_appends : forall offset value m,
    (registers (add offset value m), count (add offset value m)) =
      metadata_add_register (registers m) (count m) limit offset value.

Lemma add_all_spec writes m :
    list_wf limit (registers m) (count m) ->
    count m + Z.of_nat (length writes) <= limit ->
    let m' := add_all add writes m in
    list_wf limit (registers m') (count m') /\
    count m' = count m + Z.of_nat (length writes) /\
    register_writes (registers m') (count m') = register_writes (registers m) (count m) ++ writes.
Proof.
  revert m. induction writes as [|[offset value] writes IH]; intros m Hwf Hn.
  - simpl in Hn |- *. rewrite app_nil_r. split_and!; [done|lia|done].
  - rewrite length_cons in Hn |- *.
    destruct (metadata_add_register_spec _ _ _ offset value Hwf) as (Hwf' & Hc & Hw); [lia|].
    rewrite <-add_appends in Hwf', Hc, Hw. simpl in Hwf', Hc, Hw.
    destruct (IH (add offset value m)) as (IH1 & IH2 & IH3); [done|lia|].
    change (add_all add ((offset, value) :: writes) m)
      with (add_all add writes (add offset value m)).
    split_and!; [done|lia|]. rewrite IH3, Hw. by rewrite <-app_assoc.
Qed.

Lemma add_all_frame {T} (p : PsbcShaderMetadata -> T) writes m :
    (forall offset value m, p (add offset value m) = p m) -> p (add_all add writes m) = p m.
Proof.
  intros H. revert m. induction writes as [|w writes IH]; intros m; [done|].
  change (add_all add (w :: writes) m) with (add_all add writes (add w.1 w.2 m)).
  by rewrite IH.
Qed.
End register_list.

Definition cx_list (m : PsbcShaderMetadata) := (md_context_registers m, md_context_register_count m).
Definition sh_list (m : PsbcShaderMetadata) := (md_shader_registers m, md_shader_register_count m).

Lemma add_cx_appends offset value m :
  cx_list (add_cx offset value m) = metadata_add_register (md_context_registers m)
    (md_context_register_count m) PSBC_MAX_CONTEXT_REGISTERS offset value.
Proof. unfold add_cx. by destruct (metadata_add_register _ _ _ _ _). Qed.

Lemma add_sh_appends offset value m :
  sh_list (add_sh offset value m) = metadata_add_register (md_shader_registers m)
    (md_shader_register_count m) PSBC_MAX_SHADER_REGISTERS offset value.
Proof. unfold add_sh. by destruct (metadata_add_register _ _ _ _ _). Qed.

(** What the package blocks of the stages decide: the rest of the metadata is
    written by the common part. *)
Definition verdict (m : PsbcShaderMetadata) := (md_hardware_stage m, md_unresolved_fields m).

Lemma add_cx_frame writes m :
  sh_list (add_all add_cx writes m) = sh_list m /\
  verdict (add_all add_cx writes m) = verdict m.
Proof.
  split; apply (add_all_frame add_cx); intros; unfold add_cx;
    by destruct (metadata_add_register _ _ _ _ _).
Qed.

Lemma add_sh_frame writes m :
  cx_list (add_all add_sh writes m) = cx_list m /\
  verdict (add_all add_sh writes m) = verdict m.
Proof.
  split; apply (add_all_frame add_sh); intros; unfold add_sh;
    by destruct (metadata_add_register _ _ _ _ _).
Qed.

Lemma proj_when {T} (p : PsbcShaderMetadata -> T) c f m :
  p (f m) = p m -> p (when c f m) = p m.
Proof. unfold when. by destruct c. Qed.

Lemma proj_loop {A T} (p : A -> T) n f a :
  (forall i x, p (f i x) = p x) -> p (loop n f a) = p a.
Proof.
  intros H. unfold loop. revert a.
  induction (seqZ 0 n) as [|i l IH]; intros a; [done|]. simpl. by rewrite IH.
Qed.

(** A view of the state that the loop body respects. *)
Lemma loop_sim {A B} (p : A -> B) n (f : Z -> A -> A) (g : Z -> B -> B) a :
  (forall i x, p (f i x) = g i (p x)) -> p (loop n f a) = loop n g (p a).
Proof.
  intros H. unfold loop. revert a.
  induction (seqZ 0 n) as [|i l IH]; intros a; [done|]. simpl. by rewrite IH, H.
Qed.

(** A block that only assigns other fields. *)
Ltac frame :=
  cbv zeta; repeat (etrans; [apply proj_when; reflexivity|]); reflexivity.

Definition core (m : PsbcShaderMetadata) := (verdict m, cx_list m, sh_list m).

(** fill_output_semantics only appends to the output list. *)
Lemma fill_output_frame {T} (p : PsbcShaderMetadata -> T) info m :
  (forall w m, p (InputSemantics.push_output w m) = p m) ->
  p (InputSemantics.fill_output_semantics info m).2 = p m.
Proof.
  intros Hpush.
  assert (forall slot key m, match InputSemantics.output_named info slot key m with
            inl m' | inr m' => p m' = p m end) as Hnamed.
  { intros. unfold InputSemantics.output_named.
    destruct (_ <? _); [|done]. by destruct (_ >=? _). }
  assert (p (loop PSBC_MAX_SEMANTICS (InputSemantics.output_varying info) m) = p m) as H1.
  { apply proj_loop. intros. unfold InputSemantics.output_varying. by case_match. }
  unfold InputSemantics.fill_output_semantics.
  generalize dependent (loop PSBC_MAX_SEMANTICS (InputSemantics.output_varying info) m).
  intros m1 H1.
  pose proof (Hnamed VARYING_SLOT_PRIMITIVE_ID PSBC_SEMANTIC_PRIMITIVE_ID m1) as H2.
  destruct (InputSemantics.output_named info VARYING_SLOT_PRIMITIVE_ID _ m1) as [m2|m2];
    [|simpl; congruence].
  pose proof (Hnamed VARYING_SLOT_VIEWPORT PSBC_SEMANTIC_VIEWPORT_INDEX m2) as H3.
  destruct (InputSemantics.output_named info VARYING_SLOT_VIEWPORT _ m2) as [m3|m3];
    [|simpl; congruence].
  pose proof (proj_loop (fun r => match r with inl x | inr x => p x end)
    (InputSemantics.distance_registers info) (InputSemantics.output_distance info) (inl m3)) as H4.
  destruct (loop (InputSemantics.distance_registers info) _ (inl m3)) as [m4|m4];
    (simpl in H4 |- *; rewrite H4; [congruence|]);
    intros i [x|x]; simpl; [|done| |done]; by destruct (_ || _).
Qed.

Lemma core_fill_output info m : core (InputSemantics.fill_output_semantics info m).2 = core m.
Proof. by apply fill_output_frame. Qed.

Definition outputs (m : PsbcShaderMetadata) := (md_output_semantic_count m, md_output_semantics m).
Definition window (m : PsbcShaderMetadata) := md_user_data_window_base m.
Definition declared (m : PsbcShaderMetadata) :=
  (md_descriptor_used_binding_mask m, md_descriptor_bindings m).
Definition inputs (m : PsbcShaderMetadata) := (md_input_semantic_count m, md_input_semantics m).
Definition common (m : PsbcShaderMetadata) := ((core m, outputs m, (window m, inputs m)), declared m).

Lemma common_resources ctx m : common (md_resources ctx m) = common m.
Proof. unfold md_resources. frame. Qed.

Lemma common_descriptor_sets ctx m : common (md_descriptor_sets ctx m) = common m.
Proof.
  unfold md_descriptor_sets.
  change (common (loop PSBC_MAX_DESCRIPTOR_SETS (fun set => when (set_is_bound ctx set)
    (fun m => m
      <| md_descriptor_set_valid := put set true (md_descriptor_set_valid m) |>
      <| md_descriptor_set_user_data_dword :=
           put set (descriptor_set_sgpr (ra_user_sgprs_locs (ctx_rargs ctx)) set)
             (md_descriptor_set_user_data_dword m) |>)) m) = common m).
  apply proj_loop. intros. by apply proj_when.
Qed.

Lemma common_draw_arguments ctx m : common (md_draw_arguments ctx m) = common m.
Proof. unfold md_draw_arguments. frame. Qed.

Lemma common_streamout ctx m : common (md_streamout ctx m) = common m.
Proof.
  unfold md_streamout. apply proj_when. cbv zeta.
  rewrite proj_loop; [by rewrite proj_when|]. intros. by rewrite proj_when.
Qed.

Lemma common_bindings ctx m : (common (md_bindings ctx m)).1 = (common m).1.
Proof. unfold md_bindings. by destruct (truthy _ && _). Qed.

(** What the bindings block starts from. *)
Definition md_arguments (ctx : BuildContext) : PsbcShaderMetadata :=
  md_streamout ctx (md_draw_arguments ctx
    (md_descriptor_sets ctx (md_resources ctx (md_identity ctx)))).

Lemma common_arguments ctx : common (md_arguments ctx) = common (md_identity ctx).
Proof.
  unfold md_arguments.
  by rewrite common_streamout, common_draw_arguments, common_descriptor_sets, common_resources.
Qed.

(** The common part decides no register and no stage. *)
Lemma common_common ctx : (common (md_common ctx)).1 = (common (md_identity ctx)).1.
Proof. rewrite <-common_arguments. apply common_bindings. Qed.

(** ** Packages *)

(** The hardware program a compilation produces. *)
Inductive package : Type :=
| PixelProgram | NggProgram | LegacyVertexProgram | LegacyDomainProgram
| MergedHullProgram | LoneControl | LoneDomain | LoneGeometry | NoPackage.

#[export] Instance package_eq_dec : EqDecision package.
Proof. solve_decision. Defined.

Definition package_of (ctx : BuildContext) : package :=
  match ctx_stage ctx with
  | MESA_SHADER_FRAGMENT => PixelProgram
  | MESA_SHADER_VERTEX => if ctx_ngg ctx then NggProgram else LegacyVertexProgram
  | MESA_SHADER_GEOMETRY => if ctx_ngg ctx then NggProgram else LoneGeometry
  | MESA_SHADER_TESS_CTRL => if ctx_ls_merged ctx then MergedHullProgram else LoneControl
  | MESA_SHADER_TESS_EVAL =>
      if ctx_ngg ctx then NggProgram
      else if ctx_domain_linked ctx then LegacyDomainProgram else LoneDomain
  | _ => NoPackage
  end.

Definition domain_cx (ctx : BuildContext) : list (Z * Z) :=
  legacy_vs_cx ctx ++ [ (PSBC_CX_OFFSET R_028A44_VGT_GS_ONCHIP_CNTL,
    S_028A44_ES_VERTS_PER_SUBGRP 250 `lor` S_028A44_GS_PRIMS_PER_SUBGRP 126 `lor`
    S_028A44_GS_INST_PRIMS_IN_SUBGRP 126) ].

(** The register writes of each program. *)
Definition package_cx (ctx : BuildContext) (p : package) : list (Z * Z) :=
  match p with
  | PixelProgram => fragment_cx ctx
  | NggProgram => ngg_cx_first ctx ++ ngg_cx_last ctx
  | LegacyVertexProgram => legacy_vs_cx ctx
  | LegacyDomainProgram => domain_cx ctx
  | MergedHullProgram | LoneControl =>
      [ (PSBC_CX_OFFSET R_028B6C_VGT_TF_PARAM, ShaderUtil.tess_tf_param (ctx_nir ctx)) ]
  | LoneDomain | LoneGeometry | NoPackage => []
  end.

Definition package_sh (ctx : BuildContext) (p : package) : list (Z * Z) :=
  match p with
  | PixelProgram => fragment_sh ctx
  | NggProgram => ngg_sh ctx
  | LegacyVertexProgram | LegacyDomainProgram => legacy_vs_sh ctx
  | MergedHullProgram | LoneControl => tess_ctrl_sh ctx
  | LoneDomain | LoneGeometry | NoPackage => []
  end.

Definition package_stage (p : package) : PsbcHardwareStage :=
  match p with
  | PixelProgram => PSBC_HW_STAGE_PIXEL
  | NggProgram => PSBC_HW_STAGE_NGG
  | LegacyVertexProgram | LegacyDomainProgram => PSBC_HW_STAGE_VERTEX
  | MergedHullProgram => PSBC_HW_STAGE_HULL
  | _ => PSBC_HW_STAGE_UNKNOWN
  end.

(** Whether the linkage with the neighbouring stage is left to the caller. *)
Definition linkage_open (ctx : BuildContext) (p : package) : bool :=
  match p with
  | PixelProgram =>
      match ctx_input_semantics ctx with
      | Some s => negb (InputSemantics.is_valid s)
      | None => true
      end
  | NggProgram | LegacyDomainProgram =>
      negb (InputSemantics.fill_output_semantics (ctx_rinfo ctx) zero_PsbcShaderMetadata).1
  | LoneGeometry => true
  | _ => false
  end.

Definition package_unresolved (ctx : BuildContext) (p : package) : Z :=
  PSBC_UNRESOLVED_PROGRAM_CHECKSUM `lor`
  (match p with NggProgram => PSBC_UNRESOLVED_NGG_ESGS_RING_ITEMSIZE | _ => 0 end) `lor`
  (if linkage_open ctx p then PSBC_UNRESOLVED_AGC_LINKAGE else 0) `lor`
  (match p with LoneControl | LoneDomain => PSBC_UNRESOLVED_TESS_PIPELINE | _ => 0 end).

(** ** Each program *)

Lemma common_inputs ctx : inputs (md_common ctx) = inputs zero_PsbcShaderMetadata.
Proof. exact (f_equal (fun c => c.2.2) (common_common ctx)). Qed.

Lemma common_parts ctx :
  core (md_common ctx) = core (md_identity ctx) /\
  outputs (md_common ctx) = outputs zero_PsbcShaderMetadata /\ window (md_common ctx) = 0.
Proof.
  pose proof (common_common ctx) as H.
  exact (conj (f_equal (fun c => c.1.1) H) (conj (f_equal (fun c => c.1.2) H) (f_equal (fun c => c.2.1) H))).
Qed.

(** The state of the lists: well formed, with these writes. *)
Definition cx_holds (m : PsbcShaderMetadata) (writes : list (Z * Z)) : Prop :=
  list_wf PSBC_MAX_CONTEXT_REGISTERS (md_context_registers m) (md_context_register_count m) /\
  md_context_register_count m = Z.of_nat (length writes) /\ cx_writes m = writes.
Definition sh_holds (m : PsbcShaderMetadata) (writes : list (Z * Z)) : Prop :=
  list_wf PSBC_MAX_SHADER_REGISTERS (md_shader_registers m) (md_shader_register_count m) /\
  md_shader_register_count m = Z.of_nat (length writes) /\ sh_writes m = writes.

Lemma cx_holds_ext m m' writes : cx_list m' = cx_list m -> cx_holds m writes -> cx_holds m' writes.
Proof. unfold cx_holds, cx_writes, cx_list. by intros [= -> ->]. Qed.
Lemma sh_holds_ext m m' writes : sh_list m' = sh_list m -> sh_holds m writes -> sh_holds m' writes.
Proof. unfold sh_holds, sh_writes, sh_list. by intros [= -> ->]. Qed.

Lemma add_cx_holds m l writes :
  cx_holds m l -> Z.of_nat (length (l ++ writes)) <= PSBC_MAX_CONTEXT_REGISTERS ->
  cx_holds (add_all add_cx writes m) (l ++ writes).
Proof.
  intros (Hwf & Hc & Hw) Hn. rewrite length_app in Hn.
  destruct (add_all_spec add_cx md_context_registers md_context_register_count _
    add_cx_appends writes m Hwf) as (H1 & H2 & H3); [lia|].
  split_and!; [done|rewrite length_app; lia|]. unfold cx_writes in *. by rewrite H3, Hw.
Qed.

Lemma add_sh_holds m l writes :
  sh_holds m l -> Z.of_nat (length (l ++ writes)) <= PSBC_MAX_SHADER_REGISTERS ->
  sh_holds (add_all add_sh writes m) (l ++ writes).
Proof.
  intros (Hwf & Hc & Hw) Hn. rewrite length_app in Hn.
  destruct (add_all_spec add_sh md_shader_registers md_shader_register_count _
    add_sh_appends writes m Hwf) as (H1 & H2 & H3); [lia|].
  split_and!; [done|rewrite length_app; lia|]. unfold sh_writes in *. by rewrite H3, Hw.
Qed.

(** [m] publishes exactly these writes under this verdict. *)
Definition reports (m : PsbcShaderMetadata) (cx sh : list (Z * Z))
    (v : PsbcHardwareStage * Z) : Prop :=
  cx_holds m cx /\ sh_holds m sh /\ verdict m = v.

Lemma reports_ext m m' cx sh v : core m' = core m -> reports m cx sh v -> reports m' cx sh v.
Proof.
  intros [= H1 H2 H3 H4 H5 H6] (Hc & Hs & Hv). split_and!.
  - apply (cx_holds_ext m); [|done]. unfold cx_list. by rewrite H3, H4.
  - apply (sh_holds_ext m); [|done]. unfold sh_list. by rewrite H5, H6.
  - unfold verdict in *. by rewrite H1, H2.
Qed.

Lemma reports_add_cx m cx sh v writes :
  reports m cx sh v -> Z.of_nat (length (cx ++ writes)) <= PSBC_MAX_CONTEXT_REGISTERS ->
  reports (add_all add_cx writes m) (cx ++ writes) sh v.
Proof.
  intros (Hc & Hs & Hv) Hn. destruct (add_cx_frame writes m) as [H1 H2]. split_and!.
  - by apply add_cx_holds.
  - by apply (sh_holds_ext m).
  - by rewrite H2.
Qed.

Lemma reports_add_sh m cx sh v writes :
  reports m cx sh v -> Z.of_nat (length (sh ++ writes)) <= PSBC_MAX_SHADER_REGISTERS ->
  reports (add_all add_sh writes m) cx (sh ++ writes) v.
Proof.
  intros (Hc & Hs & Hv) Hn. destruct (add_sh_frame writes m) as [H1 H2]. split_and!.
  - by apply (cx_holds_ext m).
  - by apply add_sh_holds.
  - by rewrite H2.
Qed.

Lemma reports_both m v cx sh :
  reports m [] [] v -> Z.of_nat (length cx) <= PSBC_MAX_CONTEXT_REGISTERS ->
  Z.of_nat (length sh) <= PSBC_MAX_SHADER_REGISTERS ->
  reports (add_all add_sh sh (add_all add_cx cx m)) cx sh v.
Proof.
  intros H ? ?. apply (reports_add_sh _ _ []); [|done]. by apply (reports_add_cx _ []).
Qed.

(** Changing the verdict leaves the lists alone. *)
Lemma reports_verdict m m' cx sh v v' :
  reports m cx sh v -> cx_list m' = cx_list m -> sh_list m' = sh_list m -> verdict m' = v' ->
  reports m' cx sh v'.
Proof.
  intros (Hc & Hs & _) H1 H2 H3.
  split_and!; [by apply (cx_holds_ext m)|by apply (sh_holds_ext m)|done].
Qed.

Lemma reports_common ctx :
  reports (md_common ctx) [] [] (PSBC_HW_STAGE_UNKNOWN, PSBC_UNRESOLVED_PROGRAM_CHECKSUM).
Proof.
  apply (reports_ext (md_identity ctx)); [apply common_parts|].
  split_and!; [| |done]; (split_and!; [split; vm_compute; [done|by split]|done|done]).
Qed.

Section programs.
  Context (ctx : BuildContext).
  Abbreviation start := (PSBC_HW_STAGE_UNKNOWN, PSBC_UNRESOLVED_PROGRAM_CHECKSUM).
  Abbreviation expected p := (package_stage p, package_unresolved ctx p).

Lemma fragment_reports m :
    reports m [] [] start ->
    reports (md_fragment ctx m) (fragment_cx ctx) (fragment_sh ctx) (expected PixelProgram).
Proof.
  intros H. apply reports_both; [|done|done].
  assert (reports (md_fragment_linkage ctx (m <| md_hardware_stage := PSBC_HW_STAGE_PIXEL |>))
            [] [] (expected PixelProgram)) as Hl.
  { pose proof H as (_ & _ & [= _ Hu]). unfold md_fragment_linkage, package_unresolved, linkage_open.
    destruct (ctx_input_semantics ctx) as [s|];
      [destruct (InputSemantics.is_valid s)|];
      (apply (reports_verdict _ _ _ _ _ _ H); [reflexivity|reflexivity|];
       unfold verdict; simpl; by rewrite Hu). }
  revert Hl. apply reports_ext. unfold md_fragment_linkage. by repeat case_match.
Qed.

Lemma export_reports m cx sh hw u :
    outputs m = outputs zero_PsbcShaderMetadata -> reports m cx sh (hw, u) ->
    reports (export_output_semantics ctx m) cx sh
      (hw, u `lor` if linkage_open ctx NggProgram then PSBC_UNRESOLVED_AGC_LINKAGE else 0).
Proof.
  intros [= Ho Hs] H. unfold export_output_semantics, linkage_open.
  pose proof (core_fill_output (ctx_rinfo ctx) m) as Hc.
  pose proof (InputSemantics.fill_output_semantics_ok (ctx_rinfo ctx) m zero_PsbcShaderMetadata Ho
    (f_equal length Hs) eq_refl eq_refl) as Hok. rewrite <-Hok. clear Hok.
  destruct (InputSemantics.fill_output_semantics (ctx_rinfo ctx) m) as [[] m']; simpl in Hc |- *.
  - rewrite Z.lor_0_r. by apply (reports_ext m).
  - apply (reports_ext m m') in H; [|done]. pose proof H as (_ & _ & [= Hhw Hu]).
    apply (reports_verdict _ _ _ _ _ _ H); [done|done|].
    unfold verdict, unresolve. simpl. by rewrite Hhw, Hu.
Qed.

Lemma core_publish_ge_pc_alloc m : core (publish_ge_pc_alloc ctx m) = core m.
Proof. unfold publish_ge_pc_alloc. by apply proj_when. Qed.

Lemma core_ngg_linkage m : core (md_ngg_linkage ctx m) = core m.
Proof. unfold md_ngg_linkage. by destruct (ctx_es_info ctx). Qed.

Lemma core_window m : core (md_window ctx (md_esgs_sgprs ctx m)) = core m.
Proof.
  transitivity (core (md_esgs_sgprs ctx m)).
  - unfold md_window. by destruct (foldl _ _ _) as [[]|].
  - unfold md_esgs_sgprs. by apply proj_when.
Qed.

Lemma ngg_reports m :
    outputs m = outputs zero_PsbcShaderMetadata -> reports m [] [] start ->
    reports (md_ngg ctx m) (ngg_cx_first ctx ++ ngg_cx_last ctx) (ngg_sh ctx) (expected NggProgram).
Proof.
  intros Ho H. pose proof H as (_ & _ & [= _ Hu]). unfold md_ngg. cbv zeta.
  apply (reports_add_sh _ _ []); [|unfold ngg_sh; by case_match].
  apply reports_add_cx; [|unfold ngg_cx_last; rewrite length_app; by case_match].
  eapply reports_ext; [apply core_window|].
  apply (reports_add_cx _ []); [|done].
  eapply reports_ext; [etrans; [apply core_publish_ge_pc_alloc|apply core_ngg_linkage]|].
  set (m' := unresolve _ _).
  assert (reports m' [] [] (PSBC_HW_STAGE_NGG, PSBC_UNRESOLVED_PROGRAM_CHECKSUM `lor`
    PSBC_UNRESOLVED_NGG_ESGS_RING_ITEMSIZE)) as H'.
  { apply (reports_verdict _ _ _ _ _ _ H); [done|done|].
    unfold verdict, m', unresolve. simpl. by rewrite Hu. }
  pose proof (export_reports m' _ _ _ _ Ho H') as E. unfold package_unresolved.
  rewrite Z.lor_0_r. exact E.
Qed.

Lemma vertex_reports m :
    reports m [] [] start ->
    reports (md_vertex ctx m) (legacy_vs_cx ctx) (legacy_vs_sh ctx) (expected LegacyVertexProgram).
Proof.
  intros H. pose proof H as (_ & _ & [= _ Hu]). apply reports_both; [|done|done].
  eapply reports_ext; [apply core_publish_ge_pc_alloc|].
  apply (reports_verdict _ _ _ _ _ _ H); [done|done|]. unfold verdict. simpl. by rewrite Hu.
Qed.

Lemma domain_reports m :
    outputs m = outputs zero_PsbcShaderMetadata -> reports m [] [] start ->
    reports (md_legacy_domain ctx m) (domain_cx ctx) (legacy_vs_sh ctx)
      (expected LegacyDomainProgram).
Proof.
  intros Ho H. pose proof H as (_ & _ & [= _ Hu]). apply reports_both; [|done|done].
  eapply reports_ext; [apply core_publish_ge_pc_alloc|].
  set (m' := m <| md_hardware_stage := PSBC_HW_STAGE_VERTEX |>).
  assert (reports m' [] [] (PSBC_HW_STAGE_VERTEX, PSBC_UNRESOLVED_PROGRAM_CHECKSUM)) as H'.
  { apply (reports_verdict _ _ _ _ _ _ H); [done|done|]. unfold verdict, m'. simpl. by rewrite Hu. }
  pose proof (export_reports m' _ _ _ _ Ho H') as E. unfold package_unresolved.
  rewrite !Z.lor_0_r. exact E.
Qed.

Lemma tess_ctrl_reports m :
    reports m [] [] start ->
    let p := if ctx_ls_merged ctx then MergedHullProgram else LoneControl in
    reports (md_tess_ctrl ctx m) (package_cx ctx p) (package_sh ctx p) (expected p).
Proof.
  intros H p. unfold md_tess_ctrl. cbv zeta.
  set (m' := when _ _ (add_all add_sh _ _)).
  assert (reports m' (package_cx ctx p) (package_sh ctx p) start) as H'.
  { unfold m', p. replace (package_cx ctx (if ctx_ls_merged ctx then MergedHullProgram else LoneControl))
      with (package_cx ctx LoneControl) by (by destruct (ctx_ls_merged ctx)).
    replace (package_sh ctx (if ctx_ls_merged ctx then MergedHullProgram else LoneControl))
      with (package_sh ctx LoneControl) by (by destruct (ctx_ls_merged ctx)).
    eapply reports_ext; [by apply proj_when|]. apply reports_both; [|done|done].
    eapply reports_ext; [|exact H]. unfold md_ring_window. by apply proj_when. }
  clearbody m'. pose proof H' as (_ & _ & [= Hh Hu]). unfold p in *.
  destruct (ctx_ls_merged ctx); simpl negb; cbv iota;
    (apply (reports_verdict _ _ _ _ _ _ H'); [done|done|]);
    unfold verdict, unresolve; simpl; by rewrite ?Hh, Hu.
Qed.

Lemma fill_reports :
    let p := package_of ctx in
    reports (fill_shader_metadata ctx) (package_cx ctx p) (package_sh ctx p) (expected p).
Proof.
  pose proof (reports_common ctx) as H. destruct (common_parts ctx) as (_ & Ho & _).
  pose proof H as (_ & _ & [= Hh Hu]).
  unfold fill_shader_metadata, package_of, is_stage. cbv zeta.
  destruct (ctx_stage ctx); cbn [stage_eqb mesa_shader_stage_val Z.eqb Pos.eqb orb andb negb];
    try exact H; try (destruct (ctx_ngg ctx); cbn [andb negb]);
    try (destruct (ctx_domain_linked ctx));
    auto using vertex_reports, ngg_reports, domain_reports, tess_ctrl_reports, fragment_reports.
  all: apply (reports_verdict _ _ _ _ _ _ H); [done|done|];
    unfold verdict, unresolve; simpl; by rewrite ?Hh, Hu.
Qed.
End programs.

(** The registers of a program are distinct, and every offset fits its field. *)
Lemma package_offsets ctx p :
  NoDup (map fst (package_cx ctx p)) /\ NoDup (map fst (package_sh ctx p)) /\
  Forall (fun w => in_width 16 w.1) (package_cx ctx p ++ package_sh ctx p).
Proof.
  assert (forall l : list Z, (if decide (NoDup l) then true else false) = true -> NoDup l) as Hd.
  { intros l. by destruct (decide (NoDup l)). }
  split_and!.
  - destruct p; cbv [package_cx ngg_cx_first ngg_cx_last fragment_cx domain_cx legacy_vs_cx];
      try destruct (is_stage ctx MESA_SHADER_GEOMETRY); cbn [map fst app];
      apply Hd; vm_compute; reflexivity.
  - destruct p; cbv [package_sh ngg_sh fragment_sh legacy_vs_sh tess_ctrl_sh];
      try destruct (bool_decide (ctx_target ctx = PSBC_TARGET_PS5)); cbn [map fst app];
      apply Hd; vm_compute; reflexivity.
  - apply Forall_app. split;
      destruct p; cbv [package_cx ngg_cx_first ngg_cx_last fragment_cx domain_cx legacy_vs_cx
                       package_sh ngg_sh fragment_sh legacy_vs_sh tess_ctrl_sh];
      try destruct (is_stage ctx MESA_SHADER_GEOMETRY);
      try destruct (bool_decide (ctx_target ctx = PSBC_TARGET_PS5)); cbn [app];
      repeat (apply Forall_cons_2; [cbn [fst]; split; vm_compute; done|]); apply Forall_nil_2.
Qed.

(** C8: on every path the context and shader register lists hold exactly the
    writes of the program the compilation produces - none is dropped by the
    fixed-size lists -, each register is written once and every offset fits the
    16-bit field. *)
Theorem fill_shader_metadata_registers ctx :
  let m := fill_shader_metadata ctx in
  let p := package_of ctx in
  cx_writes m = package_cx ctx p /\ sh_writes m = package_sh ctx p /\
  NoDup (map fst (cx_writes m)) /\ NoDup (map fst (sh_writes m)) /\
  Forall (fun w => in_width 16 w.1) (cx_writes m ++ sh_writes m).
Proof.
  cbv zeta. destruct (fill_reports ctx) as ((_ & _ & ->) & (_ & _ & ->) & _).
  split_and!; [done|done|apply package_offsets..].
Qed.


(** ** User data *)

(** The fields the stage packages leave as the common part wrote them. *)
Definition user_data (m : PsbcShaderMetadata) :=
  ((md_base_vertex_valid m, md_base_vertex_user_data_dword m),
   (md_start_instance_valid m, md_start_instance_user_data_dword m),
   (md_draw_id_valid m, md_draw_id_user_data_dword m),
   (md_ngg_lds_layout_valid m, md_ngg_lds_layout_user_data_dword m),
   (md_descriptor_set_valid m, md_descriptor_set_user_data_dword m),
   (md_descriptor_set0_valid m, md_descriptor_set0_user_data_dword m),
   (md_descriptor_used_binding_mask m, md_descriptor_binding_count m, md_descriptor_bindings m)).

Lemma add_frames {T} (p : PsbcShaderMetadata -> T) cx sh m :
  (forall offset value m, p (add_cx offset value m) = p m) ->
  (forall offset value m, p (add_sh offset value m) = p m) ->
  p (add_all add_sh sh (add_all add_cx cx m)) = p m.
Proof. intros. by rewrite (add_all_frame add_sh), (add_all_frame add_cx). Qed.

Lemma user_data_add_cx offset value m : user_data (add_cx offset value m) = user_data m.
Proof. unfold add_cx. by destruct (metadata_add_register _ _ _ _ _). Qed.
Lemma user_data_add_sh offset value m : user_data (add_sh offset value m) = user_data m.
Proof. unfold add_sh. by destruct (metadata_add_register _ _ _ _ _). Qed.

Lemma user_data_export ctx m : user_data (export_output_semantics ctx m) = user_data m.
Proof.
  pose proof (fill_output_frame user_data (ctx_rinfo ctx) m (fun _ _ => eq_refl)) as H.
  unfold export_output_semantics. by destruct (InputSemantics.fill_output_semantics _ m) as [[] m'].
Qed.

Lemma user_data_ge_pc_alloc ctx m : user_data (publish_ge_pc_alloc ctx m) = user_data m.
Proof. unfold publish_ge_pc_alloc. by apply proj_when. Qed.

Lemma user_data_window ctx m : user_data (md_window ctx (md_esgs_sgprs ctx m)) = user_data m.
Proof.
  transitivity (user_data (md_esgs_sgprs ctx m)).
  - unfold md_window. by destruct (foldl _ _ _) as [[]|].
  - unfold md_esgs_sgprs. by apply proj_when.
Qed.

(** The metadata of an NGG program before the registers of its second block. *)
Definition ngg_linked (ctx : BuildContext) : PsbcShaderMetadata :=
  add_all add_cx (ngg_cx_first ctx) (publish_ge_pc_alloc ctx (md_ngg_linkage ctx
    (export_output_semantics ctx (unresolve PSBC_UNRESOLVED_NGG_ESGS_RING_ITEMSIZE
      (md_common ctx <| md_hardware_stage := PSBC_HW_STAGE_NGG |>))))).

Lemma user_data_ngg_linked ctx : user_data (ngg_linked ctx) = user_data (md_common ctx).
Proof.
  unfold ngg_linked. generalize (md_common ctx) as m. intros m.
  rewrite (add_all_frame add_cx) by apply user_data_add_cx.
  rewrite user_data_ge_pc_alloc.
  transitivity (user_data (export_output_semantics ctx (unresolve
    PSBC_UNRESOLVED_NGG_ESGS_RING_ITEMSIZE (m <| md_hardware_stage := PSBC_HW_STAGE_NGG |>)))).
  - unfold md_ngg_linkage. by destruct (ctx_es_info ctx).
  - by rewrite user_data_export.
Qed.

Lemma md_ngg_split ctx :
  md_ngg ctx (md_common ctx) = add_all add_sh (ngg_sh ctx) (add_all add_cx (ngg_cx_last ctx)
    (md_window ctx (md_esgs_sgprs ctx (ngg_linked ctx)))).
Proof. unfold md_ngg, ngg_linked. cbv zeta. reflexivity. Qed.

Lemma user_data_ngg ctx : user_data (md_ngg ctx (md_common ctx)) = user_data (md_common ctx).
Proof.
  rewrite md_ngg_split, add_frames by (apply user_data_add_cx || apply user_data_add_sh).
  rewrite <-user_data_ngg_linked. apply user_data_window.
Qed.

Lemma user_data_fill ctx : user_data (fill_shader_metadata ctx) = user_data (md_common ctx).
Proof.
  unfold fill_shader_metadata. cbv zeta. pose proof (user_data_ngg ctx) as Hngg.
  revert Hngg. generalize (md_common ctx) as m. intros m Hngg.
  destruct (is_stage ctx MESA_SHADER_FRAGMENT).
  { unfold md_fragment. rewrite add_frames by (apply user_data_add_cx || apply user_data_add_sh).
    unfold md_fragment_linkage. by repeat case_match. }
  destruct ((is_stage ctx MESA_SHADER_VERTEX || _ || _) && _); [exact Hngg|].
  destruct (is_stage ctx MESA_SHADER_GEOMETRY); [done|].
  destruct (is_stage ctx MESA_SHADER_VERTEX).
  { unfold md_vertex. rewrite add_frames by (apply user_data_add_cx || apply user_data_add_sh).
    by rewrite user_data_ge_pc_alloc. }
  destruct (is_stage ctx MESA_SHADER_TESS_CTRL).
  { unfold md_tess_ctrl. cbv zeta.
    transitivity (user_data (md_ring_window ctx m)).
    - set (m1 := add_all add_sh _ _).
      assert (user_data m1 = user_data (md_ring_window ctx m)) as <-
        by (apply add_frames; [apply user_data_add_cx|apply user_data_add_sh]).
      clearbody m1. destruct (negb _); by apply (proj_when user_data).
    - unfold md_ring_window. by apply proj_when. }
  destruct (is_stage ctx MESA_SHADER_TESS_EVAL && _ && _).
  { unfold md_legacy_domain. rewrite add_frames by (apply user_data_add_cx || apply user_data_add_sh).
    rewrite user_data_ge_pc_alloc.
    change (user_data (export_output_semantics ctx
      (m <| md_hardware_stage := PSBC_HW_STAGE_VERTEX |>)) = user_data m).
    by rewrite user_data_export. }
  by destruct (is_stage ctx MESA_SHADER_TESS_EVAL).
Qed.

(** ** The user-data window *)

(** A pair that takes part in the agreement. *)
Definition in_window (p : ac_arg * Z * bool) : bool := p.2 && arg_used p.1.1.
(** The pair places its argument at its dword plus [base]. *)
Definition placed_at (ctx : BuildContext) (base : Z) (p : ac_arg * Z * bool) : Prop :=
  in_window p = true -> offset_of ctx p.1.1 = p.1.2 + base.

Lemma window_fold_None ctx l : foldl (window_step ctx) None l = None.
Proof. induction l as [|[[a d] c] l IH]; [done|]. exact IH. Qed.

Lemma window_fold_sound ctx l acc b :
  foldl (window_step ctx) (Some acc) l = Some (Some b) ->
  Forall (placed_at ctx b) l /\ (forall b', acc = Some b' -> b' = b).
Proof.
  revert acc. induction l as [|[[a d] c] l IH]; intros acc H; simpl in H.
  { split; [constructor|]. intros b' ->. congruence. }
  assert (placed_at ctx b (a, d, c) <-> (c && arg_used a = true -> offset_of ctx a = d + b)) as Hp
    by done.
  destruct c, (arg_used a) eqn:Ea; simpl in H;
    try (destruct (IH _ H); split; [constructor; [by apply Hp|done]|done]).
  destruct (Z.ltb_spec (offset_of ctx a) d); [by rewrite window_fold_None in H|].
  destruct acc as [b'|].
  - destruct (Z.eqb_spec (offset_of ctx a - d) b'); [|by rewrite window_fold_None in H].
    destruct (IH _ H) as [? Hb]. specialize (Hb _ eq_refl). split; [|intros ? [= <-]; lia].
    constructor; [|done]. apply Hp. intros _. lia.
  - destruct (IH _ H) as [? Hb]. specialize (Hb _ eq_refl). split; [|done].
    constructor; [|done]. apply Hp. intros _. lia.
Qed.

Lemma window_fold_complete ctx l acc b :
  0 <= b -> Forall (placed_at ctx b) l -> acc = None \/ acc = Some b ->
  foldl (window_step ctx) (Some acc) l =
    Some (if existsb in_window l then Some b else acc).
Proof.
  intros Hb Hl. revert acc. induction Hl as [|[[a d] c] l Hp Hl IH]; intros acc Hacc; [done|].
  unfold placed_at, in_window in Hp. simpl in Hp |- *.
  destruct c, (arg_used a) eqn:Ea; simpl; unfold in_window at 1; simpl; rewrite ?Ea; simpl;
    try by apply IH.
  specialize (Hp eq_refl). rewrite Hp. destruct (Z.ltb_spec (d + b) d); [lia|].
  replace (d + b - d) with b by lia. 
  destruct Hacc as [->| ->]; rewrite ?Z.eqb_refl; (rewrite IH; [by destruct (existsb _ _)|by right]).
Qed.

Lemma window_pairs_user_data ctx m m' :
  user_data m = user_data m' -> window_pairs ctx m = window_pairs ctx m'.
Proof. intros [= H1 H2 H3 H4 H5 H6 H7 H8]. unfold window_pairs. congruence. Qed.


Lemma window_ngg_linked ctx : window (ngg_linked ctx) = 0.
Proof.
  destruct (common_parts ctx) as (_ & _ & H). revert H. unfold ngg_linked.
  generalize (md_common ctx) as m. intros m Hm.
  rewrite (add_all_frame add_cx).
  2: { intros. unfold add_cx. by destruct (metadata_add_register _ _ _ _ _). }
  unfold publish_ge_pc_alloc. rewrite proj_when; [|reflexivity].
  rewrite <-Hm. set (m1 := unresolve _ _). change (window m) with (window m1). clearbody m1.
  transitivity (window (export_output_semantics ctx m1)).
  { unfold md_ngg_linkage. by destruct (ctx_es_info ctx). }
  pose proof (fill_output_frame window (ctx_rinfo ctx) m1 (fun _ _ => eq_refl)) as H.
  unfold export_output_semantics. by destruct (InputSemantics.fill_output_semantics _ m1) as [[] m'].
Qed.

(** The base an NGG program publishes is decided by its pairs. *)
Lemma window_ngg ctx :
  package_of ctx = NggProgram ->
  let m := fill_shader_metadata ctx in
  window m = match foldl (window_step ctx) (Some None) (window_pairs ctx m) with
             | Some (Some base) => base
             | _ => 0
             end.
Proof.
  intros Hp. cbv zeta. rewrite (window_pairs_user_data ctx _ _ (user_data_fill ctx)).
  assert (fill_shader_metadata ctx = md_ngg ctx (md_common ctx)) as ->.
  { unfold fill_shader_metadata, is_stage. cbv zeta. unfold package_of in Hp.
    destruct (ctx_stage ctx); simpl; try done; destruct (ctx_ngg ctx); try done;
      by repeat case_match. }
  rewrite md_ngg_split.
  rewrite add_frames by (intros; unfold add_cx, add_sh; by destruct (metadata_add_register _ _ _ _ _)).
  rewrite <-(window_pairs_user_data ctx _ _ (user_data_ngg_linked ctx)).
  pose proof (window_ngg_linked ctx) as H0. revert H0. generalize (ngg_linked ctx) as m. intros m H0.
  assert (window (md_esgs_sgprs ctx m) = 0) as H1
    by (rewrite <-H0; unfold md_esgs_sgprs; by apply proj_when).
  assert (user_data (md_esgs_sgprs ctx m) = user_data m) as H2
    by (unfold md_esgs_sgprs; by apply proj_when).
  unfold md_window. rewrite (window_pairs_user_data ctx _ _ H2).
  by destruct (foldl _ _ _) as [[]|].
Qed.

(** C36: an NGG program publishes a non-zero user-data window base only if every
    argument that has both a register offset and a dword lies at its dword plus
    that base, and whenever they all agree on a base (and there is one of them)
    that base is published. *)
Theorem user_data_window_agrees ctx :
  package_of ctx = NggProgram ->
  let m := fill_shader_metadata ctx in
  let pairs := window_pairs ctx m in
  (md_user_data_window_base m <> 0 -> Forall (placed_at ctx (md_user_data_window_base m)) pairs) /\
  (forall base, 0 <= base -> existsb in_window pairs = true -> Forall (placed_at ctx base) pairs ->
     md_user_data_window_base m = base).
Proof.
  intros Hp. pose proof (window_ngg ctx Hp) as Hw. unfold window in Hw. cbv zeta in Hw |- *.
  generalize dependent (window_pairs ctx (fill_shader_metadata ctx)). intros pairs ->. split.
  - destruct (foldl _ _ _) as [[base|]|] eqn:E; [|done..]. intros _.
    by apply window_fold_sound in E as [? _].
  - intros base Hb Hany Hall.
    by rewrite (window_fold_complete ctx pairs None base Hb Hall (or_introl eq_refl)), Hany.
Qed.

(** An NGG vertex shader with its base vertex at dword 2 and start instance at
    dword 3 of a window that begins at register 8. *)
Definition example_args : radv_shader_args := zero_radv_shader_args
  <| ra_ac := zero_ac_shader_args
       <| aa_offsets := [0; 10; 11] |>
       <| aa_base_vertex := mk_ac_arg 1 true |> <| aa_start_instance := mk_ac_arg 2 true |> |>
  <| ra_descriptors := mk_ac_arg 0 true :: replicate 31 zero_ac_arg |>
  <| ra_user_sgprs_locs := zero_radv_userdata_locations
       <| ul_shader_data := put AC_UD_VS_BASE_VERTEX_START_INSTANCE (mk_radv_userdata_info 2 2)
            (replicate (Z.to_nat AC_UD_MAX_UD) zero_radv_userdata_info) |> |>.
Definition example_vertex : BuildContext :=
  zero_BuildContext <| ctx_ngg := true |> <| ctx_rargs := example_args |>.

Lemma user_data_window_witness :
  md_user_data_window_base (fill_shader_metadata example_vertex) = 8.
Proof.
  refine (proj2 (user_data_window_agrees example_vertex eq_refl) 8 _ _ _); [lia| |].
  - vm_compute. reflexivity.
  - repeat constructor; unfold placed_at; vm_compute; done.
Defined.

(** ** Descriptor sets and bindings *)

Definition set_view (m : PsbcShaderMetadata) :=
  ((md_descriptor_set_valid m, md_descriptor_set_user_data_dword m),
   (md_descriptor_set0_valid m, md_descriptor_set0_user_data_dword m)).

Lemma set_view_tail ctx m :
  set_view (md_bindings ctx (md_streamout ctx (md_draw_arguments ctx m))) = set_view m.
Proof.
  transitivity (set_view (md_streamout ctx (md_draw_arguments ctx m))).
  { generalize (md_streamout ctx (md_draw_arguments ctx m)) as m'. intros m'.
    unfold md_bindings. by destruct (truthy _ && _). }
  transitivity (set_view (md_draw_arguments ctx m)); [|unfold md_draw_arguments; frame].
  generalize (md_draw_arguments ctx m) as m'. intros m'.
  unfold md_streamout. apply proj_when. cbv zeta.
  rewrite proj_loop; [by rewrite proj_when|]. intros. by rewrite proj_when.
Qed.

Lemma set_view_resources ctx m : set_view (md_resources ctx m) = set_view m.
Proof. unfold md_resources. frame. Qed.

Lemma set_view_common ctx :
  let dword set := if set_is_bound ctx set
                   then descriptor_set_sgpr (ra_user_sgprs_locs (ctx_rargs ctx)) set else 0 in
  set_view (md_common ctx) =
    ((map (set_is_bound ctx) [0; 1; 2; 3], map dword [0; 1; 2; 3]), (set_is_bound ctx 0, dword 0)).
Proof.
  cbv zeta. unfold md_common. rewrite set_view_tail.
  assert (set_view (md_resources ctx (md_identity ctx)) = set_view zero_PsbcShaderMetadata) as H
    by (rewrite set_view_resources; reflexivity).
  revert H. generalize (md_resources ctx (md_identity ctx)) as m. intros m [= H1 H2 H3 H4].
  unfold md_descriptor_sets. set (m' := loop _ _ m).
  pose (mark := fun set (v : list bool * list Z) => if set_is_bound ctx set
    then (put set true v.1, put set (descriptor_set_sgpr (ra_user_sgprs_locs (ctx_rargs ctx)) set) v.2)
    else v).
  assert ((md_descriptor_set_valid m', md_descriptor_set_user_data_dword m') =
          loop PSBC_MAX_DESCRIPTOR_SETS mark (replicate 4 false, replicate 4 0)) as Hm.
  { transitivity (loop PSBC_MAX_DESCRIPTOR_SETS mark
      (md_descriptor_set_valid m, md_descriptor_set_user_data_dword m)); [|by rewrite H1, H2].
    apply (loop_sim (fun m => (md_descriptor_set_valid m,
      md_descriptor_set_user_data_dword m))). intros i x. unfold when, mark.
    by destruct (set_is_bound ctx i). }
  clearbody m'. clear H1 H2 H3 H4. unfold set_view. cbv zeta.
  change (((md_descriptor_set_valid m', md_descriptor_set_user_data_dword m'),
    (at_ false (md_descriptor_set_valid m') 0, at_ 0 (md_descriptor_set_user_data_dword m') 0)) =
    (map (set_is_bound ctx) [0; 1; 2; 3],
     map (fun set => if set_is_bound ctx set
       then descriptor_set_sgpr (ra_user_sgprs_locs (ctx_rargs ctx)) set else 0) [0; 1; 2; 3],
    (set_is_bound ctx 0, if set_is_bound ctx 0
       then descriptor_set_sgpr (ra_user_sgprs_locs (ctx_rargs ctx)) 0 else 0))).
  assert (loop PSBC_MAX_DESCRIPTOR_SETS mark (replicate 4 false, replicate 4 0) =
    (map (set_is_bound ctx) [0; 1; 2; 3],
     map (fun set => if set_is_bound ctx set
       then descriptor_set_sgpr (ra_user_sgprs_locs (ctx_rargs ctx)) set else 0) [0; 1; 2; 3])) as Hl.
  { change (loop PSBC_MAX_DESCRIPTOR_SETS mark) with
      (fun v => mark 3 (mark 2 (mark 1 (mark 0 v)))). unfold mark. cbn [map].
    by destruct (set_is_bound ctx 0), (set_is_bound ctx 1), (set_is_bound ctx 2),
      (set_is_bound ctx 3). }
  rewrite Hl in Hm. by injection Hm as -> ->.
Qed.

(** A descriptor set is reported bound exactly when the shader declares its
    argument and an SGPR was assigned to it, with that SGPR as its dword; set 0 is
    repeated in its own pair of fields. *)
Theorem descriptor_sets_reported ctx :
  let m := fill_shader_metadata ctx in
  let dword set := if set_is_bound ctx set
                   then descriptor_set_sgpr (ra_user_sgprs_locs (ctx_rargs ctx)) set else 0 in
  md_descriptor_set_valid m = map (set_is_bound ctx) [0; 1; 2; 3] /\
  md_descriptor_set_user_data_dword m = map dword [0; 1; 2; 3] /\
  md_descriptor_set0_valid m = set_is_bound ctx 0 /\
  md_descriptor_set0_user_data_dword m = dword 0.
Proof.
  cbv zeta. pose proof (user_data_fill ctx) as H.
  pose proof (set_view_common ctx) as Hs.
  assert (set_view (fill_shader_metadata ctx) = set_view (md_common ctx)) as Hf
    by exact (f_equal (fun u => (u.1.1.2, u.1.2)) H).
  rewrite Hs in Hf. unfold set_view in Hf. by injection Hf as -> -> -> ->.
Qed.

Lemma mark_declared_all d masks :
  Usage.declared_wf d -> mark_declared d masks = Usage.add_declared 15 d masks.
Proof.
  intros [Hs _]. unfold mark_declared, Usage.add_declared. rewrite !Z.geb_leb.
  destruct (Z.leb_spec PSBC_MAX_DESCRIPTOR_SETS (db_set d)); [done|].
  rewrite land_bit_truthy by done. change 15 with (Z.ones 4).
  rewrite Z.testbit_ones_nonneg by lia. unfold PSBC_MAX_DESCRIPTOR_SETS in *.
  destruct (Z.ltb_spec (db_set d) 4); [|lia]. by rewrite orb_false_r.
Qed.

Lemma mark_all_declared l masks :
  Forall Usage.declared_wf l ->
  foldl (fun masks d => mark_declared d masks) masks l =
  foldl (fun m d => Usage.add_declared 15 d m) masks l.
Proof.
  intros H. revert masks. induction H as [|d l Hd _ IH]; intros masks; [done|]. simpl.
  by rewrite mark_declared_all, IH.
Qed.

(** The bindings the caller declared. *)
Definition declared_bindings (opts : PsbcCompileOptions) : list PsbcDescriptorBinding :=
  take (Z.to_nat (co_descriptor_binding_count opts)) (co_descriptor_bindings opts).

Lemma masks_declared ctx :
  co_static_descriptor_use (ctx_options ctx) = false ->
  co_descriptor_binding_count (ctx_options ctx) <= Z.of_nat (length (co_descriptor_bindings (ctx_options ctx))) ->
  Forall Usage.declared_wf (declared_bindings (ctx_options ctx)) ->
  md_descriptor_used_binding_mask (fill_shader_metadata ctx) =
    foldl (fun m d => Usage.add_declared 15 d m) (replicate 4 0) (declared_bindings (ctx_options ctx)).
Proof.
  intros Hopt Hn Hwf.
  pose proof (f_equal (fun u => u.2.1.1) (user_data_fill ctx)) as H. simpl in H. rewrite H. clear H.
  pose proof (f_equal snd (common_arguments ctx)) as Ha.
  change (md_common ctx) with (md_bindings ctx (md_arguments ctx)).
  revert Ha. generalize (md_arguments ctx) as m. intros m [= Hm Hb].
  unfold md_bindings. rewrite Hopt, andb_false_r. unfold declared_bindings in *. simpl.
  set (count := Z.to_nat (co_descriptor_binding_count (ctx_options ctx))) in *.
  rewrite take_app_le, take_take, Nat.min_id by (rewrite length_take; lia). rewrite Hm.
  by apply mark_all_declared.
Qed.

(** Without the static-use option a binding is reported as used exactly when
    the caller declared it. *)
Theorem declared_bindings_reported ctx s b :
  let opts := ctx_options ctx in
  co_static_descriptor_use opts = false ->
  co_descriptor_binding_count opts <= Z.of_nat (length (co_descriptor_bindings opts)) ->
  Forall Usage.declared_wf (declared_bindings opts) ->
  0 <= s < PSBC_MAX_DESCRIPTOR_SETS -> 0 <= b < 64 ->
  Usage.reports (md_descriptor_used_binding_mask (fill_shader_metadata ctx)) s b = true <->
  Usage.declares (declared_bindings opts) s b.
Proof.
  intros opts Hopt Hn Hwf Hs Hb. rewrite masks_declared by done.
  rewrite Usage.add_declared_spec by done. unfold Usage.reports.
  change [0; 0; 0; 0] with (replicate 4 0). rewrite at_replicate.
  change 15 with (Z.ones 4). rewrite Z.testbit_ones_nonneg by (unfold PSBC_MAX_DESCRIPTOR_SETS in *; lia).
  assert ((s <? 4) = true) as -> by (unfold PSBC_MAX_DESCRIPTOR_SETS in *; lia).
  rewrite Z.testbit_0_l. split; [by intros [?|[? _]]|by right].
Qed.

Definition example_declaring : BuildContext :=
  zero_BuildContext <| ctx_options := zero_PsbcCompileOptions
    <| co_descriptor_binding_count := 2 |>
    <| co_descriptor_bindings := Usage.example_declared |> |>.

Lemma declared_bindings_witness :
  Usage.reports (md_descriptor_used_binding_mask (fill_shader_metadata example_declaring)) 1 6 = true.
Proof.
  apply (declared_bindings_reported example_declaring 1 6); [done|done| |done|done|].
  - repeat (apply Forall_cons_2; [done|]). apply Forall_nil_2.
  - eexists. split; [right; left|]. done.
Defined.

(** ** The lists stay within their tables *)

(** The counts of the tables are within them. *)
Definition tables_ok (m : PsbcShaderMetadata) : Prop :=
  0 <= md_context_register_count m <= Z.of_nat (length (md_context_registers m)) /\
  0 <= md_shader_register_count m <= Z.of_nat (length (md_shader_registers m)) /\
  0 <= md_input_semantic_count m <= Z.of_nat (length (md_input_semantics m)) /\
  0 <= md_output_semantic_count m <= Z.of_nat (length (md_output_semantics m)) /\
  0 <= md_descriptor_binding_count m <= Z.of_nat (length (md_descriptor_bindings m)).

Definition semantics_listed (m : PsbcShaderMetadata) := (inputs m, outputs m).
Definition listed_ok (l : (Z * list Z) * (Z * list Z)) : Prop :=
  0 <= l.1.1 <= Z.of_nat (length l.1.2) /\ 0 <= l.2.1 <= Z.of_nat (length l.2.2).

Lemma listed_add_cx offset value m : semantics_listed (add_cx offset value m) = semantics_listed m.
Proof. unfold add_cx. by destruct (metadata_add_register _ _ _ _ _). Qed.
Lemma listed_add_sh offset value m : semantics_listed (add_sh offset value m) = semantics_listed m.
Proof. unfold add_sh. by destruct (metadata_add_register _ _ _ _ _). Qed.
Lemma listed_ge_pc_alloc ctx m : semantics_listed (publish_ge_pc_alloc ctx m) = semantics_listed m.
Proof. unfold publish_ge_pc_alloc. by apply proj_when. Qed.
Lemma listed_window ctx m : semantics_listed (md_window ctx (md_esgs_sgprs ctx m)) = semantics_listed m.
Proof.
  transitivity (semantics_listed (md_esgs_sgprs ctx m)).
  - unfold md_window. by destruct (foldl _ _ _) as [[]|].
  - unfold md_esgs_sgprs. by apply proj_when.
Qed.

(** Publishing the output list starts from an empty one. *)
Lemma listed_export ctx m :
  listed_ok (semantics_listed m) -> md_output_semantic_count m = 0 ->
  length (md_output_semantics m) = Z.to_nat PSBC_MAX_SEMANTICS ->
  listed_ok (semantics_listed (export_output_semantics ctx m)).
Proof.
  intros [Hi _] H0 Hlen.
  pose proof (fill_output_frame inputs (ctx_rinfo ctx) m (fun _ _ => eq_refl)) as Hf.
  pose proof (fill_output_frame (fun m => length (md_output_semantics m)) (ctx_rinfo ctx) m
    (fun w m => length_put _ _ _)) as Hl.
  pose proof (InputSemantics.fill_output_semantics_spec (ctx_rinfo ctx) m H0 Hlen) as Ho.
  unfold export_output_semantics. destruct (InputSemantics.fill_output_semantics _ m) as [ok m'].
  destruct Ho as [Ho _]. cbn [snd] in Hf, Hl. cbv beta in Hl.
  assert (listed_ok (semantics_listed m')) as Hm'.
  { unfold semantics_listed. rewrite Hf. split; [exact Hi|]. unfold outputs. cbn [fst snd].
    rewrite Hl, Hlen. unfold PSBC_MAX_SEMANTICS in *. lia. }
  by destruct ok.
Qed.

Lemma listed_ngg ctx :
  listed_ok (semantics_listed (export_output_semantics ctx (unresolve PSBC_UNRESOLVED_NGG_ESGS_RING_ITEMSIZE
      (md_common ctx <| md_hardware_stage := PSBC_HW_STAGE_NGG |>)))) ->
  listed_ok (semantics_listed (md_ngg ctx (md_common ctx))).
Proof.
  intros H. rewrite md_ngg_split, add_frames by (apply listed_add_cx || apply listed_add_sh).
  rewrite listed_window. unfold ngg_linked. rewrite (add_all_frame add_cx) by apply listed_add_cx.
  rewrite listed_ge_pc_alloc. unfold md_ngg_linkage. by destruct (ctx_es_info ctx).
Qed.

Lemma listed_fragment ctx m :
  (forall s, ctx_input_semantics ctx = Some s -> InputSemantics.semantics_wf s) ->
  length (md_input_semantics m) = Z.to_nat PSBC_MAX_SEMANTICS ->
  listed_ok (semantics_listed m) -> listed_ok (semantics_listed (md_fragment ctx m)).
Proof.
  intros Hs Hlen H. unfold md_fragment. rewrite add_frames by (apply listed_add_cx || apply listed_add_sh).
  unfold md_fragment_linkage. destruct (ctx_input_semantics ctx) as [s|]; [|exact H].
  destruct (InputSemantics.is_valid s); [|exact H]. destruct (Hs s eq_refl) as [Hw Hc].
  split; [|apply H]. unfold semantics_listed, inputs. cbn. rewrite length_app, length_take, length_drop.
  unfold PSBC_MAX_SEMANTICS in *. lia.
Qed.

Lemma listed_fill ctx :
  (forall s, ctx_input_semantics ctx = Some s -> InputSemantics.semantics_wf s) ->
  listed_ok (semantics_listed (fill_shader_metadata ctx)).
Proof.
  intros Hs. unfold fill_shader_metadata. cbv zeta. pose proof (listed_ngg ctx) as Hngg. revert Hngg.
  destruct (common_parts ctx) as (_ & Ho & _). pose proof (common_inputs ctx) as Hi.
  revert Ho Hi. generalize (md_common ctx) as m. intros m [= Ho1 Ho2] [= Hi1 Hi2] Hngg.
  assert (listed_ok (semantics_listed m)) as H.
  { unfold semantics_listed, inputs, outputs. rewrite Ho1, Ho2, Hi1, Hi2. vm_compute. intuition discriminate. }
  assert (forall m', semantics_listed m' = semantics_listed m ->
    listed_ok (semantics_listed (export_output_semantics ctx m'))) as Hexport.
  { intros m' E. injection E as E1 E2 E3 E4. apply listed_export; [|congruence|by rewrite E4, Ho2].
    unfold semantics_listed, inputs, outputs. rewrite E1, E2, E3, E4. exact H. }
  destruct (is_stage ctx MESA_SHADER_FRAGMENT); [by apply listed_fragment; [|rewrite Hi2|]|].
  destruct ((is_stage ctx MESA_SHADER_VERTEX || _ || _) && _); [by apply Hngg, Hexport|].
  destruct (is_stage ctx MESA_SHADER_GEOMETRY); [exact H|].
  destruct (is_stage ctx MESA_SHADER_VERTEX).
  { unfold md_vertex. rewrite add_frames by (apply listed_add_cx || apply listed_add_sh).
    by rewrite listed_ge_pc_alloc. }
  destruct (is_stage ctx MESA_SHADER_TESS_CTRL).
  { enough (semantics_listed (md_tess_ctrl ctx m) = semantics_listed m) as -> by exact H.
    unfold md_tess_ctrl. cbv zeta.
    transitivity (semantics_listed (md_ring_window ctx m)); [|unfold md_ring_window; by apply proj_when].
    set (m1 := add_all add_sh _ _).
    assert (semantics_listed m1 = semantics_listed (md_ring_window ctx m)) as <-
      by (apply add_frames; [apply listed_add_cx|apply listed_add_sh]).
    clearbody m1. destruct (negb _); by apply (proj_when semantics_listed). }
  destruct (is_stage ctx MESA_SHADER_TESS_EVAL && _ && _); [|by destruct (is_stage ctx MESA_SHADER_TESS_EVAL)].
  unfold md_legacy_domain. rewrite add_frames by (apply listed_add_cx || apply listed_add_sh).
  rewrite listed_ge_pc_alloc. by apply Hexport.
Qed.

(** The binding table is the caller's. *)
Lemma bindings_fill ctx :
  let opts := ctx_options ctx in
  md_descriptor_binding_count (fill_shader_metadata ctx) = co_descriptor_binding_count opts /\
  md_descriptor_bindings (fill_shader_metadata ctx) =
    take (Z.to_nat (co_descriptor_binding_count opts)) (co_descriptor_bindings opts) ++
    drop (Z.to_nat (co_descriptor_binding_count opts)) (md_descriptor_bindings zero_PsbcShaderMetadata).
Proof.
  cbv zeta. pose proof (user_data_fill ctx) as H. injection H as _ _ _ _ _ _ _ _ _ _ _ _ _ -> ->.
  change (md_common ctx) with (md_bindings ctx (md_arguments ctx)).
  pose proof (f_equal snd (common_arguments ctx)) as Ha. injection Ha as _ Ha.
  unfold md_bindings. cbv zeta. destruct (truthy _ && _); cbn; by rewrite Ha.
Qed.

Lemma fill_tables ctx :
  (forall s, ctx_input_semantics ctx = Some s -> InputSemantics.semantics_wf s) ->
  0 <= co_descriptor_binding_count (ctx_options ctx) <= Z.of_nat (length (co_descriptor_bindings (ctx_options ctx))) ->
  tables_ok (fill_shader_metadata ctx).
Proof.
  intros Hs Hb. destruct (fill_reports ctx) as (([Hcl Hc] & _) & ([Hsl Hsc] & _) & _).
  destruct (listed_fill ctx Hs) as [Hi Ho]. destruct (bindings_fill ctx) as [Hn Ht].
  unfold tables_ok. split_and!; try lia; try apply Hi; try apply Ho.
  rewrite Hn, Ht, length_app, length_take. lia.
Qed.


(** A pixel program with one described input and two declared bindings. *)
Definition example_listing : BuildContext := example_declaring
  <| ctx_stage := MESA_SHADER_FRAGMENT |>
  <| ctx_input_semantics := Some (InputSemantics.mk_PsbcInputSemantics true 1 (15 :: replicate 31 0)) |>.


End Metadata.
