(* ===== verification/Binary.v ===== *)
(** * The shader binary (buildshaderbinary of psbc_compile.c)

    The file a compilation produces: a PSSL header, a GNM file header, the stage
    header with its tables, the machine code, the binary-info record with the
    checksum, and the parameter record.

    The structures themselves are declared by the GNM headers, which are not part
    of the repository: the records below have the fields the code initialises, and
    [GnmFormat] is the interface of the headers - sizes, encodings, and the layout
    of the binary-info record that tests/verify_sb.py documents. *)

From S2P Require Import Prelude Types Regs Mesa Nir Crc32 ShaderUtil InputSemantics Metadata.

Module Binary.
Import Metadata.

(** ** Enumerations of the GNM headers *)

Inductive PsslShaderType : Type := PSSL_SHADER_VS | PSSL_SHADER_FS | PSSL_SHADER_CS.
Inductive PsslCodeType : Type := PSSL_CODE_ISA.
Inductive PsslCompilerType : Type := PSSL_COMPILER_UNSPECIFIED.
Inductive GnmShaderType : Type :=
| GNM_SHADER_VERTEX | GNM_SHADER_PIXEL | GNM_SHADER_GEOMETRY | GNM_SHADER_COMPUTE | GNM_SHADER_HULL.
Inductive GnmShaderBinaryType : Type :=
| GNM_SHB_PS | GNM_SHB_VS_VS | GNM_SHB_VS_ES | GNM_SHB_VS_LS | GNM_SHB_CS | GNM_SHB_GS
| GNM_SHB_HS | GNM_SHB_DS_VS.
Inductive GnmTargetGpuMode : Type := GNM_TARGETGPUMODE_BASE | GNM_TARGETGPUMODE_NEO.
Inductive GnmShaderInputUsage : Type :=
| GNM_SHINPUTUSAGE_SUBPTR_FETCHSHADER
| GNM_SHINPUTUSAGE_PTR_VERTEXBUFFERTABLE
| GNM_SHINPUTUSAGE_PTR_INDIRECTRESOURCETABLE.

(** ** Structures *)

(** The outer header. *)
Record PsslBinaryHeader : Type := mk_PsslBinaryHeader {
  ph_vermajor : Z;
  ph_verminor : Z;
  ph_shadertype : PsslShaderType;
  ph_codetype : PsslCodeType;
  ph_compilertype : PsslCompilerType;
  ph_codesize : Z
}.

#[export] Instance eta_PsslBinaryHeader : Eta PsslBinaryHeader := fun r =>
  mk_PsslBinaryHeader r.(ph_vermajor) r.(ph_verminor) r.(ph_shadertype) r.(ph_codetype)
    r.(ph_compilertype) r.(ph_codesize).

(** The GNM file header; the magic number is the format's. *)
Record GnmShaderFileHeader : Type := mk_GnmShaderFileHeader {
  fh_vermajor : Z;
  fh_verminor : Z;
  fh_type : GnmShaderType;
  fh_headersizedwords : Z;
  fh_targetgpumodes : GnmTargetGpuMode
}.

#[export] Instance eta_GnmShaderFileHeader : Eta GnmShaderFileHeader := fun r =>
  mk_GnmShaderFileHeader r.(fh_vermajor) r.(fh_verminor) r.(fh_type)
    r.(fh_headersizedwords) r.(fh_targetgpumodes).

(** First member of every stage header. *)
Record GnmShaderCommonData : Type := mk_GnmShaderCommonData {
  sc_shadersize : Z;
  sc_numinputusageslots : Z
}.

#[export] Instance eta_GnmShaderCommonData : Eta GnmShaderCommonData := fun r =>
  mk_GnmShaderCommonData r.(sc_shadersize) r.(sc_numinputusageslots).

Definition zero_GnmShaderCommonData : GnmShaderCommonData := {|
  sc_shadersize := 0;
  sc_numinputusageslots := 0
|}.

(** Hardware vertex shader. *)
Record GnmVsShader : Type := mk_GnmVsShader {
  vsh_common : GnmShaderCommonData;
  vsh_spishaderpgmlovs : Z;
  vsh_spishaderpgmhivs : Z;
  vsh_spishaderpgmrsrc1vs : Z;
  vsh_spishaderpgmrsrc2vs : Z;
  vsh_spivsoutconfig : Z;
  vsh_spishaderposformat : Z;
  vsh_paclvsoutcntl : Z;
  vsh_numinputsemantics : Z;
  vsh_numexportsemantics : Z
}.

#[export] Instance eta_GnmVsShader : Eta GnmVsShader := fun r =>
  mk_GnmVsShader r.(vsh_common) r.(vsh_spishaderpgmlovs) r.(vsh_spishaderpgmhivs)
    r.(vsh_spishaderpgmrsrc1vs) r.(vsh_spishaderpgmrsrc2vs) r.(vsh_spivsoutconfig)
    r.(vsh_spishaderposformat) r.(vsh_paclvsoutcntl) r.(vsh_numinputsemantics)
    r.(vsh_numexportsemantics).

(** Pixel shader. *)
Record GnmPsShader : Type := mk_GnmPsShader {
  psh_common : GnmShaderCommonData;
  psh_spishaderpgmlops : Z;
  psh_spishaderpgmhips : Z;
  psh_spishaderpgmrsrc1ps : Z;
  psh_spishaderpgmrsrc2ps : Z;
  psh_spishaderzformat : Z;
  psh_spishadercolformat : Z;
  psh_spipsinputena : Z;
  psh_spipsinputaddr : Z;
  psh_spipsincontrol : Z;
  psh_spibaryccntl : Z;
  psh_dbshadercontrol : Z;
  psh_cbshadermask : Z;
  psh_numinputsemantics : Z
}.

#[export] Instance eta_GnmPsShader : Eta GnmPsShader := fun r =>
  mk_GnmPsShader r.(psh_common) r.(psh_spishaderpgmlops) r.(psh_spishaderpgmhips)
    r.(psh_spishaderpgmrsrc1ps) r.(psh_spishaderpgmrsrc2ps) r.(psh_spishaderzformat)
    r.(psh_spishadercolformat) r.(psh_spipsinputena) r.(psh_spipsinputaddr)
    r.(psh_spipsincontrol) r.(psh_spibaryccntl) r.(psh_dbshadercontrol)
    r.(psh_cbshadermask) r.(psh_numinputsemantics).

(** Compute shader. *)
Record GnmCsShader : Type := mk_GnmCsShader {
  csh_common : GnmShaderCommonData;
  csh_computepgmlo : Z;
  csh_computepgmhi : Z;
  csh_computepgmrsrc1 : Z;
  csh_computepgmrsrc2 : Z;
  csh_computenumthreadx : Z;
  csh_computenumthready : Z;
  csh_computenumthreadz : Z
}.

#[export] Instance eta_GnmCsShader : Eta GnmCsShader := fun r =>
  mk_GnmCsShader r.(csh_common) r.(csh_computepgmlo) r.(csh_computepgmhi)
    r.(csh_computepgmrsrc1) r.(csh_computepgmrsrc2) r.(csh_computenumthreadx)
    r.(csh_computenumthready) r.(csh_computenumthreadz).

(** Geometry shader. *)
Record GnmGsShader : Type := mk_GnmGsShader {
  gsh_common : GnmShaderCommonData;
  gsh_spishaderpgmlogs : Z;
  gsh_spishaderpgmhigs : Z;
  gsh_spishaderpgmrsrc1gs : Z;
  gsh_spishaderpgmrsrc2gs : Z;
  gsh_vgtstrmoutconfig : Z;
  gsh_vgtgsoutprimtype : Z;
  gsh_vgtgsinstancecnt : Z;
  gsh_numinputsemantics : Z;
  gsh_numexportsemantics : Z
}.

#[export] Instance eta_GnmGsShader : Eta GnmGsShader := fun r =>
  mk_GnmGsShader r.(gsh_common) r.(gsh_spishaderpgmlogs) r.(gsh_spishaderpgmhigs)
    r.(gsh_spishaderpgmrsrc1gs) r.(gsh_spishaderpgmrsrc2gs) r.(gsh_vgtstrmoutconfig)
    r.(gsh_vgtgsoutprimtype) r.(gsh_vgtgsinstancecnt) r.(gsh_numinputsemantics)
    r.(gsh_numexportsemantics).

(** Hull shader. *)
Record GnmHsShader : Type := mk_GnmHsShader {
  hsh_common : GnmShaderCommonData;
  hsh_spishaderpgmlohs : Z;
  hsh_spishaderpgmhihs : Z;
  hsh_spishaderpgmrsrc1hs : Z;
  hsh_spishaderpgmrsrc2hs : Z;
  hsh_vgttfparam : Z;
  hsh_vgthosmaxtesslevel : Z;
  hsh_vgthosmintesslevel : Z;
  hsh_numinputsemantics : Z
}.

#[export] Instance eta_GnmHsShader : Eta GnmHsShader := fun r =>
  mk_GnmHsShader r.(hsh_common) r.(hsh_spishaderpgmlohs) r.(hsh_spishaderpgmhihs)
    r.(hsh_spishaderpgmrsrc1hs) r.(hsh_spishaderpgmrsrc2hs) r.(hsh_vgttfparam)
    r.(hsh_vgthosmaxtesslevel) r.(hsh_vgthosmintesslevel) r.(hsh_numinputsemantics).

(** Export shader. *)
Record GnmEsShader : Type := mk_GnmEsShader {
  esh_common : GnmShaderCommonData;
  esh_spishaderpgmloes : Z;
  esh_spishaderpgmhies : Z;
  esh_spishaderpgmrsrc1es : Z;
  esh_spishaderpgmrsrc2es : Z;
  esh_numinputsemantics : Z;
  esh_numexportsemantics : Z
}.

#[export] Instance eta_GnmEsShader : Eta GnmEsShader := fun r =>
  mk_GnmEsShader r.(esh_common) r.(esh_spishaderpgmloes) r.(esh_spishaderpgmhies)
    r.(esh_spishaderpgmrsrc1es) r.(esh_spishaderpgmrsrc2es) r.(esh_numinputsemantics)
    r.(esh_numexportsemantics).

(** Local shader. *)
Record GnmLsShader : Type := mk_GnmLsShader {
  lsh_common : GnmShaderCommonData;
  lsh_spishaderpgmlols : Z;
  lsh_spishaderpgmhils : Z;
  lsh_spishaderpgmrsrc1ls : Z;
  lsh_spishaderpgmrsrc2ls : Z;
  lsh_numinputsemantics : Z;
  lsh_numexportsemantics : Z
}.

#[export] Instance eta_GnmLsShader : Eta GnmLsShader := fun r =>
  mk_GnmLsShader r.(lsh_common) r.(lsh_spishaderpgmlols) r.(lsh_spishaderpgmhils)
    r.(lsh_spishaderpgmrsrc1ls) r.(lsh_spishaderpgmrsrc2ls) r.(lsh_numinputsemantics)
    r.(lsh_numexportsemantics).

(** The stage header of the file. *)
Inductive StageHeader : Type :=
| VsHeader (h : GnmVsShader) | PsHeader (h : GnmPsShader) | CsHeader (h : GnmCsShader)
| GsHeader (h : GnmGsShader) | HsHeader (h : GnmHsShader) | EsHeader (h : GnmEsShader)
| LsHeader (h : GnmLsShader).

Record GnmInputUsageSlot : Type := mk_GnmInputUsageSlot {
  us_usagetype : GnmShaderInputUsage;
  us_startregister : Z
}.
Record GnmVertexInputSemantic : Type := mk_GnmVertexInputSemantic {
  vi_semantic : Z;
  vi_vgpr : Z;
  vi_sizeinelements : Z
}.
Record GnmVertexExportSemantic : Type := mk_GnmVertexExportSemantic {
  ve_semantic : Z;
  ve_outindex : Z;
  ve_exportf16 : Z
}.
Record GnmPixelInputSemantic : Type := mk_GnmPixelInputSemantic {
  pi_semantic : Z;
  pi_isflatshaded : Z
}.

(** Trailer of the code; the signature is the format's. *)
Record GnmShaderBinaryInfo : Type := mk_GnmShaderBinaryInfo {
  bi_version : Z;
  bi_ispsslcg : bool;
  bi_type : GnmShaderBinaryType;
  bi_length : Z;
  bi_chunkusagebaseoffsetdwords : Z;
  bi_numinputusageslots : Z;
  bi_shaderhash0 : Z;
  bi_shaderhash1 : Z;
  bi_crc32 : Z
}.

#[export] Instance eta_GnmShaderBinaryInfo : Eta GnmShaderBinaryInfo := fun r =>
  mk_GnmShaderBinaryInfo r.(bi_version) r.(bi_ispsslcg) r.(bi_type) r.(bi_length)
    r.(bi_chunkusagebaseoffsetdwords) r.(bi_numinputusageslots) r.(bi_shaderhash0)
    r.(bi_shaderhash1) r.(bi_crc32).

(** ** Stage tables *)

Definition psbshtype (s : PsbcStage) : PsslShaderType :=
  match s with
  | PSBC_STAGE_FRAGMENT => PSSL_SHADER_FS
  | PSBC_STAGE_COMPUTE => PSSL_SHADER_CS
  | _ => PSSL_SHADER_VS
  end.

Definition gnmshtype (s : PsbcStage) : GnmShaderType :=
  match s with
  | PSBC_STAGE_FRAGMENT => GNM_SHADER_PIXEL
  | PSBC_STAGE_COMPUTE => GNM_SHADER_COMPUTE
  | PSBC_STAGE_GEOMETRY => GNM_SHADER_GEOMETRY
  | PSBC_STAGE_TESS_CTRL => GNM_SHADER_HULL
  | _ => GNM_SHADER_VERTEX
  end.

Definition shbintype (s : PsbcStage) : GnmShaderBinaryType :=
  match s with
  | PSBC_STAGE_VERTEX => GNM_SHB_VS_VS
  | PSBC_STAGE_TESS_EVAL => GNM_SHB_DS_VS
  | PSBC_STAGE_EXPORT => GNM_SHB_VS_ES
  | PSBC_STAGE_LOCAL => GNM_SHB_VS_LS
  | PSBC_STAGE_FRAGMENT => GNM_SHB_PS
  | PSBC_STAGE_COMPUTE => GNM_SHB_CS
  | PSBC_STAGE_GEOMETRY => GNM_SHB_GS
  | PSBC_STAGE_TESS_CTRL => GNM_SHB_HS
  | _ => GNM_SHB_VS_VS
  end.

(** ** Words and bytes *)

Definition le_bytes (n : nat) (x : Z) : list Z := map (fun i => u8 (x ≫ (8 * i))) (seqZ 0 (Z.of_nat n)).
Definition le32 : Z -> list Z := le_bytes 4.
Definition read_u32_le (data : list Z) (off : Z) : Z :=
  at_ 0 data off `lor` (at_ 0 data (off + 1) ≪ 8) `lor` (at_ 0 data (off + 2) ≪ 16) `lor`
  (at_ 0 data (off + 3) ≪ 24).
Definition slice (data : list Z) (off n : Z) : list Z :=
  take (Z.to_nat n) (drop (Z.to_nat off) data).

(** ** The interface of the GNM headers *)

Class GnmFormat := {
  sizeof_PsslBinaryHeader : Z;
  sizeof_GnmShaderFileHeader : Z;
  sizeof_PsslBinaryParamInfo : Z;
  sizeof_GnmShaderBinaryInfo : Z;
  sizeof_GnmVsShader : Z; sizeof_GnmPsShader : Z; sizeof_GnmCsShader : Z; sizeof_GnmGsShader : Z;
  sizeof_GnmHsShader : Z; sizeof_GnmEsShader : Z; sizeof_GnmLsShader : Z;
  sizeof_GnmInputUsageSlot : Z;
  sizeof_GnmVertexInputSemantic : Z;
  sizeof_GnmVertexExportSemantic : Z;
  sizeof_GnmPixelInputSemantic : Z;
  info_signature : list Z;
  info_type_val : GnmShaderBinaryType -> Z;
  encode_pssl : PsslBinaryHeader -> list Z;
  encode_file : GnmShaderFileHeader -> list Z;
  encode_stage : StageHeader -> list Z;
  encode_slot : GnmInputUsageSlot -> list Z;
  encode_vertex_input : GnmVertexInputSemantic -> list Z;
  encode_vertex_export : GnmVertexExportSemantic -> list Z;
  encode_pixel_input : GnmPixelInputSemantic -> list Z;
  encode_info : GnmShaderBinaryInfo -> list Z
}.

(** Size of the stage header of each kind. *)
Definition sizeof_stage `{GnmFormat} (h : StageHeader) : Z :=
  match h with
  | VsHeader _ => sizeof_GnmVsShader
  | PsHeader _ => sizeof_GnmPsShader
  | CsHeader _ => sizeof_GnmCsShader
  | GsHeader _ => sizeof_GnmGsShader
  | HsHeader _ => sizeof_GnmHsShader
  | EsHeader _ => sizeof_GnmEsShader
  | LsHeader _ => sizeof_GnmLsShader
  end.

(** The bit field at offset 8 of the binary-info record. *)
Definition info_bits `{GnmFormat} (i : GnmShaderBinaryInfo) : Z :=
  b2z (bi_ispsslcg i) `lor` ((info_type_val (bi_type i) `land` 0xf) ≪ 2) `lor`
  ((bi_length i `land` 0xffffff) ≪ 8).

(** What the headers promise: an encoding has its structure's size, stage headers
    are made of dwords, and the binary-info record has the documented layout -
    signature[7] and version, the bit field, the two one-byte counts, two unused
    bytes, the hash and the checksum. *)
Class GnmFormatLaws `{GnmFormat} := {
  length_pssl : forall h, Z.of_nat (length (encode_pssl h)) = sizeof_PsslBinaryHeader;
  length_file : forall h, Z.of_nat (length (encode_file h)) = sizeof_GnmShaderFileHeader;
  length_stage : forall h, Z.of_nat (length (encode_stage h)) = sizeof_stage h;
  length_slot : forall x, Z.of_nat (length (encode_slot x)) = sizeof_GnmInputUsageSlot;
  length_vertex_input : forall x,
    Z.of_nat (length (encode_vertex_input x)) = sizeof_GnmVertexInputSemantic;
  length_vertex_export : forall x,
    Z.of_nat (length (encode_vertex_export x)) = sizeof_GnmVertexExportSemantic;
  length_pixel_input : forall x,
    Z.of_nat (length (encode_pixel_input x)) = sizeof_GnmPixelInputSemantic;
  param_size : 0 <= sizeof_PsslBinaryParamInfo;
  stage_dwords : forall h, sizeof_stage h `mod` 4 = 0;
  info_size : sizeof_GnmShaderBinaryInfo = 28;
  length_signature : length info_signature = 7%nat;
  info_layout : forall i, encode_info i =
    info_signature ++ [u8 (bi_version i)] ++ le32 (info_bits i) ++
    [u8 (bi_chunkusagebaseoffsetdwords i); u8 (bi_numinputusageslots i); 0; 0] ++
    le32 (bi_shaderhash0 i) ++ le32 (bi_shaderhash1 i) ++ le32 (bi_crc32 i)
}.

Section binary.
  Context `{GnmFormat}.

Definition headershsize (s : PsbcStage) : Z :=
  match s with
  | PSBC_STAGE_EXPORT => sizeof_GnmEsShader
  | PSBC_STAGE_LOCAL => sizeof_GnmLsShader
  | PSBC_STAGE_FRAGMENT => sizeof_GnmPsShader
  | PSBC_STAGE_COMPUTE => sizeof_GnmCsShader
  | PSBC_STAGE_GEOMETRY => sizeof_GnmGsShader
  | PSBC_STAGE_TESS_CTRL => sizeof_GnmHsShader
  | _ => sizeof_GnmVsShader
  end.

(** The checksum covers the code, padding to eight bytes, and the record up to
    its own checksum field. *)
Definition hashsb (code : list Z) (sb : GnmShaderBinaryInfo) : option Z :=
  let numpadbytes := if truthy (bi_length sb `land` 7) then 8 - bi_length sb `land` 7 else 0 in
  hash ← Crc32.crc32_sb code Crc32.crc32_sb_begin;
  hash ← Crc32.crc32_sb (replicate (Z.to_nat numpadbytes) 0) hash;
  hash ← Crc32.crc32_sb (take (Z.to_nat (sizeof_GnmShaderBinaryInfo - 4)) (encode_info sb)) hash;
  Some (Crc32.crc32_sb_end hash).

(** ** Sizes *)

Definition has_prolog_jump (ctx : BuildContext) : bool :=
  stage_eqb (si_stage (sh_info (ctx_nir ctx))) MESA_SHADER_VERTEX &&
  vs_has_prolog (ri_vs (ctx_rinfo ctx)).

Definition code_size (ctx : BuildContext) (code : list Z) : Z :=
  let codesize := u32 (Z.of_nat (length code) * 4) in
  if has_prolog_jump ctx then u32 (codesize + 4) else codesize.

(** The machine code, with the jump to the fetch shader in front:
    s_swappc_b64 s[0:1], s[0:1]. *)
Definition newcode (ctx : BuildContext) (code : list Z) : list Z :=
  concat (map le32 (if has_prolog_jump ctx then 0xbe802100 :: code else code)).

Definition is_vs_family (ctx : BuildContext) : bool :=
  is_stage ctx MESA_SHADER_VERTEX || bool_decide (ctx_psbc_stage ctx = PSBC_STAGE_EXPORT) ||
  bool_decide (ctx_psbc_stage ctx = PSBC_STAGE_LOCAL).

(** The slots written after the stage header. *)
Definition slot_if (c : bool) (usage : GnmShaderInputUsage) (ctx : BuildContext) (a : ac_arg) :
    list GnmInputUsageSlot :=
  if c && arg_used a then [mk_GnmInputUsageSlot usage (offset_of ctx a)] else [].

Definition input_slots (ctx : BuildContext) : list GnmInputUsageSlot :=
  slot_if (is_vs_family ctx) GNM_SHINPUTUSAGE_SUBPTR_FETCHSHADER ctx
    (ra_prolog_inputs (ctx_rargs ctx)) ++
  slot_if (is_vs_family ctx) GNM_SHINPUTUSAGE_PTR_VERTEXBUFFERTABLE ctx (aa_vertex_buffers (ac ctx)) ++
  slot_if true GNM_SHINPUTUSAGE_PTR_INDIRECTRESOURCETABLE ctx
    (at_ zero_ac_arg (ra_descriptors (ctx_rargs ctx)) 0).

Definition numinputslots (ctx : BuildContext) : Z :=
  let n := 0 in
  let n := if is_vs_family ctx && arg_used (ra_prolog_inputs (ctx_rargs ctx)) then n + 1 else n in
  let n := if is_vs_family ctx && arg_used (aa_vertex_buffers (ac ctx)) then n + 1 else n in
  if arg_used (at_ zero_ac_arg (ra_descriptors (ctx_rargs ctx)) 0) then n + 1 else n.

Definition VARYING_BIT_POS : Z := 1 ≪ VARYING_SLOT_POS.

Definition outputswritten (ctx : BuildContext) : Z :=
  util_bitcount64 (si_outputs_written (sh_info (ctx_nir ctx)) `land` not64 VARYING_BIT_POS).
Definition inputsread (ctx : BuildContext) : Z :=
  util_bitcount64 (si_inputs_read (sh_info (ctx_nir ctx))).

Definition semantic_count (ctx : BuildContext) : Z :=
  match ctx_input_semantics ctx with Some s => InputSemantics.is_count s | None => 0 end.

Definition tables_size (ctx : BuildContext) : Z :=
  match ctx_stage ctx with
  | MESA_SHADER_VERTEX | MESA_SHADER_TESS_EVAL | MESA_SHADER_GEOMETRY =>
      inputsread ctx * sizeof_GnmVertexInputSemantic +
      outputswritten ctx * sizeof_GnmVertexExportSemantic
  | MESA_SHADER_FRAGMENT => semantic_count ctx * sizeof_GnmPixelInputSemantic
  | MESA_SHADER_TESS_CTRL => inputsread ctx * sizeof_GnmVertexInputSemantic
  | _ => 0
  end.

Definition header_size (ctx : BuildContext) : Z :=
  u32 (headershsize (ctx_psbc_stage ctx) + numinputslots ctx * sizeof_GnmInputUsageSlot +
       tables_size ctx).

(** Bytes that bring the code to a dword boundary. *)
Definition alignbytes (ctx : BuildContext) : Z :=
  u32 ((u32 (header_size ctx + 3) `land` not32 3) - header_size ctx).
Definition shspecificsize (ctx : BuildContext) : Z := u32 (header_size ctx + alignbytes ctx).

Definition total_size (ctx : BuildContext) (code : list Z) : Z :=
  sizeof_PsslBinaryHeader + sizeof_GnmShaderFileHeader + shspecificsize ctx +
  code_size ctx code + sizeof_GnmShaderBinaryInfo + sizeof_PsslBinaryParamInfo.

(** ** Headers *)

Definition pssl_header (ctx : BuildContext) (code : list Z) : PsslBinaryHeader := {|
  ph_vermajor := 0;
  ph_verminor := 4;
  ph_shadertype := psbshtype (ctx_psbc_stage ctx);
  ph_codetype := PSSL_CODE_ISA;
  ph_compilertype := PSSL_COMPILER_UNSPECIFIED;
  ph_codesize := sizeof_GnmShaderFileHeader + shspecificsize ctx + code_size ctx code +
                 sizeof_GnmShaderBinaryInfo
|}.

Definition file_header (ctx : BuildContext) : GnmShaderFileHeader := {|
  fh_vermajor := 7;
  fh_verminor := 2;
  fh_type := gnmshtype (ctx_psbc_stage ctx);
  fh_headersizedwords := shspecificsize ctx / 4;
  fh_targetgpumodes :=
    if gfx_ge (ctx_gfx_level ctx) GFX10_3 then GNM_TARGETGPUMODE_NEO
    else if ctx_neo ctx then GNM_TARGETGPUMODE_NEO else GNM_TARGETGPUMODE_BASE
|}.

Definition common_data (ctx : BuildContext) (code : list Z) : GnmShaderCommonData :=
  mk_GnmShaderCommonData (code_size ctx code + sizeof_GnmShaderBinaryInfo) (numinputslots ctx).

Definition vs_header (ctx : BuildContext) (code : list Z) : GnmVsShader :=
  let o := ri_outinfo (ctx_rinfo ctx) in
  let '(num_pos_exports, clip_dist_mask, cull_dist_mask) :=
    ShaderUtil.get_num_pos_exports (ctx_rinfo ctx) in
  let total_mask := clip_dist_mask `lor` cull_dist_mask in
  let misc_vec_ena := oi_writes_pointsize o || oi_writes_layer o ||
    oi_writes_viewport_index o || oi_writes_primitive_shading_rate o in
  let format (enabled : bool) :=
    if enabled then V_02870C_SPI_SHADER_4COMP else V_02870C_SPI_SHADER_NONE in {|
  vsh_common := common_data ctx code;
  vsh_spishaderpgmlovs := shspecificsize ctx;
  vsh_spishaderpgmhivs := 0xffffffff;
  vsh_spishaderpgmrsrc1vs := cfg_rsrc1 (ctx_config ctx);
  vsh_spishaderpgmrsrc2vs := cfg_rsrc2 (ctx_config ctx);
  vsh_spivsoutconfig := S_0286C4_VS_EXPORT_COUNT (nparams ctx - 1);
  vsh_spishaderposformat :=
    S_02870C_POS0_EXPORT_FORMAT V_02870C_SPI_SHADER_4COMP `lor`
    S_02870C_POS1_EXPORT_FORMAT (format (num_pos_exports >? 1)) `lor`
    S_02870C_POS2_EXPORT_FORMAT (format (num_pos_exports >? 2)) `lor`
    S_02870C_POS3_EXPORT_FORMAT (format (num_pos_exports >? 3));
  vsh_paclvsoutcntl :=
    S_02881C_USE_VTX_POINT_SIZE (b2z (oi_writes_pointsize o)) `lor`
    S_02881C_USE_VTX_RENDER_TARGET_INDX (b2z (oi_writes_layer o)) `lor`
    S_02881C_USE_VTX_VIEWPORT_INDX (b2z (oi_writes_viewport_index o)) `lor`
    S_02881C_USE_VTX_VRS_RATE (b2z (oi_writes_primitive_shading_rate o)) `lor`
    S_02881C_VS_OUT_MISC_VEC_ENA (b2z misc_vec_ena) `lor`
    S_02881C_VS_OUT_MISC_SIDE_BUS_ENA
      (b2z (misc_vec_ena || (gfx_ge (ctx_gfx_level ctx) GFX10_3 && (num_pos_exports >? 1)))) `lor`
    S_02881C_VS_OUT_CCDIST0_VEC_ENA (b2z (truthy (total_mask `land` 0x0f))) `lor`
    S_02881C_VS_OUT_CCDIST1_VEC_ENA (b2z (truthy (total_mask `land` 0xf0))) `lor`
    u32 (total_mask ≪ 8) `lor` clip_dist_mask;
  vsh_numinputsemantics := semantic_count ctx;
  vsh_numexportsemantics := outputswritten ctx
|}.

Definition ps_header (ctx : BuildContext) (code : list Z) : GnmPsShader :=
  let ps := ri_ps (ctx_rinfo ctx) in
  let param_gen := gfx_ge (ctx_gfx_level ctx) GFX11 && negb (truthy (ps_num_inputs ps)) &&
                   truthy (cfg_lds_size (ctx_config ctx)) in {|
  psh_common := common_data ctx code;
  psh_spishaderpgmlops := shspecificsize ctx;
  psh_spishaderpgmhips := 0xffffffff;
  psh_spishaderpgmrsrc1ps := cfg_rsrc1 (ctx_config ctx);
  psh_spishaderpgmrsrc2ps := cfg_rsrc2 (ctx_config ctx);
  psh_spishaderzformat := ShaderUtil.ac_get_spi_shader_z_format (ps_writes_z ps)
    (ps_writes_stencil ps) (ps_writes_sample_mask ps) (ps_writes_mrt0_alpha ps);
  psh_spishadercolformat := ShaderUtil.compact_spi_shader_col_format (ps_spi_shader_col_format ps);
  psh_spipsinputena := cfg_spi_ps_input_ena (ctx_config ctx);
  psh_spipsinputaddr := cfg_spi_ps_input_addr (ctx_config ctx);
  psh_spipsincontrol :=
    S_0286D8_NUM_INTERP (ps_num_inputs ps) `lor`
    S_0286D8_PS_W32_EN (b2z (ri_wave_size (ctx_rinfo ctx) =? 32)) `lor`
    S_0286D8_PARAM_GEN (b2z param_gen);
  psh_spibaryccntl := S_0286E0_FRONT_FACE_ALL_BITS 0;
  psh_dbshadercontrol := ShaderUtil.compute_db_shader_control (ctx_rinfo ctx);
  psh_cbshadermask := ShaderUtil.ac_get_cb_shader_mask (ps_spi_shader_col_format ps);
  psh_numinputsemantics := inputsread ctx
|}.

Definition cs_header (ctx : BuildContext) (code : list Z) : GnmCsShader :=
  let threads i :=
    let n := at_ 0 (si_workgroup_size (sh_info (ctx_nir ctx))) i in if truthy n then n else 1 in {|
  csh_common := common_data ctx code;
  csh_computepgmlo := shspecificsize ctx;
  csh_computepgmhi := 0;
  csh_computepgmrsrc1 := cfg_rsrc1 (ctx_config ctx);
  csh_computepgmrsrc2 := cfg_rsrc2 (ctx_config ctx);
  csh_computenumthreadx := threads 0;
  csh_computenumthready := threads 1;
  csh_computenumthreadz := threads 2
|}.

Definition gs_out_prim (ctx : BuildContext) : Z :=
  let p := si_gs_output_primitive (sh_info (ctx_nir ctx)) in
  if p =? MESA_PRIM_POINTS then V_028A6C_POINTLIST
  else if p =? MESA_PRIM_LINE_STRIP then V_028A6C_LINESTRIP
  else if p =? MESA_PRIM_TRIANGLE_STRIP then V_028A6C_TRISTRIP
  else V_028A6C_TRISTRIP.

Definition gs_header (ctx : BuildContext) (code : list Z) : GnmGsShader := {|
  gsh_common := common_data ctx code;
  gsh_spishaderpgmlogs := shspecificsize ctx;
  gsh_spishaderpgmhigs := 0xffffffff;
  gsh_spishaderpgmrsrc1gs := cfg_rsrc1 (ctx_config ctx);
  gsh_spishaderpgmrsrc2gs := cfg_rsrc2 (ctx_config ctx);
  gsh_vgtstrmoutconfig := 0;
  gsh_vgtgsoutprimtype := gs_out_prim ctx;
  gsh_vgtgsinstancecnt :=
    S_028B90_CNT (MIN2 (gs_invocations (ri_gs (ctx_rinfo ctx))) 127) `lor`
    S_028B90_ENABLE (b2z (gs_invocations (ri_gs (ctx_rinfo ctx)) >? 0));
  gsh_numinputsemantics := inputsread ctx;
  gsh_numexportsemantics := outputswritten ctx
|}.

Definition hs_header (ctx : BuildContext) (code : list Z) : GnmHsShader := {|
  hsh_common := common_data ctx code;
  hsh_spishaderpgmlohs := shspecificsize ctx;
  hsh_spishaderpgmhihs := 0xffffffff;
  hsh_spishaderpgmrsrc1hs := cfg_rsrc1 (ctx_config ctx);
  hsh_spishaderpgmrsrc2hs := cfg_rsrc2 (ctx_config ctx);
  hsh_vgttfparam := ShaderUtil.tess_tf_param (ctx_nir ctx);
  hsh_vgthosmaxtesslevel := 64;
  hsh_vgthosmintesslevel := 1;
  hsh_numinputsemantics := inputsread ctx
|}.

Definition es_header (ctx : BuildContext) (code : list Z) : GnmEsShader := {|
  esh_common := common_data ctx code;
  esh_spishaderpgmloes := shspecificsize ctx;
  esh_spishaderpgmhies := 0xffffffff;
  esh_spishaderpgmrsrc1es := cfg_rsrc1 (ctx_config ctx);
  esh_spishaderpgmrsrc2es := cfg_rsrc2 (ctx_config ctx);
  esh_numinputsemantics := inputsread ctx;
  esh_numexportsemantics := outputswritten ctx
|}.

Definition ls_header (ctx : BuildContext) (code : list Z) : GnmLsShader := {|
  lsh_common := common_data ctx code;
  lsh_spishaderpgmlols := shspecificsize ctx;
  lsh_spishaderpgmhils := 0xffffffff;
  lsh_spishaderpgmrsrc1ls := cfg_rsrc1 (ctx_config ctx);
  lsh_spishaderpgmrsrc2ls := cfg_rsrc2 (ctx_config ctx);
  lsh_numinputsemantics := inputsread ctx;
  lsh_numexportsemantics := outputswritten ctx
|}.

(** [None]: a stage without a header. *)
Definition stage_header (ctx : BuildContext) (code : list Z) : option StageHeader :=
  match ctx_psbc_stage ctx with
  | PSBC_STAGE_VERTEX | PSBC_STAGE_TESS_EVAL => Some (VsHeader (vs_header ctx code))
  | PSBC_STAGE_FRAGMENT => Some (PsHeader (ps_header ctx code))
  | PSBC_STAGE_COMPUTE => Some (CsHeader (cs_header ctx code))
  | PSBC_STAGE_GEOMETRY => Some (GsHeader (gs_header ctx code))
  | PSBC_STAGE_TESS_CTRL => Some (HsHeader (hs_header ctx code))
  | PSBC_STAGE_EXPORT => Some (EsHeader (es_header ctx code))
  | PSBC_STAGE_LOCAL => Some (LsHeader (ls_header ctx code))
  | _ => None
  end.

(** ** Semantic tables *)

Definition vertex_inputs (ctx : BuildContext) : list GnmVertexInputSemantic :=
  map (fun i =>
    let a := at_ zero_ac_arg (ra_vs_inputs (ctx_rargs ctx)) i in
    mk_GnmVertexInputSemantic i (offset_of ctx a) (arg_size (ac ctx) a)) (seqZ 0 (inputsread ctx)).

(** Geometry and hull tables only number their inputs. *)
Definition numbered_inputs (ctx : BuildContext) : list GnmVertexInputSemantic :=
  map (fun i => mk_GnmVertexInputSemantic i 0 0) (seqZ 0 (inputsread ctx)).

Definition vertex_exports (ctx : BuildContext) : list GnmVertexExportSemantic :=
  map (fun i => mk_GnmVertexExportSemantic (15 + i) i 0) (seqZ 0 (outputswritten ctx)).

Definition pixel_inputs (ctx : BuildContext) : list GnmPixelInputSemantic :=
  match ctx_input_semantics ctx with
  | Some s =>
      map (fun i => let word := at_ 0 (InputSemantics.is_words s) i in
                    mk_GnmPixelInputSemantic (word `land` 0xff) ((word ≫ 22) `land` 1))
        (seqZ 0 (InputSemantics.is_count s))
  | None => []
  end.

Definition encode_all {A} (encode : A -> list Z) (l : list A) : list Z := concat (map encode l).

Definition tables (ctx : BuildContext) : list Z :=
  match ctx_stage ctx with
  | MESA_SHADER_VERTEX | MESA_SHADER_TESS_EVAL =>
      encode_all encode_vertex_input (vertex_inputs ctx) ++
      encode_all encode_vertex_export (vertex_exports ctx)
  | MESA_SHADER_FRAGMENT => encode_all encode_pixel_input (pixel_inputs ctx)
  | MESA_SHADER_GEOMETRY =>
      encode_all encode_vertex_input (numbered_inputs ctx) ++
      encode_all encode_vertex_export (vertex_exports ctx)
  | MESA_SHADER_TESS_CTRL => encode_all encode_vertex_input (numbered_inputs ctx)
  | _ => []
  end.

(** ** Binary info *)

(** FNV-1a of the SPIR-V bytes. *)
Definition shader_hash (ctx : BuildContext) : Z :=
  match ctx_spirv_data ctx with
  | Some sp =>
      if ctx_spirv_size ctx >? 0 then
        loop (ctx_spirv_size ctx)
          (fun i h => u64 ((h `lxor` at_ 0 sp i) * 0x100000001b3)) 0xcbf29ce484222325
      else 0
  | None => 0
  end.

Definition binary_info (ctx : BuildContext) (code : list Z) (orbshdr_offset : Z) :
    GnmShaderBinaryInfo :=
  let inputslots_offset := sizeof_PsslBinaryHeader + sizeof_GnmShaderFileHeader +
                           headershsize (ctx_psbc_stage ctx) in {|
  bi_version := 7;
  bi_ispsslcg := true;
  bi_type := shbintype (ctx_psbc_stage ctx);
  bi_length := code_size ctx code;
  bi_chunkusagebaseoffsetdwords :=
    if numinputslots ctx >? 0 then u32 ((orbshdr_offset - inputslots_offset) / 4) else 0;
  bi_numinputusageslots := numinputslots ctx;
  bi_shaderhash0 := shader_hash ctx `land` 0xffffffff;
  bi_shaderhash1 := u32 (shader_hash ctx ≫ 32);
  bi_crc32 := 0
|}.

(** The two allocations may fail.  [inl] is the error returned; [hashsb] always has
    a value, since the checksum never reads outside its table. *)
Definition buildshaderbinary (newcode_allocated buf_allocated : bool) (ctx : BuildContext)
    (code : list Z) : PsbcResult + list Z :=
  if negb newcode_allocated then inl PSBC_RESULT_OUT_OF_MEMORY
  else if negb buf_allocated then inl PSBC_RESULT_OUT_OF_MEMORY
  else
    match stage_header ctx code with
    | None => inl PSBC_RESULT_UNSUPPORTED_STAGE
    | Some header =>
        let buf := encode_pssl (pssl_header ctx code) ++ encode_file (file_header ctx) ++
          encode_stage header ++ encode_all encode_slot (input_slots ctx) ++ tables ctx ++
          replicate (Z.to_nat (alignbytes ctx)) 0 ++ newcode ctx code in
        let bininfo := binary_info ctx code (Z.of_nat (length buf)) in
        match hashsb (newcode ctx code) bininfo with
        | None => inl PSBC_RESULT_INTERNAL_ERROR
        | Some crc =>
            inr (buf ++ encode_info (bininfo <| bi_crc32 := crc |>) ++
                 replicate (Z.to_nat sizeof_PsslBinaryParamInfo) 0)
        end
    end.

(** ** The reader of tests/verify_sb.py *)

(** Recompute the checksum of the binary whose info record is at [off]. *)
Definition verify_crc (data : list Z) (off : Z) : bool :=
  let crc_stored := read_u32_le data (off + 24) in
  let gcn_code_size := (read_u32_le data (off + 8) ≫ 8) `land` 0xffffff in
  let code_data := slice data (off - gcn_code_size) gcn_code_size in
  let orbshdr_data := slice data off 24 in
  let numpad := if truthy (gcn_code_size `land` 7) then 8 - gcn_code_size `land` 7 else 0 in
  match Crc32.crc32_sb (code_data ++ replicate (Z.to_nat numpad) 0 ++ orbshdr_data)
          Crc32.crc32_sb_begin with
  | Some crc => Crc32.crc32_sb_end crc =? crc_stored
  | None => false
  end.

(** Where it looks for the usage slots. *)
Definition verify_slot_offset (data : list Z) (off : Z) : Z := off - at_ 0 data (off + 12) * 4.

End binary.

(** * Correctness *)

(** ** Bytes *)

Lemma length_le_bytes n x : length (le_bytes n x) = n.
Proof. unfold le_bytes. by rewrite length_map, length_seqZ, Nat2Z.id. Qed.

Lemma at_app_r {A} (d : A) l k i :
  Z.of_nat (length l) <= i -> at_ d (l ++ k) i = at_ d k (i - Z.of_nat (length l)).
Proof. intros. unfold at_. rewrite app_nth2 by lia. f_equal. lia. Qed.

Lemma at_app_l {A} (d : A) l k i :
  0 <= i < Z.of_nat (length l) -> at_ d (l ++ k) i = at_ d l i.
Proof. intros. unfold at_. rewrite app_nth1 by lia. done. Qed.

(** Reading back a little-endian word from the middle of a file. *)
Lemma read_le32 pre x post off :
  off = Z.of_nat (length pre) -> in_width 32 x -> read_u32_le (pre ++ le32 x ++ post) off = x.
Proof.
  intros -> Hx. unfold read_u32_le.
  assert (forall k, 0 <= k -> at_ 0 (pre ++ le32 x ++ post) (Z.of_nat (length pre) + k) =
    at_ 0 (le32 x ++ post) k) as Hk by (intros; rewrite at_app_r by lia; f_equal; lia).
  rewrite <-(Z.add_0_r (Z.of_nat (length pre))) at 1. rewrite !Hk by lia.
  change (u8 (x ≫ 0) `lor` (u8 (x ≫ 8) ≪ 8) `lor` (u8 (x ≫ 16) ≪ 16) `lor` (u8 (x ≫ 24) ≪ 24) = x).
  bitwise. destruct (Z_lt_dec i 32) as [Hlt|Hge]; cycle 1.
  { rewrite (testbit_high 32 x i Hx) by lia. bcases. }
  rewrite Z.add_0_r. destruct (Z_lt_dec i 8); [|destruct (Z_lt_dec i 16); [|destruct (Z_lt_dec i 24)]];
    repeat match goal with
      | |- context [(?a <? ?b) && Z.testbit ?c ?d] =>
          destruct (Z.ltb_spec a b); cbn [andb]; try lia
      end.
  all: repeat match goal with
      | |- context [Z.testbit (?y ≫ ?n) (?k - ?n)] =>
          first [rewrite (Z.testbit_neg_r (y ≫ n) (k - n)) by lia
                |rewrite (Z.shiftr_spec y n (k - n)) by lia; rewrite Z.sub_add]
      end; by rewrite ?orb_false_r, ?orb_diag.
Qed.

Lemma slice_app pre mid post off n :
  off = Z.of_nat (length pre) -> n = Z.of_nat (length mid) -> slice (pre ++ mid ++ post) off n = mid.
Proof. intros -> ->. unfold slice. by rewrite !Nat2Z.id, drop_app_length, take_app_length. Qed.

Lemma length_encode_all {A} (encode : A -> list Z) size (l : list A) :
  (forall x, Z.of_nat (length (encode x)) = size) ->
  Z.of_nat (length (encode_all encode l)) = Z.of_nat (length l) * size.
Proof.
  intros Hs. unfold encode_all. induction l as [|x l IH]; [done|].
  simpl. rewrite length_app, Nat2Z.inj_add, IH, Hs. lia.
Qed.

Lemma util_bitcount64_nonneg n : 0 <= util_bitcount64 n.
Proof.
  unfold util_bitcount64. apply (foldl_preserves (fun x => 0 <= x)); [|done].
  intros a b ?. pose proof (b2z_range (Z.testbit n b)). lia.
Qed.

(** Rounding up to a dword. *)
Lemma land_not32_3 x : in_width 32 x -> x `land` not32 3 = 4 * (x / 4).
Proof.
  intros Hx. rewrite Z.mul_comm. change 4 with (2 ^ 2).
  rewrite <-Z.shiftr_div_pow2, <-Z.shiftl_mul_pow2 by lia. bitwise.
  change 3 with (Z.ones 2). destruct (Z_lt_dec i 2) as [Hi2|Hi2].
  - rewrite Z.testbit_ones_nonneg by lia. rewrite (Z.testbit_neg_r _ (i - 2)) by lia. bcases.
  - rewrite Z.testbit_ones_nonneg, Z.shiftr_spec, Z.sub_add by lia.
    destruct (Z.ltb_spec i 32); [|rewrite (testbit_high 32 x i Hx) by lia; bcases].
    destruct (Z.ltb_spec i 2); [lia|]. by rewrite andb_true_r.
Qed.

Lemma round_up h : 0 <= h -> h + 3 < 2 ^ 32 ->
  let a := u32 ((u32 (h + 3) `land` not32 3) - h) in
  0 <= a <= 3 /\ (h + a) `mod` 4 = 0 /\ h + a < 2 ^ 32.
Proof.
  intros H0 H1 a. subst a. assert (in_width 32 (h + 3)) as Hw by (split; lia).
  rewrite (wrap_id 32 (h + 3)), land_not32_3 by done.
  pose proof (Z.div_mod (h + 3) 4 ltac:(lia)). pose proof (Z.mod_pos_bound (h + 3) 4 ltac:(lia)).
  rewrite wrap_id by (split; lia).
  split; [lia|]. split; [|lia].
  replace (h + (4 * ((h + 3) / 4) - h)) with ((h + 3) / 4 * 4) by lia. apply Z.mod_mul. lia.
Qed.

(** The sizes fit their fields: the code its 24-bit length, the headers 32 bits. *)
Definition binary_fits `{GnmFormat} (ctx : BuildContext) (code : list Z) : Prop :=
  4 * (Z.of_nat (length code) + 1) < 2 ^ 24 /\ 0 <= semantic_count ctx /\
  headershsize (ctx_psbc_stage ctx) + numinputslots ctx * sizeof_GnmInputUsageSlot +
    tables_size ctx + 3 < 2 ^ 32.

(** ** Sizes of the parts *)

Section layout.
  Context `{GnmFormat} `{!GnmFormatLaws}.
  Context (ctx : BuildContext) (code : list Z).
  Hypothesis Hfits : binary_fits ctx code.

Lemma length_input_slots : Z.of_nat (length (input_slots ctx)) = numinputslots ctx.
Proof.
  unfold input_slots, numinputslots, slot_if.
  by destruct (is_vs_family ctx && arg_used (ra_prolog_inputs (ctx_rargs ctx))),
    (is_vs_family ctx && arg_used (aa_vertex_buffers (ac ctx))),
    (arg_used (at_ zero_ac_arg (ra_descriptors (ctx_rargs ctx)) 0)).
Qed.

Lemma length_tables : Z.of_nat (length (tables ctx)) = tables_size ctx.
Proof.
  destruct Hfits as (_ & Hc & _).
  assert (Z.of_nat (length (pixel_inputs ctx)) = semantic_count ctx) as Hp.
  { revert Hc. unfold pixel_inputs, semantic_count. destruct (ctx_input_semantics ctx); [|done].
    intros. rewrite length_map, length_seqZ. lia. }
  pose proof (util_bitcount64_nonneg (si_inputs_read (sh_info (ctx_nir ctx)))).
  pose proof (util_bitcount64_nonneg
    (si_outputs_written (sh_info (ctx_nir ctx)) `land` not64 VARYING_BIT_POS)).
  unfold tables, tables_size.
  destruct (ctx_stage ctx); rewrite ?length_app, ?Nat2Z.inj_add;
    rewrite ?(length_encode_all _ _ _ length_vertex_input), ?(length_encode_all _ _ _ length_vertex_export),
      ?(length_encode_all _ _ _ length_pixel_input), ?Hp; try done;
    unfold vertex_inputs, numbered_inputs, vertex_exports;
    rewrite ?length_map, ?length_seqZ; unfold inputsread, outputswritten; rewrite ?Z2Nat.id; lia.
Qed.

Lemma length_newcode : Z.of_nat (length (newcode ctx code)) = code_size ctx code.
Proof.
  destruct Hfits as (Hc & _). unfold newcode, code_size.
  change (concat (map le32 ?l)) with (encode_all le32 l).
  rewrite (length_encode_all le32 4) by (intros; unfold le32; by rewrite length_le_bytes).
  rewrite (wrap_id 32 (_ * _)) by (split; lia).
  destruct (has_prolog_jump ctx); [|done].
  rewrite wrap_id by (split; lia). rewrite length_cons. lia.
Qed.

Lemma code_size_range : 0 <= code_size ctx code < 2 ^ 24.
Proof.
  destruct Hfits as (Hc & _). unfold code_size. rewrite (wrap_id 32 (_ * _)) by (split; lia).
  destruct (has_prolog_jump ctx); [rewrite wrap_id by (split; lia)|]; lia.
Qed.

Lemma code_size_dwords : code_size ctx code `mod` 4 = 0.
Proof.
  destruct Hfits as (Hc & _). unfold code_size. rewrite (wrap_id 32 (_ * _)) by (split; lia).
  destruct (has_prolog_jump ctx); [rewrite wrap_id by (split; lia)|].
  - replace (Z.of_nat (length code) * 4 + 4) with ((Z.of_nat (length code) + 1) * 4) by lia.
    apply Z.mod_mul. lia.
  - apply Z.mod_mul. lia.
Qed.

Lemma headershsize_stage :
  exists h, headershsize (ctx_psbc_stage ctx) = sizeof_stage h.
Proof.
  unfold headershsize. destruct (ctx_psbc_stage ctx);
    (by exists (VsHeader (vs_header ctx code))) || (by exists (PsHeader (ps_header ctx code))) ||
    (by exists (CsHeader (cs_header ctx code))) || (by exists (GsHeader (gs_header ctx code))) ||
    (by exists (HsHeader (hs_header ctx code))) || (by exists (EsHeader (es_header ctx code))) ||
    (by exists (LsHeader (ls_header ctx code))).
Qed.

Lemma stage_header_size h :
  stage_header ctx code = Some h -> sizeof_stage h = headershsize (ctx_psbc_stage ctx).
Proof. unfold stage_header, headershsize. by destruct (ctx_psbc_stage ctx); intros [= <-]. Qed.

Lemma headershsize_dwords :
  0 <= headershsize (ctx_psbc_stage ctx) /\ headershsize (ctx_psbc_stage ctx) `mod` 4 = 0.
Proof.
  destruct headershsize_stage as [h ->]. rewrite <-length_stage at 1. split; [lia|].
  apply stage_dwords.
Qed.

(** The header area: the stage header, slots, tables and padding fill it exactly. *)
Lemma header_area :
  header_size ctx = headershsize (ctx_psbc_stage ctx) +
    numinputslots ctx * sizeof_GnmInputUsageSlot + tables_size ctx /\
  shspecificsize ctx = header_size ctx + alignbytes ctx /\
  0 <= alignbytes ctx <= 3 /\ shspecificsize ctx `mod` 4 = 0.
Proof.
  pose proof length_tables as Ht. pose proof length_input_slots as Hs.
  pose proof (length_encode_all _ _ (input_slots ctx) length_slot) as He. rewrite Hs in He.
  destruct headershsize_dwords as [Hz _]. destruct Hfits as (_ & _ & Hh).
  assert (header_size ctx = headershsize (ctx_psbc_stage ctx) +
    numinputslots ctx * sizeof_GnmInputUsageSlot + tables_size ctx) as E
    by (unfold header_size; rewrite wrap_id; [done|split; lia]).
  destruct (round_up (header_size ctx)) as (Ha & Hm & Hl); [lia|lia|].
  fold (alignbytes ctx) in Ha, Hm, Hl.
  unfold shspecificsize. rewrite wrap_id by (split; lia). done.
Qed.

(** Everything in front of the code. *)
Definition header_bytes (h : StageHeader) : list Z :=
  encode_pssl (pssl_header ctx code) ++ encode_file (file_header ctx) ++
  encode_stage h ++ encode_all encode_slot (input_slots ctx) ++ tables ctx ++
  replicate (Z.to_nat (alignbytes ctx)) 0.

Definition code_offset : Z :=
  sizeof_PsslBinaryHeader + sizeof_GnmShaderFileHeader + shspecificsize ctx.
Definition info_offset : Z := code_offset + code_size ctx code.

Lemma length_header_bytes h :
  stage_header ctx code = Some h -> Z.of_nat (length (header_bytes h)) = code_offset.
Proof.
  intros Hh. destruct header_area as (E1 & E2 & Ha & _).
  unfold header_bytes, code_offset. rewrite !length_app, !Nat2Z.inj_add, length_replicate.
  rewrite length_pssl, length_file, length_stage, (stage_header_size h Hh), length_tables,
    (length_encode_all _ _ _ length_slot), length_input_slots. lia.
Qed.

(** The info record of the file, checksum included. *)
Definition final_info (crc : Z) : GnmShaderBinaryInfo :=
  binary_info ctx code info_offset <| bi_crc32 := crc |>.

(** The bytes the checksum covers, and the checksum. *)
Definition checked_bytes : list Z :=
  newcode ctx code ++
  replicate (Z.to_nat (if truthy (code_size ctx code `land` 7)
                       then 8 - code_size ctx code `land` 7 else 0)) 0 ++
  take 24 (encode_info (binary_info ctx code info_offset)).
Definition checksum : Z := Crc32.crc32_sb_end (Crc32.crc32_ref checked_bytes Crc32.crc32_sb_begin).

Lemma hashsb_checksum : hashsb (newcode ctx code) (binary_info ctx code info_offset) = Some checksum.
Proof.
  unfold hashsb, checksum, checked_bytes. rewrite info_size. cbv [mbind option_bind].
  rewrite !Crc32.crc32_sb_ref. by rewrite !Crc32.crc32_ref_app.
Qed.

Lemma build_success h :
  stage_header ctx code = Some h ->
  buildshaderbinary true true ctx code =
    inr (header_bytes h ++ newcode ctx code ++ encode_info (final_info checksum) ++
         replicate (Z.to_nat sizeof_PsslBinaryParamInfo) 0).
Proof.
  intros Hh. pose proof (length_header_bytes h Hh) as Hl. unfold buildshaderbinary.
  cbn [negb]. rewrite Hh. cbv zeta.
  set (buf := encode_pssl _ ++ _).
  assert (buf = header_bytes h ++ newcode ctx code) as Eb
    by (unfold buf, header_bytes; by rewrite <-!app_assoc).
  assert (Z.of_nat (length buf) = info_offset) as El.
  { rewrite Eb, length_app, Nat2Z.inj_add, Hl, length_newcode. done. }
  rewrite El, hashsb_checksum, Eb, <-!app_assoc. done.
Qed.

Lemma length_encode_info i : length (encode_info i) = 28%nat.
Proof.
  rewrite info_layout, !length_app, length_signature. unfold le32. by rewrite !length_le_bytes.
Qed.

(** The checksum does not cover itself. *)
Lemma info_prefix i crc : take 24 (encode_info (i <| bi_crc32 := crc |>)) = take 24 (encode_info i).
Proof.
  rewrite !info_layout. cbn [bi_version bi_chunkusagebaseoffsetdwords bi_numinputusageslots
    bi_shaderhash0 bi_shaderhash1 bi_crc32 set].
  change (info_bits (i <| bi_crc32 := crc |>)) with (info_bits i).
  rewrite !app_assoc. set (pre := _ ++ le32 (bi_shaderhash1 i)).
  assert (length pre = 24%nat) as Hp.
  { unfold pre. rewrite !length_app, length_signature. unfold le32. by rewrite !length_le_bytes. }
  rewrite <-Hp, !take_app_length. done.
Qed.
End layout.

(** C26: with both allocations made, the binary fails only for a stage that has no
    header, and otherwise is exactly as long as the buffer allocated for it (so no
    write leaves it), its code sits dword-aligned after the headers, and the sizes
    the two file headers announce are those of the file. *)
Theorem buildshaderbinary_layout `{GnmFormat} `{!GnmFormatLaws} ctx code :
  binary_fits ctx code ->
  match buildshaderbinary true true ctx code with
  | inl e => e = PSBC_RESULT_UNSUPPORTED_STAGE /\
             ctx_psbc_stage ctx ∈ [PSBC_STAGE_NONE; PSBC_STAGE_TASK]
  | inr data =>
      Z.of_nat (length data) = total_size ctx code /\
      slice data (code_offset ctx) (code_size ctx code) = newcode ctx code /\
      4 * fh_headersizedwords (file_header ctx) = shspecificsize ctx /\
      ph_codesize (pssl_header ctx code) =
        total_size ctx code - sizeof_PsslBinaryHeader - sizeof_PsslBinaryParamInfo
  end.
Proof.
  intros Hfits. destruct (stage_header ctx code) as [h|] eqn:Hh.
  - rewrite (build_success ctx code Hfits h Hh).
    pose proof (length_header_bytes ctx code Hfits h Hh) as Hl.
    pose proof (length_newcode ctx code Hfits) as Hn. destruct (header_area ctx code Hfits) as (_ & _ & _ & Hm).
    pose proof (param_size). unfold total_size. rewrite info_size. split_and!.
    + rewrite !length_app, length_replicate, length_encode_info.
      unfold code_offset in Hl. lia.
    + by apply slice_app.
    + simpl. pose proof (Z.div_exact (shspecificsize ctx) 4). lia.
    + simpl. rewrite info_size. lia.
  - unfold buildshaderbinary. rewrite Hh. split; [done|]. unfold stage_header in Hh.
    destruct (ctx_psbc_stage ctx); try done; [left|right; left].
Qed.

Lemma info_bits_fields `{GnmFormat} i :
  in_width 24 (bi_length i) ->
  in_width 32 (info_bits i) /\ (info_bits i ≫ 8) `land` 0xffffff = bi_length i.
Proof.
  intros Hl. unfold info_bits.
  assert (in_width 4 (info_type_val (bi_type i) `land` 0xf)) as Ht.
  { change 0xf with (Z.ones 4). rewrite Z.land_ones by lia. by apply wrap_range. }
  change 0xffffff with (Z.ones 24). rewrite (Z.land_ones (bi_length i)) by lia.
  change (bi_length i `mod` 2 ^ 24) with (wrap 24 (bi_length i)). rewrite (wrap_id 24) by done.
  set (t := info_type_val (bi_type i) `land` 0xf) in *. split.
  - apply in_width_bits; [done| |].
    + destruct Hl, Ht. rewrite !Z.lor_nonneg, !Z.shiftl_nonneg. pose proof (b2z_range (bi_ispsslcg i)). lia.
    + intros k Hk. autorewrite with bits.
      rewrite (testbit_high 1), (testbit_high 4 t), (testbit_high 24 (bi_length i)); try done; try lia.
      by destruct (bi_ispsslcg i).
  - bitwise. destruct (Z.ltb_spec i0 24); [|rewrite andb_false_r; symmetry; apply (testbit_high 24); [done|lia]].
    rewrite (testbit_high 1 (b2z _)), (testbit_high 4 t) by (lia || done || by destruct (bi_ispsslcg i)).
    rewrite andb_true_r, Z.add_simpl_r. done.
Qed.


(** C39: when a program has usage slots and lies within 255 dwords of its info
    record, the reader's one-byte back pointer leads to the encoded slot table; the
    stage header is a whole number of dwords, so the division loses nothing. *)
Theorem buildshaderbinary_slots `{GnmFormat} `{!GnmFormatLaws} ctx code data :
  binary_fits ctx code -> buildshaderbinary true true ctx code = inr data ->
  0 < numinputslots ctx ->
  shspecificsize ctx - headershsize (ctx_psbc_stage ctx) + code_size ctx code < 1024 ->
  slice data (verify_slot_offset data (info_offset ctx code))
    (numinputslots ctx * sizeof_GnmInputUsageSlot) = encode_all encode_slot (input_slots ctx).
Proof.
  intros Hfits Hb Hs Hd. destruct (stage_header ctx code) as [h|] eqn:Hh.
  2: { unfold buildshaderbinary in Hb. by rewrite Hh in Hb. }
  rewrite (build_success ctx code Hfits h Hh) in Hb. injection Hb as <-.
  pose proof (length_header_bytes ctx code Hfits h Hh) as Hl.
  pose proof (length_newcode ctx code Hfits) as Hn.
  pose proof (code_size_range ctx code Hfits) as Hc.
  destruct (header_area ctx code Hfits) as (E1 & E2 & Ha & Hm).
  destruct (headershsize_dwords ctx code) as [Hh0 Hh4].
  pose proof (length_encode_all _ _ (input_slots ctx) length_slot) as He.
  rewrite length_input_slots in He. pose proof (length_tables ctx code Hfits) as Ht.
  pose proof (code_size_dwords ctx code Hfits) as Hc4.
  set (D := shspecificsize ctx - headershsize (ctx_psbc_stage ctx) + code_size ctx code) in *.
  assert (D `mod` 4 = 0) as HD.
  { unfold D. rewrite Zplus_mod, Zminus_mod, Hm, Hh4, Hc4. done. }
  assert (0 <= D) as HD0 by lia. pose proof (Z.div_exact D 4 ltac:(lia)) as HDe.
  set (pre := header_bytes ctx code h ++ newcode ctx code).
  assert (Z.of_nat (length pre) = info_offset ctx code) as Hpre
    by (unfold pre; rewrite length_app, Nat2Z.inj_add, Hl, Hn; done).
  assert (bi_chunkusagebaseoffsetdwords (final_info ctx code (checksum ctx code)) = D / 4) as Hchunk.
  { simpl. destruct (Z.gtb_spec (numinputslots ctx) 0); [|lia].
    replace (info_offset ctx code - (sizeof_PsslBinaryHeader + sizeof_GnmShaderFileHeader +
      headershsize (ctx_psbc_stage ctx))) with D by (unfold info_offset, code_offset, D; lia).
    apply wrap_id. split; [apply Z.div_pos; lia|]. apply Z.div_lt_upper_bound; lia. }
  assert (at_ 0 (pre ++ encode_info (final_info ctx code (checksum ctx code)) ++
      replicate (Z.to_nat sizeof_PsslBinaryParamInfo) 0) (info_offset ctx code + 12) = D / 4) as Hbyte.
  { rewrite at_app_r by lia. rewrite info_layout, <-!app_assoc.
    rewrite at_app_r by (rewrite length_signature; lia). rewrite length_signature.
    rewrite at_app_r by (simpl; lia).
    rewrite at_app_r by (unfold le32; rewrite length_le_bytes; simpl; lia).
    unfold le32. rewrite length_le_bytes, Hchunk.
    match goal with |- at_ _ _ ?k = _ => replace k with 0 by (simpl; lia) end.
    unfold at_. simpl. apply wrap_id. split; [apply Z.div_pos; lia|]. apply Z.div_lt_upper_bound; lia. }
  unfold verify_slot_offset. rewrite (app_assoc (header_bytes ctx code h)). fold pre. rewrite Hbyte.
  unfold pre, header_bytes. rewrite <-!app_assoc.
  rewrite (app_assoc (encode_pssl _)), (app_assoc _ (encode_stage h)).
  apply slice_app; [|done].
  rewrite !length_app, !Nat2Z.inj_add, length_pssl, length_file, length_stage,
    (stage_header_size ctx code h Hh). unfold info_offset, code_offset. lia.
Qed.

(** ** Two derivations of the same registers *)

(** The value published for a context register. *)
Definition published (m : PsbcShaderMetadata) (register : Z) : option Z :=
  snd <$> find (fun w => w.1 =? PSBC_CX_OFFSET register) (cx_writes m).

Lemma published_fragment ctx register :
  ctx_stage ctx = MESA_SHADER_FRAGMENT ->
  published (fill_shader_metadata ctx) register =
    snd <$> find (fun w => w.1 =? PSBC_CX_OFFSET register) (fragment_cx ctx).
Proof.
  intros Hs. unfold published. destruct (fill_reports ctx) as ((_ & _ & ->) & _). unfold package_of. by rewrite Hs.
Qed.

Lemma published_vertex ctx register :
  ctx_stage ctx = MESA_SHADER_VERTEX -> ctx_ngg ctx = false ->
  published (fill_shader_metadata ctx) register =
    snd <$> find (fun w => w.1 =? PSBC_CX_OFFSET register) (legacy_vs_cx ctx).
Proof.
  intros Hs Hn. unfold published. destruct (fill_reports ctx) as ((_ & _ & ->) & _). unfold package_of. by rewrite Hs, Hn.
Qed.


(** ** Announced and written semantics *)

Definition announced_inputs (h : StageHeader) : Z :=
  match h with
  | VsHeader h => vsh_numinputsemantics h | PsHeader h => psh_numinputsemantics h
  | GsHeader h => gsh_numinputsemantics h | HsHeader h => hsh_numinputsemantics h
  | EsHeader h => esh_numinputsemantics h | LsHeader h => lsh_numinputsemantics h
  | CsHeader _ => 0
  end.
Definition announced_exports (h : StageHeader) : Z :=
  match h with
  | VsHeader h => vsh_numexportsemantics h | GsHeader h => gsh_numexportsemantics h
  | EsHeader h => esh_numexportsemantics h | LsHeader h => lsh_numexportsemantics h
  | _ => 0
  end.

(** Entries of the two tables of the stage. *)
Definition written_inputs (ctx : BuildContext) : Z :=
  match ctx_stage ctx with
  | MESA_SHADER_VERTEX | MESA_SHADER_TESS_EVAL => Z.of_nat (length (vertex_inputs ctx))
  | MESA_SHADER_FRAGMENT => Z.of_nat (length (pixel_inputs ctx))
  | MESA_SHADER_GEOMETRY | MESA_SHADER_TESS_CTRL => Z.of_nat (length (numbered_inputs ctx))
  | _ => 0
  end.
Definition written_exports (ctx : BuildContext) : Z :=
  match ctx_stage ctx with
  | MESA_SHADER_VERTEX | MESA_SHADER_TESS_EVAL | MESA_SHADER_GEOMETRY =>
      Z.of_nat (length (vertex_exports ctx))
  | _ => 0
  end.

(** Stages whose header and table count their inputs differently. *)
Definition counts_differ (s : PsbcStage) : bool :=
  match s with PSBC_STAGE_VERTEX | PSBC_STAGE_TESS_EVAL | PSBC_STAGE_FRAGMENT => true | _ => false end.

(** The header announces the number of export semantics that are written; it
    announces the number of input semantics that are written for geometry, hull,
    export, local and compute programs, and for vertex, evaluation and pixel
    programs exactly when the number of linked semantics equals the number of
    input slots the shader reads (header and table use one count each). *)
Theorem announced_semantics `{GnmFormat} ctx code h :
  stage_header ctx code = Some h -> 0 <= semantic_count ctx ->
  ShaderUtil.psbc_to_mesa_stage (ctx_psbc_stage ctx) = ctx_stage ctx ->
  announced_exports h = written_exports ctx /\
  (announced_inputs h = written_inputs ctx <->
     counts_differ (ctx_psbc_stage ctx) = false \/ semantic_count ctx = inputsread ctx).
Proof.
  intros Hh Hc Hstage.
  assert (Z.of_nat (length (pixel_inputs ctx)) = semantic_count ctx) as Hp.
  { revert Hc. unfold pixel_inputs, semantic_count. destruct (ctx_input_semantics ctx); [|done].
    intros. rewrite length_map, length_seqZ. lia. }
  assert (0 <= inputsread ctx) as Hi by apply util_bitcount64_nonneg.
  assert (0 <= outputswritten ctx) as Ho by apply util_bitcount64_nonneg.
  unfold written_inputs, written_exports. rewrite <-Hstage, Hp.
  unfold vertex_inputs, numbered_inputs, vertex_exports. rewrite !length_map, !length_seqZ.
  rewrite !Z2Nat.id by done. unfold stage_header in Hh.
  destruct (ctx_psbc_stage ctx); try done; injection Hh as <-; simpl;
    try unfold vs_header; try destruct (ShaderUtil.get_num_pos_exports _) as [[? ?] ?]; simpl;
    split; try done; split; try lia; intros [?|?]; try done; lia.
Qed.

(** ** A concrete format *)

(** Encodings with the sizes of the documented structures; only the fields the
    theorems observe are written. *)
#[local] Instance example_format : GnmFormat := {|
  sizeof_PsslBinaryHeader := 36;
  sizeof_GnmShaderFileHeader := 16;
  sizeof_PsslBinaryParamInfo := 12;
  sizeof_GnmShaderBinaryInfo := 28;
  sizeof_GnmVsShader := 40; sizeof_GnmPsShader := 60; sizeof_GnmCsShader := 36;
  sizeof_GnmGsShader := 40; sizeof_GnmHsShader := 40; sizeof_GnmEsShader := 28;
  sizeof_GnmLsShader := 28;
  sizeof_GnmInputUsageSlot := 4;
  sizeof_GnmVertexInputSemantic := 4;
  sizeof_GnmVertexExportSemantic := 2;
  sizeof_GnmPixelInputSemantic := 2;
  info_signature := [0x4f; 0x72; 0x62; 0x53; 0x68; 0x64; 0x72];
  info_type_val := fun t => match t with GNM_SHB_PS => 0 | GNM_SHB_VS_VS => 1 | _ => 2 end;
  encode_pssl := fun h => [u8 (ph_vermajor h); u8 (ph_verminor h)] ++ replicate 34 0;
  encode_file := fun h => [0x53; 0x68; 0x64; 0x72; u8 (fh_headersizedwords h)] ++ replicate 11 0;
  encode_stage := fun h =>
    match h with
    | VsHeader _ | GsHeader _ | HsHeader _ => replicate 40 0
    | PsHeader _ => replicate 60 0
    | CsHeader _ => replicate 36 0
    | EsHeader _ | LsHeader _ => replicate 28 0
    end;
  encode_slot := fun x => [1; u8 (us_startregister x); 0; 0];
  encode_vertex_input := fun x => [u8 (vi_semantic x); u8 (vi_vgpr x); u8 (vi_sizeinelements x); 0];
  encode_vertex_export := fun x => [u8 (ve_semantic x); u8 (ve_outindex x)];
  encode_pixel_input := fun x => [u8 (pi_semantic x); u8 (pi_isflatshaded x)];
  encode_info := fun i =>
    [0x4f; 0x72; 0x62; 0x53; 0x68; 0x64; 0x72] ++ [u8 (bi_version i)] ++
    le32 (b2z (bi_ispsslcg i) `lor`
          (((match bi_type i with GNM_SHB_PS => 0 | GNM_SHB_VS_VS => 1 | _ => 2 end) `land` 0xf) ≪ 2) `lor`
          ((bi_length i `land` 0xffffff) ≪ 8)) ++
    [u8 (bi_chunkusagebaseoffsetdwords i); u8 (bi_numinputusageslots i); 0; 0] ++
    le32 (bi_shaderhash0 i) ++ le32 (bi_shaderhash1 i) ++ le32 (bi_crc32 i)
|}.

#[local] Instance example_laws : GnmFormatLaws.
Proof. split; try done; by intros []. Qed.

(** The vertex shader of the metadata example, s_endpgm as its code. *)
Definition example_code : list Z := [0xbf810000].

Lemma buildshaderbinary_layout_witness :
  match buildshaderbinary true true example_vertex example_code with
  | inr data => length data = 140%nat
  | inl _ => False
  end.
Proof.
  pose proof (buildshaderbinary_layout example_vertex example_code) as Hw.
  destruct (buildshaderbinary true true example_vertex example_code) as [e|data] eqn:E;
    [vm_compute in E; discriminate|].
  destruct Hw as [Hw _]; [vm_compute; done|]. apply Nat2Z.inj. rewrite Hw. vm_compute. reflexivity.
Defined.

Definition example_binary : list Z :=
  match buildshaderbinary true true example_vertex example_code with inr d => d | inl _ => [] end.


Lemma buildshaderbinary_slots_witness :
  slice example_binary (verify_slot_offset example_binary (info_offset example_vertex example_code))
    (numinputslots example_vertex * sizeof_GnmInputUsageSlot) = [1; 0; 0; 0].
Proof.
  assert (encode_all encode_slot (input_slots example_vertex) = [1; 0; 0; 0]) as <-
    by (vm_compute; reflexivity).
  apply (buildshaderbinary_slots example_vertex example_code example_binary);
    [vm_compute; done..].
Defined.

(** A pixel shader that reads one slot of which no semantic was linked. *)
Definition example_pixel : BuildContext := zero_BuildContext
  <| ctx_stage := MESA_SHADER_FRAGMENT |> <| ctx_psbc_stage := PSBC_STAGE_FRAGMENT |>
  <| ctx_nir := zero_nir_shader
       <| sh_info := zero_shader_info <| si_inputs_read := 0x100000000 |> |> |>.

Lemma announced_semantics_witness :
  match stage_header example_pixel example_code with
  | Some h => announced_inputs h <> written_inputs example_pixel
  | None => False
  end.
Proof.
  pose proof (announced_semantics example_pixel example_code
    (PsHeader (ps_header example_pixel example_code)) eq_refl) as [_ Hi]; [done|done|].
  cbn [stage_header ctx_psbc_stage example_pixel zero_BuildContext set].
  change (announced_inputs (PsHeader (ps_header example_pixel example_code)) <>
          written_inputs example_pixel).
  intros E. apply Hi in E as [E|E]; vm_compute in E; discriminate.
Defined.

End Binary.
