(* ===== verification/Setup.v ===== *)
(** * Compile setup (psbc_compile_impl of psbc_compile.c, before ACO)

    The pure steps of a compilation: the compiler description handed to RADV, the
    pipeline shape, the tessellation facts two halves share, the descriptor layout,
    the graphics state with its vertex attributes, and the corrections made after
    RADV gathered and linked its information. *)

From S2P Require Import Prelude Types Regs Mesa Nir ShaderUtil Usage Validate.

Module Setup.
Import ShaderUtil.

(** ** Constants *)

(** Formats of Gallium the vertex attributes are translated to. *)
Inductive pipe_format : Type :=
| PIPE_FORMAT_NONE
| PIPE_FORMAT_R32_FLOAT
| PIPE_FORMAT_R32G32_FLOAT
| PIPE_FORMAT_R32G32B32_FLOAT
| PIPE_FORMAT_R32G32B32A32_FLOAT
| PIPE_FORMAT_B8G8R8A8_UNORM
| PIPE_FORMAT_R8G8B8A8_UNORM
| PIPE_FORMAT_R10G10B10A2_UNORM
| PIPE_FORMAT_B10G10R10A2_UNORM
| PIPE_FORMAT_R10G10B10A2_SNORM
| PIPE_FORMAT_B10G10R10A2_SNORM
| PIPE_FORMAT_R10G10B10A2_USCALED
| PIPE_FORMAT_B10G10R10A2_USCALED
| PIPE_FORMAT_R10G10B10A2_SSCALED
| PIPE_FORMAT_B10G10R10A2_SSCALED
| PIPE_FORMAT_R32_SINT
| PIPE_FORMAT_R32G32_SINT
| PIPE_FORMAT_R32G32B32_SINT
| PIPE_FORMAT_R32G32B32A32_SINT
| PIPE_FORMAT_R32_UINT
| PIPE_FORMAT_R32G32_UINT
| PIPE_FORMAT_R32G32B32_UINT
| PIPE_FORMAT_R32G32B32A32_UINT
| PIPE_FORMAT_R8_UNORM
| PIPE_FORMAT_R8_SNORM
| PIPE_FORMAT_R8_UINT
| PIPE_FORMAT_R8_SINT
| PIPE_FORMAT_R8G8_UNORM
| PIPE_FORMAT_R8G8_SNORM
| PIPE_FORMAT_R8G8_UINT
| PIPE_FORMAT_R8G8_SINT
| PIPE_FORMAT_R8G8B8A8_SNORM
| PIPE_FORMAT_R8G8B8A8_UINT
| PIPE_FORMAT_R8G8B8A8_SINT
| PIPE_FORMAT_R16_UNORM
| PIPE_FORMAT_R16_SNORM
| PIPE_FORMAT_R16_UINT
| PIPE_FORMAT_R16_SINT
| PIPE_FORMAT_R16_FLOAT
| PIPE_FORMAT_R16G16_UNORM
| PIPE_FORMAT_R16G16_SNORM
| PIPE_FORMAT_R16G16_UINT
| PIPE_FORMAT_R16G16_SINT
| PIPE_FORMAT_R16G16_FLOAT
| PIPE_FORMAT_R16G16B16A16_UNORM
| PIPE_FORMAT_R16G16B16A16_SNORM
| PIPE_FORMAT_R16G16B16A16_UINT
| PIPE_FORMAT_R16G16B16A16_SINT
| PIPE_FORMAT_R16G16B16A16_FLOAT.

#[export] Instance pipe_format_eq_dec : EqDecision pipe_format.
Proof. solve_decision. Defined.

Definition MAX_VBS : Z := 32.
Definition FRAG_RESULT_DUAL_SRC_BLEND : Z := 12.
Definition VARYING_BIT_TESS_LEVEL_OUTER : Z := 1 ≪ VARYING_SLOT_TESS_LEVEL_OUTER.
Definition VARYING_BIT_TESS_LEVEL_INNER : Z := 1 ≪ VARYING_SLOT_TESS_LEVEL_INNER.
Definition VARYING_BIT_PRIMITIVE_ID : Z := 1 ≪ VARYING_SLOT_PRIMITIVE_ID.

(** ** Initialization count *)

(** psbc_init and psbc_shutdown hold and release the GLSL type cache: the state is
    the reference count and whether the cache is alive. *)
(** The library-wide state. *)
Record InitState : Type := mk_InitState {
  ini_refcount : Z;
  ini_types_alive : bool
}.

#[export] Instance eta_InitState : Eta InitState := fun r =>
  mk_InitState r.(ini_refcount) r.(ini_types_alive).

Definition zero_InitState : InitState := {|
  ini_refcount := 0;
  ini_types_alive := false
|}.

Definition psbc_init (g : InitState) : InitState :=
  let g := if ini_refcount g =? 0 then g <| ini_types_alive := true |> else g in
  g <| ini_refcount := ini_refcount g + 1 |>.

Definition psbc_shutdown (g : InitState) : InitState :=
  if ini_refcount g >? 0 then
    let g := g <| ini_refcount := ini_refcount g - 1 |> in
    if ini_refcount g =? 0 then g <| ini_types_alive := false |> else g
  else g.

(** ** The compiler description *)

(** Capabilities the SPIR-V reader is told about. *)
Record spirv_capabilities : Type := mk_spirv_capabilities {
  cap_Shader : bool;
  cap_MultiView : bool;
  cap_Geometry : bool;
  cap_TransformFeedback : bool;
  cap_DotProduct : bool;
  cap_DotProductInput4x8BitPacked : bool;
  cap_Int8 : bool;
  cap_Int16 : bool;
  cap_StorageBuffer8BitAccess : bool;
  cap_UniformAndStorageBuffer8BitAccess : bool;
  cap_StorageUniformBufferBlock16 : bool;
  cap_StorageUniform16 : bool;
  cap_PhysicalStorageBufferAddresses : bool;
  cap_VulkanMemoryModel : bool;
  cap_VulkanMemoryModelDeviceScope : bool;
  cap_DotProductInputAll : bool
}.

#[export] Instance eta_spirv_capabilities : Eta spirv_capabilities := fun r =>
  mk_spirv_capabilities r.(cap_Shader) r.(cap_MultiView) r.(cap_Geometry)
    r.(cap_TransformFeedback) r.(cap_DotProduct) r.(cap_DotProductInput4x8BitPacked)
    r.(cap_Int8) r.(cap_Int16) r.(cap_StorageBuffer8BitAccess)
    r.(cap_UniformAndStorageBuffer8BitAccess) r.(cap_StorageUniformBufferBlock16)
    r.(cap_StorageUniform16) r.(cap_PhysicalStorageBufferAddresses)
    r.(cap_VulkanMemoryModel) r.(cap_VulkanMemoryModelDeviceScope)
    r.(cap_DotProductInputAll).

Definition zero_spirv_capabilities : spirv_capabilities := {|
  cap_Shader := false;
  cap_MultiView := false;
  cap_Geometry := false;
  cap_TransformFeedback := false;
  cap_DotProduct := false;
  cap_DotProductInput4x8BitPacked := false;
  cap_Int8 := false;
  cap_Int16 := false;
  cap_StorageBuffer8BitAccess := false;
  cap_UniformAndStorageBuffer8BitAccess := false;
  cap_StorageUniformBufferBlock16 := false;
  cap_StorageUniform16 := false;
  cap_PhysicalStorageBufferAddresses := false;
  cap_VulkanMemoryModel := false;
  cap_VulkanMemoryModelDeviceScope := false;
  cap_DotProductInputAll := false
|}.

(** What RADV is told about the device. *)
Record radv_compiler_info : Type := mk_radv_compiler_info {
  ci_ac : ShaderUtil.ac_compiler_info;
  ci_spirv_caps : spirv_capabilities;
  ci_address32_hi : Z;
  ci_sampled_image_desc_size : Z;
  ci_combined_image_sampler_desc_size : Z;
  ci_combined_image_sampler_offset : Z;
  ci_sampler_descriptor_size : Z;
  ci_sampler_descriptor_alignment : Z;
  ci_image_descriptor_size : Z;
  ci_image_descriptor_alignment : Z;
  ci_buffer_descriptor_size : Z;
  ci_buffer_descriptor_alignment : Z;
  ci_ge_wave_size : Z;
  ci_ps_wave_size : Z;
  ci_cs_wave_size : Z;
  ci_rt_wave_size : Z;
  ci_subgroup_size : Z;
  ci_min_subgroup_size : Z;
  ci_max_subgroup_size : Z;
  ci_family : radeon_family;
  ci_debug_family : radeon_family;
  ci_load_grid_size_from_user_sgpr : bool;
  ci_use_ngg : bool;
  ci_ps5_global_streamout : bool;
  ci_ps5_fragment_view_index : bool;
  ci_ps5_tess_ring_table : bool
}.

#[export] Instance eta_radv_compiler_info : Eta radv_compiler_info := fun r =>
  mk_radv_compiler_info r.(ci_ac) r.(ci_spirv_caps) r.(ci_address32_hi)
    r.(ci_sampled_image_desc_size) r.(ci_combined_image_sampler_desc_size)
    r.(ci_combined_image_sampler_offset) r.(ci_sampler_descriptor_size)
    r.(ci_sampler_descriptor_alignment) r.(ci_image_descriptor_size)
    r.(ci_image_descriptor_alignment) r.(ci_buffer_descriptor_size)
    r.(ci_buffer_descriptor_alignment) r.(ci_ge_wave_size) r.(ci_ps_wave_size)
    r.(ci_cs_wave_size) r.(ci_rt_wave_size) r.(ci_subgroup_size)
    r.(ci_min_subgroup_size) r.(ci_max_subgroup_size) r.(ci_family) r.(ci_debug_family)
    r.(ci_load_grid_size_from_user_sgpr) r.(ci_use_ngg) r.(ci_ps5_global_streamout)
    r.(ci_ps5_fragment_view_index) r.(ci_ps5_tess_ring_table).

Definition zero_radv_compiler_info : radv_compiler_info := {|
  ci_ac := ShaderUtil.zero_ac_compiler_info;
  ci_spirv_caps := zero_spirv_capabilities;
  ci_address32_hi := 0;
  ci_sampled_image_desc_size := 0;
  ci_combined_image_sampler_desc_size := 0;
  ci_combined_image_sampler_offset := 0;
  ci_sampler_descriptor_size := 0;
  ci_sampler_descriptor_alignment := 0;
  ci_image_descriptor_size := 0;
  ci_image_descriptor_alignment := 0;
  ci_buffer_descriptor_size := 0;
  ci_buffer_descriptor_alignment := 0;
  ci_ge_wave_size := 0;
  ci_ps_wave_size := 0;
  ci_cs_wave_size := 0;
  ci_rt_wave_size := 0;
  ci_subgroup_size := 0;
  ci_min_subgroup_size := 0;
  ci_max_subgroup_size := 0;
  ci_family := CHIP_UNKNOWN;
  ci_debug_family := CHIP_UNKNOWN;
  ci_load_grid_size_from_user_sgpr := false;
  ci_use_ngg := false;
  ci_ps5_global_streamout := false;
  ci_ps5_fragment_view_index := false;
  ci_ps5_tess_ring_table := false
|}.

Definition spirv_caps_of (opts : PsbcCompileOptions) (mesa_stage : mesa_shader_stage) :
    spirv_capabilities :=
  let caps := {|
    cap_Shader := true;
    cap_MultiView := Validate.is_ps5 opts &&
      (stage_eqb mesa_stage MESA_SHADER_VERTEX || stage_eqb mesa_stage MESA_SHADER_FRAGMENT);
    cap_Geometry := true;
    cap_TransformFeedback := true;
    cap_DotProduct := true;
    cap_DotProductInput4x8BitPacked := true;
    cap_Int8 := co_enable_int8 opts;
    cap_Int16 := co_enable_int16 opts;
    cap_StorageBuffer8BitAccess := co_enable_storage_buffer_8bit_access opts;
    cap_UniformAndStorageBuffer8BitAccess := co_enable_uniform_and_storage_buffer_8bit_access opts;
    cap_StorageUniformBufferBlock16 := co_enable_storage_buffer_16bit_access opts;
    cap_StorageUniform16 := co_enable_uniform_and_storage_buffer_16bit_access opts;
    cap_PhysicalStorageBufferAddresses := co_enable_physical_storage_buffer_addresses opts;
    cap_VulkanMemoryModel := co_enable_vulkan_memory_model opts;
    cap_VulkanMemoryModelDeviceScope := co_enable_vulkan_memory_model_device_scope opts;
    cap_DotProductInputAll := false
  |} in
  if co_force_accelerated_dot opts
  then caps <| cap_Int16 := true |> <| cap_DotProductInputAll := true |> else caps.

Definition compiler_info_of (opts : PsbcCompileOptions) : radv_compiler_info :=
  let mesa_stage := ShaderUtil.psbc_to_mesa_stage (co_stage opts) in
  let '(gfxlevel, chipfamily, _) := ShaderUtil.setup_target (co_target opts) in
  let ac := ShaderUtil.setup_ac_info ShaderUtil.zero_ac_compiler_info gfxlevel in
  let ac := if co_force_accelerated_dot opts
            then ac <| ShaderUtil.ai_has_accelerated_dot_product := true |> else ac in
  let wave := if gfx_ge gfxlevel GFX10_3 then 32 else 64 in
  let info := zero_radv_compiler_info
    <| ci_ac := ac |>
    <| ci_spirv_caps := spirv_caps_of opts mesa_stage |>
    <| ci_address32_hi := co_address32_hi opts |>
    <| ci_sampled_image_desc_size := 32 |>
    <| ci_combined_image_sampler_desc_size := 48 |>
    <| ci_combined_image_sampler_offset := 32 |>
    <| ci_sampler_descriptor_size := 16 |>
    <| ci_sampler_descriptor_alignment := 16 |>
    <| ci_image_descriptor_size := 32 |>
    <| ci_image_descriptor_alignment := 16 |>
    <| ci_buffer_descriptor_size := 16 |>
    <| ci_buffer_descriptor_alignment := 16 |>
    <| ci_ge_wave_size := 64 |>
    <| ci_ps_wave_size := wave |>
    <| ci_cs_wave_size := wave |>
    <| ci_rt_wave_size := 64 |> in
  let info := if Validate.is_ps5 opts && bool_decide (co_stage opts = PSBC_STAGE_COMPUTE)
    then info <| ci_subgroup_size := 32 |> <| ci_min_subgroup_size := 32 |>
           <| ci_max_subgroup_size := 32 |>
    else info in
  info
    <| ci_family := chipfamily |>
    <| ci_load_grid_size_from_user_sgpr := gfx_ge gfxlevel GFX10_3 |>
    <| ci_use_ngg := co_ngg opts |>
    <| ci_ps5_global_streamout := co_ps5_global_streamout opts |>
    <| ci_ps5_fragment_view_index := Validate.is_ps5 opts |>
    <| ci_ps5_tess_ring_table := Validate.is_ps5 opts |>
    <| ci_debug_family := chipfamily |>.

(** ** Pipeline shape *)

Definition next_stage_of (s : mesa_shader_stage) : mesa_shader_stage :=
  match s with
  | MESA_SHADER_VERTEX => MESA_SHADER_FRAGMENT
  | MESA_SHADER_TESS_CTRL => MESA_SHADER_TESS_EVAL
  | MESA_SHADER_TESS_EVAL => MESA_SHADER_FRAGMENT
  | MESA_SHADER_GEOMETRY => MESA_SHADER_FRAGMENT
  | _ => MESA_SHADER_NONE
  end.

(** The previous stage whose arguments are declared. *)
Definition previous_stage_of (s : mesa_shader_stage) (paired_tess_geometry : bool) :
    mesa_shader_stage :=
  match s with
  | MESA_SHADER_TESS_CTRL => MESA_SHADER_VERTEX
  | MESA_SHADER_TESS_EVAL => MESA_SHADER_TESS_CTRL
  | MESA_SHADER_GEOMETRY =>
      if paired_tess_geometry then MESA_SHADER_TESS_EVAL else MESA_SHADER_VERTEX
  | _ => MESA_SHADER_NONE
  end.

(** ** Tessellation facts of two halves *)

(** [into->info.tess.x |= from->info.tess.x] for the five shared facts. *)
Definition merge_tess_into (into from : shader_info) : shader_info :=
  into
    <| si_tess_tcs_vertices_out := si_tess_tcs_vertices_out into `lor` si_tess_tcs_vertices_out from |>
    <| si_tess_spacing := si_tess_spacing into `lor` si_tess_spacing from |>
    <| si_tess_primitive_mode := si_tess_primitive_mode into `lor` si_tess_primitive_mode from |>
    <| si_tess_ccw := si_tess_ccw into || si_tess_ccw from |>
    <| si_tess_point_mode := si_tess_point_mode into || si_tess_point_mode from |>.

(** The merged view copied back. *)
Definition copy_tess (to from : shader_info) : shader_info :=
  to
    <| si_tess_tcs_vertices_out := si_tess_tcs_vertices_out from |>
    <| si_tess_primitive_mode := si_tess_primitive_mode from |>
    <| si_tess_spacing := si_tess_spacing from |>
    <| si_tess_ccw := si_tess_ccw from |>
    <| si_tess_point_mode := si_tess_point_mode from |>.

Definition on_info (f : shader_info -> shader_info) (nir : nir_shader) : nir_shader :=
  nir <| sh_info := f (sh_info nir) |>.

(** Both halves of a linked pair end with the union. *)
Definition merge_tess_pair (nir other : nir_shader) : nir_shader * nir_shader :=
  let nir := on_info (fun i => merge_tess_into i (sh_info other)) nir in
  (nir, on_info (fun i => copy_tess i (sh_info nir)) other).

(** Only what the consumer reads stays visible to it. *)
Definition mask_tcs_outputs (inputs_read patch_inputs_read : Z) (nir : nir_shader) : nir_shader :=
  on_info (fun i => i
    <| si_tess_tcs_outputs_read_by_tes := si_tess_tcs_outputs_read_by_tes i `land` inputs_read |>
    <| si_tess_tcs_patch_outputs_read_by_tes :=
         si_tess_tcs_patch_outputs_read_by_tes i `land` patch_inputs_read |>) nir.

Definition tess_levels : Z := VARYING_BIT_TESS_LEVEL_OUTER `lor` VARYING_BIT_TESS_LEVEL_INNER.

(** Slots of the linked TES interface. *)
Definition link_tes_inputs (nir : nir_shader) (info : radv_shader_info) : radv_shader_info :=
  let i := sh_info nir in
  info <| ri_tes := ri_tes info
      <| tes_num_linked_inputs := util_bitcount64 (si_inputs_read i `land` not64 tess_levels) |>
      <| tes_num_linked_patch_inputs :=
           util_bitcount64 (si_inputs_read i `land` tess_levels) +
           util_bitcount64 (si_patch_inputs_read i) |> |>
    <| ri_inputs_linked := true |>.

(** ** Descriptor layout *)

Inductive VkDescriptorType : Type :=
| VK_DESCRIPTOR_TYPE_SAMPLER
| VK_DESCRIPTOR_TYPE_COMBINED_IMAGE_SAMPLER
| VK_DESCRIPTOR_TYPE_SAMPLED_IMAGE
| VK_DESCRIPTOR_TYPE_STORAGE_IMAGE
| VK_DESCRIPTOR_TYPE_UNIFORM_TEXEL_BUFFER
| VK_DESCRIPTOR_TYPE_STORAGE_TEXEL_BUFFER
| VK_DESCRIPTOR_TYPE_UNIFORM_BUFFER
| VK_DESCRIPTOR_TYPE_STORAGE_BUFFER
| VK_DESCRIPTOR_TYPE_INPUT_ATTACHMENT.

(** One binding of a set; zero-initialised bindings have type SAMPLER. *)
Record radv_descriptor_set_binding_layout : Type := mk_radv_descriptor_set_binding_layout {
  bl_type : VkDescriptorType;
  bl_array_size : Z;
  bl_offset : Z;
  bl_size : Z
}.

#[export] Instance eta_radv_descriptor_set_binding_layout : Eta radv_descriptor_set_binding_layout := fun r =>
  mk_radv_descriptor_set_binding_layout r.(bl_type) r.(bl_array_size) r.(bl_offset)
    r.(bl_size).

Definition zero_radv_descriptor_set_binding_layout : radv_descriptor_set_binding_layout := {|
  bl_type := VK_DESCRIPTOR_TYPE_SAMPLER;
  bl_array_size := 0;
  bl_offset := 0;
  bl_size := 0
|}.

(** A set: its bindings and extent. *)
Record radv_descriptor_set_layout : Type := mk_radv_descriptor_set_layout {
  sl_binding_count : Z;
  sl_size : Z;
  sl_binding : list radv_descriptor_set_binding_layout
}.

#[export] Instance eta_radv_descriptor_set_layout : Eta radv_descriptor_set_layout := fun r =>
  mk_radv_descriptor_set_layout r.(sl_binding_count) r.(sl_size) r.(sl_binding).

Definition zero_radv_descriptor_set_layout : radv_descriptor_set_layout := {|
  sl_binding_count := 0;
  sl_size := 0;
  sl_binding := replicate (Z.to_nat PSBC_MAX_DESCRIPTOR_BINDINGS) zero_radv_descriptor_set_binding_layout
|}.

(** The sets of a pipeline layout. *)
Record radv_shader_layout : Type := mk_radv_shader_layout {
  lay_num_sets : Z;
  lay_set : list radv_descriptor_set_layout
}.

#[export] Instance eta_radv_shader_layout : Eta radv_shader_layout := fun r =>
  mk_radv_shader_layout r.(lay_num_sets) r.(lay_set).

Definition zero_radv_shader_layout : radv_shader_layout := {|
  lay_num_sets := 0;
  lay_set := replicate (Z.to_nat PSBC_MAX_DESCRIPTOR_SETS) zero_radv_descriptor_set_layout
|}.

Definition vk_descriptor_type (t : PsbcDescriptorType) : VkDescriptorType :=
  match t with
  | PSBC_DESCRIPTOR_UNIFORM_BUFFER => VK_DESCRIPTOR_TYPE_UNIFORM_BUFFER
  | PSBC_DESCRIPTOR_UNIFORM_TEXEL_BUFFER => VK_DESCRIPTOR_TYPE_UNIFORM_TEXEL_BUFFER
  | PSBC_DESCRIPTOR_STORAGE_BUFFER => VK_DESCRIPTOR_TYPE_STORAGE_BUFFER
  | PSBC_DESCRIPTOR_INPUT_ATTACHMENT => VK_DESCRIPTOR_TYPE_INPUT_ATTACHMENT
  | PSBC_DESCRIPTOR_STORAGE_IMAGE => VK_DESCRIPTOR_TYPE_STORAGE_IMAGE
  | PSBC_DESCRIPTOR_SAMPLER => VK_DESCRIPTOR_TYPE_SAMPLER
  | PSBC_DESCRIPTOR_SAMPLED_IMAGE => VK_DESCRIPTOR_TYPE_SAMPLED_IMAGE
  | PSBC_DESCRIPTOR_STORAGE_TEXEL_BUFFER => VK_DESCRIPTOR_TYPE_STORAGE_TEXEL_BUFFER
  | _ => VK_DESCRIPTOR_TYPE_COMBINED_IMAGE_SAMPLER
  end.

Definition place_binding (source : PsbcDescriptorBinding) (layout : radv_shader_layout) :
    radv_shader_layout :=
  let sl := at_ zero_radv_descriptor_set_layout (lay_set layout) (db_set source) in
  let target := mk_radv_descriptor_set_binding_layout (vk_descriptor_type (db_type source))
    (db_array_size source) (db_offset source) (db_stride source) in
  let sl := sl
    <| sl_binding := put (db_binding source) target (sl_binding sl) |>
    <| sl_binding_count := MAX2 (sl_binding_count sl) (db_binding source + 1) |>
    <| sl_size := MAX2 (sl_size sl) (u32 (db_offset source + db_array_size source * db_stride source)) |> in
  layout
    <| lay_set := put (db_set source) sl (lay_set layout) |>
    <| lay_num_sets := MAX2 (lay_num_sets layout) (db_set source + 1) |>.

Definition descriptor_layout (opts : PsbcCompileOptions) : radv_shader_layout :=
  loop (co_descriptor_binding_count opts)
    (fun i => place_binding (at_ zero_PsbcDescriptorBinding (co_descriptor_bindings opts) i))
    zero_radv_shader_layout.

(** ** Graphics state *)

(** The pipeline state a shader is compiled against. *)
Record radv_graphics_state_key : Type := mk_radv_graphics_state_key {
  gfx_provoking_vtx_last : bool;
  gfx_patch_control_points : Z;
  gfx_rasterization_samples : Z;
  gfx_sample_shading_enable : bool;
  gfx_topology : Z;
  gfx_spi_shader_col_format : Z;
  gfx_color_is_int8 : Z;
  gfx_color_is_int10 : Z;
  gfx_mrt0_is_dual_src : bool;
  gfx_attributes_valid : Z;
  gfx_instance_rate_inputs : Z;
  gfx_instance_rate_divisors : list Z;
  gfx_vertex_attribute_formats : list pipe_format;
  gfx_vertex_attribute_bindings : list Z;
  gfx_vertex_attribute_offsets : list Z;
  gfx_vertex_attribute_strides : list Z;
  gfx_vertex_binding_align : list Z;
  gfx_frag_pos_already_lowered : bool
}.

#[export] Instance eta_radv_graphics_state_key : Eta radv_graphics_state_key := fun r =>
  mk_radv_graphics_state_key r.(gfx_provoking_vtx_last) r.(gfx_patch_control_points)
    r.(gfx_rasterization_samples) r.(gfx_sample_shading_enable) r.(gfx_topology)
    r.(gfx_spi_shader_col_format) r.(gfx_color_is_int8) r.(gfx_color_is_int10)
    r.(gfx_mrt0_is_dual_src) r.(gfx_attributes_valid) r.(gfx_instance_rate_inputs)
    r.(gfx_instance_rate_divisors) r.(gfx_vertex_attribute_formats)
    r.(gfx_vertex_attribute_bindings) r.(gfx_vertex_attribute_offsets)
    r.(gfx_vertex_attribute_strides) r.(gfx_vertex_binding_align)
    r.(gfx_frag_pos_already_lowered).

Definition zero_radv_graphics_state_key : radv_graphics_state_key := {|
  gfx_provoking_vtx_last := false;
  gfx_patch_control_points := 0;
  gfx_rasterization_samples := 0;
  gfx_sample_shading_enable := false;
  gfx_topology := 0;
  gfx_spi_shader_col_format := 0;
  gfx_color_is_int8 := 0;
  gfx_color_is_int10 := 0;
  gfx_mrt0_is_dual_src := false;
  gfx_attributes_valid := 0;
  gfx_instance_rate_inputs := 0;
  gfx_instance_rate_divisors := replicate 32 0;
  gfx_vertex_attribute_formats := replicate 32 PIPE_FORMAT_NONE;
  gfx_vertex_attribute_bindings := replicate 32 0;
  gfx_vertex_attribute_offsets := replicate 32 0;
  gfx_vertex_attribute_strides := replicate 32 0;
  gfx_vertex_binding_align := replicate 32 0;
  gfx_frag_pos_already_lowered := false
|}.

Definition samples_supported (samples : Z) : bool :=
  (samples =? 0) || (samples =? 1) || (samples =? 2) || (samples =? 4) || (samples =? 8).

(** The hardware topology, [None] for a primitive type that is refused. *)
Definition topology_of (primitive_type : Z) : option Z :=
  match primitive_type with
  | 0 => Some 0
  | 1 => Some V_008958_DI_PT_POINTLIST
  | 2 => Some V_008958_DI_PT_LINELIST
  | 3 => Some V_008958_DI_PT_LINESTRIP
  | 4 => Some V_008958_DI_PT_TRILIST
  | 5 => Some V_008958_DI_PT_TRIFAN
  | 6 => Some V_008958_DI_PT_TRISTRIP
  | 10 => Some V_008958_DI_PT_LINELIST_ADJ
  | 11 => Some V_008958_DI_PT_LINESTRIP_ADJ
  | 12 => Some V_008958_DI_PT_TRILIST_ADJ
  | 13 => Some V_008958_DI_PT_TRISTRIP_ADJ
  | _ => None
  end.

(** Colour export formats; both sources of dual-source blending take MRT0's. *)
Definition color_state (opts : PsbcCompileOptions) (dual_source_blend : bool)
    (gfx : radv_graphics_state_key) : radv_graphics_state_key :=
  let given := truthy (co_spi_shader_col_format opts) in
  let gfx := gfx
    <| gfx_spi_shader_col_format := if given then co_spi_shader_col_format opts else 0x99999999 |>
    <| gfx_color_is_int8 := if given then co_color_is_int8 opts else 0xff |>
    <| gfx_color_is_int10 := if given then co_color_is_int10 opts else 0 |> in
  if dual_source_blend then
    let format := if given then co_spi_shader_col_format opts `land` 0xf
                  else V_028714_SPI_SHADER_FP16_ABGR in
    gfx
      <| gfx_mrt0_is_dual_src := true |>
      <| gfx_spi_shader_col_format := format * 0x11 |>
      <| gfx_color_is_int8 := if given then (co_color_is_int8 opts `land` 1) * 3 else 0 |>
      <| gfx_color_is_int10 := if given then (co_color_is_int10 opts `land` 1) * 3 else 0 |>
  else gfx.

(** [None]: the state is refused. *)
Definition base_graphics_state (opts : PsbcCompileOptions) (dual_source_blend : bool) :
    option radv_graphics_state_key :=
  let gfx := zero_radv_graphics_state_key
    <| gfx_provoking_vtx_last := co_provoking_vtx_last opts |>
    <| gfx_patch_control_points := co_patch_control_points opts |> in
  if negb (samples_supported (co_rasterization_samples opts)) then None
  else
    let gfx := gfx
      <| gfx_rasterization_samples := co_rasterization_samples opts |>
      <| gfx_sample_shading_enable := co_sample_shading_enable opts |> in
    match topology_of (co_primitive_type opts) with
    | None => None
    | Some topology => Some (color_state opts dual_source_blend (gfx <| gfx_topology := topology |>))
    end.

(** ** Vertex attributes *)

Definition pipe_format_of (f : PsbcVertexFormat) : option pipe_format :=
  match f with
  | PSBC_VERTEX_FORMAT_R32_FLOAT => Some PIPE_FORMAT_R32_FLOAT
  | PSBC_VERTEX_FORMAT_R32G32_FLOAT => Some PIPE_FORMAT_R32G32_FLOAT
  | PSBC_VERTEX_FORMAT_R32G32B32_FLOAT => Some PIPE_FORMAT_R32G32B32_FLOAT
  | PSBC_VERTEX_FORMAT_R32G32B32A32_FLOAT => Some PIPE_FORMAT_R32G32B32A32_FLOAT
  | PSBC_VERTEX_FORMAT_B8G8R8A8_UNORM => Some PIPE_FORMAT_B8G8R8A8_UNORM
  | PSBC_VERTEX_FORMAT_R8G8B8A8_UNORM => Some PIPE_FORMAT_R8G8B8A8_UNORM
  | PSBC_VERTEX_FORMAT_R10G10B10A2_UNORM => Some PIPE_FORMAT_R10G10B10A2_UNORM
  | PSBC_VERTEX_FORMAT_B10G10R10A2_UNORM => Some PIPE_FORMAT_B10G10R10A2_UNORM
  | PSBC_VERTEX_FORMAT_R10G10B10A2_SNORM => Some PIPE_FORMAT_R10G10B10A2_SNORM
  | PSBC_VERTEX_FORMAT_B10G10R10A2_SNORM => Some PIPE_FORMAT_B10G10R10A2_SNORM
  | PSBC_VERTEX_FORMAT_R10G10B10A2_USCALED => Some PIPE_FORMAT_R10G10B10A2_USCALED
  | PSBC_VERTEX_FORMAT_B10G10R10A2_USCALED => Some PIPE_FORMAT_B10G10R10A2_USCALED
  | PSBC_VERTEX_FORMAT_R10G10B10A2_SSCALED => Some PIPE_FORMAT_R10G10B10A2_SSCALED
  | PSBC_VERTEX_FORMAT_B10G10R10A2_SSCALED => Some PIPE_FORMAT_B10G10R10A2_SSCALED
  | PSBC_VERTEX_FORMAT_R32_SINT => Some PIPE_FORMAT_R32_SINT
  | PSBC_VERTEX_FORMAT_R32G32_SINT => Some PIPE_FORMAT_R32G32_SINT
  | PSBC_VERTEX_FORMAT_R32G32B32_SINT => Some PIPE_FORMAT_R32G32B32_SINT
  | PSBC_VERTEX_FORMAT_R32G32B32A32_SINT => Some PIPE_FORMAT_R32G32B32A32_SINT
  | PSBC_VERTEX_FORMAT_R32_UINT => Some PIPE_FORMAT_R32_UINT
  | PSBC_VERTEX_FORMAT_R32G32_UINT => Some PIPE_FORMAT_R32G32_UINT
  | PSBC_VERTEX_FORMAT_R32G32B32_UINT => Some PIPE_FORMAT_R32G32B32_UINT
  | PSBC_VERTEX_FORMAT_R32G32B32A32_UINT => Some PIPE_FORMAT_R32G32B32A32_UINT
  | PSBC_VERTEX_FORMAT_R8_UNORM => Some PIPE_FORMAT_R8_UNORM
  | PSBC_VERTEX_FORMAT_R8_SNORM => Some PIPE_FORMAT_R8_SNORM
  | PSBC_VERTEX_FORMAT_R8_UINT => Some PIPE_FORMAT_R8_UINT
  | PSBC_VERTEX_FORMAT_R8_SINT => Some PIPE_FORMAT_R8_SINT
  | PSBC_VERTEX_FORMAT_R8G8_UNORM => Some PIPE_FORMAT_R8G8_UNORM
  | PSBC_VERTEX_FORMAT_R8G8_SNORM => Some PIPE_FORMAT_R8G8_SNORM
  | PSBC_VERTEX_FORMAT_R8G8_UINT => Some PIPE_FORMAT_R8G8_UINT
  | PSBC_VERTEX_FORMAT_R8G8_SINT => Some PIPE_FORMAT_R8G8_SINT
  | PSBC_VERTEX_FORMAT_R8G8B8A8_SNORM => Some PIPE_FORMAT_R8G8B8A8_SNORM
  | PSBC_VERTEX_FORMAT_R8G8B8A8_UINT => Some PIPE_FORMAT_R8G8B8A8_UINT
  | PSBC_VERTEX_FORMAT_R8G8B8A8_SINT => Some PIPE_FORMAT_R8G8B8A8_SINT
  | PSBC_VERTEX_FORMAT_R16_UNORM => Some PIPE_FORMAT_R16_UNORM
  | PSBC_VERTEX_FORMAT_R16_SNORM => Some PIPE_FORMAT_R16_SNORM
  | PSBC_VERTEX_FORMAT_R16_UINT => Some PIPE_FORMAT_R16_UINT
  | PSBC_VERTEX_FORMAT_R16_SINT => Some PIPE_FORMAT_R16_SINT
  | PSBC_VERTEX_FORMAT_R16_FLOAT => Some PIPE_FORMAT_R16_FLOAT
  | PSBC_VERTEX_FORMAT_R16G16_UNORM => Some PIPE_FORMAT_R16G16_UNORM
  | PSBC_VERTEX_FORMAT_R16G16_SNORM => Some PIPE_FORMAT_R16G16_SNORM
  | PSBC_VERTEX_FORMAT_R16G16_UINT => Some PIPE_FORMAT_R16G16_UINT
  | PSBC_VERTEX_FORMAT_R16G16_SINT => Some PIPE_FORMAT_R16G16_SINT
  | PSBC_VERTEX_FORMAT_R16G16_FLOAT => Some PIPE_FORMAT_R16G16_FLOAT
  | PSBC_VERTEX_FORMAT_R16G16B16A16_UNORM => Some PIPE_FORMAT_R16G16B16A16_UNORM
  | PSBC_VERTEX_FORMAT_R16G16B16A16_SNORM => Some PIPE_FORMAT_R16G16B16A16_SNORM
  | PSBC_VERTEX_FORMAT_R16G16B16A16_UINT => Some PIPE_FORMAT_R16G16B16A16_UINT
  | PSBC_VERTEX_FORMAT_R16G16B16A16_SINT => Some PIPE_FORMAT_R16G16B16A16_SINT
  | PSBC_VERTEX_FORMAT_R16G16B16A16_FLOAT => Some PIPE_FORMAT_R16G16B16A16_FLOAT
  | PSBC_VERTEX_FORMAT_NONE => None
  end.

Definition attribute_refused (target_ps5 : bool) (a : PsbcVertexAttribute) : bool :=
  (va_location a >=? PSBC_MAX_VERTEX_ATTRIBUTES) || (va_binding a >=? MAX_VBS) ||
  ((va_stride a =? 0) && negb target_ps5) || (va_alignment a =? 0).

Definition set_attribute (a : PsbcVertexAttribute) (format : pipe_format)
    (gfx : radv_graphics_state_key) : radv_graphics_state_key :=
  let l := va_location a in
  let gfx := gfx
    <| gfx_attributes_valid := gfx_attributes_valid gfx `lor` BITFIELD_BIT l |>
    <| gfx_vertex_attribute_formats := put l format (gfx_vertex_attribute_formats gfx) |>
    <| gfx_vertex_attribute_bindings := put l (va_binding a) (gfx_vertex_attribute_bindings gfx) |>
    <| gfx_vertex_attribute_offsets := put l (va_offset a) (gfx_vertex_attribute_offsets gfx) |>
    <| gfx_vertex_attribute_strides := put l (va_stride a) (gfx_vertex_attribute_strides gfx) |>
    <| gfx_vertex_binding_align :=
         put (va_binding a) (u8 (va_alignment a)) (gfx_vertex_binding_align gfx) |> in
  if truthy (va_instance_divisor a) then gfx
    <| gfx_instance_rate_inputs := gfx_instance_rate_inputs gfx `lor` BITFIELD_BIT l |>
    <| gfx_instance_rate_divisors := put l (va_instance_divisor a) (gfx_instance_rate_divisors gfx) |>
  else gfx.

Definition add_attribute (target_ps5 : bool) (a : PsbcVertexAttribute)
    (gfx : radv_graphics_state_key) : option radv_graphics_state_key :=
  match pipe_format_of (va_format a) with
  | None => None
  | Some format => if attribute_refused target_ps5 a then None else Some (set_attribute a format gfx)
  end.

Definition vertex_state (opts : PsbcCompileOptions) (gfx : radv_graphics_state_key) :
    option radv_graphics_state_key :=
  try_each (add_attribute (Validate.is_ps5 opts))
    (map (at_ zero_PsbcVertexAttribute (co_vertex_attributes opts))
       (seqZ 0 (co_vertex_attribute_count opts))) gfx.

Definition graphics_state (opts : PsbcCompileOptions) (dual_source_blend : bool) :
    option radv_graphics_state_key :=
  base_graphics_state opts dual_source_blend ≫= vertex_state opts.

(** ** Corrections after the info passes *)

(** Every declared set is used when the caller did not ask for static use. *)
Definition declared_set_mask (opts : PsbcCompileOptions) : Z :=
  foldl (fun mask i => mask `lor`
           u32 (1 ≪ db_set (at_ zero_PsbcDescriptorBinding (co_descriptor_bindings opts) i)))
    0 (seqZ 0 (co_descriptor_binding_count opts)).

Definition add_declared_sets (opts : PsbcCompileOptions) (info : radv_shader_info) :
    radv_shader_info :=
  if truthy (co_descriptor_binding_count opts) && negb (co_static_descriptor_use opts)
  then info <| ri_desc_set_used_mask := ri_desc_set_used_mask info `lor` declared_set_mask opts |>
  else info.

Definition indirect_push_constants (opts : PsbcCompileOptions) (info : radv_shader_info) :
    radv_shader_info :=
  if co_force_indirect_push_constants opts && ri_loads_push_constants info
  then info <| ri_can_inline_all_push_constants := false |> <| ri_inline_push_constant_mask := 0 |>
  else info.

Definition direct_descriptors (opts : PsbcCompileOptions) (info : radv_shader_info) :
    radv_shader_info :=
  if truthy (co_descriptor_binding_count opts)
  then info <| ri_force_indirect_descriptors := false |> else info.

(** The implicit, final per-primitive PrimitiveID of a vertex stage: dropped when
    the caller proved it dead, exported per vertex on the PS5 otherwise. *)
Definition implicit_primitive_id (nir : nir_shader) (mesa_stage : mesa_shader_stage)
    (info : radv_shader_info) : bool :=
  let o := ri_outinfo info in
  stage_eqb mesa_stage MESA_SHADER_VERTEX &&
  negb (truthy (si_outputs_written (sh_info nir) `land` VARYING_BIT_PRIMITIVE_ID)) &&
  oi_export_prim_id_per_primitive o && (oi_prim_param_exports o =? 1) &&
  (at_ 0 (oi_vs_output_param_offset o) VARYING_SLOT_PRIMITIVE_ID =? oi_param_exports o).

Definition fix_primitive_id (opts : PsbcCompileOptions) (nir : nir_shader)
    (mesa_stage : mesa_shader_stage) (info : radv_shader_info) : radv_shader_info :=
  let o := ri_outinfo info in
  if implicit_primitive_id nir mesa_stage info then
    if co_omit_implicit_primitive_id opts then
      info <| ri_outinfo := o
        <| oi_export_prim_id_per_primitive := false |>
        <| oi_prim_param_exports := 0 |>
        <| oi_vs_output_param_offset :=
             put VARYING_SLOT_PRIMITIVE_ID AC_EXP_PARAM_UNDEFINED (oi_vs_output_param_offset o) |> |>
    else if Validate.is_ps5 opts then
      info <| ri_outinfo := o
        <| oi_export_prim_id_per_primitive := false |>
        <| oi_prim_param_exports := 0 |>
        <| oi_export_prim_id := true |>
        <| oi_param_exports := oi_param_exports o + 1 |> |>
        <| ri_is_ngg_passthrough := false |>
    else info
  else info.

End Setup.
