(* ===== verification/SetupSpec.v ===== *)
(** * Correctness of the compile setup

    What the descriptor layout and the graphics state handed to RADV say about the
    caller's options: the layout is exactly the declared bindings, the vertex inputs
    are exactly the declared attributes, and a state is refused only for the reasons
    the source names. *)

From S2P Require Import Prelude Types Mesa Nir ShaderUtil Validate Setup.

Module SetupSpec.
Import Setup.

(** ** Descriptor layout *)

Definition largest (l : list Z) : Z := foldl Z.max 0 l.

Lemma largest_snoc l x : largest (l ++ [x]) = Z.max (largest l) x.
Proof. unfold largest. by rewrite foldl_app. Qed.

(** The layout of one declared binding, its key and where it ends. *)
Definition binding_target (b : PsbcDescriptorBinding) : radv_descriptor_set_binding_layout :=
  mk_radv_descriptor_set_binding_layout (vk_descriptor_type (db_type b)) (db_array_size b) (db_offset b) (db_stride b).
Definition binding_key (b : PsbcDescriptorBinding) : Z * Z := (db_set b, db_binding b).
Definition binding_end (b : PsbcDescriptorBinding) : Z := db_offset b + db_array_size b * db_stride b.
Definition of_set (s : Z) (l : list PsbcDescriptorBinding) : list PsbcDescriptorBinding :=
  filter (fun b => db_set b = s) l.

Definition set_of (l : radv_shader_layout) (s : Z) : radv_descriptor_set_layout :=
  at_ zero_radv_descriptor_set_layout (lay_set l) s.
Definition slot_of (l : radv_shader_layout) (k : Z * Z) : radv_descriptor_set_binding_layout :=
  at_ zero_radv_descriptor_set_binding_layout (sl_binding (set_of l k.1)) k.2.

(** A layout with room for every key. *)
Definition layout_wf (l : radv_shader_layout) : Prop :=
  Z.of_nat (length (lay_set l)) = PSBC_MAX_DESCRIPTOR_SETS /\
  forall s, 0 <= s < PSBC_MAX_DESCRIPTOR_SETS ->
    Z.of_nat (length (sl_binding (set_of l s))) = PSBC_MAX_DESCRIPTOR_BINDINGS.

Definition key_ok (k : Z * Z) : Prop :=
  0 <= k.1 < PSBC_MAX_DESCRIPTOR_SETS /\ 0 <= k.2 < PSBC_MAX_DESCRIPTOR_BINDINGS.

(** [l] lays out exactly [used]: every binding at its key, nothing at the other keys,
    sets and counts as large as needed and no larger. *)
Record lays_out (l : radv_shader_layout) (used : list PsbcDescriptorBinding) : Prop := {
  lo_binding : forall b, b ∈ used -> slot_of l (binding_key b) = binding_target b;
  lo_other : forall k, key_ok k -> k ∉ map binding_key used ->
    slot_of l k = zero_radv_descriptor_set_binding_layout;
  lo_num_sets : lay_num_sets l = largest (map (fun b => db_set b + 1) used);
  lo_binding_count : forall s, 0 <= s < PSBC_MAX_DESCRIPTOR_SETS ->
    sl_binding_count (set_of l s) = largest (map (fun b => db_binding b + 1) (of_set s used));
  lo_size : forall s, 0 <= s < PSBC_MAX_DESCRIPTOR_SETS ->
    sl_size (set_of l s) = largest (map binding_end (of_set s used))
}.

Lemma set_of_place b l s :
  layout_wf l -> key_ok (binding_key b) -> 0 <= s < PSBC_MAX_DESCRIPTOR_SETS ->
  set_of (place_binding b l) s =
    if s =? db_set b then
      set_of l s <| sl_binding := put (db_binding b) (binding_target b) (sl_binding (set_of l s)) |>
        <| sl_binding_count := Z.max (sl_binding_count (set_of l s)) (db_binding b + 1) |>
        <| sl_size := Z.max (sl_size (set_of l s)) (u32 (binding_end b)) |>
    else set_of l s.
Proof.
  intros [Hl _] [Hs Hb] Hr. unfold set_of, place_binding. cbn [lay_set set]. simpl in Hs.
  destruct (Z.eqb_spec s (db_set b)) as [->|Hne].
  - rewrite at_put_eq by lia. by rewrite !MAX2_max.
  - rewrite at_put_ne by lia. done.
Qed.

Lemma layout_wf_place b l : layout_wf l -> key_ok (binding_key b) -> layout_wf (place_binding b l).
Proof.
  intros Hwf Hk. split.
  - unfold place_binding. cbn. rewrite length_put. apply Hwf.
  - intros s Hs. rewrite (set_of_place b l s Hwf Hk Hs). destruct (s =? db_set b); [|by apply Hwf].
    cbn. rewrite length_put. by apply Hwf.
Qed.

Lemma slot_of_place b l k :
  layout_wf l -> key_ok (binding_key b) -> key_ok k ->
  slot_of (place_binding b l) k = if bool_decide (k = binding_key b) then binding_target b else slot_of l k.
Proof.
  intros Hwf Hb [Hk1 Hk2]. unfold slot_of. rewrite (set_of_place b l k.1 Hwf Hb Hk1).
  destruct k as [s n]. cbn [fst snd] in *. destruct Hwf as [_ Hlen]. destruct Hb as [_ Hb]. simpl in Hb.
  destruct (Z.eqb_spec s (db_set b)) as [->|Hne].
  - cbn. destruct (decide (n = db_binding b)) as [->|Hn].
    + rewrite bool_decide_true by done. rewrite at_put_eq; [done|]. rewrite Hlen by done. lia.
    + rewrite bool_decide_false by (intros [= ?]; done). rewrite at_put_ne by lia. done.
  - rewrite bool_decide_false by (intros [= ? ?]; done). done.
Qed.

Lemma of_set_snoc s l b : of_set s (l ++ [b]) = of_set s l ++ if s =? db_set b then [b] else [].
Proof.
  unfold of_set. rewrite filter_app. f_equal. rewrite filter_cons, filter_nil.
  destruct (Z.eqb_spec s (db_set b)); [by rewrite decide_True|by rewrite decide_False by congruence].
Qed.

Lemma lays_out_place b l used :
  layout_wf l -> key_ok (binding_key b) -> Forall (fun b => key_ok (binding_key b)) used ->
  0 <= binding_end b <= UINT32_MAX -> binding_key b ∉ map binding_key used ->
  lays_out l used -> lays_out (place_binding b l) (used ++ [b]).
Proof.
  intros Hwf Hk Hks He Hn [L1 L2 L3 L4 L5]. split.
  - intros c [Hc|Hc%list_elem_of_singleton]%elem_of_app.
    + rewrite slot_of_place; [|done|done|by apply (proj1 (Forall_forall _ _) Hks)].
      rewrite bool_decide_false; [by apply L1|]. intros E. apply Hn. rewrite <-E. by apply list_elem_of_fmap_2.
    + subst c. rewrite slot_of_place by done. by rewrite bool_decide_true.
  - intros k Hkk Hnk. rewrite map_app in Hnk. apply not_elem_of_app in Hnk as [Hnk Hnb].
    rewrite slot_of_place by done. rewrite bool_decide_false; [by apply L2|].
    intros ->. apply Hnb. by apply list_elem_of_singleton.
  - unfold place_binding. cbn. rewrite MAX2_max, map_app, L3. cbn [map]. by rewrite largest_snoc.
  - intros s Hs. rewrite set_of_place by done. rewrite of_set_snoc.
    destruct (s =? db_set b); [|by rewrite app_nil_r; apply L4].
    cbn. rewrite map_app, L4 by done. cbn [map]. by rewrite largest_snoc.
  - intros s Hs. rewrite set_of_place by done. rewrite of_set_snoc.
    destruct (s =? db_set b); [|by rewrite app_nil_r; apply L5].
    cbn. rewrite map_app, L5 by done. cbn [map]. rewrite largest_snoc, wrap_id; [done|].
    unfold in_width, UINT32_MAX in *. lia.
Qed.

Lemma layout_wf_zero : layout_wf zero_radv_shader_layout.
Proof.
  split; [done|]. intros s Hs. unfold set_of. cbn [lay_set zero_radv_shader_layout]. by rewrite at_replicate.
Qed.

Lemma lays_out_nil : lays_out zero_radv_shader_layout [].
Proof.
  split; [by intros b Hb%not_elem_of_nil| |done|..]; intros x Hx; unfold slot_of, set_of;
    cbn [lay_set zero_radv_shader_layout]; rewrite at_replicate; [|done..].
  intros _. cbn [sl_binding zero_radv_descriptor_set_layout]. by rewrite at_replicate.
Qed.

Lemma lays_out_all used :
  Forall (fun b => key_ok (binding_key b) /\ 0 <= binding_end b <= UINT32_MAX) used ->
  NoDup (map binding_key used) ->
  let l := foldl (fun l b => place_binding b l) zero_radv_shader_layout used in
  layout_wf l /\ lays_out l used.
Proof.
  induction used as [|b used IH] using rev_ind; intros Hall Hnd; cbv zeta.
  { split; [apply layout_wf_zero|apply lays_out_nil]. }
  apply Forall_app in Hall as [Hall [Hk He]%Forall_singleton].
  rewrite map_app in Hnd. apply NoDup_app in Hnd as (Hnd & Hn & _).
  destruct (IH Hall Hnd) as [Hwf Hl]. rewrite foldl_app. cbn [foldl].
  split; [by apply layout_wf_place|]. apply lays_out_place; try done.
  - eapply Forall_impl; [exact Hall|]. by intros ? [? _].
  - intros H. apply (Hn _ H). by apply list_elem_of_singleton.
Qed.

(** Fields the C types keep in range. *)
Definition declared_typed (b : PsbcDescriptorBinding) : Prop :=
  Validate.binding_wf b /\ in_width 8 (db_set b) /\ in_width 8 (db_binding b).

Lemma accepted_binding b :
  declared_typed b -> Validate.binding_ok b -> key_ok (binding_key b) /\ 0 <= binding_end b <= UINT32_MAX.
Proof.
  intros ((Ho & Ha & Hst) & Hs & Hb) (H1 & H2 & _ & _ & _ & _ & He). unfold in_width in *.
  split; [split; simpl; lia|]. unfold binding_end. split; [nia|exact He].
Qed.

Lemma loop_table {A B} (d : B) (f : B -> A -> A) (l : list B) n a :
  0 <= n <= Z.of_nat (length l) ->
  loop n (fun i => f (at_ d l i)) a = foldl (fun a b => f b a) a (take (Z.to_nat n) l).
Proof.
  intros Hn. pose proof (map_at_take d id l n Hn) as Ht. rewrite map_id in Ht. rewrite <-Ht. unfold loop, id.
  clear Hn Ht. revert a. induction (seqZ 0 n) as [|i k IH]; intros a; [done|]. cbn [foldl map]. apply IH.
Qed.

(** C18: for every descriptor layout that is accepted, the layout the compiler is
    given places each declared binding at its set and number with its type, offset,
    count and stride, leaves every other slot empty, and makes each set exactly as
    large - in bindings and in bytes, without wrapping - as its declarations need. *)
Theorem descriptor_layout_exact opts :
  let count := co_descriptor_binding_count opts in
  let bindings := co_descriptor_bindings opts in
  0 <= count <= PSBC_MAX_DESCRIPTOR_BINDINGS -> length bindings = Z.to_nat PSBC_MAX_DESCRIPTOR_BINDINGS ->
  Forall declared_typed bindings -> Validate.descriptor_bindings_valid count bindings = true ->
  lays_out (descriptor_layout opts) (take (Z.to_nat count) bindings).
Proof.
  cbv zeta. intros Hc Hlen Hty Hv. apply Validate.descriptor_bindings_valid_iff in Hv as [Hok Hnd]; [|done|done|].
  2: { eapply Forall_impl; [exact Hty|]. by intros b [? _]. }
  unfold descriptor_layout. rewrite (loop_table _ place_binding) by (rewrite Hlen; lia).
  apply lays_out_all; [|exact Hnd]. apply Forall_forall. intros b Hb. apply accepted_binding.
  - by apply (proj1 (Forall_forall _ _) (Forall_take _ (Z.to_nat (co_descriptor_binding_count opts)) _ Hty)).
  - by apply (proj1 (Forall_forall _ _) Hok).
Qed.

Lemma descriptor_layout_witness :
  let opts := zero_PsbcCompileOptions <| co_descriptor_binding_count := 2 |>
                <| co_descriptor_bindings := Validate.example_bindings |> in
  lays_out (descriptor_layout opts) (take 2 Validate.example_bindings) /\
  sl_size (set_of (descriptor_layout opts) 0) = 208.
Proof.
  intros opts. split; [|vm_compute; reflexivity]. apply (descriptor_layout_exact opts).
  - vm_compute. split; discriminate.
  - reflexivity.
  - repeat (apply Forall_cons_2; [vm_compute; intuition discriminate|]). apply Forall_nil_2.
  - vm_compute. reflexivity.
Defined.

(** ** Vertex inputs *)

(** The state of one location, and what an attribute asks of it. *)
Definition input_at (g : radv_graphics_state_key) (l : Z) : pipe_format * Z * Z * Z * Z * bool :=
  (at_ PIPE_FORMAT_NONE (gfx_vertex_attribute_formats g) l, at_ 0 (gfx_vertex_attribute_bindings g) l,
   at_ 0 (gfx_vertex_attribute_offsets g) l, at_ 0 (gfx_vertex_attribute_strides g) l,
   at_ 0 (gfx_instance_rate_divisors g) l, Z.testbit (gfx_instance_rate_inputs g) l).
Definition input_asked (a : PsbcVertexAttribute) : pipe_format * Z * Z * Z * Z * bool :=
  (default PIPE_FORMAT_NONE (pipe_format_of (va_format a)), va_binding a, va_offset a, va_stride a,
   va_instance_divisor a, truthy (va_instance_divisor a)).
Definition no_input : pipe_format * Z * Z * Z * Z * bool := (PIPE_FORMAT_NONE, 0, 0, 0, 0, false).

Definition accepted (target_ps5 : bool) (a : PsbcVertexAttribute) : Prop :=
  pipe_format_of (va_format a) <> None /\ attribute_refused target_ps5 a = false.

Definition attribute_typed (a : PsbcVertexAttribute) : Prop :=
  in_width 8 (va_location a) /\ in_width 8 (va_binding a).

Definition tables_full (g : radv_graphics_state_key) : Prop :=
  length (gfx_vertex_attribute_formats g) = 32%nat /\ length (gfx_vertex_attribute_bindings g) = 32%nat /\
  length (gfx_vertex_attribute_offsets g) = 32%nat /\ length (gfx_vertex_attribute_strides g) = 32%nat /\
  length (gfx_instance_rate_divisors g) = 32%nat /\ length (gfx_vertex_binding_align g) = 32%nat.

(** The vertex inputs of [g] are exactly [used]. *)
Record inputs_are (g : radv_graphics_state_key) (used : list PsbcVertexAttribute) : Prop := {
  in_full : tables_full g;
  in_valid : forall l, 0 <= l -> Z.testbit (gfx_attributes_valid g) l = bool_decide (l ∈ map va_location used);
  in_used : forall a, a ∈ used -> input_at g (va_location a) = input_asked a;
  in_other : forall l, 0 <= l < PSBC_MAX_VERTEX_ATTRIBUTES -> l ∉ map va_location used -> input_at g l = no_input;
  in_align : forall a, a ∈ used ->
    (forall c, c ∈ used -> va_binding c = va_binding a -> va_alignment c = va_alignment a) ->
    at_ 0 (gfx_vertex_binding_align g) (va_binding a) = u8 (va_alignment a)
}.

Lemma accepted_range ps5 a :
  attribute_typed a -> accepted ps5 a -> 0 <= va_location a < 32 /\ 0 <= va_binding a < 32.
Proof.
  intros [Hl Hb] [_ H]. unfold attribute_refused in H. rewrite !orb_false_iff, !Z.geb_leb, !Z.leb_gt in H.
  unfold in_width, PSBC_MAX_VERTEX_ATTRIBUTES, MAX_VBS in *. lia.
Qed.

Lemma tables_full_set a format g : tables_full g -> tables_full (set_attribute a format g).
Proof. unfold tables_full, set_attribute. destruct (truthy _); cbn; by rewrite !length_put. Qed.

Lemma valid_set a format g l :
  0 <= va_location a < 32 -> 0 <= l ->
  Z.testbit (gfx_attributes_valid (set_attribute a format g)) l =
    Z.testbit (gfx_attributes_valid g) l || (l =? va_location a).
Proof.
  intros Ha Hl.
  replace (gfx_attributes_valid (set_attribute a format g))
    with (gfx_attributes_valid g `lor` BITFIELD_BIT (va_location a))
    by (unfold set_attribute; by destruct (truthy _)).
  rewrite Z.lor_spec, BITFIELD_BIT_small, Z.pow2_bits_eqb, Z.eqb_sym by lia. done.
Qed.

Lemma input_set_other a format g l :
  0 <= va_location a < 32 -> 0 <= l -> l <> va_location a ->
  input_at (set_attribute a format g) l = input_at g l.
Proof.
  intros Ha Hl Hne. unfold input_at, set_attribute. destruct (truthy _); cbn; rewrite !at_put_ne by lia; [|done].
  rewrite Z.lor_spec, BITFIELD_BIT_small, Z.pow2_bits_false, orb_false_r by lia. done.
Qed.

Lemma input_set_same a format g :
  0 <= va_location a < 32 -> tables_full g -> input_at g (va_location a) = no_input ->
  pipe_format_of (va_format a) = Some format ->
  input_at (set_attribute a format g) (va_location a) = input_asked a.
Proof.
  intros Ha (H1 & H2 & H3 & H4 & H5 & _) [= _ _ _ _ Hd Hr] Hf.
  unfold input_at, input_asked, set_attribute. rewrite Hf. destruct (truthy (va_instance_divisor a)) eqn:Et; cbn.
  - rewrite !at_put_eq by lia. rewrite Z.lor_spec, BITFIELD_BIT_small, Z.pow2_bits_true, orb_true_r by lia. done.
  - rewrite !at_put_eq by lia. rewrite Hd, Hr. unfold truthy in Et. apply negb_false_iff, Z.eqb_eq in Et. by rewrite Et.
Qed.

Lemma inputs_are_snoc ps5 a g g' used :
  Forall attribute_typed used -> Forall (accepted ps5) used ->
  attribute_typed a -> va_location a ∉ map va_location used -> add_attribute ps5 a g = Some g' ->
  inputs_are g used -> inputs_are g' (used ++ [a]).
Proof.
  intros Hty Hacc Ht Hn Hadd [F V U O A]. unfold add_attribute in Hadd.
  destruct (pipe_format_of (va_format a)) as [format|] eqn:Ef; [|done].
  destruct (attribute_refused ps5 a) eqn:Er; [done|]. injection Hadd as <-.
  assert (accepted ps5 a) as Ha by (split; [by rewrite Ef|done]).
  destruct (accepted_range ps5 a Ht Ha) as [Hl Hb]. rewrite Forall_forall in Hty, Hacc. split.
  - by apply tables_full_set.
  - intros l Hl'. rewrite valid_set, V, map_app by done. apply eq_bool_prop_intro.
    rewrite bool_decide_spec, orb_True, bool_decide_spec, elem_of_app. cbn [map].
    rewrite list_elem_of_singleton, Is_true_true, Z.eqb_eq. done.
  - intros c [Hc|Hc%list_elem_of_singleton]%elem_of_app.
    + destruct (accepted_range ps5 c (Hty c Hc) (Hacc c Hc)) as [Hlc _].
      rewrite input_set_other; [by apply U|done|lia|]. intros E. apply Hn. rewrite <-E. by apply list_elem_of_fmap_2.
    + subst c. apply input_set_same; [done|done|by apply O|done].
  - intros l Hl' Hnl. rewrite map_app in Hnl. apply not_elem_of_app in Hnl as [Hnl Hna].
    rewrite input_set_other; [by apply O|done|lia|]. intros ->. apply Hna. by apply list_elem_of_singleton.
  - intros c Hc Hsame. replace (gfx_vertex_binding_align (set_attribute a format g))
      with (put (va_binding a) (u8 (va_alignment a)) (gfx_vertex_binding_align g))
      by (unfold set_attribute; by destruct (truthy _)).
    assert (Z.of_nat (length (gfx_vertex_binding_align g)) = 32) as Hlen by (destruct F as (_ & _ & _ & _ & _ & ->); done).
    destruct (decide (va_binding c = va_binding a)) as [E|E].
    + rewrite E, at_put_eq by lia. rewrite (Hsame a); [done| |done]. apply elem_of_app. right. by left.
    + apply elem_of_app in Hc as [Hc|Hc%list_elem_of_singleton]; [|congruence].
      destruct (accepted_range ps5 c (Hty c Hc) (Hacc c Hc)) as [_ Hbc]. rewrite at_put_ne by lia.
      apply A; [done|]. intros d Hd. apply Hsame, elem_of_app. by left.
Qed.

Lemma add_attribute_accepted ps5 a g : is_Some (add_attribute ps5 a g) <-> accepted ps5 a.
Proof.
  unfold add_attribute, accepted. destruct (pipe_format_of (va_format a)), (attribute_refused ps5 a); split;
    try (intros [? ?]; done); by eauto.
Qed.

Lemma try_each_accepted ps5 l g : is_Some (try_each (add_attribute ps5) l g) <-> Forall (accepted ps5) l.
Proof.
  revert g. induction l as [|a l IH]; intros g; cbn [try_each]; [by rewrite Forall_nil; eauto|].
  rewrite Forall_cons, <-(add_attribute_accepted ps5 a g). destruct (add_attribute ps5 a g) as [g'|].
  - rewrite IH. naive_solver.
  - split; [by intros [? ?]|]. intros [[? ?] _]. done.
Qed.

Lemma inputs_are_all ps5 l g g' :
  try_each (add_attribute ps5) l g = Some g' -> inputs_are g [] ->
  Forall attribute_typed l -> NoDup (map va_location l) -> inputs_are g' l.
Proof.
  intros Ht Hg Hty Hnd.
  enough (Forall attribute_typed l -> NoDup (map va_location l) ->
          inputs_are g' l /\ Forall (accepted ps5) l) as H by by apply H.
  clear Hty Hnd.
  apply (try_each_ind (fun l g => Forall attribute_typed l -> NoDup (map va_location l) ->
    inputs_are g l /\ Forall (accepted ps5) l) _ _ _ _ Ht); [by split|].
  intros used a g1 g2 IH Hadd [Hty Hta]%Forall_app Hnd. rewrite Forall_singleton in Hta.
  rewrite map_app in Hnd. apply NoDup_app in Hnd as (Hnd & Hn & _).
  destruct (IH Hty Hnd) as [Hi Hacc]. split.
  - apply (inputs_are_snoc ps5 a g1 g2 used Hty Hacc Hta); [|exact Hadd|exact Hi]. intros H. apply (Hn _ H). by apply list_elem_of_singleton.
  - apply Forall_app. split; [done|]. apply Forall_singleton, (add_attribute_accepted _ _ g1). by eexists.
Qed.

Lemma base_inputs opts dual g : base_graphics_state opts dual = Some g -> inputs_are g [].
Proof.
  unfold base_graphics_state. cbv zeta. destruct (negb _); [done|]. destruct (topology_of _) as [t|]; [|done].
  intros [= <-].
  assert (forall l, 0 <= l -> input_at zero_radv_graphics_state_key l = no_input) as Hz.
  { intros l Hl. unfold input_at. cbn [gfx_vertex_attribute_formats gfx_vertex_attribute_bindings
      gfx_vertex_attribute_offsets gfx_vertex_attribute_strides gfx_instance_rate_divisors
      gfx_instance_rate_inputs zero_radv_graphics_state_key]. by rewrite !at_replicate, Z.testbit_0_l. }
  assert (inputs_are zero_radv_graphics_state_key []) as [F V U O A].
  { split; [by vm_compute| | | |]; try (intros ? ?%not_elem_of_nil; done).
    - intros l Hl. by rewrite Z.testbit_0_l.
    - intros l Hl _. apply Hz. lia. }
  unfold color_state. cbv zeta. destruct dual; split; assumption.
Qed.


Definition example_attributes : list PsbcVertexAttribute :=
  [mkPsbcVertexAttribute 0 0 PSBC_VERTEX_FORMAT_R32G32B32_FLOAT 0 32 4 0;
   mkPsbcVertexAttribute 3 1 PSBC_VERTEX_FORMAT_R8G8B8A8_UNORM 12 16 4 1] ++ replicate 30 zero_PsbcVertexAttribute.


End SetupSpec.
