(* ===== verification/Threads.v ===== *)
(** * Initialization shared between threads

    psbc_init and psbc_shutdown of psbc_compile.c, statement by statement, as run by
    any number of threads in any order: the mutex, the reference count with its load
    and store apart, and Mesa's type cache.  A compile is one of these threads between
    its psbc_init and its psbc_shutdown, and clients may hold references of their own.

    The rest of the library takes both functions as single steps; the refinement
    theorem here is the reason it may. *)

From S2P Require Import Prelude Types Mesa Nir ShaderUtil Setup.

Module Threads.
Import Setup.

(** ** The shared state *)

(** glsl_type_cache: its users and whether its memory exists. *)
(** The type cache of Mesa, shared by every compile. *)
Record glsl_type_cache : Type := mk_glsl_type_cache {
  gc_users : Z;
  gc_mem_ctx : bool
}.

#[export] Instance eta_glsl_type_cache : Eta glsl_type_cache := fun r =>
  mk_glsl_type_cache r.(gc_users) r.(gc_mem_ctx).

Definition zero_glsl_type_cache : glsl_type_cache := {|
  gc_users := 0;
  gc_mem_ctx := false
|}.

Definition glsl_type_singleton_init_or_ref (c : glsl_type_cache) : glsl_type_cache :=
  let c := if gc_users c =? 0 then c <| gc_mem_ctx := true |> else c in
  c <| gc_users := gc_users c + 1 |>.

(** [None]: the assertion on the number of users fails. *)
Definition glsl_type_singleton_decref (c : glsl_type_cache) : option glsl_type_cache :=
  if gc_users c >? 0 then
    if gc_users c - 1 =? 0 then Some zero_glsl_type_cache
    else Some (c <| gc_users := gc_users c - 1 |>)
  else None.

(** Globals: the mutex with its holder, the count, the cache, and whether a thread
    used a dead cache or an assertion failed. *)
(** What the threads share. *)
Record Shared : Type := mk_Shared {
  sh_mutex : option nat;
  sh_refcount : Z;
  sh_cache : glsl_type_cache;
  sh_fault : bool
}.

#[export] Instance eta_Shared : Eta Shared := fun r =>
  mk_Shared r.(sh_mutex) r.(sh_refcount) r.(sh_cache) r.(sh_fault).

Definition zero_Shared : Shared := {|
  sh_mutex := None;
  sh_refcount := 0;
  sh_cache := zero_glsl_type_cache;
  sh_fault := false
|}.

(** ** A thread *)

(** The statement a thread is about to execute. *)
Inductive point : Type :=
| outside
| init_lock | init_load | init_store (v : Z) | init_ref | init_unlock
| down_lock | down_test | down_load | down_store (v : Z) | down_decref | down_unlock.

(** References it holds, and where it is. *)
Record Thread : Type := mk_Thread { th_depth : nat; th_point : point }.

(** What a thread outside does next: shutdown and the use of types need a reference. *)
Inductive choice : Type := call_init | call_shutdown | use_types.

(** One statement of thread [t]; [None] when it cannot run now. *)
Definition advance (c : choice) (t : nat) (sh : Shared) (th : Thread) : option (Shared * Thread) :=
  let n := th_depth th in
  let lock next :=
    match sh_mutex sh with
    | None => Some (sh <| sh_mutex := Some t |>, mk_Thread n next)
    | Some _ => None
    end in
  match th_point th with
  | outside =>
      match c, n with
      | call_init, _ => Some (sh, mk_Thread n init_lock)
      | _, O => None
      | call_shutdown, _ => Some (sh, mk_Thread n down_lock)
      | use_types, _ => Some (if gc_mem_ctx (sh_cache sh) then sh else sh <| sh_fault := true |>, th)
      end
  | init_lock => lock init_load
  | init_load => Some (sh, mk_Thread n (init_store (sh_refcount sh)))
  | init_store v =>
      Some (sh <| sh_refcount := v + 1 |>, mk_Thread n (if v =? 0 then init_ref else init_unlock))
  | init_ref =>
      Some (sh <| sh_cache := glsl_type_singleton_init_or_ref (sh_cache sh) |>, mk_Thread n init_unlock)
  | init_unlock => Some (sh <| sh_mutex := None |>, mk_Thread (S n) outside)
  | down_lock => lock down_test
  | down_test => Some (sh, mk_Thread n (if sh_refcount sh >? 0 then down_load else down_unlock))
  | down_load => Some (sh, mk_Thread n (down_store (sh_refcount sh)))
  | down_store v =>
      Some (sh <| sh_refcount := v - 1 |>, mk_Thread n (if v - 1 =? 0 then down_decref else down_unlock))
  | down_decref =>
      Some (match glsl_type_singleton_decref (sh_cache sh) with
            | Some cache => sh <| sh_cache := cache |>
            | None => sh <| sh_fault := true |>
            end, mk_Thread n down_unlock)
  | down_unlock => Some (sh <| sh_mutex := None |>, mk_Thread (pred n) outside)
  end.

(** ** All threads *)

Record System : Type := mk_System { sys_shared : Shared; sys_threads : list Thread }.

(** [count] threads, none of which has called anything. *)
Definition start (count : nat) : System := mk_System zero_Shared (replicate count (mk_Thread 0 outside)).

(** Thread [t] executes a statement. *)
Definition run (t : nat) (c : choice) (s : System) : option System :=
  th ← sys_threads s !! t;
  '(sh, th) ← advance c t (sys_shared s) th;
  Some (mk_System sh (<[t := th]> (sys_threads s))).

Inductive reachable (count : nat) : System -> Prop :=
| reachable_start : reachable count (start count)
| reachable_step s t c s' : reachable count s -> run t c s = Some s' -> reachable count s'.

(** ** The invariant *)

(** Between lock and unlock. *)
Definition in_section (p : point) : bool :=
  match p with outside | init_lock | down_lock => false | _ => true end.

(** The references of a thread that the count includes. *)
Definition counted (th : Thread) : nat :=
  match th_point th with
  | init_ref | init_unlock => S (th_depth th)
  | down_decref | down_unlock => pred (th_depth th)
  | _ => th_depth th
  end.

(** What a thread knows where it is. *)
Definition knows (refcount : Z) (th : Thread) : Prop :=
  match th_point th with
  | init_store v => v = refcount
  | init_ref => refcount = 1
  | down_lock | down_test | down_load | down_unlock => (0 < th_depth th)%nat
  | down_store v => (0 < th_depth th)%nat /\ v = refcount
  | down_decref => (0 < th_depth th)%nat /\ refcount = 0
  | _ => True
  end.

(** Users of the cache: one while the count is positive, except between the store of
    a count and the call that follows it. *)
Definition cache_users (holder : option point) (refcount : Z) : Z :=
  match holder with
  | Some init_ref => 0
  | Some down_decref => 1
  | _ => b2z (refcount >? 0)
  end.

Definition holder (s : System) : option point :=
  t ← sh_mutex (sys_shared s); th_point <$> sys_threads s !! t.

Record inv (s : System) : Prop := {
  inv_mutex : forall t th, sys_threads s !! t = Some th ->
    in_section (th_point th) = true <-> sh_mutex (sys_shared s) = Some t;
  inv_held : forall t, sh_mutex (sys_shared s) = Some t -> is_Some (sys_threads s !! t);
  inv_count : sh_refcount (sys_shared s) = Z.of_nat (sum_list_with counted (sys_threads s));
  inv_knows : forall t th, sys_threads s !! t = Some th -> knows (sh_refcount (sys_shared s)) th;
  inv_users : gc_users (sh_cache (sys_shared s)) = cache_users (holder s) (sh_refcount (sys_shared s));
  inv_alive : gc_mem_ctx (sh_cache (sys_shared s)) = (gc_users (sh_cache (sys_shared s)) >? 0);
  inv_fault : sh_fault (sys_shared s) = false
}.

Lemma sum_insert (l : list Thread) t th th' :
  l !! t = Some th ->
  (sum_list_with counted (<[t := th']> l) + counted th = sum_list_with counted l + counted th')%nat.
Proof.
  revert t. induction l as [|x l IH]; intros [|t] Hl; simplify_eq/=; [lia|]. specialize (IH t Hl). lia.
Qed.

Lemma counted_le s t th : sys_threads s !! t = Some th -> (counted th <= sum_list_with counted (sys_threads s))%nat.
Proof. intros Ht. apply sum_list_with_in. by eapply list_elem_of_lookup_2. Qed.

(** Two threads of the list are counted apart. *)
Lemma counted_two (l : list Thread) t u th uh :
  l !! t = Some th -> l !! u = Some uh -> t <> u ->
  (counted th + counted uh <= sum_list_with counted l)%nat.
Proof.
  intros Ht Hu Hne. pose proof (sum_insert l t th (mk_Thread 0 outside) Ht) as Hs.
  assert (counted uh <= sum_list_with counted (<[t := mk_Thread 0 outside]> l))%nat as Hle.
  { apply sum_list_with_in. apply (list_elem_of_lookup_2 _ u). by rewrite list_lookup_insert_ne. }
  change (counted (mk_Thread 0 outside)) with 0%nat in Hs. lia.
Qed.

(** A thread outside its section knows nothing about the count. *)
Lemma knows_outside r r' th : in_section (th_point th) = false -> knows r th -> knows r' th.
Proof. unfold knows. by destruct (th_point th). Qed.

(** The thread that holds the mutex after a step of [t]. *)
Definition holder_after (s : System) (t : nat) (sh : Shared) (th : Thread) : option point :=
  match sh_mutex sh with
  | Some u => if decide (u = t) then Some (th_point th) else holder s
  | None => None
  end.

Lemma inv_update s t th sh' th' :
  inv s -> sys_threads s !! t = Some th ->
  (in_section (th_point th') = true <-> sh_mutex sh' = Some t) ->
  (forall u, u <> t -> sh_mutex sh' = Some u <-> sh_mutex (sys_shared s) = Some u) ->
  sh_refcount sh' + Z.of_nat (counted th) = sh_refcount (sys_shared s) + Z.of_nat (counted th') ->
  knows (sh_refcount sh') th' ->
  sh_refcount sh' = sh_refcount (sys_shared s) \/ sh_mutex (sys_shared s) = Some t ->
  gc_users (sh_cache sh') = cache_users (holder_after s t sh' th') (sh_refcount sh') ->
  gc_mem_ctx (sh_cache sh') = (gc_users (sh_cache sh') >? 0) -> sh_fault sh' = false ->
  inv (mk_System sh' (<[t := th']> (sys_threads s))).
Proof.
  intros [M H C K U A F] Ht Hm Ho Hc Hk Hr Hu Ha Hf.
  pose proof (lookup_lt_Some _ _ _ Ht) as Hlt. split; cbn [sys_shared sys_threads].
  - intros u uh Hl. destruct (decide (u = t)) as [->|Hne].
    + rewrite list_lookup_insert_eq in Hl by done. by injection Hl as <-.
    + rewrite list_lookup_insert_ne in Hl by done. rewrite Ho by done. by apply M.
  - intros u Hl. apply lookup_lt_is_Some. rewrite length_insert. destruct (decide (u = t)) as [->|Hne]; [done|].
    apply lookup_lt_is_Some, H. by apply Ho.
  - pose proof (sum_insert _ _ _ th' Ht). lia.
  - intros u uh Hl. destruct (decide (u = t)) as [->|Hne].
    + rewrite list_lookup_insert_eq in Hl by done. by injection Hl as <-.
    + rewrite list_lookup_insert_ne in Hl by done. destruct Hr as [->|Hr]; [by eapply K|].
      apply (knows_outside (sh_refcount (sys_shared s))); [|by eapply K].
      destruct (in_section (th_point uh)) eqn:E; [|done]. apply (M u uh Hl) in E. congruence.
  - rewrite Hu. unfold holder_after, holder. cbn [sys_shared sys_threads].
    destruct (sh_mutex sh') as [u|] eqn:Em; [|done]. cbn [mbind option_bind].
    destruct (decide (u = t)) as [->|Hne]; [by rewrite list_lookup_insert_eq|].
    rewrite list_lookup_insert_ne by done. by rewrite (proj1 (Ho u Hne) eq_refl).
  - done.
  - done.
Qed.

Lemma holder_self s t th :
  inv s -> sys_threads s !! t = Some th -> in_section (th_point th) = true ->
  sh_mutex (sys_shared s) = Some t /\ holder s = Some (th_point th).
Proof.
  intros I Ht Hs. apply (inv_mutex s I t th Ht) in Hs. split; [done|]. unfold holder. rewrite Hs. cbn. by rewrite Ht.
Qed.

(** A thread that is not in its section and holds a reference finds the cache alive:
    the exceptions of [cache_users] leave no room for its reference. *)
Lemma alive_outside s t th :
  inv s -> sys_threads s !! t = Some th -> in_section (th_point th) = false -> (0 < th_depth th)%nat ->
  gc_mem_ctx (sh_cache (sys_shared s)) = true.
Proof.
  intros I Ht Hs Hd. rewrite (inv_alive s I), (inv_users s I). pose proof (inv_count s I) as Hc.
  assert (counted th = th_depth th) as Hth by (unfold counted; by destruct (th_point th)).
  pose proof (counted_le s t th Ht) as Hle. unfold holder.
  destruct (sh_mutex (sys_shared s)) as [u|] eqn:Em; cbn; [|destruct (Z.gtb_spec (sh_refcount (sys_shared s)) 0); [done|lia]].
  destruct (inv_held s I u Em) as [uh Hu]. rewrite Hu. cbn. pose proof (inv_knows s I u uh Hu) as Hk.
  assert (u <> t) as Hne by (intros ->; apply (inv_mutex s I t th Ht) in Em; congruence).
  pose proof (counted_two _ _ _ _ _ Ht Hu (not_eq_sym Hne)) as H2. unfold knows, counted in *.
  destruct (th_point uh); cbn [cache_users]; try (destruct (Z.gtb_spec (sh_refcount (sys_shared s)) 0); [done|lia]); lia.
Qed.

(** Unfold what the invariant says of the thread that runs. *)
Ltac thread_facts I Ht Ep :=
  pose proof (inv_mutex _ I _ _ Ht) as Hm; pose proof (inv_knows _ I _ _ Ht) as Hk;
  pose proof (inv_users _ I) as Hu; pose proof (inv_alive _ I) as Ha; pose proof (inv_fault _ I) as Hf;
  pose proof (inv_count _ I) as Hc; unfold knows in Hk; rewrite Ep in Hm, Hk; cbn [in_section] in Hm.

(** A statement inside the section: the thread keeps the mutex or gives it back. *)
Ltac in_section_step s t th I Ht Ep :=
  let Hl := fresh "Hl" in let Hh := fresh "Hh" in
  destruct (holder_self s t th I Ht) as [Hl Hh]; [by rewrite Ep|]; rewrite Hh, Ep in *;
  apply (inv_update s t th _ _ I Ht); unfold holder_after; cbn;
  [ rewrite ?Hl; try done
  | intros u Hne; rewrite ?Hl; try (split; congruence)
  | unfold counted; rewrite Ep; cbn
  |
  | try (by right)
  | rewrite ?Hl, ?decide_True by done
  |
  | ].

Lemma inv_section s t c th sh' th' :
  inv s -> sys_threads s !! t = Some th -> in_section (th_point th) = true ->
  advance c t (sys_shared s) th = Some (sh', th') -> inv (mk_System sh' (<[t := th']> (sys_threads s))).
Proof.
  intros I Ht Hs Ea. unfold advance in Ea.
  destruct (th_point th) eqn:Ep; try discriminate Hs; thread_facts I Ht Ep; injection Ea as <- <-.
  - in_section_step s t th I Ht Ep; try done; lia.
  - in_section_step s t th I Ht Ep; try done.
    + by destruct (v =? 0).
    + destruct (v =? 0); cbn; lia.
    + destruct (Z.eqb_spec v 0); cbn; [lia|done].
    + rewrite Hu. subst v. destruct (Z.eqb_spec (sh_refcount (sys_shared s)) 0) as [->|]; cbn; [done|].
      destruct (Z.gtb_spec (sh_refcount (sys_shared s)) 0), (Z.gtb_spec (sh_refcount (sys_shared s) + 1) 0); (done || lia).
  - in_section_step s t th I Ht Ep; try done; unfold glsl_type_singleton_init_or_ref; cbn in Hu; rewrite Hu; cbn.
    + by rewrite Hk, Hu.
    + by rewrite Hu.
  - in_section_step s t th I Ht Ep; try done; cbn; lia || by rewrite Hu.
  - pose proof (counted_le s t th Ht) as Hle. unfold counted at 1 in Hle. rewrite Ep in Hle.
    destruct (Z.gtb_spec (sh_refcount (sys_shared s)) 0); [|lia].
    in_section_step s t th I Ht Ep; try done; lia.
  - in_section_step s t th I Ht Ep; try done; lia.
  - destruct Hk as [Hd ->]. in_section_step s t th I Ht Ep; try done.
    + by destruct (_ =? 0).
    + destruct (_ =? 0); cbn; lia.
    + destruct (Z.eqb_spec (sh_refcount (sys_shared s) - 1) 0); cbn; lia || done.
    + rewrite Hu. cbn. pose proof (counted_le s t th Ht) as Hle. unfold counted at 1 in Hle. rewrite Ep in Hle.
      destruct (Z.eqb_spec (sh_refcount (sys_shared s) - 1) 0) as [E|]; cbn;
        destruct (Z.gtb_spec (sh_refcount (sys_shared s)) 0); try lia; try done.
      by destruct (Z.gtb_spec (sh_refcount (sys_shared s) - 1) 0); [|lia].
  - destruct Hk as [Hd Hr].
    assert (glsl_type_singleton_decref (sh_cache (sys_shared s)) = Some zero_glsl_type_cache) as ->.
    { destruct (holder_self s t th I Ht) as [_ Hh]; [by rewrite Ep|]. rewrite Hh, Ep in Hu. cbn in Hu.
      unfold glsl_type_singleton_decref. by rewrite Hu. }
    in_section_step s t th I Ht Ep; try done. cbn. by rewrite Hr.
  - in_section_step s t th I Ht Ep; try done; cbn; lia || by rewrite Hu.
Qed.

(** Every statement of every thread keeps the invariant. *)
Lemma inv_step s t c s' : inv s -> run t c s = Some s' -> inv s'.
Proof.
  intros I. unfold run. destruct (sys_threads s !! t) as [th|] eqn:Ht; [|done]. cbn [mbind option_bind].
  destruct (advance c t (sys_shared s) th) as [[sh' th']|] eqn:Ea; [|done]. intros [= <-].
  destruct (in_section (th_point th)) eqn:Es; [by eapply inv_section|].
  pose proof (inv_mutex s I t th Ht) as Hm. rewrite Es in Hm.
  assert (sh_mutex (sys_shared s) <> Some t) as Hout by (intros E; by apply Hm in E).
  assert (forall next, (in_section next = false) -> knows (sh_refcount (sys_shared s)) (mk_Thread (th_depth th) next) ->
    inv (mk_System (sys_shared s) (<[t := mk_Thread (th_depth th) next]> (sys_threads s)))) as Hstay.
  { intros next Hn Hk. pose proof (inv_users s I) as Hu.
    apply (inv_update s t th _ _ I Ht); cbn; rewrite ?Hn; try done.
    - unfold counted. cbn. by destruct (th_point th), next.
    - by left.
    - rewrite Hu. unfold holder_after, holder. destruct (sh_mutex (sys_shared s)) as [u|]; [|done].
      rewrite decide_False by congruence. done.
    - apply (inv_alive s I).
    - apply (inv_fault s I). }
  assert (forall next, knows (sh_refcount (sys_shared s)) (mk_Thread (th_depth th) next) ->
    sh_mutex (sys_shared s) = None -> next = init_load \/ next = down_test ->
    inv (mk_System (sys_shared s <| sh_mutex := Some t |>)
      (<[t := mk_Thread (th_depth th) next]> (sys_threads s)))) as Hlock.
  { intros next Hk Hn Hnext. pose proof (inv_users s I) as Hu. unfold holder in Hu. rewrite Hn in Hu.
    apply (inv_update s t th _ _ I Ht); cbn; try done.
    - by destruct Hnext as [-> | ->].
    - intros u Hne. rewrite Hn. split; congruence.
    - unfold counted. cbn. by destruct (th_point th), Hnext as [-> | ->].
    - by left.
    - rewrite Hu. unfold holder_after. cbn. rewrite decide_True by done. by destruct Hnext as [-> | ->].
    - apply (inv_alive s I).
    - apply (inv_fault s I). }
  pose proof (inv_knows s I t th Ht) as Hk. unfold advance in Ea.
  destruct (th_point th) eqn:Ep; try discriminate Es.
  - destruct c, (th_depth th) as [|n] eqn:Ed; try discriminate Ea.
    1, 2: injection Ea as <- <-; by apply Hstay.
    + injection Ea as <- <-. apply Hstay; [done|]. unfold knows. cbn. lia.
    + rewrite (alive_outside s t th I Ht) in Ea by (rewrite ?Ep, ?Ed; done || lia). injection Ea as <- <-.
      rewrite <-Ed in Hstay. destruct th as [d p]. cbn in *. subst p. by apply Hstay.
  - destruct (sh_mutex (sys_shared s)) eqn:Em; [discriminate|]. injection Ea as <- <-. by apply Hlock; [..|left].
  - destruct (sh_mutex (sys_shared s)) eqn:Em; [discriminate|]. injection Ea as <- <-.
    apply Hlock; [|done|by right]. unfold knows in *. rewrite Ep in Hk. exact Hk.
Qed.

Lemma inv_start count : inv (start count).
Proof.
  assert (sum_list_with counted (replicate count (mk_Thread 0 outside)) = 0%nat) as Hsum
    by (induction count as [|n IH]; [done|exact IH]).
  split; cbn; try done; try (intros t th [-> _]%lookup_replicate; done). by rewrite Hsum.
Qed.

Lemma reachable_inv count s : reachable count s -> inv s.
Proof. induction 1 as [|s t c s' _ I Hr]; [apply inv_start|by eapply inv_step]. Qed.

(** ** Theorems *)

(** C9: however many threads initialize, compile and shut down, and however their
    statements interleave, the type cache exists whenever a thread holds a reference,
    no assertion of the cache fails, one thread at a time is inside the section, the
    count is the number of references, and the cache is released with the last one. *)
Theorem init_threads_safe count s :
  reachable count s ->
  sh_fault (sys_shared s) = false /\
  (forall t th, sys_threads s !! t = Some th -> in_section (th_point th) = false -> (0 < th_depth th)%nat ->
     gc_mem_ctx (sh_cache (sys_shared s)) = true) /\
  (forall t u th uh, sys_threads s !! t = Some th -> sys_threads s !! u = Some uh ->
     in_section (th_point th) = true -> in_section (th_point uh) = true -> t = u) /\
  sh_refcount (sys_shared s) = Z.of_nat (sum_list_with counted (sys_threads s)) /\
  (Forall (fun th => th = mk_Thread 0 outside) (sys_threads s) -> sh_cache (sys_shared s) = zero_glsl_type_cache).
Proof.
  intros Hr. pose proof (reachable_inv count s Hr) as I. split_and!.
  - apply (inv_fault s I).
  - intros t th. by apply alive_outside.
  - intros t u th uh Ht Hu Hst Hsu. apply (inv_mutex s I t th Ht) in Hst. apply (inv_mutex s I u uh Hu) in Hsu.
    congruence.
  - apply (inv_count s I).
  - intros Hall.
    assert (sum_list_with counted (sys_threads s) = 0%nat) as Hsum by (induction Hall as [|? ? -> ? IH]; [done|exact IH]).
    assert (holder s = None \/ holder s = Some outside) as Hh.
    { unfold holder. destruct (sh_mutex (sys_shared s)) as [u|] eqn:Em; [|by left].
      destruct (inv_held s I u Em) as [uh Hu]. cbn. rewrite Hu. right. by rewrite (Forall_lookup_1 _ _ _ _ Hall Hu). }
    pose proof (inv_users s I) as Hu. rewrite (inv_count s I), Hsum in Hu.
    pose proof (inv_alive s I) as Ha. destruct (sh_cache (sys_shared s)) as [users alive]. cbn in *.
    assert (users = 0) as -> by (by destruct Hh as [E|E]; rewrite E in Hu). by rewrite Ha.
Qed.

(** The state the sequential model keeps: a count and whether the types are alive. *)
Definition abstract (s : System) : InitState :=
  mk_InitState (sh_refcount (sys_shared s)) (sh_refcount (sys_shared s) >? 0).

(** The effect of a statement on it: the two stores are the calls. *)
Definition effect (p : point) : InitState -> InitState :=
  match p with
  | init_store _ => psbc_init
  | down_store _ => psbc_shutdown
  | _ => fun i => i
  end.

Definition count_state (r : Z) : InitState := mk_InitState r (r >? 0).

Lemma count_state_init r : 0 <= r -> count_state (r + 1) = psbc_init (count_state r).
Proof.
  intros Hr. unfold psbc_init, count_state. cbn.
  destruct (Z.gtb_spec (r + 1) 0); [|lia]. destruct (Z.eqb_spec r 0) as [->|]; [done|]. cbn.
  destruct (Z.gtb_spec r 0); [done|lia].
Qed.

Lemma count_state_shutdown r : 0 < r -> count_state (r - 1) = psbc_shutdown (count_state r).
Proof.
  intros Hr. unfold psbc_shutdown, count_state. cbn. destruct (Z.gtb_spec r 0); [|lia]. cbn.
  destruct (Z.eqb_spec (r - 1) 0) as [->|]; [done|]. destruct (Z.gtb_spec (r - 1) 0); [done|lia].
Qed.

Lemma advance_effect s t c th sh' th' :
  inv s -> sys_threads s !! t = Some th -> advance c t (sys_shared s) th = Some (sh', th') ->
  count_state (sh_refcount sh') = effect (th_point th) (count_state (sh_refcount (sys_shared s))).
Proof.
  intros I Ht Ea. pose proof (inv_knows s I t th Ht) as Hk. pose proof (inv_count s I) as Hc.
  pose proof (counted_le s t th Ht) as Hle. unfold counted in Hle at 1. unfold knows in Hk.
  unfold advance in Ea. destruct (th_point th) eqn:Ep; cbn [effect].
  4: { injection Ea as <- <-. cbn. subst v. apply count_state_init. lia. }
  9: { injection Ea as <- <-. destruct Hk as [Hd ->]. cbn. apply count_state_shutdown. lia. }
  all: repeat case_match; try discriminate Ea; injection Ea as <- <-; reflexivity.
Qed.

(** Executing given statements; [None] when one of them cannot run. *)
Fixpoint run_all (steps : list (nat * choice)) (s : System) : option System :=
  match steps with [] => Some s | (t, c) :: steps => run t c s ≫= run_all steps end.

(** The calls of the interface. *)
Inductive call : Type := Init | Shutdown.

Definition sequential (k : call) : InitState -> InitState :=
  match k with Init => psbc_init | Shutdown => psbc_shutdown end.

(** A call is made at the statement after [outside], and has its effect at the store. *)
Definition made (p : point) (c : choice) : list call :=
  match p, c with
  | outside, call_init => [Init]
  | outside, call_shutdown => [Shutdown]
  | _, _ => []
  end.
Definition effective (p : point) : list call :=
  match p with init_store _ => [Init] | down_store _ => [Shutdown] | _ => [] end.

(** Made, without effect so far. *)
Definition pending (p : point) : list call :=
  match p with
  | init_lock | init_load | init_store _ => [Init]
  | down_lock | down_test | down_load | down_store _ => [Shutdown]
  | _ => []
  end.

(** What a run records of its statements, with the thread. *)
Fixpoint record (event : point -> choice -> list call) (steps : list (nat * choice)) (s : System) :
    list (nat * call) :=
  match steps with
  | [] => []
  | (t, c) :: steps =>
      match sys_threads s !! t, run t c s with
      | Some th, Some s' => map (pair t) (event (th_point th) c) ++ record event steps s'
      | _, _ => []
      end
  end.

Definition calls_made := record made.
Definition calls_effective := record (fun p _ => effective p).

(** The calls of one thread. *)
Definition calls_of (t : nat) (l : list (nat * call)) : list call :=
  snd <$> filter (fun e => e.1 = t) l.

Lemma calls_of_app t l l' : calls_of t (l ++ l') = calls_of t l ++ calls_of t l'.
Proof. unfold calls_of. by rewrite filter_app, fmap_app. Qed.

Lemma calls_of_thread t u l : calls_of t (map (pair u) l) = if decide (u = t) then l else [].
Proof.
  unfold calls_of. induction l as [|k l IH]; [by case_decide|].
  cbn [map]. rewrite filter_cons. cbn [fst]. case_decide; [|done]. cbn. by rewrite IH.
Qed.

Lemma effect_sequential p i : effect p i = foldl (fun i k => sequential k i) i (effective p).
Proof. by destruct p. Qed.

Lemma run_Some t c s s' :
  run t c s = Some s' ->
  exists th sh th', sys_threads s !! t = Some th /\ advance c t (sys_shared s) th = Some (sh, th') /\
    s' = mk_System sh (<[t := th']> (sys_threads s)).
Proof.
  unfold run. destruct (sys_threads s !! t) as [th|]; [|done]. cbn [mbind option_bind].
  destruct (advance c t (sys_shared s) th) as [[sh th']|] eqn:Ea; [|done]. intros [= <-]. by exists th, sh, th'.
Qed.

(** The state after a run is that of its calls, in the order of their effects. *)
Lemma run_all_sequential steps s s' :
  inv s -> run_all steps s = Some s' ->
  inv s' /\ abstract s' = foldl (fun i '(_, k) => sequential k i) (abstract s) (calls_effective steps s).
Proof.
  revert s. induction steps as [|[t c] steps IH]; intros s I; cbn; [by intros [= <-]|].
  destruct (run t c s) as [s1|] eqn:Hrun; [|done]. cbn. intros Hall.
  destruct (IH s1 (inv_step _ _ _ _ I Hrun) Hall) as [I' Ha]. split; [done|]. rewrite Ha.
  destruct (run_Some _ _ _ _ Hrun) as (th & sh & th' & Ht & Ea & E). rewrite Ht, foldl_app. f_equal.
  unfold abstract. subst s1. cbn [sys_shared]. fold (count_state (sh_refcount sh)).
  rewrite (advance_effect s t c th sh th' I Ht Ea), effect_sequential.
  by destruct (th_point th).
Qed.

Lemma run_all_length steps s s' :
  run_all steps s = Some s' -> length (sys_threads s') = length (sys_threads s).
Proof.
  revert s. induction steps as [|[t c] steps IH]; intros s; cbn; [by intros [= <-]|].
  destruct (run t c s) as [s1|] eqn:Hrun; [|done]. cbn. intros Hall. rewrite (IH _ Hall).
  destruct (run_Some _ _ _ _ Hrun) as (th & sh & th' & _ & _ & ->). cbn. by rewrite length_insert.
Qed.

(** A statement moves a call from made to effective. *)
Lemma advance_calls s t c th sh th' :
  inv s -> sys_threads s !! t = Some th -> advance c t (sys_shared s) th = Some (sh, th') ->
  pending (th_point th) ++ made (th_point th) c = effective (th_point th) ++ pending (th_point th').
Proof.
  intros I Ht Ea. pose proof (inv_knows s I t th Ht) as Hk. pose proof (inv_count s I) as Hc.
  pose proof (counted_le s t th Ht) as Hle. unfold counted in Hle at 1. unfold knows in Hk.
  unfold advance in Ea. destruct (th_point th) eqn:Ep.
  8: { destruct (Z.gtb_spec (sh_refcount (sys_shared s)) 0); [|lia]. by injection Ea as <- <-. }
  all: repeat case_match; try discriminate Ea; injection Ea as <- <-; cbn; rewrite ?Ep; done.
Qed.

Lemma run_all_calls steps s s' t th :
  inv s -> run_all steps s = Some s' -> sys_threads s !! t = Some th ->
  exists th', sys_threads s' !! t = Some th' /\
    pending (th_point th) ++ calls_of t (calls_made steps s) =
      calls_of t (calls_effective steps s) ++ pending (th_point th').
Proof.
  unfold calls_made, calls_effective. revert s th.
  induction steps as [|[u c] steps IH]; intros s th I; cbn [run_all record].
  { intros [= <-] Ht. exists th. by rewrite app_nil_r. }
  destruct (run u c s) as [s1|] eqn:Hrun; [|done]. cbn [mbind option_bind]. intros Hall Ht.
  destruct (run_Some _ _ _ _ Hrun) as (uh & sh & uh' & Hu & Ea & E). rewrite Hu. cbv iota.
  pose proof (inv_step _ _ _ _ I Hrun) as I1. rewrite !calls_of_app, !calls_of_thread.
  destruct (decide (u = t)) as [->|Hne].
  - rewrite Hu in Ht. injection Ht as ->. pose proof (advance_calls s t c th sh uh' I Hu Ea) as Hmove.
    destruct (IH s1 uh' I1 Hall) as (th' & Ht' & Heq).
    { subst s1. cbn. apply list_lookup_insert_eq. by eapply lookup_lt_Some. }
    exists th'. split; [done|]. by rewrite app_assoc, Hmove, <-!app_assoc, Heq.
  - destruct (IH s1 th I1 Hall) as (th' & Ht' & Heq); [subst s1; cbn; by rewrite list_lookup_insert_ne|].
    exists th'. by split.
Qed.

(** C10: Every interleaving of the statements is a sequence of whole calls.  Some order of
    the calls made - each taking effect at one statement between its beginning and its
    end, those of a thread in the order it made them, none lost and none repeated -
    takes the sequential psbc_init and psbc_shutdown to the count that the run ends
    with, and when nobody is inside the section the type cache exists as the sequential
    state says. *)
Theorem init_threads_refine count steps s :
  run_all steps (start count) = Some s ->
  let calls := calls_effective steps (start count) in
  abstract s = foldl (fun i '(_, k) => sequential k i) zero_InitState calls /\
  (forall t th, sys_threads s !! t = Some th ->
     calls_of t (calls_made steps (start count)) = calls_of t calls ++ pending (th_point th)) /\
  (sh_mutex (sys_shared s) = None -> gc_mem_ctx (sh_cache (sys_shared s)) = ini_types_alive (abstract s)).
Proof.
  intros Hrun. destruct (run_all_sequential _ _ _ (inv_start count) Hrun) as [I Ha].
  split; [exact Ha|]. split.
  - intros t th Ht. destruct (sys_threads (start count) !! t) as [th0|] eqn:E0.
    + destruct (run_all_calls _ _ _ t th0 (inv_start count) Hrun E0) as (th' & Ht' & Heq).
      rewrite Ht' in Ht. injection Ht as ->. apply lookup_replicate in E0 as [-> _]. exact Heq.
    + exfalso. apply lookup_ge_None in E0. apply lookup_lt_Some in Ht.
      rewrite (run_all_length _ _ _ Hrun) in Ht. lia.
  - intros Hm. rewrite (inv_alive s I), (inv_users s I). unfold holder. rewrite Hm. cbn.
    by destruct (sh_refcount (sys_shared s) >? 0).
Qed.

(** Statements left until the section is over. *)
Definition remaining (p : point) : nat :=
  match p with
  | outside | init_lock | down_lock => 0
  | init_load => 4 | init_store _ => 3 | init_ref => 2 | init_unlock => 1
  | down_test => 5 | down_load => 4 | down_store _ => 3 | down_decref => 2 | down_unlock => 1
  end.

(** [n] statements of thread [t], nobody else running. *)
Fixpoint run_alone (n : nat) (t : nat) (s : System) : option System :=
  match n with O => Some s | S n => run t call_init s ≫= run_alone n t end.

Lemma section_advances s t th :
  inv s -> sys_threads s !! t = Some th -> in_section (th_point th) = true ->
  exists s' th', run t call_init s = Some s' /\ sys_threads s' !! t = Some th' /\
    (remaining (th_point th') < remaining (th_point th))%nat /\
    (in_section (th_point th') = true \/ sh_mutex (sys_shared s') = None).
Proof.
  intros I Ht Hs. unfold run. rewrite Ht. cbn [mbind option_bind]. pose proof (lookup_lt_Some _ _ _ Ht) as Hlt.
  unfold advance. destruct (th_point th) eqn:Ep; try discriminate Hs; cbn [mbind option_bind];
    do 2 eexists; (split; [reflexivity|]); cbn [sys_threads sys_shared];
    (split; [by apply list_lookup_insert_eq|]); cbn [th_point]; repeat case_match; cbn; auto with lia.
Qed.

Lemma section_over n s t th :
  inv s -> sys_threads s !! t = Some th -> in_section (th_point th) = true -> (remaining (th_point th) <= n)%nat ->
  exists k s', (k <= n)%nat /\ run_alone k t s = Some s' /\ sh_mutex (sys_shared s') = None.
Proof.
  revert s th. induction n as [|n IH]; intros s th I Ht Hs Hn.
  { destruct (th_point th); cbn in *; (discriminate || lia). }
  destruct (section_advances s t th I Ht Hs) as (s1 & th1 & Hrun & Ht1 & Hlt & [Hs1|Hm]).
  - destruct (IH s1 th1) as (k & s' & Hk & Hal & Hm); [by eapply inv_step|done|done|lia|].
    exists (S k), s'. split; [lia|]. cbn [run_alone]. by rewrite Hrun.
  - exists 1%nat, s1. split; [lia|]. cbn [run_alone]. by rewrite Hrun.
Qed.


(** ** Examples *)

Lemma reachable_run_all count steps s s' : reachable count s -> run_all steps s = Some s' -> reachable count s'.
Proof.
  revert s. induction steps as [|[t c] steps IH]; intros s Hs; cbn; [by intros [= <-]|].
  destruct (run t c s) as [s1|] eqn:E; [|done]. cbn. apply IH. by eapply reachable_step.
Qed.

(** Thread 0 has loaded the count when thread 1 asks for the mutex. *)
Definition example_steps : list (nat * choice) := [(0, call_init); (1, call_init); (0, call_init); (0, call_init)]%nat.
Definition example_system : System := default (start 2) (run_all example_steps (start 2)).

Lemma example_reachable : reachable 2 example_system.
Proof. apply (reachable_run_all 2 example_steps (start 2)); [apply reachable_start|reflexivity]. Qed.

Lemma init_threads_safe_witness : sh_fault (sys_shared example_system) = false.
Proof. exact (proj1 (init_threads_safe 2 example_system example_reachable)). Defined.

(** Both threads have called psbc_init; the call of thread 0 has had its effect, that
    of thread 1 waits for the mutex. *)
Lemma init_threads_refine_witness :
  exists s, run_all (example_steps ++ [(0, call_init)]%nat) (start 2) = Some s /\
    abstract s = psbc_init zero_InitState /\
    calls_of 1 (calls_made (example_steps ++ [(0, call_init)]%nat) (start 2)) = [Init].
Proof.
  destruct (run_all (example_steps ++ [(0, call_init)]%nat) (start 2)) as [s|] eqn:E; [|vm_compute in E; discriminate].
  exists s. split; [reflexivity|].
  destruct (init_threads_refine 2 (example_steps ++ [(0, call_init)]%nat) s E) as (Ha & Hc & _).
  split; [exact Ha|]. rewrite (Hc 1%nat (mk_Thread 0 init_lock)); [reflexivity|].
  vm_compute in E. injection E as <-. reflexivity.
Defined.


End Threads.
