(* ===== verification/NirOptions.v ===== *)
(** * The NIR options handed to front ends (psbc_get_nir_options)

    A front end that builds NIR itself asks for the PS5 options of a stage; the table
    is filled once, under pthread_once.  The options have to be the ones a later
    compile of that NIR uses.

    Mesa derives the options of a stage from the ac_compiler_info and from the keys
    split_fma and use_llvm, which both callers leave zero: get_nir_options_for_stage is
    a parameter over the former. *)

From S2P Require Import Prelude Types Mesa Nir ShaderUtil Validate Setup.

Module NirOptions.
Import Setup.

Section options.
Context {options : Type} (get_nir_options_for_stage : ShaderUtil.ac_compiler_info -> mesa_shader_stage -> options).

Definition MESA_VULKAN_SHADER_STAGES : Z := mesa_shader_stage_val MESA_SHADER_CALLABLE + 1.

(** radv_get_nir_options fills one entry per stage of the table. *)
Definition radv_get_nir_options (info : radv_compiler_info) : list options :=
  map (get_nir_options_for_stage (ci_ac info))
    [MESA_SHADER_VERTEX; MESA_SHADER_TESS_CTRL; MESA_SHADER_TESS_EVAL; MESA_SHADER_GEOMETRY; MESA_SHADER_FRAGMENT;
     MESA_SHADER_COMPUTE; MESA_SHADER_TASK; MESA_SHADER_MESH; MESA_SHADER_RAYGEN; MESA_SHADER_ANY_HIT;
     MESA_SHADER_CLOSEST_HIT; MESA_SHADER_MISS; MESA_SHADER_INTERSECTION; MESA_SHADER_CALLABLE].

(** The statics: whether the once control has run, the description and its table,
    and - not in the source - how often the table was filled. *)
Record Statics : Type := mk_Statics {
  st_once : bool;
  st_compiler_info : radv_compiler_info;
  st_nir_options : list options;
  st_fills : nat
}.

Definition zero_Statics : Statics := mk_Statics false zero_radv_compiler_info [] 0.

Definition ps5_compiler_info : radv_compiler_info := zero_radv_compiler_info
  <| ci_ac := ShaderUtil.setup_ac_info ShaderUtil.zero_ac_compiler_info GFX10_3 |>
  <| ci_family := CHIP_NAVI21 |>
  <| ci_ge_wave_size := 64 |>
  <| ci_ps_wave_size := 32 |>
  <| ci_cs_wave_size := 32 |>
  <| ci_rt_wave_size := 64 |>.

Definition init_ps5_nir_options (st : Statics) : Statics :=
  mk_Statics (st_once st) ps5_compiler_info (radv_get_nir_options ps5_compiler_info) (S (st_fills st)).

Definition pthread_once (routine : Statics -> Statics) (st : Statics) : Statics :=
  if st_once st then st
  else
    let st := routine st in mk_Statics true (st_compiler_info st) (st_nir_options st) (st_fills st).

(** The entry, [None] for NULL. *)
Definition psbc_get_nir_options (stage : PsbcStage) (st : Statics) : Statics * option options :=
  let mesa_stage := ShaderUtil.psbc_to_mesa_stage stage in
  if stage_eqb mesa_stage MESA_SHADER_NONE || (mesa_shader_stage_val mesa_stage >=? MESA_VULKAN_SHADER_STAGES)
  then (st, None)
  else
    let st := pthread_once init_ps5_nir_options st in
    (st, st_nir_options st !! Z.to_nat (mesa_shader_stage_val mesa_stage)).

(** Calls in some order, and what each returned. *)
Fixpoint calls (stages : list PsbcStage) (st : Statics) : Statics * list (option options) :=
  match stages with
  | [] => (st, [])
  | stage :: stages =>
      let '(st, r) := psbc_get_nir_options stage st in
      let '(st, rs) := calls stages st in (st, r :: rs)
  end.

(** ** Agreement *)

(** Not filled yet, or filled once and for all. *)
Definition filled (st : Statics) : Prop :=
  st = zero_Statics \/ st = mk_Statics true ps5_compiler_info (radv_get_nir_options ps5_compiler_info) 1.

Lemma table_entry info s :
  s <> MESA_SHADER_NONE -> s <> MESA_SHADER_KERNEL ->
  radv_get_nir_options info !! Z.to_nat (mesa_shader_stage_val s) = Some (get_nir_options_for_stage (ci_ac info) s).
Proof. by destruct s. Qed.

Lemma get_filled stage st :
  filled st ->
  filled (psbc_get_nir_options stage st).1 /\
  (psbc_get_nir_options stage st).2 =
    if bool_decide (stage = PSBC_STAGE_NONE) then None
    else Some (get_nir_options_for_stage (ci_ac ps5_compiler_info) (ShaderUtil.psbc_to_mesa_stage stage)).
Proof. by intros [-> | ->]; destruct stage; (split; [|reflexivity]); ((left; reflexivity) || (right; reflexivity)). Qed.

Lemma compile_ac opts :
  co_target opts = PSBC_TARGET_PS5 -> co_force_accelerated_dot opts = false ->
  ci_ac (compiler_info_of opts) = ci_ac ps5_compiler_info.
Proof.
  intros Ht Hd. unfold compiler_info_of. rewrite Ht, Hd. cbn [ShaderUtil.setup_target].
  by destruct (Validate.is_ps5 opts && _).
Qed.

(** In any order of calls every stage gets the same options from a table that is
    filled at most once, NULL only for the missing stage, and they are exactly the
    options a PS5 compile of that stage then uses (the diagnostic packed-dot switch
    aside). *)
Theorem nir_options_agree stages opts :
  co_target opts = PSBC_TARGET_PS5 -> co_force_accelerated_dot opts = false ->
  let '(st, results) := calls stages zero_Statics in
  (st_fills st <= 1)%nat /\
  results = map (fun stage =>
    let mesa_stage := ShaderUtil.psbc_to_mesa_stage stage in
    if bool_decide (stage = PSBC_STAGE_NONE) then None
    else radv_get_nir_options (compiler_info_of opts) !! Z.to_nat (mesa_shader_stage_val mesa_stage)) stages.
Proof.
  intros Ht Hd.
  assert (forall st, filled st -> filled (calls stages st).1 /\
    (calls stages st).2 = map (fun stage =>
      if bool_decide (stage = PSBC_STAGE_NONE) then None
      else radv_get_nir_options (compiler_info_of opts) !!
             Z.to_nat (mesa_shader_stage_val (ShaderUtil.psbc_to_mesa_stage stage))) stages) as Hall.
  { induction stages as [|stage stages IH]; intros st Hst; [done|]. cbn [calls map].
    destruct (get_filled stage st Hst) as [Hf Hr]. destruct (psbc_get_nir_options stage st) as [st1 r].
    cbn [fst snd] in Hf, Hr. destruct (IH st1 Hf) as [Hf' Hr']. destruct (calls stages st1) as [st2 rs].
    cbn [fst snd] in *. split; [done|]. rewrite Hr, Hr'. f_equal.
    case_bool_decide; [done|]. rewrite table_entry by (destruct stage; discriminate || congruence).
    by rewrite compile_ac. }
  destruct (Hall zero_Statics (or_introl eq_refl)) as [Hf Hr]. destruct (calls stages zero_Statics) as [st rs].
  cbn [fst snd] in *. split; [|exact Hr]. by destruct Hf as [-> | ->]; cbn; lia.
Qed.
End options.

Lemma nir_options_agree_witness :
  let options_of (ac : ShaderUtil.ac_compiler_info) (s : mesa_shader_stage) := (ShaderUtil.ai_gfx_level ac, s) in
  (calls options_of [PSBC_STAGE_FRAGMENT; PSBC_STAGE_NONE; PSBC_STAGE_FRAGMENT] zero_Statics).2 =
    [Some (GFX10_3, MESA_SHADER_FRAGMENT); None; Some (GFX10_3, MESA_SHADER_FRAGMENT)].
Proof.
  intros options_of.
  pose proof (nir_options_agree options_of [PSBC_STAGE_FRAGMENT; PSBC_STAGE_NONE; PSBC_STAGE_FRAGMENT]
    (zero_PsbcCompileOptions <| co_target := PSBC_TARGET_PS5 |>) eq_refl eq_refl) as H.
  destruct (calls _ _ _) as [st results]. destruct H as [_ ->]. reflexivity.
Defined.

End NirOptions.
