(* ===== verification/Machine.v ===== *)
(** * The machine a compilation runs on

    Heap objects with ralloc ownership, the reference count of the type cache and
    the caller's output structure, as the state of a small state-and-error monad.
    Using or releasing memory that is not live sets a fault flag instead of being
    undefined, so that memory safety is a statement about the flag. *)

From stdpp Require Import gmap.
From S2P Require Import Prelude Types Mesa Nir Setup.

Module Machine.
Import Setup.

(** ** State *)

(** What radv_shader_nir_to_asm returns: [data] starts with the statistics, then the code. *)
Record radv_shader_binary : Type := mk_radv_shader_binary {
  bin_config : ac_shader_config;
  bin_info : radv_shader_info;
  bin_code_size : Z;
  bin_stats_size : Z;
  bin_data : list Z
}.

#[export] Instance eta_radv_shader_binary : Eta radv_shader_binary := fun r =>
  mk_radv_shader_binary r.(bin_config) r.(bin_info) r.(bin_code_size) r.(bin_stats_size)
    r.(bin_data).

Definition zero_radv_shader_binary : radv_shader_binary := {|
  bin_config := zero_ac_shader_config;
  bin_info := zero_radv_shader_info;
  bin_code_size := 0;
  bin_stats_size := 0;
  bin_data := []
|}.

(** A shader belongs to its ralloc parent; binaries and buffers come from malloc. *)
Inductive object : Type :=
| nir_object (nir : nir_shader) (parent : option Z)
| binary_object (binary : radv_shader_binary)
| bytes_object (bytes : list Z).

Definition parent_of (o : object) : option Z :=
  match o with nir_object _ parent => parent | _ => None end.

(** Live objects by address, the next fresh address, the type cache, whether memory was misused, and [*out] (None for a null pointer). *)
Record machine : Type := mk_machine {
  mc_heap : gmap Z object;
  mc_next : Z;
  mc_init : InitState;
  mc_fault : bool;
  mc_out : option PsbcShaderOutput
}.

#[export] Instance eta_machine : Eta machine := fun r =>
  mk_machine r.(mc_heap) r.(mc_next) r.(mc_init) r.(mc_fault) r.(mc_out).

Definition zero_machine : machine := {|
  mc_heap := ∅;
  mc_next := 0;
  mc_init := zero_InitState;
  mc_fault := false;
  mc_out := None
|}.

(** A computation ends with a value or with the result code the function returns. *)
Definition C (A : Type) : Type := machine -> machine * (PsbcResult + A).

#[export] Instance C_ret : MRet C := fun A a m => (m, inr a).
#[export] Instance C_bind : MBind C := fun A B f c m =>
  match c m with (m, inr a) => f a m | (m, inl r) => (m, inl r) end.

Definition fail {A} (r : PsbcResult) : C A := fun m => (m, inl r).
Definition fault : C unit := fun m => (m <| mc_fault := true |>, inr tt).
Definition on_machine (f : machine -> machine) : C unit := fun m => (f m, inr tt).
Definition if_some {A} (x : option A) (f : A -> C unit) : C unit :=
  match x with Some a => f a | None => mret tt end.
Definition if_true (b : bool) (c : C unit) : C unit := if b then c else mret tt.

(** ** Memory *)

Definition alloc (o : object) : C Z := fun m =>
  (m <| mc_heap := <[mc_next m := o]> (mc_heap m) |> <| mc_next := mc_next m + 1 |>,
   inr (mc_next m)).

Definition load_nir (p : Z) : C nir_shader := fun m =>
  match mc_heap m !! p with
  | Some (nir_object nir _) => (m, inr nir)
  | _ => (m <| mc_fault := true |>, inr zero_nir_shader)
  end.

Definition store_nir (p : Z) (nir : nir_shader) : C unit := fun m =>
  match mc_heap m !! p with
  | Some (nir_object _ parent) => (m <| mc_heap := <[p := nir_object nir parent]> (mc_heap m) |>, inr tt)
  | _ => (m <| mc_fault := true |>, inr tt)
  end.

Definition update_nir (p : Z) (f : nir_shader -> nir_shader) : C unit :=
  nir ← load_nir p; store_nir p (f nir).

(** [ralloc_steal(parent, p)] *)
Definition ralloc_steal (parent p : Z) : C unit := fun m =>
  match mc_heap m !! p with
  | Some (nir_object nir _) =>
      (m <| mc_heap := <[p := nir_object nir (Some parent)]> (mc_heap m) |>, inr tt)
  | _ => (m <| mc_fault := true |>, inr tt)
  end.

(** Is [p] among the ralloc ancestors of [q]?  The chain is no longer than the heap. *)
Fixpoint descends (fuel : nat) (h : gmap Z object) (p q : Z) : bool :=
  match fuel with
  | O => false
  | S fuel =>
      match h !! q ≫= parent_of with
      | Some r => (r =? p) || descends fuel h p r
      | None => false
      end
  end.

(** [ralloc_free]: the object and everything it owns. *)
Definition ralloc_free (p : Z) : C unit := fun m =>
  match mc_heap m !! p with
  | Some (nir_object _ _) =>
      (m <| mc_heap :=
        filter (fun '(q, _) => q <> p /\ descends (size (mc_heap m)) (mc_heap m) p q = false) (mc_heap m) |>,
       inr tt)
  | _ => (m <| mc_fault := true |>, inr tt)
  end.

(** [free] of a malloc'ed object. *)
Definition free (p : Z) : C unit := fun m =>
  match mc_heap m !! p with
  | Some (binary_object _) | Some (bytes_object _) => (m <| mc_heap := delete p (mc_heap m) |>, inr tt)
  | _ => (m <| mc_fault := true |>, inr tt)
  end.

(** ** The type cache *)

Definition init : C unit := on_machine (fun m => m <| mc_init := psbc_init (mc_init m) |>).
Definition shutdown : C unit := on_machine (fun m => m <| mc_init := psbc_shutdown (mc_init m) |>).

(** Shaders refer to the type cache: building one without it is a fault. *)
Definition need_types : C unit := fun m =>
  if ini_types_alive (mc_init m) then (m, inr tt) else (m <| mc_fault := true |>, inr tt).

(** ** The output structure *)

Definition set_out (o : PsbcShaderOutput) : C unit := on_machine (fun m => m <| mc_out := Some o |>).

(** * Reasoning about computations *)

(** What a computation does from the states satisfying [P]: [Q] holds of the value
    it returns, [E] of the result code it stops with. *)
Definition spec {A} (P : machine -> Prop) (c : C A) (Q : A -> machine -> Prop)
    (E : PsbcResult -> machine -> Prop) : Prop :=
  forall m, P m -> match c m with (m', inr a) => Q a m' | (m', inl r) => E r m' end.

Lemma spec_ret {A} (P : machine -> Prop) (a : A) Q E :
  (forall m, P m -> Q a m) -> spec P (mret a) Q E.
Proof. intros H m Hm. by apply H. Qed.

Lemma spec_fail {A} (P : machine -> Prop) r (Q : A -> machine -> Prop) E :
  (forall m, P m -> E r m) -> spec P (fail r) Q E.
Proof. intros H m Hm. by apply H. Qed.

Lemma spec_bind {A B} P (c : C A) (f : A -> C B) R Q E :
  spec P c R E -> (forall a, spec (R a) (f a) Q E) -> spec P (c ≫= f) Q E.
Proof.
  intros Hc Hf m Hm. specialize (Hc m Hm). unfold mbind, C_bind.
  destruct (c m) as [m' [r|a]]; [done|]. exact (Hf a m' Hc).
Qed.

Lemma spec_pre {A} (P P' : machine -> Prop) (c : C A) Q E :
  (forall m, P m -> P' m) -> spec P' c Q E -> spec P c Q E.
Proof. intros H Hc m Hm. by apply Hc, H. Qed.

Lemma spec_post {A} P (c : C A) (Q Q' : A -> machine -> Prop) (E E' : PsbcResult -> machine -> Prop) :
  (forall a m, Q a m -> Q' a m) -> (forall r m, E r m -> E' r m) -> spec P c Q E -> spec P c Q' E'.
Proof.
  intros HQ HE Hc m Hm. specialize (Hc m Hm). destruct (c m) as [m' [r|a]]; auto.
Qed.

Lemma spec_pure {A} (φ : Prop) P (c : C A) Q E :
  (φ -> spec P c Q E) -> spec (fun m => φ /\ P m) c Q E.
Proof. intros H m [Hφ Hm]. by apply H. Qed.

(** ** Ownership *)

(** What is remembered of an object we hold: the owner of a shader, the contents of
    a buffer. *)
Inductive shape : Type := ralloced (parent : option Z) | program | buffer (bytes : list Z).

Definition shape_of (o : object) : shape :=
  match o with
  | nir_object _ parent => ralloced parent
  | binary_object _ => program
  | bytes_object bytes => buffer bytes
  end.

Definition shape_parent (k : shape) : option Z :=
  match k with ralloced parent => parent | _ => None end.

Definition malloced (k : shape) : bool := match k with ralloced _ => false | _ => true end.

(** Addresses are handed out in order and no live object has a dead owner. *)
Definition machine_wf (m : machine) : Prop :=
  forall p o, mc_heap m !! p = Some o ->
    p < mc_next m /\ forall r, parent_of o = Some r -> r < mc_next m.

(** Since [m0], exactly the objects [s] were allocated and are still live; nothing
    else of the heap moved and no new fault happened. *)
Definition held (m0 : machine) (i : InitState) (o : option PsbcShaderOutput)
    (s : gmap Z shape) (m : machine) : Prop :=
  mc_next m0 <= mc_next m /\ mc_fault m = mc_fault m0 /\ mc_init m = i /\ mc_out m = o /\
  (forall p, p < mc_next m0 -> mc_heap m !! p = mc_heap m0 !! p) /\
  (forall p, mc_next m0 <= p -> shape_of <$> mc_heap m !! p = s !! p) /\
  (forall p k, s !! p = Some k -> mc_next m0 <= p < mc_next m).

(** Owners are themselves roots: the only depth the compiler uses. *)
Definition flat (s : gmap Z shape) : Prop :=
  forall q k r, s !! q = Some k -> shape_parent k = Some r -> s !! r = Some (ralloced None).

(** What is left when [p] and what it owns is released. *)
Definition release (p : Z) (s : gmap Z shape) : gmap Z shape :=
  filter (fun '(q, k) => q <> p /\ shape_parent k <> Some p) s.

Section held.
Context (m0 : machine) (i : InitState) (o : option PsbcShaderOutput).
Local Abbreviation held := (held m0 i o).

Lemma held_start : mc_init m0 = i -> mc_out m0 = o -> machine_wf m0 -> held ∅ m0.
Proof.
  intros Hi Ho Hwf. split_and!; try done; try lia.
  intros p Hp. rewrite lookup_empty. destruct (mc_heap m0 !! p) as [x|] eqn:E; [|done].
  apply Hwf in E. lia.
Qed.

(** Nothing held: the heap is the one we started with. *)
Lemma held_nothing m : machine_wf m0 -> held ∅ m -> mc_heap m = mc_heap m0.
Proof.
  intros Hwf (_ & _ & _ & _ & Hold & Hnew & _). apply map_eq. intros p.
  destruct (Z_lt_le_dec p (mc_next m0)) as [Hp|Hp]; [by apply Hold|].
  specialize (Hnew p Hp). rewrite lookup_empty, fmap_None in Hnew. rewrite Hnew.
  destruct (mc_heap m0 !! p) as [x|] eqn:E; [|done]. apply Hwf in E. lia.
Qed.

Lemma held_lookup s m p k :
  held s m -> s !! p = Some k ->
  exists x, mc_heap m !! p = Some x /\ shape_of x = k /\ mc_next m0 <= p < mc_next m.
Proof.
  intros (_ & _ & _ & _ & _ & Hnew & Hlt) Hp. pose proof (Hlt p k Hp) as Hr.
  rewrite <-(Hnew p) in Hp by lia. apply fmap_Some in Hp as (x & Hx & ->). by exists x.
Qed.

Lemma spec_alloc s x Q E :
  (forall p, s !! p = None -> spec (held (<[p := shape_of x]> s)) (mret p) Q E) ->
  spec (held s) (alloc x) Q E.
Proof.
  intros H m Hm. unfold alloc. set (p := mc_next m).
  assert (s !! p = None) as Hp.
  { destruct (s !! p) as [k|] eqn:E1; [|done]. apply (held_lookup s m) in E1 as (? & _ & _ & ?); [|done].
    subst p. lia. }
  apply (H p Hp). destruct Hm as (Hn & Hf & Hi & Ho & Hold & Hnew & Hlt).
  split_and!; simpl; try done; try lia.
  - intros q Hq. rewrite lookup_insert_ne by (subst p; lia). by apply Hold.
  - intros q Hq. destruct (decide (q = p)) as [->|Hne].
    + by rewrite !lookup_insert_eq.
    + rewrite !lookup_insert_ne by done. by apply Hnew.
  - intros q k Hq. destruct (decide (q = p)) as [->|Hne]; [subst p; lia|].
    rewrite lookup_insert_ne in Hq by done. apply Hlt in Hq. lia.
Qed.

(** Reading and writing a shader we hold. *)
Lemma spec_load s p parent E :
  s !! p = Some (ralloced parent) -> spec (held s) (load_nir p) (fun _ => held s) E.
Proof.
  intros Hp m Hm. destruct (held_lookup s m p _ Hm Hp) as ([]& Hx & Hk & _); try done.
  unfold load_nir. by rewrite Hx.
Qed.

Lemma held_rewrite s m p x k :
  held s m -> s !! p = Some k ->
  held (<[p := shape_of x]> s) (m <| mc_heap := <[p := x]> (mc_heap m) |>).
Proof.
  intros Hm Hp. destruct (held_lookup s m p _ Hm Hp) as (y & _ & _ & Hr).
  destruct Hm as (Hn & Hf & Hi & Ho & Hold & Hnew & Hlt). split_and!; simpl; try done.
  - intros q Hq. rewrite lookup_insert_ne by lia. by apply Hold.
  - intros q Hq. destruct (decide (q = p)) as [->|Hne].
    + by rewrite !lookup_insert_eq.
    + rewrite !lookup_insert_ne by done. by apply Hnew.
  - intros q k' Hq. destruct (decide (q = p)) as [->|Hne]; [lia|].
    rewrite lookup_insert_ne in Hq by done. by apply Hlt in Hq.
Qed.

Lemma spec_store s p parent nir E :
  s !! p = Some (ralloced parent) -> spec (held s) (store_nir p nir) (fun _ => held s) E.
Proof.
  intros Hp m Hm. destruct (held_lookup s m p _ Hm Hp) as ([n par| |] & Hx & Hk & _); try done.
  unfold store_nir. rewrite Hx. simpl in Hk. injection Hk as ->.
  pose proof (held_rewrite s m p (nir_object nir parent) _ Hm Hp) as H. simpl in H.
  by rewrite insert_id in H.
Qed.

Lemma spec_update s p parent f E :
  s !! p = Some (ralloced parent) -> spec (held s) (update_nir p f) (fun _ => held s) E.
Proof.
  intros Hp. eapply spec_bind; [by eapply spec_load|]. intros nir. by eapply spec_store.
Qed.

Lemma spec_steal s p parent q E :
  s !! q = Some (ralloced parent) ->
  spec (held s) (ralloc_steal p q) (fun _ => held (<[q := ralloced (Some p)]> s)) E.
Proof.
  intros Hq m Hm. destruct (held_lookup s m q _ Hm Hq) as ([n par| |] & Hx & Hk & _); try done.
  unfold ralloc_steal. rewrite Hx. by apply (held_rewrite s m q (nir_object n (Some p)) _ Hm Hq).
Qed.

(** The objects of the caller never descend from ours, and ours only directly. *)
Lemma descends_old s m n p q :
  machine_wf m0 -> held s m -> mc_next m0 <= p -> q < mc_next m0 ->
  descends n (mc_heap m) p q = false.
Proof.
  intros Hwf Hm Hp. revert q. induction n as [|n IH]; intros q Hq; [done|]. simpl.
  pose proof Hm as (_ & _ & _ & _ & Hold & _). rewrite Hold by done.
  destruct (mc_heap m0 !! q) as [x|] eqn:E; [|done]. simpl.
  destruct (parent_of x) as [r|] eqn:Er; [|done]. apply Hwf in E as [_ Hr].
  specialize (Hr r Er). rewrite IH by done. destruct (Z.eqb_spec r p); [lia|done].
Qed.

Lemma descends_new s m n p q k :
  flat s -> held s m -> s !! q = Some k ->
  descends (S n) (mc_heap m) p q = bool_decide (shape_parent k = Some p).
Proof.
  intros Hflat Hm Hq. simpl. destruct (held_lookup s m q k Hm Hq) as (x & Hx & Hk & _).
  rewrite Hx. simpl. assert (parent_of x = shape_parent k) as -> by (rewrite <-Hk; by destruct x).
  destruct (shape_parent k) as [r|] eqn:Er; [|done].
  destruct (Z.eqb_spec r p) as [->|Hne]; [by rewrite bool_decide_true|]. simpl.
  rewrite bool_decide_false by congruence.
  specialize (Hflat q k r Hq Er). destruct n as [|n]; [done|]. simpl.
  destruct (held_lookup s m r _ Hm Hflat) as (y & Hy & Hky & _). rewrite Hy. simpl.
  destruct y; simpl in *; try done. by injection Hky as ->.
Qed.

Lemma spec_ralloc_free s p parent E :
  machine_wf m0 -> flat s -> s !! p = Some (ralloced parent) ->
  spec (held s) (ralloc_free p) (fun _ => held (release p s)) E.
Proof.
  intros Hwf Hflat Hp m Hm. destruct (held_lookup s m p _ Hm Hp) as ([n par| |] & Hx & Hk & Hpr); try done.
  unfold ralloc_free. rewrite Hx. pose proof Hm as (Hn & Hf & Hi & Ho & Hold & Hnew & Hlt).
  assert (exists k, size (mc_heap m) = S k) as [k ->].
  { destruct (size (mc_heap m)) as [|k] eqn:Es; [|by exists k].
    apply map_size_empty_iff in Es. by rewrite Es, lookup_empty in Hx. }
  pose proof (descends_old s m (S k) p) as Hdo. pose proof (descends_new s m k p) as Hdn.
  revert Hdo Hdn. generalize (descends (S k) (mc_heap m) p). intros d Hdo Hdn.
  split_and!; try done; simpl mc_heap.
  - intros q Hq. rewrite <-(Hold q Hq), map_lookup_filter.
    destruct (mc_heap m !! q) as [y|]; [|done]. simpl.
    rewrite option_guard_True; [done|]. split; [lia|]. apply Hdo; done || lia.
  - intros q Hq. unfold release. rewrite !map_lookup_filter.
    specialize (Hnew q Hq). destruct (mc_heap m !! q) as [y|] eqn:Ey; simpl in *.
    + symmetry in Hnew. rewrite Hnew. simpl.
      rewrite (Hdn q (shape_of y)) by done.
      case_guard as G1; case_guard as G2; simpl; try done; exfalso.
      * apply G2. destruct G1 as [? G1]. split; [done|]. by apply bool_decide_eq_false in G1.
      * apply G1. destruct G2 as [? G2]. split; [done|]. by apply bool_decide_eq_false.
    + by rewrite <-Hnew.
  - intros q k' Hq. unfold release in Hq. apply map_lookup_filter_Some in Hq as [Hq _]. eauto.
Qed.

Lemma spec_free s p k E :
  s !! p = Some k -> malloced k = true -> spec (held s) (free p) (fun _ => held (delete p s)) E.
Proof.
  intros Hp Hmk m Hm. destruct (held_lookup s m p _ Hm Hp) as (x & Hx & Hk & Hpr).
  assert (held (delete p s) (m <| mc_heap := delete p (mc_heap m) |>)) as H.
  { destruct Hm as (Hn & Hf & Hi & Ho & Hold & Hnew & Hlt). split_and!; try done; simpl mc_heap.
    - intros q Hq. rewrite lookup_delete_ne by lia. by apply Hold.
    - intros q Hq. destruct (decide (q = p)) as [->|Hne].
      + by rewrite !lookup_delete_eq.
      + rewrite !lookup_delete_ne by done. by apply Hnew.
    - intros q k' Hq. apply lookup_delete_Some in Hq as [_ Hq]. eauto. }
  unfold free. rewrite Hx. subst k. by destruct x.
Qed.

Lemma held_buffer s m p bytes :
  held s m -> s !! p = Some (buffer bytes) -> mc_heap m !! p = Some (bytes_object bytes).
Proof.
  intros Hm Hp. destruct (held_lookup s m p _ Hm Hp) as ([] & Hx & Hk & _); try done.
  simpl in Hk. by injection Hk as ->.
Qed.

(** The caller's objects are untouched. *)
Lemma held_old s m p x : machine_wf m0 -> held s m -> mc_heap m0 !! p = Some x -> mc_heap m !! p = Some x.
Proof.
  intros Hwf (_ & _ & _ & _ & Hold & _) Hp. pose proof (Hwf p x Hp) as [? _]. by rewrite Hold.
Qed.

(** Ending with roots only is a good place to start from. *)
Lemma held_wf s m :
  machine_wf m0 -> held s m -> (forall q k, s !! q = Some k -> shape_parent k = None) -> machine_wf m.
Proof.
  intros Hwf (Hn & _ & _ & _ & Hold & Hnew & Hlt) Hroot p x Hp.
  destruct (Z_lt_le_dec p (mc_next m0)) as [Hpl|Hpl].
  - rewrite Hold in Hp by done. destruct (Hwf p x Hp) as [? Hr]. split; [lia|].
    intros r Er. specialize (Hr r Er). lia.
  - specialize (Hnew p Hpl). rewrite Hp in Hnew. simpl in Hnew. symmetry in Hnew.
    split; [apply Hlt in Hnew; lia|]. intros r Er. apply Hroot in Hnew.
    destruct x; simpl in *; congruence.
Qed.

(** Two buffers and nothing else. *)
Lemma held_two_buffers m c d x y :
  machine_wf m0 -> held (<[c := buffer x]> (<[d := buffer y]> ∅)) m ->
  mc_heap m = <[c := bytes_object x]> (<[d := bytes_object y]> (mc_heap m0)).
Proof.
  intros Hwf Hm. pose proof Hm as (_ & _ & _ & _ & Hold & Hnew & Hlt). apply map_eq. intros p.
  assert (forall q, c = q \/ d = q -> mc_next m0 <= q) as Hge.
  { intros q Hq. destruct (<[c := buffer x]> (<[d := buffer y]> (∅ : gmap Z shape)) !! q) as [k|] eqn:E.
    - apply Hlt in E. lia.
    - apply lookup_insert_None in E as [E ?]. apply lookup_insert_None in E. naive_solver. }
  destruct (decide (c = p)) as [<-|Hc].
  - rewrite lookup_insert_eq. apply (held_buffer _ m c x Hm). by rewrite lookup_insert_eq.
  - rewrite lookup_insert_ne by done. destruct (decide (d = p)) as [<-|Hd].
    + rewrite lookup_insert_eq. apply (held_buffer _ m d y Hm).
      rewrite lookup_insert_ne by done. by rewrite lookup_insert_eq.
    + rewrite lookup_insert_ne by done. destruct (Z_lt_le_dec p (mc_next m0)); [by apply Hold|].
      specialize (Hnew p ltac:(done)).
      rewrite !lookup_insert_ne, lookup_empty, fmap_None in Hnew by done. rewrite Hnew.
      destruct (mc_heap m0 !! p) as [z|] eqn:E; [|done]. apply Hwf in E. lia.
Qed.

Lemma spec_need_types s E :
  ini_types_alive i = true -> spec (held s) need_types (fun _ => held s) E.
Proof.
  intros Hi m Hm. unfold need_types. pose proof Hm as (_ & _ & -> & _). by rewrite Hi.
Qed.
End held.

End Machine.
