(* ===== verification/Compile.v ===== *)
(** * The compile driver (psbc_compile_impl and the public entry points)

    The whole compile, from the guards to the released resources, as a computation
    on the machine of Machine.v.  The Mesa passes it calls are the class
    [MesaPasses]: arbitrary functions of the structures they are handed, so every
    theorem here holds whatever the vendored compiler does to a shader.  Allocation
    results and the debug environment are the record [Host]. *)

From S2P Require Import Prelude Types Regs Mesa Nir ShaderUtil Lowering InputSemantics Distance.
From S2P Require Import Usage Validate Metadata Binary Setup Machine.

Module Compile.
Import ShaderUtil Validate Setup Machine.

(** ** Stages *)

(** Per-stage switches. *)
Record radv_shader_stage_key : Type := mk_radv_shader_stage_key {
  key_optimisations_disabled : bool;
  key_storage_robustness2 : bool;
  key_uniform_robustness2 : bool;
  key_keep_executable_info : bool
}.

#[export] Instance eta_radv_shader_stage_key : Eta radv_shader_stage_key := fun r =>
  mk_radv_shader_stage_key r.(key_optimisations_disabled) r.(key_storage_robustness2)
    r.(key_uniform_robustness2) r.(key_keep_executable_info).

Definition zero_radv_shader_stage_key : radv_shader_stage_key := {|
  key_optimisations_disabled := false;
  key_storage_robustness2 := false;
  key_uniform_robustness2 := false;
  key_keep_executable_info := false
|}.

(** One stage on its way through RADV; [nir] and [gs_copy_shader] are heap addresses. *)
Record radv_shader_stage : Type := mk_radv_shader_stage {
  st_stage : mesa_shader_stage;
  st_next_stage : mesa_shader_stage;
  st_spirv_data : option (list Z);
  st_spirv_size : Z;
  st_entrypoint : string;
  st_spec_info : option (list (Z * Z * Z) * list Z);
  st_nir : option Z;
  st_gs_copy_shader : option Z;
  st_internal_nir : option nir_shader;
  st_info : radv_shader_info;
  st_args : radv_shader_args;
  st_key : radv_shader_stage_key;
  st_layout : radv_shader_layout
}.

#[export] Instance eta_radv_shader_stage : Eta radv_shader_stage := fun r =>
  mk_radv_shader_stage r.(st_stage) r.(st_next_stage) r.(st_spirv_data)
    r.(st_spirv_size) r.(st_entrypoint) r.(st_spec_info) r.(st_nir)
    r.(st_gs_copy_shader) r.(st_internal_nir) r.(st_info) r.(st_args) r.(st_key)
    r.(st_layout).

Definition zero_radv_shader_stage : radv_shader_stage := {|
  st_stage := MESA_SHADER_VERTEX;
  st_next_stage := MESA_SHADER_VERTEX;
  st_spirv_data := None;
  st_spirv_size := 0;
  st_entrypoint := EmptyString;
  st_spec_info := None;
  st_nir := None;
  st_gs_copy_shader := None;
  st_internal_nir := None;
  st_info := zero_radv_shader_info;
  st_args := zero_radv_shader_args;
  st_key := zero_radv_shader_stage_key;
  st_layout := zero_radv_shader_layout
|}.

(** Options of the peephole pass. *)
Record nir_opt_peephole_select_options : Type := mk_nir_opt_peephole_select_options {
  ps_opt_limit : Z;
  ps_opt_indirect_load_ok : bool;
  ps_opt_expensive_alu_ok : bool;
  ps_opt_discard_ok : bool
}.

#[export] Instance eta_nir_opt_peephole_select_options : Eta nir_opt_peephole_select_options := fun r =>
  mk_nir_opt_peephole_select_options r.(ps_opt_limit) r.(ps_opt_indirect_load_ok)
    r.(ps_opt_expensive_alu_ok) r.(ps_opt_discard_ok).

Definition zero_nir_opt_peephole_select_options : nir_opt_peephole_select_options := {|
  ps_opt_limit := 0;
  ps_opt_indirect_load_ok := false;
  ps_opt_expensive_alu_ok := false;
  ps_opt_discard_ok := false
|}.

(** Options of the legacy geometry lowering. *)
Record ac_nir_lower_legacy_gs_options : Type := mk_ac_nir_lower_legacy_gs_options {
  lgs_gfx_level : amd_gfx_level;
  lgs_export_clipdist_mask : Z;
  lgs_write_pos_to_clipvertex : bool;
  lgs_has_param_exports : bool;
  lgs_disable_streamout : bool
}.

#[export] Instance eta_ac_nir_lower_legacy_gs_options : Eta ac_nir_lower_legacy_gs_options := fun r =>
  mk_ac_nir_lower_legacy_gs_options r.(lgs_gfx_level) r.(lgs_export_clipdist_mask)
    r.(lgs_write_pos_to_clipvertex) r.(lgs_has_param_exports) r.(lgs_disable_streamout).

Definition zero_ac_nir_lower_legacy_gs_options : ac_nir_lower_legacy_gs_options := {|
  lgs_gfx_level := GFX10_3;
  lgs_export_clipdist_mask := 0;
  lgs_write_pos_to_clipvertex := false;
  lgs_has_param_exports := false;
  lgs_disable_streamout := false
|}.

Definition nir_lower_gs_intrinsics_per_stream : Z := 1.
Definition nir_lower_gs_intrinsics_count_primitives : Z := 2.
Definition nir_lower_gs_intrinsics_count_vertices_per_primitive : Z := 4.
Definition nir_lower_gs_intrinsics_overwrite_incomplete : Z := 8.

(** ** The vendored passes *)

(** What RADV is shown of a stage when it links: the stage and the shader behind
    its [nir] pointer. *)
Definition linked_stage : Type := radv_shader_stage * option nir_shader.

Class MesaPasses := {
  radv_shader_spirv_to_nir : radv_compiler_info -> radv_shader_stage -> bool -> option nir_shader;
  nir_normalize_sin_cos : nir_shader -> nir_shader;
  radv_optimize_nir : nir_shader -> bool -> nir_shader;
  ac_nir_lower_indirect_derefs : nir_shader -> bool * nir_shader;
  nir_lower_vars_to_ssa : nir_shader -> nir_shader;
  nir_lower_undef_to_zero : nir_shader -> nir_shader;
  nir_opt_peephole_select : nir_opt_peephole_select_options -> nir_shader -> nir_shader;
  nir_shader_gather_info : nir_shader -> nir_shader;
  radv_nir_lower_io : nir_shader -> nir_shader;
  nir_lower_io_to_scalar : nir_shader -> nir_shader;
  nir_recompute_io_bases : nir_shader -> nir_shader;
  nir_lower_gs_intrinsics : Z -> nir_shader -> nir_shader;
  radv_nir_lower_opt_fs_frag_pos : bool -> bool -> nir_shader -> nir_shader;
  nir_opt_licm : nir_shader -> nir_shader;
  radv_nir_shader_info_init : mesa_shader_stage -> mesa_shader_stage -> radv_shader_info ->
    radv_shader_info;
  radv_nir_shader_info_pass : radv_compiler_info -> nir_shader -> radv_shader_layout ->
    radv_shader_stage_key -> radv_graphics_state_key -> radv_shader_info -> radv_shader_info;
  radv_nir_shader_info_link : radv_compiler_info -> radv_graphics_state_key ->
    (mesa_shader_stage -> linked_stage) -> mesa_shader_stage -> radv_shader_info;
  radv_declare_shader_args : radv_compiler_info -> radv_graphics_state_key -> radv_shader_stage ->
    mesa_shader_stage -> radv_shader_args;
  (** The rewritten shader and the copy shader it creates, if any. *)
  ac_nir_lower_legacy_gs : ac_nir_lower_legacy_gs_options -> nir_shader ->
    nir_shader * option nir_shader;
  (** The rewritten shader, the stage's information, and a new copy shader if any. *)
  radv_postprocess_nir : radv_compiler_info -> radv_graphics_state_key -> radv_shader_stage ->
    nir_shader -> nir_shader * radv_shader_info * option nir_shader;
  (** First half, second half if merged, and the NGG layout. *)
  gfx10_get_ngg_info : radv_compiler_info -> radv_shader_info -> option radv_shader_info ->
    radv_shader_info * option radv_shader_info * gfx10_ngg_info;
  (** The shaders ACO leaves behind and the program. *)
  radv_shader_nir_to_asm : radv_compiler_info -> radv_shader_stage -> list nir_shader ->
    radv_graphics_state_key -> list nir_shader * option radv_shader_binary
}.

(** Which allocations succeed, and whether PSBC_DEBUG_DISASM is set. *)
(** The environment of one compile. *)
Record Host : Type := mk_Host {
  host_newcode_allocated : bool;
  host_buf_allocated : bool;
  host_machine_code_allocated : bool;
  host_debug_disasm : bool
}.

#[export] Instance eta_Host : Eta Host := fun r =>
  mk_Host r.(host_newcode_allocated) r.(host_buf_allocated)
    r.(host_machine_code_allocated) r.(host_debug_disasm).

Definition zero_Host : Host := {|
  host_newcode_allocated := false;
  host_buf_allocated := false;
  host_machine_code_allocated := false;
  host_debug_disasm := false
|}.

(** ** prepare_stage_nir *)

Section prepare.
Context `{MesaPasses}.

Definition specialization_entries (opts : PsbcCompileOptions) : list PsbcSpecializationConstant :=
  map (at_ zero_PsbcSpecializationConstant (co_specialization_constants opts))
    (seqZ 0 (co_specialization_constant_count opts)).

(** The stage as the SPIR-V reader sees it. *)
Definition configure_stage (stage : radv_shader_stage) (spirv : option (list Z)) (spirv_size : Z)
    (input_nir : option nir_shader) (opts : PsbcCompileOptions) : radv_shader_stage :=
  stage
    <| st_spirv_data := spirv |>
    <| st_spirv_size := spirv_size |>
    <| st_entrypoint := default "main" (co_entrypoint opts) |>
    <| st_key := st_key stage
         <| key_optimisations_disabled := negb (co_optimise opts) |>
         <| key_storage_robustness2 := co_robust_buffer_access2 opts |>
         <| key_uniform_robustness2 := co_robust_buffer_access2 opts |> |>
    <| st_spec_info :=
         if truthy (co_specialization_constant_count opts)
         then Some (pack_specialization (specialization_entries opts)) else st_spec_info stage |>
    <| st_internal_nir := match input_nir with Some nir => Some nir | None => st_internal_nir stage end |>.

Definition deliver_view_index (stage : radv_shader_stage) (opts : PsbcCompileOptions) : bool :=
  stage_eqb (st_stage stage) MESA_SHADER_VERTEX ||
  (is_ps5 opts && stage_eqb (st_stage stage) MESA_SHADER_FRAGMENT).

Definition nir_is (nir : nir_shader) (s : mesa_shader_stage) : bool :=
  stage_eqb (si_stage (sh_info nir)) s.

(** The declared distance widths survive gather_info. *)
Definition keep_distances (clip cull : Z) : nir_shader -> nir_shader :=
  on_info (fun i => i <| si_clip_distance_array_size := clip |>
                      <| si_cull_distance_array_size := cull |>).

Definition flatten_indirect_arrays : nir_opt_peephole_select_options := {|
  ps_opt_limit := 10;
  ps_opt_indirect_load_ok := true;
  ps_opt_expensive_alu_ok := true;
  ps_opt_discard_ok := true
|}.

(** Rewrites between the import and the optimizer. *)
Definition import_rewrites (compiler_info : radv_compiler_info) (imported_nir : bool)
    (opts : PsbcCompileOptions) (nir : nir_shader) : nir_shader :=
  let nir :=
    if is_ps5 opts && nir_is nir MESA_SHADER_COMPUTE then
      nir_shader_instructions_pass
        (Lowering.lower_ps5_compute_subgroup_id (sh_info nir) (ci_cs_wave_size compiler_info)) nir
    else nir in
  if imported_nir then
    nir_normalize_sin_cos
      (if truthy (co_descriptor_binding_count opts)
       then nir_shader_instructions_pass Lowering.lower_gallium_ubo_index nir else nir)
  else nir.

(** Optimization and flattening of indirectly addressed arrays. *)
Definition optimize_stage (opts : PsbcCompileOptions) (nir : nir_shader) : nir_shader :=
  let nir := radv_optimize_nir nir (negb (co_optimise opts)) in
  let '(indirect_derefs_lowered, nir) := ac_nir_lower_indirect_derefs nir in
  let nir := nir_lower_vars_to_ssa nir in
  if indirect_derefs_lowered then
    let nir := nir_opt_peephole_select flatten_indirect_arrays (nir_lower_undef_to_zero nir) in
    if co_optimise opts then radv_optimize_nir nir false else nir
  else nir.

(** The shader handed to RADV, [None] when its distances cannot be linked. *)
Definition lower_stage_nir (compiler_info : radv_compiler_info) (imported_nir : bool)
    (opts : PsbcCompileOptions) (nir : nir_shader) : option nir_shader :=
  let clip := si_clip_distance_array_size (sh_info nir) in
  let cull := si_cull_distance_array_size (sh_info nir) in
  let nir := import_rewrites compiler_info imported_nir opts nir in
  let nir := nir_shader_gather_info (optimize_stage opts nir) in
  let nir := if nir_is nir MESA_SHADER_FRAGMENT then keep_distances clip cull nir else nir in
  nir ← Distance.link_fragment_distance_layout nir_lower_io_to_scalar (radv_nir_lower_io nir) opts;
  let nir := if nir_is nir MESA_SHADER_FRAGMENT && co_fragment_distance_layout_valid opts
             then keep_distances clip cull (nir_shader_gather_info nir) else nir in
  let nir := if nir_is nir MESA_SHADER_TESS_CTRL then nir_shader_gather_info nir else nir in
  Some (if nir_is nir MESA_SHADER_FRAGMENT then nir_recompute_io_bases nir else nir).

(** The address of the prepared shader and its stage, [None] for a null pointer. *)
Definition prepare_stage_nir (compiler_info : radv_compiler_info) (stage : radv_shader_stage)
    (spirv : option (list Z)) (spirv_size : Z) (input_nir : option nir_shader)
    (opts : PsbcCompileOptions) : C (option (Z * radv_shader_stage)) :=
  let stage := configure_stage stage spirv spirv_size input_nir opts in
  need_types;;
  match radv_shader_spirv_to_nir compiler_info stage (negb (deliver_view_index stage opts)) with
  | None => mret None
  | Some nir =>
      p ← alloc (nir_object nir None);
      match lower_stage_nir compiler_info (given input_nir) opts nir with
      | None => ralloc_free p;; mret None
      | Some nir => store_nir p nir;; mret (Some (p, stage <| st_nir := Some p |>))
      end
  end.
End prepare.

(** ** psbc_compile_impl *)

(** What the link-only evaluation half tells a hull compile. *)
Record NextLink : Type := mk_NextLink {
  nl_valid : bool;
  nl_reads_tess_factors : bool;
  nl_inputs_read : Z;
  nl_patch_inputs_read : Z;
  nl_primitive_mode : Z
}.

#[export] Instance eta_NextLink : Eta NextLink := fun r =>
  mk_NextLink r.(nl_valid) r.(nl_reads_tess_factors) r.(nl_inputs_read)
    r.(nl_patch_inputs_read) r.(nl_primitive_mode).

Definition zero_NextLink : NextLink := {|
  nl_valid := false;
  nl_reads_tess_factors := false;
  nl_inputs_read := 0;
  nl_patch_inputs_read := 0;
  nl_primitive_mode := 0
|}.

(** Push constant dwords read by the program and by each half of a hull pair. *)
Record PushUse : Type := mk_PushUse {
  pu_push_valid : bool;
  pu_hull_push_valid : bool;
  pu_stage_push : Z;
  pu_previous_stage_push : Z;
  pu_hull_vertex_push : Z;
  pu_hull_control_push : Z
}.

#[export] Instance eta_PushUse : Eta PushUse := fun r =>
  mk_PushUse r.(pu_push_valid) r.(pu_hull_push_valid) r.(pu_stage_push)
    r.(pu_previous_stage_push) r.(pu_hull_vertex_push) r.(pu_hull_control_push).

Definition zero_PushUse : PushUse := {|
  pu_push_valid := false;
  pu_hull_push_valid := false;
  pu_stage_push := 0;
  pu_previous_stage_push := 0;
  pu_hull_vertex_push := 0;
  pu_hull_control_push := 0
|}.

(** The three stages a compile can involve. *)
Record Stages : Type := mk_Stages {
  sg_stage : radv_shader_stage;
  sg_previous : radv_shader_stage;
  sg_control : radv_shader_stage
}.

#[export] Instance eta_Stages : Eta Stages := fun r =>
  mk_Stages r.(sg_stage) r.(sg_previous) r.(sg_control).

Definition zero_Stages : Stages := {|
  sg_stage := zero_radv_shader_stage;
  sg_previous := zero_radv_shader_stage;
  sg_control := zero_radv_shader_stage
|}.

Section compile.
Context `{MesaPasses} `{Binary.GnmFormat} (host : Host) (rq : CompileRequest)
  (opts : PsbcCompileOptions).

Definition mesa_stage : mesa_shader_stage := psbc_to_mesa_stage (co_stage opts).
Definition compiler_info : radv_compiler_info := compiler_info_of opts.
Definition is_fragment : bool := stage_eqb mesa_stage MESA_SHADER_FRAGMENT.

(** Both halves are in the program ACO emits. *)
Definition merged_pair : bool := paired_geometry rq opts || paired_hull rq opts.

(** Through a pointer that may be null. *)
Definition load_ptr (p : option Z) : C nir_shader :=
  match p with Some p => load_nir p | None => fault;; mret zero_nir_shader end.
Definition update_ptr (p : option Z) (f : nir_shader -> nir_shader) : C unit :=
  match p with Some p => update_nir p f | None => fault end.

(** The common failure exit: release both shaders and the library, return [r]. *)
Definition bail {A} (nir : Z) (previous_nir : option Z) (r : PsbcResult) : C A :=
  if_some previous_nir ralloc_free;; ralloc_free nir;; shutdown;; fail r.

(** *** Import *)

Definition import_stage : C (Z * radv_shader_stage) :=
  let stage := zero_radv_shader_stage
    <| st_stage := mesa_stage |>
    <| st_key := zero_radv_shader_stage_key <| key_keep_executable_info := host_debug_disasm host |> |>
    <| st_next_stage := next_stage_of mesa_stage |> in
  if match rq_input_nir rq with Some nir => negb (nir_is nir mesa_stage) | None => false end
  then shutdown;; fail PSBC_RESULT_UNSUPPORTED_STAGE
  else
    prepared ← prepare_stage_nir compiler_info stage (rq_spirv rq) (rq_spirv_size rq)
                 (rq_input_nir rq) opts;
    match prepared with
    | None => shutdown;; fail PSBC_RESULT_COMPILE_NIR
    | Some prepared => mret prepared
    end.

Definition import_previous (nir : Z) : C (option Z * radv_shader_stage) :=
  if paired_previous rq then
    let previous := zero_radv_shader_stage
      <| st_stage := expected_previous_stage rq opts |> <| st_next_stage := mesa_stage |> in
    prepared ← prepare_stage_nir compiler_info previous (rq_previous_spirv rq)
                 (rq_previous_spirv_size rq) (rq_previous_input_nir rq)
                 (select_linked_parameters opts (co_previous_parameters opts));
    match prepared with
    | None => ralloc_free nir;; shutdown;; fail PSBC_RESULT_COMPILE_NIR
    | Some (p, previous) => mret (Some p, previous)
    end
  else mret (None, zero_radv_shader_stage).

(** A shader prepared only for the facts of its interface. *)
Definition import_link_only (nir : Z) (previous_nir : option Z) (s next : mesa_shader_stage) :
    C (Z * radv_shader_stage) :=
  prepared ← prepare_stage_nir compiler_info
               (zero_radv_shader_stage <| st_stage := s |> <| st_next_stage := next |>)
               (rq_next_link_spirv rq) (rq_next_link_spirv_size rq) None
               (select_linked_parameters opts (co_next_link_parameters opts));
  match prepared with
  | None => bail nir previous_nir PSBC_RESULT_COMPILE_NIR
  | Some prepared => mret prepared
  end.

(** The evaluation half of a hull pair is read and released. *)
Definition link_next (nir : Z) (previous_nir : option Z) : C NextLink :=
  if paired_hull rq opts && given (rq_next_link_spirv rq) then
    '(p, _) ← import_link_only nir previous_nir MESA_SHADER_TESS_EVAL MESA_SHADER_FRAGMENT;
    next ← load_nir p;
    update_nir nir (on_info (fun i => merge_tess_into i (sh_info next)));;
    merged ← load_nir nir;
    ralloc_free p;;
    mret {|
      nl_valid := true;
      nl_reads_tess_factors := truthy (si_inputs_read (sh_info next) `land` tess_levels);
      nl_inputs_read := si_inputs_read (sh_info next);
      nl_patch_inputs_read := si_patch_inputs_read (sh_info next);
      nl_primitive_mode := si_tess_primitive_mode (sh_info merged)
    |}
  else mret zero_NextLink.

(** Both halves of a tessellation pair get the union of what they declare. *)
Definition merge_tess (nir : Z) (other : option Z) : C unit :=
  into ← load_nir nir;
  from ← load_ptr other;
  let '(into, from) := merge_tess_pair into from in
  store_nir nir into;;
  update_ptr other (fun _ => from).

Definition merge_domain (nir : Z) (previous_nir : option Z) : C unit :=
  if_true (paired_domain rq opts) (merge_tess nir previous_nir).

(** The control half of a tessellated geometry pair lives as long as [nir]. *)
Definition link_control (nir : Z) (previous_nir : option Z) : C radv_shader_stage :=
  if paired_tess_geometry rq opts then
    '(p, control) ← import_link_only nir previous_nir MESA_SHADER_TESS_CTRL MESA_SHADER_TESS_EVAL;
    ralloc_steal nir p;;
    match previous_nir with
    | Some previous_nir => merge_tess previous_nir (Some p)
    | None => fault
    end;;
    previous ← load_ptr previous_nir;
    update_nir p (mask_tcs_outputs (si_inputs_read (sh_info previous))
                    (si_patch_inputs_read (sh_info previous)));;
    mret (control
      <| st_info := radv_nir_shader_info_init (st_stage control) (st_next_stage control)
                      (st_info control) <| ri_outputs_linked := true |> |>)
  else mret zero_radv_shader_stage.

(** *** Shader information *)

Definition on_st_info (f : radv_shader_info -> radv_shader_info) (st : radv_shader_stage) :
    radv_shader_stage := st <| st_info := f (st_info st) |>.
Definition on_stage (f : radv_shader_stage -> radv_shader_stage) (sg : Stages) : Stages :=
  sg <| sg_stage := f (sg_stage sg) |>.
Definition on_previous (f : radv_shader_stage -> radv_shader_stage) (sg : Stages) : Stages :=
  sg <| sg_previous := f (sg_previous sg) |>.
Definition apply_if {A} (b : bool) (f : A -> A) (a : A) : A := if b then f a else a.

Definition init_info (is_ngg : bool) (st : radv_shader_stage) : radv_shader_stage :=
  on_st_info (fun i => radv_nir_shader_info_init (st_stage st) (st_next_stage st) i
                         <| ri_is_ngg := is_ngg |>) st.

Definition gs_flags : Z :=
  nir_lower_gs_intrinsics_per_stream `lor` nir_lower_gs_intrinsics_count_primitives `lor`
  nir_lower_gs_intrinsics_count_vertices_per_primitive `lor`
  nir_lower_gs_intrinsics_overwrite_incomplete.

(** The linked slot counts of a merged geometry pair. *)
Definition link_geometry (nir : Z) (previous_nir : option Z) (sg : Stages) : C Stages :=
  update_nir nir (fun n => nir_lower_vars_to_ssa (nir_lower_gs_intrinsics gs_flags n));;
  shader ← load_nir nir;
  let linked_slots := util_bitcount64 (si_inputs_read (sh_info shader)) in
  sg ← (if paired_tess_geometry rq opts then
          previous ← load_ptr previous_nir;
          mret (on_previous (on_st_info (fun i =>
            let i := link_tes_inputs previous i in
            i <| ri_tes := ri_tes i <| tes_num_linked_outputs := linked_slots |> |>)) sg)
        else mret (on_previous (on_st_info (fun i =>
            i <| ri_vs := ri_vs i <| vs_num_linked_outputs := linked_slots |> |>)) sg));
  let sg := on_previous (on_st_info (fun i => i <| ri_outputs_linked := true |>)) sg in
  mret (on_stage (on_st_info (fun i =>
    i <| ri_gs := ri_gs i <| gs_num_linked_inputs := linked_slots |> |>
      <| ri_inputs_linked := true |>)) sg).

Definition init_infos (nir : Z) (previous_nir : option Z) (next : NextLink) (sg : Stages) :
    C Stages :=
  let sg := on_stage (fun st => st <| st_nir := Some nir |>) sg in
  let sg := apply_if (paired_hull rq opts || paired_domain rq opts || paired_tess_geometry rq opts)
              (on_previous (fun st => st <| st_nir := previous_nir |>)) sg in
  let sg := on_stage (init_info (co_ngg opts)) sg in
  let sg := apply_if (nl_valid next)
              (on_stage (on_st_info (fun i => i <| ri_outputs_linked := true |>))) sg in
  if_true (nl_valid next)
    (update_nir nir (mask_tcs_outputs (nl_inputs_read next) (nl_patch_inputs_read next)));;
  let sg := apply_if (paired_previous rq) (on_previous (init_info (paired_geometry rq opts))) sg in
  sg ← (if paired_domain rq opts then
          shader ← load_nir nir;
          mret (on_stage (on_st_info (link_tes_inputs shader))
            (on_previous (on_st_info (fun i => i <| ri_outputs_linked := true |>)) sg))
        else mret sg);
  if paired_geometry rq opts then link_geometry nir previous_nir sg else mret sg.

(** The fragment coordinate is lowered once, and the selection it leaves is folded
    to the pipeline's sample shading. *)
Definition sample_shaded (gfx : radv_graphics_state_key) (nir : nir_shader) : bool :=
  gfx_sample_shading_enable gfx || si_fs_uses_sample_shading (sh_info nir).

Definition lower_frag_pos (nir : Z) (gfx : radv_graphics_state_key) :
    C radv_graphics_state_key :=
  if is_fragment then
    update_nir nir (fun n => radv_nir_lower_opt_fs_frag_pos false (sample_shaded gfx n) n);;
    update_nir nir (fun n =>
      nir_shader_instructions_pass
        (Lowering.on_intrinsics (fun intrin =>
           option_map nir_instr_type_expr
             (Lowering.fold_use_float_frag_coord_xy (sample_shaded gfx n) intrin))) n);;
    mret (gfx <| gfx_frag_pos_already_lowered := true |>)
  else mret gfx.

Definition set_layout (layout : radv_shader_layout) (sg : Stages) : Stages :=
  let place st := st <| st_layout := layout |> in
  let sg := on_stage place sg in
  let sg := apply_if (paired_tess_geometry rq opts)
              (fun sg => sg <| sg_control := place (sg_control sg) |>) sg in
  apply_if (paired_previous rq) (on_previous place) sg.

Definition info_pass (gfx : radv_graphics_state_key) (layout : radv_shader_layout)
    (shader : nir_shader) (st : radv_shader_stage) : radv_shader_stage :=
  on_st_info (radv_nir_shader_info_pass compiler_info shader layout (st_key st) gfx) st.

Definition info_passes (nir : Z) (previous_nir : option Z) (gfx : radv_graphics_state_key)
    (layout : radv_shader_layout) (sg : Stages) : C Stages :=
  shader ← load_nir nir;
  let sg := on_stage (info_pass gfx layout shader) sg in
  sg ← (if paired_previous rq then
          previous ← load_ptr previous_nir;
          mret (on_previous (info_pass gfx layout previous) sg)
        else mret sg);
  sg ← (if paired_tess_geometry rq opts then
          control ← load_ptr (st_nir (sg_control sg));
          mret (sg <| sg_control := info_pass gfx layout control (sg_control sg) |>)
        else mret sg);
  mret (apply_if (paired_hull rq opts)
    (on_previous (on_st_info (fun i => i <| ri_vs := ri_vs i
       <| vs_num_linked_outputs := tcs_num_linked_inputs (ri_tcs (st_info (sg_stage sg))) |> |>))) sg).

Definition push_use (nir : Z) (previous_nir : option Z) : C PushUse :=
  shader ← load_nir nir;
  let '(stage_valid, stage_push) := Usage.gather_push_dwords shader in
  if merged_pair then
    previous ← load_ptr previous_nir;
    let '(previous_valid, previous_push) := Usage.gather_push_dwords previous in
    let valid := stage_valid && previous_valid in
    let hull := paired_hull rq opts && valid in
    mret {|
      pu_push_valid := valid;
      pu_hull_push_valid := hull;
      pu_stage_push := if valid then stage_push else 0;
      pu_previous_stage_push := if valid then previous_push else 0;
      pu_hull_vertex_push := if hull then previous_push else 0;
      pu_hull_control_push := if hull then stage_push else 0
    |}
  else mret (zero_PushUse
    <| pu_push_valid := stage_valid |>
    <| pu_stage_push := if stage_valid then stage_push else 0 |>).

Definition declared_bindings : list PsbcDescriptorBinding :=
  map (at_ zero_PsbcDescriptorBinding (co_descriptor_bindings opts))
    (seqZ 0 (co_descriptor_binding_count opts)).

(** The binding masks; the used sets are widened to the declared ones when the
    caller did not ask for static use. *)
Definition descriptor_use (nir : Z) (previous_nir : option Z) (sg : Stages) : C (Stages * list Z) :=
  let zero_mask := replicate (Z.to_nat PSBC_MAX_DESCRIPTOR_SETS) 0 in
  if negb (truthy (co_descriptor_binding_count opts)) then mret (sg, zero_mask)
  else if negb (co_static_descriptor_use opts) then
    let sg := on_stage (on_st_info (add_declared_sets opts)) sg in
    mret (apply_if (paired_previous rq) (on_previous (on_st_info (add_declared_sets opts))) sg,
          zero_mask)
  else
    shader ← load_nir nir;
    previous ← (if merged_pair then
                  previous ← load_ptr previous_nir;
                  mret (Some (previous, ri_desc_set_used_mask (st_info (sg_previous sg))))
                else mret None : C (option (nir_shader * Z)));
    mret (sg, Usage.static_binding_masks declared_bindings shader
                (ri_desc_set_used_mask (st_info (sg_stage sg))) previous).

Definition inline_push (sg : Stages) : Stages :=
  let sg := on_stage (on_st_info (indirect_push_constants opts)) sg in
  apply_if (paired_previous rq) (on_previous (on_st_info (indirect_push_constants opts))) sg.

(** *** Linking *)

Definition put_stage (s : mesa_shader_stage) (v : linked_stage)
    (stages : mesa_shader_stage -> linked_stage) : mesa_shader_stage -> linked_stage :=
  fun t => if stage_eqb t s then v else stages t.

(** The stage with the shader behind its pointer. *)
Definition show_stage (st : radv_shader_stage) : C linked_stage :=
  match st_nir st with
  | Some p => shader ← load_nir p; mret (st, Some shader)
  | None => mret (st, None)
  end.

Definition apply_next_link (next : NextLink) (i : radv_shader_info) : radv_shader_info :=
  if nl_valid next then i
    <| ri_tcs := ri_tcs i
         <| tcs_tes_reads_tess_factors := nl_reads_tess_factors next |>
         <| tcs_tes_inputs_read := nl_inputs_read next |>
         <| tcs_tes_patch_inputs_read := nl_patch_inputs_read next |> |>
    <| ri_tes := ri_tes i <| tes__primitive_mode := nl_primitive_mode next |> |>
    <| ri_outputs_linked := true |>
  else i.

Definition link_info (nir : Z) (gfx : radv_graphics_state_key) (next : NextLink) (sg : Stages) :
    C Stages :=
  if co_ngg opts || paired_hull rq opts || paired_domain rq opts then
    stage ← show_stage (sg_stage sg);
    previous ← show_stage (sg_previous sg);
    control ← show_stage (sg_control sg);
    let stages := put_stage mesa_stage stage (fun _ => (zero_radv_shader_stage, None)) in
    let stages := apply_if (paired_previous rq)
                    (put_stage (st_stage (sg_previous sg)) previous) stages in
    let stages := apply_if (paired_tess_geometry rq opts)
                    (put_stage MESA_SHADER_TESS_CTRL control) stages in
    let linked := radv_nir_shader_info_link compiler_info gfx stages in
    let sg := on_stage (fun st => st <| st_info := linked mesa_stage |>) sg in
    let sg := apply_if (paired_previous rq)
                (on_previous (fun st => st <| st_info := linked (st_stage st) |>)) sg in
    shader ← load_nir nir;
    mret (on_stage (on_st_info (fun i =>
      let i := apply_if (co_ngg_no_passthrough opts) (fun i => i <| ri_is_ngg_passthrough := false |>) i in
      fix_primitive_id opts shader mesa_stage (apply_next_link next i))) sg)
  else mret sg.

(** *** Arguments *)

Definition declare_args (gfx : radv_graphics_state_key) (sg : Stages) : Stages :=
  let sg := on_stage (on_st_info (direct_descriptors opts)) sg in
  let sg := apply_if (paired_previous rq) (on_previous (on_st_info (direct_descriptors opts))) sg in
  let together i := i <| ri_merged_shader_compiled_separately := false |> in
  let sg := apply_if (paired_hull rq opts)
              (fun sg => on_previous (on_st_info together) (on_stage (on_st_info together) sg)) sg in
  let sg := on_stage (fun st => st <| st_args :=
              radv_declare_shader_args compiler_info gfx st
                (previous_stage_of mesa_stage (paired_tess_geometry rq opts)) |>) sg in
  let args := st_args (sg_stage sg) in
  let locate i := i
    <| ri_user_sgprs_locs := ra_user_sgprs_locs args |>
    <| ri_inline_push_constant_mask := aa_inline_push_const_mask (ra_ac args) |> in
  let sg := on_stage (on_st_info locate) sg in
  apply_if merged_pair
    (on_previous (fun st => on_st_info locate (st <| st_args := args |>))) sg.

(** *** Lowering *)

(** A standalone geometry program: the copy shader made here is dropped. *)
Definition lower_legacy_gs (nir : Z) (sg : Stages) : C unit :=
  let info := st_info (sg_stage sg) in
  if stage_eqb mesa_stage MESA_SHADER_GEOMETRY && negb (ri_is_ngg info) then
    update_nir nir (fun n =>
      nir_lower_vars_to_ssa (nir_lower_gs_intrinsics nir_lower_gs_intrinsics_per_stream n));;
    shader ← load_nir nir;
    let '(lowered, gs_copy) := ac_nir_lower_legacy_gs {|
      lgs_gfx_level := (setup_target (co_target opts)).1.1;
      lgs_export_clipdist_mask := 0xff;
      lgs_write_pos_to_clipvertex := true;
      lgs_has_param_exports := oi_param_exports (ri_outinfo info) >? 0;
      lgs_disable_streamout := true
    |} shader in
    store_nir nir lowered;;
    match gs_copy with
    | Some copy => p ← alloc (nir_object copy None); ralloc_free p
    | None => mret tt
    end
  else mret tt.

(** RADV's late lowering of one stage; a copy shader it makes goes into the stage. *)
Definition postprocess (gfx : radv_graphics_state_key) (st : radv_shader_stage) :
    C radv_shader_stage :=
  match st_nir st with
  | None => fault;; mret st
  | Some p =>
      shader ← load_nir p;
      let '(lowered, info, gs_copy) := radv_postprocess_nir compiler_info gfx st shader in
      store_nir p lowered;;
      copy ← match gs_copy with
             | Some copy => p ← alloc (nir_object copy None); mret (Some p)
             | None => mret (st_gs_copy_shader st)
             end;
      mret (st <| st_info := info |> <| st_gs_copy_shader := copy |>)
  end.

Definition lower_flat (nir : Z) : C unit :=
  if_true (is_fragment && is_ps5 opts && co_provoking_vtx_last opts &&
           truthy (Lowering.ps5_last_provoking_vertex (co_primitive_type opts)))
    (update_nir nir (nir_shader_instructions_pass
       (Lowering.on_intrinsics (fun intrinsic =>
          option_map nir_instr_type_intrinsic (Lowering.lower_flat_input_vertex opts intrinsic))))).

Definition split_inputs (nir : Z) (previous_nir : option Z) (st : radv_shader_stage) :
    C radv_shader_stage :=
  if is_fragment && is_ps5 opts then
    shader ← load_nir nir;
    match InputSemantics.split_ps5_mixed_inputs shader (st_info st)
            (co_primitive_id_per_primitive opts) with
    | None => bail nir previous_nir PSBC_RESULT_INTERNAL_ERROR
    | Some (shader, info) => store_nir nir shader;; mret (st <| st_info := info |>)
    end
  else mret st.

Definition late_lowering (nir : Z) (previous_nir : option Z) (gfx : radv_graphics_state_key)
    (sg : Stages) : C Stages :=
  lower_legacy_gs nir sg;;
  sg ← (if merged_pair then
          previous ← postprocess gfx (sg_previous sg); mret (sg <| sg_previous := previous |>)
        else mret sg);
  stage ← postprocess gfx (sg_stage sg);
  lower_flat nir;;
  stage ← split_inputs nir previous_nir stage;
  update_nir nir nir_opt_licm;;
  mret (sg <| sg_stage := stage |>).

(** The flat and interpolated inputs, before ACO consumes the shader.  Only the
    current shader is released here: a fragment program has no previous half. *)
Definition snapshot_semantics (nir : Z) (st : radv_shader_stage) :
    C InputSemantics.PsbcInputSemantics :=
  if is_fragment then
    shader ← load_nir nir;
    let '(ok, semantics) := InputSemantics.build_input_semantics shader (st_info st)
                              (co_primitive_id_per_primitive opts) in
    if negb ok && ps_prim_id_input (ri_ps (st_info st))
    then ralloc_free nir;; shutdown;; fail PSBC_RESULT_INTERNAL_ERROR
    else mret semantics
  else mret (InputSemantics.mk_PsbcInputSemantics true 0
               (InputSemantics.is_words InputSemantics.zero_PsbcInputSemantics)).

Definition ngg_info (sg : Stages) : Stages :=
  if co_ngg opts then
    let geometry := paired_geometry rq opts in
    let es := st_info (if geometry then sg_previous sg else sg_stage sg) in
    let gs := if geometry then Some (st_info (sg_stage sg)) else None in
    let '(es, gs, ngg) := gfx10_get_ngg_info compiler_info es gs in
    let sg := if geometry then on_previous (fun st => st <| st_info := es |>) sg else sg in
    on_stage (fun st => st <| st_info := default es gs
      <| ri_ngg_info := ngg |> <| ri_nir_shared_size := ngg_lds_size ngg |> |>) sg
  else sg.

(** *** Code generation *)

Fixpoint load_all (ps : list Z) : C (list nir_shader) :=
  match ps with
  | [] => mret []
  | p :: ps => shader ← load_nir p; shaders ← load_all ps; mret (shader :: shaders)
  end.

Fixpoint store_all (ps : list Z) (shaders : list nir_shader) : C unit :=
  match ps, shaders with
  | p :: ps, shader :: shaders => store_nir p shader;; store_all ps shaders
  | _, _ => mret tt
  end.

(** The shaders ACO compiles, in order. *)
Definition program_shaders (nir : Z) (previous_nir : option Z) : list Z :=
  if merged_pair then option_list previous_nir ++ [nir] else [nir].

(** The machine code inside ACO's program. *)
Definition code_bytes (b : radv_shader_binary) : list Z :=
  Binary.slice (bin_data b) (bin_stats_size b) (bin_code_size b).
Definition code_dwords (b : radv_shader_binary) : list Z :=
  map (fun i => Binary.read_u32_le (code_bytes b) (4 * i)) (seqZ 0 (bin_code_size b / 4)).

(** The SPIR-V words as the bytes the shader hash runs over. *)
Definition spirv_bytes (words : option (list Z)) : option (list Z) :=
  option_map (fun ws => concat (map Binary.le32 ws)) words.

Definition build_context (shader : nir_shader) (sg : Stages) (b : radv_shader_binary)
    (semantics : InputSemantics.PsbcInputSemantics) (push : PushUse) (masks : list Z) :
    Metadata.BuildContext :=
  let '(gfxlevel, chipfamily, neo) := setup_target (co_target opts) in {|
    Metadata.ctx_nir := shader;
    Metadata.ctx_rinfo := bin_info b;
    Metadata.ctx_es_info := if paired_geometry rq opts then Some (st_info (sg_previous sg)) else None;
    Metadata.ctx_ls_merged := paired_hull rq opts;
    Metadata.ctx_domain_linked := paired_domain rq opts;
    Metadata.ctx_rargs := st_args (sg_stage sg);
    Metadata.ctx_config := bin_config b;
    Metadata.ctx_gfx_level := gfxlevel;
    Metadata.ctx_family := chipfamily;
    Metadata.ctx_stage := mesa_stage;
    Metadata.ctx_psbc_stage := co_stage opts;
    Metadata.ctx_spirv_data := spirv_bytes (rq_spirv rq);
    Metadata.ctx_spirv_size := rq_spirv_size rq;
    Metadata.ctx_target := co_target opts;
    Metadata.ctx_ngg := co_ngg opts;
    Metadata.ctx_neo := neo;
    Metadata.ctx_address32_hi := co_address32_hi opts;
    Metadata.ctx_options := opts;
    Metadata.ctx_input_semantics := Some semantics;
    Metadata.ctx_descriptor_used_binding_mask := masks;
    Metadata.ctx_hull_push_use_valid := pu_hull_push_valid push;
    Metadata.ctx_push_use_valid := pu_push_valid push;
    Metadata.ctx_stage_push_dwords := pu_stage_push push;
    Metadata.ctx_previous_stage_push_dwords := pu_previous_stage_push push;
    Metadata.ctx_hull_vertex_push_dwords := pu_hull_vertex_push push;
    Metadata.ctx_hull_control_push_dwords := pu_hull_control_push push
  |}.

(** Package the program: the binary, the raw code and the metadata go to the
    caller, everything else is released. *)
Definition package (nir : Z) (previous_nir : option Z) (program : Z) (b : radv_shader_binary)
    (context : Metadata.BuildContext) : C unit :=
  match Binary.buildshaderbinary (host_newcode_allocated host) (host_buf_allocated host) context
          (code_dwords b) with
  | inl r => free program;; bail nir previous_nir r
  | inr bytes =>
      output_data ← alloc (bytes_object bytes);
      if negb (host_machine_code_allocated host)
      then free output_data;; free program;; bail nir previous_nir PSBC_RESULT_OUT_OF_MEMORY
      else
        machine_code ← alloc (bytes_object (code_bytes b));
        set_out {|
          out_data := Some output_data;
          out_size := Z.of_nat (length bytes);
          out_machine_code := Some machine_code;
          out_machine_code_size := bin_code_size b;
          out_metadata := Metadata.fill_shader_metadata context
        |};;
        free program;;
        if_some previous_nir ralloc_free;; ralloc_free nir;; shutdown
  end.

Definition assemble (nir : Z) (previous_nir : option Z) (gfx : radv_graphics_state_key) (sg : Stages)
    (semantics : InputSemantics.PsbcInputSemantics) (push : PushUse) (masks : list Z) : C unit :=
  shaders ← load_all (program_shaders nir previous_nir);
  let stage := sg_stage sg in
  let stage := stage <| st_key := st_key stage
    <| key_keep_executable_info := key_keep_executable_info (st_key stage) || host_debug_disasm host |> |> in
  let '(shaders, binary) := radv_shader_nir_to_asm compiler_info stage shaders gfx in
  store_all (program_shaders nir previous_nir) shaders;;
  match binary with
  | None => bail nir previous_nir PSBC_RESULT_COMPILE_ACO
  | Some b =>
      program ← alloc (binary_object b);
      shader ← load_nir nir;
      package nir previous_nir program b (build_context shader sg b semantics push masks)
  end.

(** *** The compile *)

(** From the first shader imported to the released resources. *)
Definition compile_shaders (nir : Z) (stage : radv_shader_stage) : C unit :=
  shader ← load_nir nir;
  let dual_source_blend := is_fragment &&
    truthy (si_outputs_written (sh_info shader) `land` (1 ≪ FRAG_RESULT_DUAL_SRC_BLEND)) in
  '(previous_nir, previous) ← import_previous nir;
  next ← link_next nir previous_nir;
  merge_domain nir previous_nir;;
  control ← link_control nir previous_nir;
  sg ← init_infos nir previous_nir next (mk_Stages stage previous control);
  let layout := descriptor_layout opts in
  let sg := set_layout layout sg in
  match graphics_state opts dual_source_blend with
  | None => bail nir previous_nir PSBC_RESULT_INTERNAL_ERROR
  | Some gfx =>
      gfx ← lower_frag_pos nir gfx;
      sg ← info_passes nir previous_nir gfx layout sg;
      push ← push_use nir previous_nir;
      '(sg, masks) ← descriptor_use nir previous_nir sg;
      sg ← link_info nir gfx next (inline_push sg);
      sg ← late_lowering nir previous_nir gfx (declare_args gfx sg);
      semantics ← snapshot_semantics nir (sg_stage sg);
      assemble nir previous_nir gfx (ngg_info sg) semantics push masks
  end.

Definition compile_body : C unit :=
  init;;
  '(nir, stage) ← import_stage;
  compile_shaders nir stage.
End compile.

(** [opts] may be null; [out] is the machine's output structure.  A normal end is
    PSBC_RESULT_OK. *)
Definition psbc_compile_impl `{MesaPasses} `{Binary.GnmFormat} (host : Host) (rq : CompileRequest)
    (opts : option PsbcCompileOptions) : C unit := fun m =>
  match opts, mc_out m with
  | Some opts, Some _ =>
      if negb (given (rq_spirv rq)) && negb (given (rq_input_nir rq))
      then fail PSBC_RESULT_INTERNAL_ERROR m
      else
        (set_out zero_PsbcShaderOutput;;
         match impl_guards rq opts with
         | Some r => fail r
         | None => compile_body host rq opts
         end) m
  | _, _ => fail PSBC_RESULT_INTERNAL_ERROR m
  end.

(** The result code of a finished computation. *)
Definition returned (r : PsbcResult + unit) : PsbcResult :=
  match r with inl r => r | inr _ => PSBC_RESULT_OK end.

End Compile.
