(* ===== verification/Sample.v ===== *)
(** * A concrete host for the compile driver

    A stand-in for the vendored compiler, small enough to evaluate: it builds an
    empty shader of the requested stage, leaves every shader alone, makes the copy
    shader of a legacy geometry program and emits one s_endpgm.  The examples and
    witnesses about whole compiles run on it. *)

From stdpp Require Import gmap.
From S2P Require Import Prelude Types Mesa Nir ShaderUtil InputSemantics Usage Validate Metadata Binary.
From S2P Require Import Setup Machine Compile.

Module Sample.
Import Validate Setup Machine Compile.

#[export] Instance sample_format : Binary.GnmFormat := Binary.example_format.

Definition empty_shader (s : mesa_shader_stage) : nir_shader :=
  zero_nir_shader <| sh_info := zero_shader_info <| si_stage := s |> |>.

(** s_endpgm, little-endian. *)
Definition sample_program (st : radv_shader_stage) : radv_shader_binary :=
  zero_radv_shader_binary
    <| bin_info := st_info st |> <| bin_code_size := 4 |> <| bin_data := [0; 0; 0x81; 0xbf] |>.

#[export] Instance sample_passes : MesaPasses := {|
  radv_shader_spirv_to_nir := fun _ st _ => Some (empty_shader (st_stage st));
  nir_normalize_sin_cos := fun n => n;
  radv_optimize_nir := fun n _ => n;
  ac_nir_lower_indirect_derefs := fun n => (false, n);
  nir_lower_vars_to_ssa := fun n => n;
  nir_lower_undef_to_zero := fun n => n;
  nir_opt_peephole_select := fun _ n => n;
  nir_shader_gather_info := fun n => n;
  radv_nir_lower_io := fun n => n;
  nir_lower_io_to_scalar := fun n => n;
  nir_recompute_io_bases := fun n => n;
  nir_lower_gs_intrinsics := fun _ n => n;
  radv_nir_lower_opt_fs_frag_pos := fun _ _ n => n;
  nir_opt_licm := fun n => n;
  radv_nir_shader_info_init := fun s next _ => zero_radv_shader_info
    <| ri_can_inline_all_push_constants := true |> <| ri_stage := s |> <| ri_next_stage := next |>;
  radv_nir_shader_info_pass := fun _ _ _ _ _ i => i;
  radv_nir_shader_info_link := fun _ _ stages s => st_info (stages s).1;
  radv_declare_shader_args := fun _ _ st _ => st_args st;
  ac_nir_lower_legacy_gs := fun _ n => (n, Some (empty_shader MESA_SHADER_VERTEX));
  radv_postprocess_nir := fun _ _ st n =>
    (n, st_info st,
     if stage_eqb (st_stage st) MESA_SHADER_GEOMETRY && negb (ri_is_ngg (st_info st))
     then Some (empty_shader MESA_SHADER_VERTEX) else None);
  gfx10_get_ngg_info := fun _ es gs => (es, gs, zero_gfx10_ngg_info);
  radv_shader_nir_to_asm := fun _ st shaders _ => (shaders, Some (sample_program st))
|}.

(** Every allocation succeeds. *)
Definition sample_host : Host := zero_Host
  <| host_newcode_allocated := true |> <| host_buf_allocated := true |>
  <| host_machine_code_allocated := true |>.

(** A module that declares Shader. *)
Definition sample_module : list Z := [0x07230203; 0x10500; 0; 8; 0; 0x20011; 1].

Definition sample_request : CompileRequest := zero_CompileRequest
  <| rq_spirv := Some sample_module |> <| rq_spirv_size := 28 |>.

(** A module with a previous half and, for a tessellation pipeline, a third. *)
Definition sample_pair (next : option (list Z)) : CompileRequest := sample_request
  <| rq_previous_spirv := Some sample_module |> <| rq_previous_spirv_size := 28 |>
  <| rq_next_link_spirv := next |> <| rq_next_link_spirv_size := 28 |>.

Definition sample_options (target : PsbcTarget) (stage : PsbcStage) : PsbcCompileOptions :=
  zero_PsbcCompileOptions <| co_target := target |> <| co_stage := stage |>.

(** An idle library and an output structure that has never been cleared. *)
Definition sample_machine : machine :=
  zero_machine <| mc_out := Some (zero_PsbcShaderOutput <| out_size := 7 |>) |>.

(** ** Evaluation *)

Definition ends (rq : CompileRequest) (opts : PsbcCompileOptions) : PsbcResult :=
  returned (psbc_compile_impl sample_host rq (Some opts) sample_machine).2.

Definition heap_after (rq : CompileRequest) (opts : PsbcCompileOptions) : nat :=
  size (mc_heap (psbc_compile_impl sample_host rq (Some opts) sample_machine).1).

(** A compute program is compiled and leaves its two buffers. *)
Example compute_compiles :
  let opts := sample_options PSBC_TARGET_PS5 PSBC_STAGE_COMPUTE in
  ends sample_request opts = PSBC_RESULT_OK /\ heap_after sample_request opts = 2%nat.
Proof. vm_compute. done. Qed.

(** The merged pairs. *)
Example pairs_compile :
  let geometry := sample_options PSBC_TARGET_PS5 PSBC_STAGE_GEOMETRY <| co_ngg := true |> in
  let hull := sample_options PSBC_TARGET_PS5 PSBC_STAGE_TESS_CTRL in
  let domain := sample_options PSBC_TARGET_PS5 PSBC_STAGE_TESS_EVAL <| co_ngg := true |> in
  ends (sample_pair None) domain = PSBC_RESULT_OK /\
  heap_after (sample_pair None) domain = 2%nat /\
  ends (sample_pair (Some sample_module)) hull = PSBC_RESULT_OK /\
  heap_after (sample_pair (Some sample_module)) hull = 2%nat /\
  ends (sample_pair (Some sample_module)) geometry = PSBC_RESULT_OK /\
  heap_after (sample_pair (Some sample_module)) geometry = 2%nat.
Proof. vm_compute. done. Qed.

(** A pair without NGG is refused. *)
Example geometry_pair_needs_ngg :
  ends (sample_pair None) (sample_options PSBC_TARGET_PS5 PSBC_STAGE_GEOMETRY) =
    PSBC_RESULT_UNSUPPORTED_STAGE.
Proof. vm_compute. done. Qed.

End Sample.
