(* ===== verification/CompileSafety.v ===== *)
(** * Every compile releases what it acquired

    Theorems about psbc_compile_impl and the public entry points for arbitrary
    behaviour of the vendored passes: no path touches memory it does not hold,
    releases something twice or forgets it, the library reference is returned, and
    the caller receives either a cleared structure or the finished program. *)

From stdpp Require Import gmap.
From S2P Require Import Prelude Types Mesa Nir ShaderUtil InputSemantics Usage Validate Metadata Binary.
From S2P Require Import Setup Machine Compile Sample.

Module CompileSafety.
Import Validate Setup Machine Compile.

(** How RADV decides the lowering of a stage (radv_is_last_vgt_stage). *)
Definition kind (i : radv_shader_info) : bool * mesa_shader_stage * mesa_shader_stage :=
  (ri_is_ngg i, ri_stage i, ri_next_stage i).

Definition last_vgt_stage (i : radv_shader_info) : bool :=
  (stage_eqb (ri_stage i) MESA_SHADER_VERTEX || stage_eqb (ri_stage i) MESA_SHADER_TESS_EVAL ||
   stage_eqb (ri_stage i) MESA_SHADER_GEOMETRY || stage_eqb (ri_stage i) MESA_SHADER_MESH) &&
  (stage_eqb (ri_next_stage i) MESA_SHADER_FRAGMENT || stage_eqb (ri_next_stage i) MESA_SHADER_NONE).

(** The little libpsbc relies on: the info passes read these three fields and
    radv_nir_shader_info_init sets the stages (radv_shader_info.c); a copy shader is
    made only for a geometry program that is not lowered to NGG (radv_pipeline.c,
    radv_postprocess_nir). *)
Class MesaLaws `{MesaPasses} : Prop := {
  info_init_stages : forall s next i,
    ri_stage (radv_nir_shader_info_init s next i) = s /\
    ri_next_stage (radv_nir_shader_info_init s next i) = next;
  info_pass_kind : forall ci nir layout key gfx i,
    kind (radv_nir_shader_info_pass ci nir layout key gfx i) = kind i;
  info_link_kind : forall ci gfx stages s,
    kind (radv_nir_shader_info_link ci gfx stages s) = kind (st_info (stages s).1);
  legacy_copy : forall ci gfx st nir copy,
    (radv_postprocess_nir ci gfx st nir).2 = Some copy ->
    st_stage st = MESA_SHADER_GEOMETRY /\ ri_is_ngg (st_info st) && last_vgt_stage (st_info st) = false
}.

(** ** The shaders a compile holds *)

(** The reference count and the liveness of the type cache go together. *)
Definition init_wf (i : InitState) : Prop :=
  0 <= ini_refcount i /\ ini_types_alive i = (ini_refcount i >? 0).

Lemma init_alive i : init_wf i -> ini_types_alive (psbc_init i) = true.
Proof.
  intros [? Ha]. unfold psbc_init. destruct (Z.eqb_spec (ini_refcount i) 0); simpl; [done|].
  rewrite Ha. apply Z.gtb_lt. lia.
Qed.

Lemma init_shutdown i : init_wf i -> psbc_shutdown (psbc_init i) = i.
Proof.
  intros [Hr Ha]. destruct i as [r a]. simpl in *. subst a. unfold psbc_shutdown, psbc_init. simpl.
  destruct (Z.eqb_spec r 0) as [->|]; [done|]. simpl.
  destruct (Z.gtb_spec (r + 1) 0); [|lia]. replace (r + 1 - 1) with r by lia.
  destruct (Z.eqb_spec r 0); [done|]. simpl. destruct (Z.gtb_spec r 0); [done|lia].
Qed.

(** The heap since the start of the compile: the current shader, the previous half,
    the link-only control half owned by the current shader, and [rest]. *)
Definition owns (rest : gmap Z shape) (nir : Z) (previous control : option Z)
    (s : gmap Z shape) : Prop :=
  s !! nir = Some (ralloced None) /\
  (forall p, previous = Some p -> p <> nir /\ s !! p = Some (ralloced None)) /\
  (forall p, control = Some p -> s !! p = Some (ralloced (Some nir))) /\
  (forall q k, s !! q = Some k -> q = nir \/ previous = Some q \/ control = Some q \/ rest !! q = Some k) /\
  (forall q k, rest !! q = Some k ->
     s !! q = Some k /\ shape_parent k = None /\ q <> nir /\ previous <> Some q /\ control <> Some q).

Lemma owns_flat rest nir previous control s : owns rest nir previous control s -> flat s.
Proof.
  intros (Hn & Hp & Hc & Hs & Hr) q k r Hq Hk.
  destruct (Hs q k Hq) as [->|[->|[->|Hq']]].
  - rewrite Hn in Hq. by injection Hq as <-.
  - destruct (Hp q eq_refl) as [_ Hq']. rewrite Hq' in Hq. by injection Hq as <-.
  - specialize (Hc q eq_refl). rewrite Hc in Hq. injection Hq as <-. simpl in Hk. by injection Hk as <-.
  - apply Hr in Hq' as (_ & Hk' & _). congruence.
Qed.

(** Releasing the previous half keeps the rest. *)
Lemma owns_release_previous rest nir p control s :
  owns rest nir (Some p) control s -> owns rest nir None control (release p s).
Proof.
  intros Ho. pose proof Ho as (Hn & Hp & Hc & Hs & Hr). destruct (Hp p eq_refl) as [Hne Hpp].
  unfold release. split_and!.
  - apply map_lookup_filter_Some. simpl. split; [done|]. by split.
  - done.
  - intros c ->. specialize (Hc c eq_refl). apply map_lookup_filter_Some. split; [done|].
    split; [congruence|]. simpl. congruence.
  - intros q k [Hq [Hqp _]]%map_lookup_filter_Some. destruct (Hs q k Hq) as [?|[?|[?|?]]]; auto.
    congruence.
  - intros q k Hq. destruct (Hr q k Hq) as (H1 & H2 & H3 & H4 & H5). split_and!; try done.
    apply map_lookup_filter_Some. split; [done|]. split; [congruence|]. by rewrite H2.
Qed.

(** Releasing the current shader takes its control half along. *)
Lemma owns_release rest nir control s :
  owns rest nir None control s -> release nir s = rest.
Proof.
  intros (Hn & _ & Hc & Hs & Hr). apply map_eq. intros q. unfold release.
  destruct (rest !! q) as [k|] eqn:Eq.
  - destruct (Hr q k Eq) as (H1 & H2 & H3 & _). apply map_lookup_filter_Some. split; [done|].
    split; [done|]. by rewrite H2.
  - apply map_lookup_filter_None. right. intros k Hq [Hne Hpar].
    destruct (Hs q k Hq) as [?|[?|[->|?]]]; try done; [|congruence].
    specialize (Hc q eq_refl). rewrite Hc in Hq. by injection Hq as <-.
Qed.

(** ** Growing and shrinking what is held *)

Lemma flat_insert s p : flat s -> s !! p = None -> flat (<[p := ralloced None]> s).
Proof.
  intros Hf Hp q k r Hq Hk. destruct (decide (q = p)) as [->|Hne].
  - rewrite lookup_insert_eq in Hq. by injection Hq as <-.
  - rewrite lookup_insert_ne in Hq by done. pose proof (Hf q k r Hq Hk) as Hr.
    rewrite lookup_insert_ne; [done|]. congruence.
Qed.

Lemma release_fresh s p : flat s -> s !! p = None -> release p (<[p := ralloced None]> s) = s.
Proof.
  intros Hf Hp. apply map_eq. intros q. unfold release.
  destruct (s !! q) as [k|] eqn:Eq.
  - assert (q <> p) by congruence. apply map_lookup_filter_Some.
    rewrite lookup_insert_ne by done. split; [done|]. split; [done|].
    intros Hk. specialize (Hf q k p Eq Hk). congruence.
  - apply map_lookup_filter_None. destruct (decide (q = p)) as [->|Hne].
    + right. intros k _ [? _]. done.
    + left. by rewrite lookup_insert_ne.
Qed.

Section owns.
Context (rest : gmap Z shape) (nir : Z) (previous control : option Z) (s : gmap Z shape).
Hypothesis Ho : owns rest nir previous control s.

Lemma owns_fresh_ne q : s !! q = None -> q <> nir /\ previous <> Some q /\ control <> Some q /\ rest !! q = None.
Proof.
  intros Hq. destruct Ho as (Hn & Hp & Hc & _ & Hr). split_and!; [congruence|..].
  - intros E. destruct (Hp q E). congruence.
  - intros E. specialize (Hc q E). congruence.
  - destruct (rest !! q) as [k|] eqn:E; [|done]. apply Hr in E as (? & _). congruence.
Qed.

(** Something else is allocated ... *)
Lemma owns_insert q k :
  s !! q = None -> shape_parent k = None -> owns (<[q := k]> rest) nir previous control (<[q := k]> s).
Proof.
  intros Hq Hk. destruct (owns_fresh_ne q Hq) as (? & ? & ? & ?).
  destruct Ho as (Hn & Hp & Hc & Hs & Hr). split_and!.
  - by rewrite lookup_insert_ne.
  - intros p E. destruct (Hp p E). split; [done|]. rewrite lookup_insert_ne; congruence.
  - intros p E. specialize (Hc p E). rewrite lookup_insert_ne; congruence.
  - intros r kr Er. destruct (decide (r = q)) as [->|].
    + rewrite lookup_insert_eq in *. auto.
    + rewrite lookup_insert_ne in * by done. auto.
  - intros r kr Er. destruct (decide (r = q)) as [->|].
    + rewrite lookup_insert_eq in *. injection Er as <-. by split_and!.
    + rewrite lookup_insert_ne in * by done. auto.
Qed.

(** ... and released. *)
Lemma owns_delete q k :
  rest !! q = Some k -> owns (delete q rest) nir previous control (delete q s).
Proof.
  intros Hq. destruct Ho as (Hn & Hp & Hc & Hs & Hr). destruct (Hr q k Hq) as (H1 & H2 & H3 & H4 & H5).
  split_and!.
  - by rewrite lookup_delete_ne.
  - intros p E. destruct (Hp p E). split; [done|]. rewrite lookup_delete_ne; congruence.
  - intros p E. specialize (Hc p E). rewrite lookup_delete_ne; congruence.
  - intros r kr [Hne Er]%lookup_delete_Some. destruct (Hs r kr Er) as [?|[?|[?|?]]]; auto.
    right. right. right. by rewrite lookup_delete_ne.
  - intros r kr [Hne Er]%lookup_delete_Some. destruct (Hr r kr Er) as (? & ? & ? & ? & ?).
    split_and!; try done. by rewrite lookup_delete_ne.
Qed.

(** A fresh shader becomes the previous half or the control half. *)
Lemma owns_previous q :
  previous = None -> s !! q = None -> owns rest nir (Some q) control (<[q := ralloced None]> s).
Proof.
  intros Hnone Hq. destruct (owns_fresh_ne q Hq) as (? & _ & ? & Hrq).
  destruct Ho as (Hn & Hp & Hc & Hs & Hr). rewrite Hnone in *. split_and!.
  - by rewrite lookup_insert_ne.
  - intros p [= <-]. by rewrite lookup_insert_eq.
  - intros p E. specialize (Hc p E). rewrite lookup_insert_ne; congruence.
  - intros r kr Er. destruct (decide (r = q)) as [->|]; [auto|].
    rewrite lookup_insert_ne in Er by done. destruct (Hs r kr Er) as [?|[?|[?|?]]]; auto. congruence.
  - intros r kr Er. destruct (Hr r kr Er) as (? & ? & ? & ? & ?). split_and!; try done.
    + rewrite lookup_insert_ne; congruence.
    + congruence.
Qed.

Lemma owns_control q :
  control = None -> s !! q = None -> owns rest nir previous (Some q) (<[q := ralloced (Some nir)]> s).
Proof.
  intros Hnone Hq. destruct (owns_fresh_ne q Hq) as (? & ? & _ & Hrq).
  destruct Ho as (Hn & Hp & Hc & Hs & Hr). rewrite Hnone in *. split_and!.
  - by rewrite lookup_insert_ne.
  - intros p E. destruct (Hp p E). split; [done|]. rewrite lookup_insert_ne; congruence.
  - intros p [= <-]. by rewrite lookup_insert_eq.
  - intros r kr Er. destruct (decide (r = q)) as [->|]; [auto|].
    rewrite lookup_insert_ne in Er by done. destruct (Hs r kr Er) as [?|[?|[?|?]]]; auto. congruence.
  - intros r kr Er. destruct (Hr r kr Er) as (? & ? & ? & ? & ?). split_and!; try done.
    + rewrite lookup_insert_ne; congruence.
    + congruence.
Qed.
End owns.

Lemma owns_start nir : owns ∅ nir None None (<[nir := ralloced None]> ∅).
Proof.
  split_and!; try done; [by rewrite lookup_insert_eq|].
  intros q k Hq. apply lookup_insert_Some in Hq as [[-> _]|[_ Hq]]; [by left|done].
Qed.

(** ** Specifications of the steps *)

(** A computation that keeps an assertion and never stops. *)
Definition keeps {A} (P : machine -> Prop) (c : C A) : Prop :=
  forall E, spec P c (fun _ => P) E.

Lemma keeps_ret {A} P (a : A) : keeps P (mret a).
Proof. intros E. by apply spec_ret. Qed.

Lemma keeps_bind {A B} P (c : C A) (f : A -> C B) :
  keeps P c -> (forall a, keeps P (f a)) -> keeps P (c ≫= f).
Proof. intros Hc Hf E. eapply spec_bind; [apply Hc|]. intros a. apply Hf. Qed.

Lemma spec_keeps {A B} P (c : C A) (f : A -> C B) Q E :
  keeps P c -> (forall a, spec P (f a) Q E) -> spec P (c ≫= f) Q E.
Proof. intros Hc Hf. eapply spec_bind; [apply Hc|]. done. Qed.

Lemma keeps_if {A} P (b : bool) (c d : C A) :
  (b = true -> keeps P c) -> (b = false -> keeps P d) -> keeps P (if b then c else d).
Proof. destruct b; auto. Qed.

Lemma keeps_if_true P (b : bool) (c : C unit) :
  (b = true -> keeps P c) -> keeps P (if_true b c).
Proof. intros Hc. apply keeps_if; [done|]. intros ?. apply keeps_ret. Qed.

Lemma spec_error {A} P (c : C A) Q (E E' : PsbcResult -> machine -> Prop) :
  (forall r m, E r m -> E' r m) -> spec P c Q E -> spec P c Q E'.
Proof. intros HE. by apply spec_post. Qed.

Section safety.
Context `{MesaPasses} `{!MesaLaws} `{Binary.GnmFormat} (host : Host) (rq : CompileRequest)
  (opts : PsbcCompileOptions) (m0 : machine).
Hypothesis Hwf : machine_wf m0.
Hypothesis Hinit : init_wf (mc_init m0).

Local Abbreviation started := (held m0 (psbc_init (mc_init m0)) (Some zero_PsbcShaderOutput)).

(** While a compile runs the library is held and the output structure is [o]. *)
Definition own_out (o : option PsbcShaderOutput) (rest : gmap Z shape) (nir : Z)
    (previous control : option Z) (m : machine) : Prop :=
  exists s, owns rest nir previous control s /\ held m0 (psbc_init (mc_init m0)) o s m.
Local Abbreviation own := (own_out (Some zero_PsbcShaderOutput)).

(** An error exit: the library reference is back, the output structure is cleared,
    and only [rest] is still allocated. *)
Definition failed (rest : gmap Z shape) (r : PsbcResult) (m : machine) : Prop :=
  r <> PSBC_RESULT_OK /\ held m0 (mc_init m0) (Some zero_PsbcShaderOutput) rest m.

Lemma spec_own {A} o rest nir previous control (c : C A) Q E :
  (forall s, owns rest nir previous control s ->
     spec (held m0 (psbc_init (mc_init m0)) o s) c Q E) ->
  spec (own_out o rest nir previous control) c Q E.
Proof. intros Hc m (s & Hs & Hm). by apply (Hc s). Qed.

Section pointers.
Context (rest : gmap Z shape) (nir : Z) (previous control : option Z).
Local Abbreviation P := (own rest nir previous control).

Definition live (q : Z) : Prop := q = nir \/ previous = Some q \/ control = Some q.

Lemma owns_live s q :
  owns rest nir previous control s -> live q -> exists parent, s !! q = Some (ralloced parent).
Proof.
  intros (Hn & Hp & Hc & _) [->|[Hq|Hq]]; [eauto| |eauto]. destruct (Hp q Hq). eauto.
Qed.

Lemma keeps_load q : live q -> keeps P (load_nir q).
Proof.
  intros Hq E. apply spec_own. intros s Hs. destruct (owns_live s q Hs Hq) as [parent Hp].
  eapply spec_post; [| |by eapply spec_load]; [|done]. intros a m Hm. by exists s.
Qed.

Lemma keeps_store q n : live q -> keeps P (store_nir q n).
Proof.
  intros Hq E. apply spec_own. intros s Hs. destruct (owns_live s q Hs Hq) as [parent Hp].
  eapply spec_post; [| |by eapply spec_store]; [|done]. intros a m Hm. by exists s.
Qed.

Lemma keeps_update q f : live q -> keeps P (update_nir q f).
Proof. intros Hq. apply keeps_bind; [by apply keeps_load|]. intros n. by apply keeps_store. Qed.

Lemma keeps_load_ptr q : is_Some q -> (forall p, q = Some p -> live p) -> keeps P (load_ptr q).
Proof. intros [p ->] Hl. apply keeps_load. by apply Hl. Qed.

Lemma keeps_update_ptr q f : is_Some q -> (forall p, q = Some p -> live p) -> keeps P (update_ptr q f).
Proof. intros [p ->] Hl. apply keeps_update. by apply Hl. Qed.

(** A shader allocated and dropped on the spot. *)
Lemma keeps_temporary n : keeps P (p ← alloc (nir_object n None); ralloc_free p).
Proof.
  intros E. apply spec_own. intros s Hs. pose proof (owns_flat _ _ _ _ _ Hs) as Hf.
  eapply spec_bind.
  - apply (spec_alloc _ _ _ s _ (fun p m => s !! p = None /\ started (<[p := ralloced None]> s) m)).
    intros p Hp. by apply spec_ret.
  - intros p. simpl. apply spec_pure. intros Hp.
    eapply spec_post; [| |eapply (spec_ralloc_free _ _ _ _ p None)]; try done.
    + intros a m Hm. exists s. split; [done|]. by rewrite release_fresh in Hm.
    + by apply flat_insert.
    + by rewrite lookup_insert_eq.
Qed.
End pointers.

(** Something else is allocated and released. *)
Lemma spec_own_alloc o rest nir previous control x Q E :
  shape_parent (shape_of x) = None ->
  (forall p, rest !! p = None ->
     spec (own_out o (<[p := shape_of x]> rest) nir previous control) (mret p) Q E) ->
  spec (own_out o rest nir previous control) (alloc x) Q E.
Proof.
  intros Hx HQ. apply spec_own. intros s Hs. apply spec_alloc. intros p Hp m Hm.
  destruct (owns_fresh_ne _ _ _ _ _ Hs p Hp) as (_ & _ & _ & Hr). apply (HQ p Hr).
  exists (<[p := shape_of x]> s). split; [by apply owns_insert|done].
Qed.

Lemma spec_own_free o rest nir previous control p k Q E :
  rest !! p = Some k -> malloced k = true ->
  (forall m, own_out o (delete p rest) nir previous control m -> Q tt m) ->
  spec (own_out o rest nir previous control) (free p) Q E.
Proof.
  intros Hp Hk HQ. apply spec_own. intros s Hs. pose proof Hs as (_ & _ & _ & _ & Hr).
  destruct (Hr p k Hp) as [Hsp _].
  eapply spec_post; [| |by eapply spec_free]; [|done].
  intros [] m Hm. apply HQ. exists (delete p s). split; [by eapply owns_delete|done].
Qed.

(** The previous half, then the current shader and all it owns. *)
Lemma spec_release_all o rest nir previous control E :
  spec (own_out o rest nir previous control) (if_some previous ralloc_free;; ralloc_free nir)
    (fun _ => held m0 (psbc_init (mc_init m0)) o rest) E.
Proof.
  apply spec_bind with (R := fun _ => own_out o rest nir None control).
  - apply spec_own. intros s Hs. pose proof (owns_flat _ _ _ _ _ Hs) as Hf.
    destruct previous as [p|]; simpl.
    + pose proof Hs as (Hn & Hp & Hc & Hr). pose proof (Hp p eq_refl) as [_ Hpp].
      eapply spec_post; [| |eapply spec_ralloc_free]; try done.
      intros a m Hm. exists (release p s). split; [by apply owns_release_previous|done].
    + apply spec_ret. intros m Hm. by exists s.
  - intros ?. apply spec_own. intros s Hs. pose proof (owns_flat _ _ _ _ _ Hs) as Hf.
    pose proof Hs as (Hn & _). rewrite <-(owns_release _ _ _ _ Hs).
    by eapply spec_ralloc_free.
Qed.

Lemma spec_shutdown o rest Q (E : PsbcResult -> machine -> Prop) :
  (forall m, held m0 (mc_init m0) o rest m -> Q tt m) ->
  spec (held m0 (psbc_init (mc_init m0)) o rest) shutdown Q E.
Proof.
  intros HQ m (Hn & Hf & Hi & Ho & Hold & Hnew & Hlt). apply HQ. split_and!; try done.
  simpl. rewrite Hi. by apply init_shutdown.
Qed.

Lemma spec_bail {A} rest nir previous control r (Q : A -> machine -> Prop) :
  r <> PSBC_RESULT_OK ->
  spec (own rest nir previous control) (bail nir previous r) Q (failed rest).
Proof.
  intros Hr. unfold bail. intros m Hm.
  pose proof (spec_release_all _ rest nir previous control (fun _ _ => False) m Hm) as Hm'.
  unfold mbind, C_bind in *. destruct (if_some previous ralloc_free m) as [m1 [?|[]]]; [done|].
  destruct (ralloc_free nir m1) as [m2 [?|[]]]; [done|]. split; [done|]. simpl.
  pose proof (spec_shutdown (Some zero_PsbcShaderOutput) rest
    (fun _ => held m0 (mc_init m0) (Some zero_PsbcShaderOutput) rest) (fun _ _ => False)
    (fun m Hm => Hm) m2 Hm') as Hs. done.
Qed.

(** *** Import *)

(** A prepared shader is a fresh allocation recorded in its stage; a failure leaves
    nothing behind. *)
Definition prepared (s : gmap Z shape) (st : radv_shader_stage) (r : option (Z * radv_shader_stage))
    (m : machine) : Prop :=
  match r with
  | None => started s m
  | Some (p, st') =>
      (s !! p = None /\ st_nir st' = Some p /\ st_stage st' = st_stage st /\
       st_next_stage st' = st_next_stage st) /\
      started (<[p := ralloced None]> s) m
  end.

Lemma spec_prepare s ci st spirv size input options E :
  flat s ->
  spec (started s) (prepare_stage_nir ci st spirv size input options) (prepared s st) E.
Proof.
  intros Hf. unfold prepare_stage_nir. eapply spec_bind; [apply spec_need_types, init_alive, Hinit|].
  intros ?. simpl. destruct (radv_shader_spirv_to_nir _ _ _) as [n|]; [|by apply spec_ret].
  eapply spec_bind.
  { apply (spec_alloc _ _ _ s _ (fun p m => s !! p = None /\ started (<[p := ralloced None]> s) m)).
    intros p Hp. by apply spec_ret. }
  intros p. simpl. apply spec_pure. intros Hp.
  assert (<[p := ralloced None]> s !! p = Some (ralloced None)) as Hl by by rewrite lookup_insert_eq.
  destruct (lower_stage_nir _ _ _ _) as [n'|].
  - eapply spec_bind; [by eapply spec_store|]. intros ?. apply spec_ret. intros m Hm. by split_and!.
  - eapply spec_bind; [eapply spec_ralloc_free; [done|by apply flat_insert|done]|].
    intros ?. apply spec_ret. intros m Hm. simpl. by rewrite release_fresh in Hm.
Qed.

Lemma flat_empty : flat ∅.
Proof. intros q k r Hq. by rewrite lookup_empty in Hq. Qed.

Lemma spec_give_up {A} rest r (Q : A -> machine -> Prop) :
  r <> PSBC_RESULT_OK -> spec (started rest) (shutdown;; fail r) Q (failed rest).
Proof.
  intros Hr. eapply spec_bind.
  - by apply (spec_shutdown _ rest (fun _ => held m0 (mc_init m0) (Some zero_PsbcShaderOutput) rest)).
  - intros ?. by apply spec_fail.
Qed.

Lemma spec_import_stage :
  spec (started ∅) (import_stage host rq opts)
    (fun '(nir, st) m => (st_nir st = Some nir /\ st_stage st = mesa_stage opts /\
       st_next_stage st = next_stage_of (mesa_stage opts)) /\ own ∅ nir None None m)
    (failed ∅).
Proof.
  unfold import_stage. case_match; [by apply spec_give_up|].
  eapply spec_bind; [apply spec_prepare, flat_empty|]. intros [[p st]|]; simpl.
  - apply spec_pure. intros (_ & Hn & Hs & Hx). apply spec_ret. intros m Hm. split; [done|].
    eexists. split; [apply owns_start|done].
  - by apply spec_give_up.
Qed.

Definition is_given (b : bool) (p : option Z) : Prop := if b then is_Some p else p = None.

Lemma spec_import_previous nir :
  spec (own ∅ nir None None) (import_previous rq opts nir)
    (fun '(previous, st) m =>
       (is_given (paired_previous rq) previous /\ st_nir st = previous /\
        st_stage st = if paired_previous rq then expected_previous_stage rq opts
                      else MESA_SHADER_VERTEX) /\ own ∅ nir previous None m)
    (failed ∅).
Proof.
  unfold import_previous. destruct (paired_previous rq); [|by apply spec_ret].
  apply spec_own. intros s Hs. eapply spec_bind; [eapply spec_prepare, owns_flat, Hs|].
  intros [[p st]|]; simpl.
  - apply spec_pure. intros (Hp & Hn & Hst & _). apply spec_ret. intros m Hm. split.
    + split; [by eexists|]. split; [done|]. by rewrite Hst.
    + eexists. split; [by eapply owns_previous|done].
  - eapply spec_pre; [|by apply (spec_bail ∅ nir None None)]. intros m Hm. by exists s.
Qed.

Section linked.
Context (nir : Z) (previous : option Z).
Hypothesis Hprev : is_given (paired_previous rq) previous.

Lemma previous_given (b : bool) : (b = true -> paired_previous rq = true) -> b = true -> is_Some previous.
Proof. intros Hb Ht. unfold is_given in Hprev. by rewrite (Hb Ht) in Hprev. Qed.

Lemma paired_given s : paired_with rq opts s = true -> is_Some previous.
Proof.
  intros Hs. eapply previous_given, Hs. unfold paired_with. by intros [? _]%andb_prop.
Qed.

Lemma tess_geometry_given : paired_tess_geometry rq opts = true -> is_Some previous.
Proof. unfold paired_tess_geometry. intros [Hg _]%andb_prop. by apply (paired_given MESA_SHADER_GEOMETRY). Qed.

Lemma merged_given : merged_pair rq opts = true -> is_Some previous.
Proof. unfold merged_pair. intros [Hg|Hg]%orb_prop; by apply paired_given in Hg. Qed.

Lemma spec_import_link_only s control st next :
  owns ∅ nir previous control s ->
  spec (started s) (import_link_only rq opts nir previous st next)
    (fun '(p, stage) m => (s !! p = None /\ st_nir stage = Some p) /\ started (<[p := ralloced None]> s) m)
    (failed ∅).
Proof.
  intros Hs. unfold import_link_only. eapply spec_bind; [eapply spec_prepare, owns_flat, Hs|].
  intros [[p stage]|]; simpl.
  - apply spec_pure. intros (? & ? & _). by apply spec_ret.
  - eapply spec_pre; [|by apply (spec_bail ∅ nir previous control)]. intros m Hm. by exists s.
Qed.

Lemma spec_link_next :
  spec (own ∅ nir previous None) (link_next rq opts nir previous)
    (fun _ => own ∅ nir previous None) (failed ∅).
Proof.
  unfold link_next. case_match; [|by apply spec_ret].
  apply spec_own. intros s Hs. eapply spec_bind; [by apply (spec_import_link_only s None)|].
  intros [p st]. apply spec_pure. intros [Hp _].
  assert (<[p := ralloced None]> s !! p = Some (ralloced None)) as Hl by by rewrite lookup_insert_eq.
  assert (<[p := ralloced None]> s !! nir = Some (ralloced None)) as Hln.
  { destruct Hs as (Hn & _). rewrite lookup_insert_ne; congruence. }
  eapply spec_bind; [by eapply spec_load|]. intros n.
  eapply spec_bind; [by eapply spec_update|]. intros ?.
  eapply spec_bind; [by eapply spec_load|]. intros n'.
  eapply spec_bind; [eapply spec_ralloc_free; [done| |done]|].
  - by eapply flat_insert, Hp; eapply owns_flat.
  - intros ?. apply spec_ret. intros m Hm. exists s. split; [done|].
    rewrite release_fresh in Hm; [done| |done]. by eapply owns_flat.
Qed.

Lemma keeps_merge_tess rest control a b :
  live nir previous control a -> is_Some b -> (forall p, b = Some p -> live nir previous control p) ->
  keeps (own rest nir previous control) (merge_tess a b).
Proof.
  intros Ha Hb Hl. unfold merge_tess. apply keeps_bind; [by apply keeps_load|]. intros into.
  apply keeps_bind; [by apply keeps_load_ptr|]. intros from. simpl.
  apply keeps_bind; [by apply keeps_store|]. intros ?. by apply keeps_update_ptr.
Qed.

Lemma previous_live control p : previous = Some p -> live nir previous control p.
Proof. intros ->. right. by left. Qed.

Lemma keeps_merge_domain rest control :
  keeps (own rest nir previous control) (merge_domain rq opts nir previous).
Proof.
  apply keeps_if_true. intros Hd. apply keeps_merge_tess; [by left| |apply previous_live].
  by apply (paired_given MESA_SHADER_TESS_EVAL).
Qed.

Lemma spec_link_control :
  spec (own ∅ nir previous None) (link_control rq opts nir previous)
    (fun control m => is_given (paired_tess_geometry rq opts) (st_nir control) /\
                      own ∅ nir previous (st_nir control) m)
    (failed ∅).
Proof.
  unfold link_control. destruct (paired_tess_geometry rq opts) eqn:Et; [|by apply spec_ret].
  destruct (tess_geometry_given Et) as [q Hq].
  apply spec_own. intros s Hs. eapply spec_bind; [by apply (spec_import_link_only s None)|].
  intros [p st]. apply spec_pure. intros [Hp Hst].
  eapply spec_bind; [eapply spec_steal; by rewrite lookup_insert_eq|]. intros ?.
  rewrite insert_insert_eq.
  apply spec_pre with (P' := own ∅ nir previous (Some p)).
  { intros m Hm. eexists. split; [by eapply owns_control|done]. }
  eapply spec_keeps.
  { replace (match previous with Some q => _ | None => _ end) with (merge_tess q (Some p)) by by rewrite Hq.
    apply keeps_merge_tess; [by right; left|by eexists|]. intros r [= <-]. by right; right. }
  intros ?. eapply spec_keeps; [apply keeps_load_ptr; [by eexists|apply previous_live]|]. intros n.
  eapply spec_keeps; [apply keeps_update; by right; right|]. intros ?.
  apply spec_ret. intros m Hm. simpl. rewrite Hst. split; [by eexists|done].
Qed.

(** *** Information and linking *)

Section steps.
Context (control : option Z).
Hypothesis Hctl : is_given (paired_tess_geometry rq opts) control.
Local Abbreviation P := (own ∅ nir previous control).

(** What of the stages the memory argument depends on. *)
Definition view (sg : Stages) :=
  (st_nir (sg_stage sg), st_stage (sg_stage sg), kind (st_info (sg_stage sg)),
   st_nir (sg_previous sg), st_nir (sg_control sg)).

(** A step that keeps what is held and the view of the stages. *)
Definition steps (sg : Stages) (c : C Stages) : Prop :=
  forall E, spec P c (fun sg' m => (view sg' = view sg /\
    st_stage (sg_previous sg') = st_stage (sg_previous sg)) /\ P m) E.

Lemma steps_ret sg sg' :
  view sg' = view sg -> st_stage (sg_previous sg') = st_stage (sg_previous sg) -> steps sg (mret sg').
Proof. intros Hv Hs E. by apply spec_ret. Qed.

Lemma steps_keeps {A} sg (c : C A) f : keeps P c -> (forall a, steps sg (f a)) -> steps sg (c ≫= f).
Proof. intros Hc Hf E. eapply spec_keeps; [apply Hc|]. intros a. apply Hf. Qed.

Lemma steps_bind sg (c : C Stages) f :
  steps sg c -> (forall sg', view sg' = view sg -> steps sg' (f sg')) -> steps sg (c ≫= f).
Proof.
  intros Hc Hf E. eapply spec_bind; [apply Hc|]. intros sg'. apply spec_pure. intros [Hv Hs].
  specialize (Hf sg' Hv E). unfold steps in *. rewrite Hv, Hs in Hf. exact Hf.
Qed.

Lemma steps_if sg (b : bool) (c d : C Stages) :
  (b = true -> steps sg c) -> (b = false -> steps sg d) -> steps sg (if b then c else d).
Proof. destruct b; auto. Qed.

Definition staged (sg : Stages) : Prop :=
  view sg = (Some nir, mesa_stage opts, (co_ngg opts, mesa_stage opts, next_stage_of (mesa_stage opts)),
             previous, control).

Lemma staged_fields sg :
  staged sg ->
  st_nir (sg_stage sg) = Some nir /\ st_stage (sg_stage sg) = mesa_stage opts /\
  kind (st_info (sg_stage sg)) = (co_ngg opts, mesa_stage opts, next_stage_of (mesa_stage opts)) /\
  st_nir (sg_previous sg) = previous /\ st_nir (sg_control sg) = control.
Proof. unfold staged, view. generalize (kind (st_info (sg_stage sg))). by intros k [= -> -> -> -> ->]. Qed.

Lemma live_nir : live nir previous control nir.
Proof. by left. Qed.

Lemma keeps_load_control sg : staged sg -> is_Some control -> keeps P (load_ptr (st_nir (sg_control sg))).
Proof.
  intros Hs Hc. apply staged_fields in Hs as (_ & _ & _ & _ & ->). apply keeps_load_ptr; [done|]. intros p ->. by right; right.
Qed.

Lemma keeps_load_previous : is_Some previous -> keeps P (load_ptr previous).
Proof. intros Hp. apply keeps_load_ptr; [done|]. apply previous_live. Qed.

Lemma steps_link_geometry sg :
  paired_geometry rq opts = true -> steps sg (link_geometry rq opts nir previous sg).
Proof.
  intros Hg. unfold link_geometry. apply steps_keeps; [apply keeps_update, live_nir|]. intros ?.
  apply steps_keeps; [apply keeps_load, live_nir|]. intros n. apply steps_bind.
  - case_match; [|by apply steps_ret].
    apply steps_keeps; [|intros ?; by apply steps_ret].
    apply keeps_load_previous. by apply tess_geometry_given.
  - intros sg' _. by apply steps_ret.
Qed.

Lemma kind_init_info b st : kind (st_info (init_info b st)) = (b, st_stage st, st_next_stage st).
Proof.
  unfold kind. simpl. by destruct (info_init_stages (st_stage st) (st_next_stage st) (st_info st)) as [-> ->].
Qed.

Lemma spec_init_infos sg next E :
  st_nir (sg_stage sg) = Some nir -> st_stage (sg_stage sg) = mesa_stage opts ->
  st_next_stage (sg_stage sg) = next_stage_of (mesa_stage opts) ->
  st_nir (sg_previous sg) = previous -> st_nir (sg_control sg) = control ->
  spec P (init_infos rq opts nir previous next sg)
    (fun sg' m => (staged sg' /\ st_stage (sg_previous sg') = st_stage (sg_previous sg)) /\ P m) E.
Proof.
  intros V1 V2 V3 V4 V5. unfold init_infos.
  eapply spec_keeps; [apply keeps_if_true; intros ?; apply keeps_update, live_nir|]. intros ?.
  cbv zeta.
  match goal with |- context [on_stage (init_info ?b) ?x] => set (sg1 := on_stage (init_info b) x) end.
  assert (staged sg1 /\ st_stage (sg_previous sg1) = st_stage (sg_previous sg)) as [Hv Hs].
  { subst sg1. unfold staged, view. cbn [sg_stage on_stage set]. rewrite kind_init_info.
    unfold apply_if. case_match; simpl; rewrite ?V2, ?V3, ?V4, ?V5; done. }
  clearbody sg1.
  match goal with |- spec _ (?c ≫= _) _ _ => assert (steps sg1 c) as Hc end.
  { apply steps_if; intros Hd.
    - apply steps_keeps; [apply keeps_load, live_nir|]. intros n.
      apply steps_ret; by unfold apply_if; repeat case_match.
    - apply steps_ret; by unfold apply_if; repeat case_match. }
  eapply spec_bind; [apply Hc|]. intros sg2. apply spec_pure. intros [Hv2 Hs2].
  apply spec_post with (Q := fun sg' m => (view sg' = view sg2 /\
    st_stage (sg_previous sg') = st_stage (sg_previous sg2)) /\ P m) (E := E); [|done|].
  - intros sg' m [[Hv3 Hs3] Hm]. unfold staged in *. split; [|done]. split; congruence.
  - apply steps_if; intros Hg; [by apply steps_link_geometry|by apply steps_ret].
Qed.

Lemma keeps_lower_frag_pos gfx : keeps P (lower_frag_pos opts nir gfx).
Proof.
  unfold lower_frag_pos. apply keeps_if; intros ?; [|apply keeps_ret].
  repeat (apply keeps_bind; [apply keeps_update, live_nir|intros ?]). apply keeps_ret.
Qed.

Lemma view_info_pass gfx layout n sg : view (on_stage (info_pass opts gfx layout n) sg) = view sg.
Proof. unfold view. simpl. by rewrite info_pass_kind. Qed.

Lemma steps_info_passes gfx layout sg :
  staged sg -> steps sg (info_passes rq opts nir previous gfx layout sg).
Proof.
  intros Hs. unfold info_passes. apply steps_keeps; [apply keeps_load, live_nir|]. intros n.
  pose proof (view_info_pass gfx layout n sg) as Hv0. apply steps_bind.
  - apply steps_if; intros Ep; [|by apply steps_ret].
    apply steps_keeps; [|intros ?; by apply steps_ret]. apply keeps_load_previous.
    by apply (previous_given true).
  - intros sg1 Hv1. apply steps_bind.
    + apply steps_if; intros Et; [|by apply steps_ret].
      apply steps_keeps; [|intros ?; by apply steps_ret]. apply keeps_load_control.
      * unfold staged in *. congruence.
      * unfold is_given in Hctl. by rewrite Et in Hctl.
    + intros sg2 _. apply steps_ret; by unfold apply_if; case_match.
Qed.

Lemma keeps_push_use : keeps P (push_use rq opts nir previous).
Proof.
  unfold push_use. apply keeps_bind; [apply keeps_load, live_nir|]. intros n.
  destruct (Usage.gather_push_dwords n) as [v d]. apply keeps_if; intros Hm; [|apply keeps_ret].
  apply keeps_bind; [apply keeps_load_previous; by apply merged_given|]. intros q.
  destruct (Usage.gather_push_dwords q). apply keeps_ret.
Qed.

(** The corrections keep the kind of a stage. *)
Lemma kind_add_declared_sets i : kind (add_declared_sets opts i) = kind i.
Proof. unfold add_declared_sets. by case_match. Qed.

Lemma kind_indirect_push_constants i : kind (indirect_push_constants opts i) = kind i.
Proof. unfold indirect_push_constants. by case_match. Qed.

Lemma kind_direct_descriptors i : kind (direct_descriptors opts i) = kind i.
Proof. unfold direct_descriptors. by case_match. Qed.

Lemma kind_fix_primitive_id n s i : kind (fix_primitive_id opts n s i) = kind i.
Proof. unfold fix_primitive_id. by repeat case_match. Qed.

Lemma kind_apply_next_link next i : kind (apply_next_link next i) = kind i.
Proof. unfold apply_next_link. by case_match. Qed.

Lemma steps_descriptor_use sg E :
  spec P (descriptor_use rq opts nir previous sg)
    (fun '(sg', _) m => (view sg' = view sg /\ st_stage (sg_previous sg') = st_stage (sg_previous sg)) /\ P m) E.
Proof.
  unfold descriptor_use. case_match; [by apply spec_ret|]. case_match.
  { apply spec_ret. intros m Hm. split; [|done]. unfold view, apply_if.
    case_match; simpl; by rewrite kind_add_declared_sets. }
  eapply spec_keeps; [apply keeps_load, live_nir|]. intros n.
  eapply spec_keeps; [|intros ?; by apply spec_ret].
  apply keeps_if; intros Hm; [|apply keeps_ret].
  apply keeps_bind; [apply keeps_load_previous; by apply merged_given|]. intros ?. apply keeps_ret.
Qed.

Lemma view_inline_push sg : view (inline_push rq opts sg) = view sg.
Proof. unfold inline_push, view, apply_if. case_match; simpl; by rewrite kind_indirect_push_constants. Qed.

Lemma spec_show st E :
  (forall p, st_nir st = Some p -> live nir previous control p) ->
  spec P (show_stage st) (fun v m => v.1 = st /\ P m) E.
Proof.
  intros Hl. unfold show_stage. destruct (st_nir st) as [p|]; [|by apply spec_ret].
  eapply spec_keeps; [apply keeps_load; by apply Hl|]. intros ?. by apply spec_ret.
Qed.

Lemma steps_show sg st f :
  (forall p, st_nir st = Some p -> live nir previous control p) ->
  (forall v, v.1 = st -> steps sg (f v)) -> steps sg (show_stage st ≫= f).
Proof.
  intros Hl Hf E. eapply spec_bind; [by apply spec_show|]. intros v. apply spec_pure.
  intros Hv. by apply Hf.
Qed.

(** The stages RADV links: the current one is not hidden by the others. *)
Lemma linked_current sg a b c :
  (paired_previous rq = true -> st_stage (sg_previous sg) <> mesa_stage opts) ->
  apply_if (paired_tess_geometry rq opts) (put_stage MESA_SHADER_TESS_CTRL c)
    (apply_if (paired_previous rq) (put_stage (st_stage (sg_previous sg)) b)
       (put_stage (mesa_stage opts) a (fun _ => (zero_radv_shader_stage, None)))) (mesa_stage opts) = a.
Proof.
  intros Hp. unfold apply_if, put_stage. destruct (paired_tess_geometry rq opts) eqn:Et.
  - assert (mesa_stage opts = MESA_SHADER_GEOMETRY) as Hg.
    { unfold paired_tess_geometry, paired_geometry, paired_with in Et.
      apply andb_prop in Et as [[_ Et]%andb_prop _]. by apply stage_eqb_eq in Et. }
    rewrite Hg in *. simpl. destruct (paired_previous rq); [|done].
    destruct (stage_eqb _ _) eqn:E; [|done]. apply stage_eqb_eq in E. by destruct Hp.
  - assert (stage_eqb (mesa_stage opts) (mesa_stage opts) = true) as Hr by by apply stage_eqb_eq.
    destruct (paired_previous rq); [|by rewrite Hr].
    destruct (stage_eqb (mesa_stage opts) (st_stage (sg_previous sg))) eqn:E; [|by rewrite Hr].
    apply stage_eqb_eq in E. by destruct Hp.
Qed.

Lemma steps_link_info gfx next sg :
  staged sg -> (paired_previous rq = true -> st_stage (sg_previous sg) <> mesa_stage opts) ->
  steps sg (link_info rq opts nir gfx next sg).
Proof.
  intros Hs Hp. unfold link_info. apply steps_if; intros Hb; [|by apply steps_ret].
  destruct (staged_fields sg Hs) as (V1 & V2 & _ & V3 & V4).
  apply steps_show; [intros p; rewrite V1; intros [= <-]; apply live_nir|]. intros a Ha.
  apply steps_show; [intros p; rewrite V3; apply previous_live|]. intros b _.
  apply steps_show; [intros p; rewrite V4; intros ->; by right; right|]. intros c _.
  cbv zeta. set (linked := radv_nir_shader_info_link _ _ _).
  apply steps_keeps; [apply keeps_load, live_nir|]. intros n.
  assert (kind (linked (mesa_stage opts)) = kind (st_info (sg_stage sg))) as Hk.
  { subst linked. rewrite info_link_kind, linked_current by done. by rewrite Ha. }
  clearbody linked. apply steps_ret; [|by unfold apply_if; repeat case_match].
  unfold view, apply_if. repeat case_match; simpl;
    by rewrite kind_fix_primitive_id, ?kind_apply_next_link, <-Hk, ?kind_apply_next_link.
Qed.

Lemma view_declare_args gfx sg : view (declare_args rq opts gfx sg) = view sg.
Proof.
  unfold declare_args, view, apply_if. cbv zeta. repeat case_match; simpl;
    by rewrite <-(kind_direct_descriptors (st_info (sg_stage sg))).
Qed.

Lemma keeps_lower_legacy_gs sg : keeps P (lower_legacy_gs opts nir sg).
Proof.
  unfold lower_legacy_gs. apply keeps_if; intros ?; [|apply keeps_ret].
  apply keeps_bind; [apply keeps_update, live_nir|]. intros ?.
  apply keeps_bind; [apply keeps_load, live_nir|]. intros n.
  destruct (ac_nir_lower_legacy_gs _ _) as [n' [copy|]];
    (apply keeps_bind; [apply keeps_store, live_nir|]); intros ?; [|apply keeps_ret].
  apply keeps_temporary.
Qed.
End steps.

(** *** Late lowering *)

(** What may stay allocated: the copy shader of a geometry program without NGG. *)
Definition legacy_geometry : bool :=
  stage_eqb (mesa_stage opts) MESA_SHADER_GEOMETRY && negb (co_ngg opts).

Definition leaked (rest : gmap Z shape) : Prop :=
  rest = ∅ \/ (legacy_geometry = true /\ exists p, rest = {[p := ralloced None]}).

(** A copy shader is made for it. *)
Definition copied (st : radv_shader_stage) : Prop :=
  st_stage st = MESA_SHADER_GEOMETRY /\ ri_is_ngg (st_info st) && last_vgt_stage (st_info st) = false.

Lemma copied_legacy st :
  st_stage st = mesa_stage opts ->
  kind (st_info st) = (co_ngg opts, mesa_stage opts, next_stage_of (mesa_stage opts)) ->
  copied st -> legacy_geometry = true.
Proof.
  intros Hs [= Hn Ht Hx] [Hg Hc]. rewrite Hg in Hs. unfold legacy_geometry, last_vgt_stage in *.
  rewrite Hn, Ht, Hx, <-Hs in Hc. rewrite <-Hs. by destruct (co_ngg opts).
Qed.

Lemma spec_postprocess control gfx st E :
  (forall p, st_nir st = Some p -> live nir previous control p) -> is_Some (st_nir st) ->
  spec (own ∅ nir previous control) (postprocess opts gfx st)
    (fun st' m => (st_nir st' = st_nir st /\ st_stage st' = st_stage st) /\
       exists rest, (rest = ∅ \/ (copied st /\ exists p, rest = {[p := ralloced None]})) /\
         own rest nir previous control m) E.
Proof.
  intros Hl [p Hp]. unfold postprocess. rewrite Hp. specialize (Hl p Hp).
  eapply spec_keeps; [by apply keeps_load|]. intros n.
  destruct (radv_postprocess_nir _ _ _ _) as [[n' info] copy] eqn:Ec.
  eapply spec_keeps; [by apply keeps_store|]. intros ?.
  destruct copy as [copy|].
  - assert (copied st) as Hg.
    { apply (legacy_copy (compiler_info opts) gfx st n copy). by rewrite Ec. }
    apply spec_own. intros s Hs. eapply spec_bind.
    { eapply spec_bind.
      - apply (spec_alloc _ _ _ s _ (fun q m => s !! q = None /\ started (<[q := ralloced None]> s) m)).
        intros q Hq. by apply spec_ret.
      - intros q. simpl. apply spec_pure. intros Hq.
        apply (spec_ret _ _ (fun c m => exists q, c = Some q /\ s !! q = None /\
          started (<[q := ralloced None]> s) m)).
        intros m Hm. by exists q. }
    intros c. apply spec_ret. intros m (q & -> & Hq & Hm). split; [by rewrite <-Hp|].
    exists {[q := ralloced None]}. split; [by right; eauto|].
    exists (<[q := ralloced None]> s). split; [|done].
    rewrite <-insert_empty. by apply owns_insert.
  - eapply spec_keeps; [apply keeps_ret|]. intros ?. apply spec_ret. intros m Hm.
    split; [by rewrite <-Hp|]. exists ∅. split; [by left|done].
Qed.

(** An error exit late in the compile. *)
Definition stopped (r : PsbcResult) (m : machine) : Prop :=
  exists rest, leaked rest /\ failed rest r m.

Lemma failed_stopped rest r m : leaked rest -> failed rest r m -> stopped r m.
Proof. intros Hl Hf. by exists rest. Qed.

Lemma spec_stop {A} rest control r (Q : A -> machine -> Prop) :
  leaked rest -> r <> PSBC_RESULT_OK ->
  spec (own rest nir previous control) (bail nir previous r) Q stopped.
Proof.
  intros Hl Hr. apply spec_post with (Q := Q) (E := failed rest); [done| |by apply spec_bail].
  intros r' m. by apply failed_stopped.
Qed.

Lemma leaked_nothing : leaked ∅.
Proof. by left. Qed.

Lemma keeps_lower_flat rest control : keeps (own rest nir previous control) (lower_flat opts nir).
Proof. apply keeps_if_true. intros ?. apply keeps_update. by left. Qed.

Lemma spec_split_inputs rest control st :
  leaked rest ->
  spec (own rest nir previous control) (split_inputs opts nir previous st)
    (fun _ => own rest nir previous control) stopped.
Proof.
  intros Hl. unfold split_inputs. case_match; [|by apply spec_ret].
  eapply spec_keeps; [apply keeps_load; by left|]. intros n.
  destruct (InputSemantics.split_ps5_mixed_inputs _ _ _) as [[n' info]|].
  - eapply spec_keeps; [apply keeps_store; by left|]. intros ?. by apply spec_ret.
  - by apply spec_stop.
Qed.

(** Apart from a copy shader, late lowering holds what it was given. *)
Definition lowered (control : option Z) (m : machine) : Prop :=
  exists rest, leaked rest /\ own rest nir previous control m.

Lemma spec_lowered {A} control (c : C A) Q E :
  (forall rest, leaked rest -> spec (own rest nir previous control) c Q E) ->
  spec (lowered control) c Q E.
Proof. intros Hc m (rest & Hl & Hm). by apply (Hc rest). Qed.

Lemma spec_postprocess_previous control gfx sg E :
  staged control sg -> st_stage (sg_previous sg) <> MESA_SHADER_GEOMETRY ->
  spec (own ∅ nir previous control)
    (if merged_pair rq opts then
       previous ← postprocess opts gfx (sg_previous sg); mret (sg <| sg_previous := previous |>)
     else mret sg)
    (fun sg' m => sg_stage sg' = sg_stage sg /\ own ∅ nir previous control m) E.
Proof.
  intros Hs Hne. apply staged_fields in Hs as (V1 & V2 & Vk & V3 & V4).
  destruct (merged_pair rq opts) eqn:Em; [|by apply spec_ret].
  eapply spec_bind.
  - apply spec_postprocess; rewrite V3; [apply previous_live|by apply merged_given].
  - intros st. apply spec_pure. intros ?. apply spec_ret.
    intros m (rest & [->|[[? _] _]] & Hm); done.
Qed.

Lemma spec_late_lowering control gfx sg :
  staged control sg -> st_stage (sg_previous sg) <> MESA_SHADER_GEOMETRY ->
  spec (own ∅ nir previous control) (late_lowering rq opts nir previous gfx sg)
    (fun _ => lowered control) stopped.
Proof.
  intros Hs Hne. unfold late_lowering.
  eapply spec_keeps; [apply keeps_lower_legacy_gs|]. intros ?.
  eapply spec_bind; [by apply spec_postprocess_previous|]. intros sg'. apply spec_pure. intros ->.
  destruct (staged_fields control sg Hs) as (V1 & V2 & Vk & _).
  eapply spec_bind.
  { apply spec_postprocess; rewrite V1; [|by eexists]. intros p [= <-]. by left. }
  intros st. apply spec_pure. intros ?.
  apply spec_pre with (P' := lowered control).
  { intros m (rest & [->|[Hc Hrest]] & Hm); [by exists ∅; split; [left|]|].
    exists rest. split; [right|done]. split; [by apply (copied_legacy (sg_stage sg))|done]. }
  apply spec_lowered. intros rest Hl.
  eapply spec_keeps; [apply keeps_lower_flat|]. intros ?.
  eapply spec_bind; [by apply spec_split_inputs|]. intros st'.
  eapply spec_keeps; [apply keeps_update; by left|]. intros ?.
  apply spec_ret. intros m Hm. by exists rest.
Qed.

(** A fragment program has no previous half, so releasing the current shader is
    enough when its inputs cannot be described. *)
Lemma spec_snapshot_semantics control st :
  (is_fragment opts = true -> previous = None) ->
  spec (lowered control) (snapshot_semantics opts nir st)
    (fun s m => InputSemantics.semantics_wf s /\ lowered control m) stopped.
Proof.
  intros Hfrag. apply spec_lowered. intros rest Hl. unfold snapshot_semantics.
  destruct (is_fragment opts); [|apply spec_ret; intros m Hm; split; [done|]; by exists rest].
  eapply spec_keeps; [apply keeps_load; by left|]. intros n.
  pose proof (InputSemantics.build_input_semantics_wf n (st_info st) (co_primitive_id_per_primitive opts)) as Hsem.
  destruct (InputSemantics.build_input_semantics _ _ _) as [ok semantics].
  case_match; [|apply spec_ret; intros m Hm; split; [done|]; by exists rest].
  pose proof (spec_stop rest control PSBC_RESULT_INTERNAL_ERROR
    (fun s m => InputSemantics.semantics_wf s /\ lowered control m) Hl) as Hs.
  rewrite (Hfrag eq_refl) in Hs |- *. by apply Hs.
Qed.

(** *** Code generation *)

Lemma program_shaders_live control :
  Forall (live nir previous control) (program_shaders rq opts nir previous).
Proof.
  unfold program_shaders. assert (live nir previous control nir) as Hn by by left.
  destruct (merged_pair rq opts); [|by repeat constructor].
  apply Forall_app. split; [|by repeat constructor].
  destruct previous as [p|]; [|done]. apply Forall_singleton. by right; left.
Qed.

Lemma keeps_load_all rest control ps :
  Forall (live nir previous control) ps -> keeps (own rest nir previous control) (load_all ps).
Proof.
  induction 1 as [|p ps Hp _ IH]; simpl; [apply keeps_ret|].
  apply keeps_bind; [by apply keeps_load|]. intros n.
  apply keeps_bind; [done|]. intros ns. apply keeps_ret.
Qed.

Lemma keeps_store_all rest control ps ns :
  Forall (live nir previous control) ps -> keeps (own rest nir previous control) (store_all ps ns).
Proof.
  intros Hps. revert ns. induction Hps as [|p ps Hp _ IH]; intros [|n ns]; simpl; try apply keeps_ret.
  apply keeps_bind; [by apply keeps_store|]. intros ?. apply IH.
Qed.

Lemma spec_own_set_out o o' rest control E :
  spec (own_out o rest nir previous control) (set_out o')
    (fun _ => own_out (Some o') rest nir previous control) E.
Proof.
  intros m (s & Hs & Hn & Hf & Hi & Ho & Hold & Hnew & Hlt). exists s. split; [done|]. by split_and!.
Qed.

(** The finished program: ACO's code and the binary built from it, in two buffers
    the caller now owns. *)
Definition finished (m : machine) : Prop :=
  exists rest shader sg semantics push masks b bytes d c,
    let context := build_context rq opts shader sg b semantics push masks in
    leaked rest /\ InputSemantics.semantics_wf semantics /\
    (exists st shaders gfx,
       (radv_shader_nir_to_asm (compiler_info opts) st shaders gfx).2 = Some b) /\
    Binary.buildshaderbinary (host_newcode_allocated host) (host_buf_allocated host) context
      (code_dwords b) = inr bytes /\
    rest !! d = None /\ rest !! c = None /\ c <> d /\
    held m0 (mc_init m0)
      (Some {| out_data := Some d; out_size := Z.of_nat (length bytes);
               out_machine_code := Some c; out_machine_code_size := bin_code_size b;
               out_metadata := Metadata.fill_shader_metadata context |})
      (<[c := buffer (code_bytes b)]> (<[d := buffer bytes]> rest)) m.

Lemma spec_release_shutdown o rest control (Q : unit -> machine -> Prop) E :
  (forall m, held m0 (mc_init m0) o rest m -> Q tt m) ->
  spec (own_out o rest nir previous control)
    (if_some previous ralloc_free;; ralloc_free nir;; shutdown) Q E.
Proof.
  intros HQ m Hm.
  pose proof (spec_release_all o rest nir previous control (fun _ _ => False) m Hm) as Hm'.
  unfold mbind, C_bind in *. destruct (if_some previous ralloc_free m) as [m1 [?|[]]]; [done|].
  destruct (ralloc_free nir m1) as [m2 [?|[]]]; [done|]. by apply (spec_shutdown o rest Q E HQ).
Qed.

Lemma own_free_program rest control p k Q E :
  rest !! p = None -> malloced k = true ->
  (forall m, own rest nir previous control m -> Q tt m) ->
  spec (own (<[p := k]> rest) nir previous control) (free p) Q E.
Proof.
  intros Hp Hk HQ. eapply spec_own_free; [by rewrite lookup_insert_eq|done|].
  by rewrite delete_insert_id.
Qed.

Lemma buildshaderbinary_error nc buf context code r :
  Binary.buildshaderbinary nc buf context code = inl r -> r <> PSBC_RESULT_OK.
Proof. unfold Binary.buildshaderbinary. repeat case_match; congruence. Qed.

Lemma spec_package rest control program st shaders gfx b shader sg semantics push masks :
  leaked rest -> InputSemantics.semantics_wf semantics -> rest !! program = None ->
  (radv_shader_nir_to_asm (compiler_info opts) st shaders gfx).2 = Some b ->
  spec (own (<[program := Machine.program]> rest) nir previous control)
    (package host nir previous program b (build_context rq opts shader sg b semantics push masks))
    (fun _ => finished) stopped.
Proof.
  intros Hl Hsem Hp Hb. unfold package.
  destruct (Binary.buildshaderbinary _ _ _ _) as [r|bytes] eqn:Eb.
  { eapply spec_bind; [by apply own_free_program with (Q := fun _ => own rest nir previous control)|].
    intros ?. apply spec_stop; [done|]. by eapply buildshaderbinary_error. }
  eapply spec_bind.
  { apply (spec_own_alloc _ _ _ _ _ _ (fun d m => <[program := Machine.program]> rest !! d = None /\
      own (<[d := buffer bytes]> (<[program := Machine.program]> rest)) nir previous control m)); [done|].
    intros d Hd. by apply spec_ret. }
  intros d. simpl. apply spec_pure. intros [Hd Hpd]%lookup_insert_None. destruct (negb _).
  { eapply spec_bind.
    - by apply own_free_program with (Q := fun _ => own (<[program := Machine.program]> rest) nir previous control);
        [rewrite lookup_insert_ne|..].
    - intros ?.
      eapply spec_bind; [by apply own_free_program with (Q := fun _ => own rest nir previous control)|].
      intros ?. by apply spec_stop. }
  eapply spec_bind.
  { apply (spec_own_alloc _ _ _ _ _ _ (fun c m =>
      <[d := buffer bytes]> (<[program := Machine.program]> rest) !! c = None /\
      own (<[c := buffer (code_bytes b)]> (<[d := buffer bytes]> (<[program := Machine.program]> rest)))
        nir previous control m)); [done|].
    intros c Hc. by apply spec_ret. }
  intros c. simpl. apply spec_pure. intros [[Hc Hpc]%lookup_insert_None Hdc]%lookup_insert_None.
  eapply spec_bind; [apply spec_own_set_out|]. intros ?.
  eapply spec_bind.
  { match goal with |- spec (own_out ?o _ _ _ _) _ _ _ =>
      apply spec_own_free with (k := Machine.program) (Q := fun _ => own_out o
        (<[c := buffer (code_bytes b)]> (<[d := buffer bytes]> rest)) nir previous control) end; [|done|].
    - do 2 rewrite lookup_insert_ne by done. by rewrite lookup_insert_eq.
    - intros m. do 2 rewrite delete_insert_ne by done. by rewrite delete_insert_id. }
  intros ?. apply spec_release_shutdown. intros m Hm.
  exists rest, shader, sg, semantics, push, masks, b, bytes, d, c. split_and!; eauto.
Qed.

Lemma spec_assemble control gfx sg semantics push masks :
  InputSemantics.semantics_wf semantics ->
  spec (lowered control) (assemble host rq opts nir previous gfx sg semantics push masks)
    (fun _ => finished) stopped.
Proof.
  intros Hsem. apply spec_lowered. intros rest Hl. unfold assemble.
  eapply spec_keeps; [apply keeps_load_all, program_shaders_live|]. intros shaders. simpl.
  destruct (radv_shader_nir_to_asm _ _ _ _) as [shaders' [b|]] eqn:Eb;
    (eapply spec_keeps; [apply keeps_store_all, program_shaders_live|]); intros ?; [|by apply spec_stop].
  eapply spec_bind.
  { apply (spec_own_alloc _ _ _ _ _ _ (fun p m => rest !! p = None /\
      own (<[p := program]> rest) nir previous control m)); [done|].
    intros p Hp. by apply spec_ret. }
  intros p. simpl. apply spec_pure. intros Hp.
  eapply spec_keeps; [apply keeps_load; by left|]. intros shader.
  eapply spec_package; [done..|]. by rewrite Eb.
Qed.

(** *** The compile *)

Lemma view_set_layout layout sg : view (set_layout rq opts layout sg) = view sg.
Proof. unfold set_layout, apply_if. by repeat case_match. Qed.

Lemma previous_set_layout layout sg :
  st_stage (sg_previous (set_layout rq opts layout sg)) = st_stage (sg_previous sg).
Proof. unfold set_layout, apply_if. by repeat case_match. Qed.

Lemma previous_inline_push sg :
  st_stage (sg_previous (inline_push rq opts sg)) = st_stage (sg_previous sg).
Proof. unfold inline_push, apply_if. by repeat case_match. Qed.

Lemma previous_declare_args gfx sg :
  st_stage (sg_previous (declare_args rq opts gfx sg)) = st_stage (sg_previous sg).
Proof. unfold declare_args, apply_if. by repeat case_match. Qed.

(** The previous half is another API stage, and not a geometry program. *)
Definition precedes (s : mesa_shader_stage) : Prop :=
  s <> MESA_SHADER_GEOMETRY /\ (paired_previous rq = true -> s <> mesa_stage opts).

(** From the pipeline state to the finished program. *)
Definition generate (next : NextLink) (layout : radv_shader_layout) (gfx : radv_graphics_state_key)
    (sg : Stages) : C unit :=
  gfx ← lower_frag_pos opts nir gfx;
  sg ← info_passes rq opts nir previous gfx layout sg;
  push ← push_use rq opts nir previous;
  '(sg, masks) ← descriptor_use rq opts nir previous sg;
  sg ← link_info rq opts nir gfx next (inline_push rq opts sg);
  sg ← late_lowering rq opts nir previous gfx (declare_args rq opts gfx sg);
  semantics ← snapshot_semantics opts nir (sg_stage sg);
  assemble host rq opts nir previous gfx (ngg_info rq opts sg) semantics push masks.

Lemma spec_generate control next layout gfx sg :
  is_given (paired_tess_geometry rq opts) control ->
  (is_fragment opts = true -> previous = None) ->
  staged control sg -> precedes (st_stage (sg_previous sg)) ->
  spec (own ∅ nir previous control) (generate next layout gfx sg) (fun _ => finished) stopped.
Proof.
  intros Hctl Hfrag Hs [Hne Hpre]. unfold generate. set (sg0 := sg) in *. unfold staged in Hs.
  eapply spec_keeps; [apply keeps_lower_frag_pos|]. intros gfx'.
  eapply spec_bind; [by apply (steps_info_passes control Hctl)|].
  intros sg1. apply spec_pure. intros [V1 P1].
  eapply spec_keeps; [apply keeps_push_use|]. intros push.
  eapply spec_bind; [apply (steps_descriptor_use control)|]. intros [sg2 masks].
  apply spec_pure. intros [V2 P2].
  eapply spec_bind; [apply (steps_link_info control Hctl)|].
  { unfold staged. rewrite view_inline_push. congruence. }
  { rewrite previous_inline_push, P2, P1. exact Hpre. }
  intros sg3. rewrite view_inline_push, previous_inline_push. apply spec_pure. intros [V3 P3].
  eapply spec_bind; [apply (spec_late_lowering control)|].
  - unfold staged. rewrite view_declare_args. congruence.
  - rewrite previous_declare_args. congruence.
  - intros sg4. eapply spec_bind; [by apply spec_snapshot_semantics|]. intros semantics.
    apply spec_pure, spec_assemble.
Qed.

Lemma spec_linked control next stage st control_st dual :
  is_given (paired_tess_geometry rq opts) control ->
  (is_fragment opts = true -> previous = None) ->
  st_nir stage = Some nir -> st_stage stage = mesa_stage opts ->
  st_next_stage stage = next_stage_of (mesa_stage opts) ->
  st_nir st = previous -> precedes (st_stage st) -> st_nir control_st = control ->
  spec (own ∅ nir previous control)
    (sg ← init_infos rq opts nir previous next (mk_Stages stage st control_st);
     let layout := descriptor_layout opts in
     let sg := set_layout rq opts layout sg in
     match graphics_state opts dual with
     | None => bail nir previous PSBC_RESULT_INTERNAL_ERROR
     | Some gfx => generate next layout gfx sg
     end) (fun _ => finished) stopped.
Proof.
  intros Hctl Hfrag N1 S1 X1 N2 S2 N3. eapply spec_bind; [by apply (spec_init_infos control Hctl)|].
  intros sg. apply spec_pure. intros [V P]. simpl in *.
  destruct (graphics_state opts dual) as [gfx|].
  - apply spec_generate; [done..| |].
    + unfold staged. by rewrite view_set_layout.
    + rewrite previous_set_layout. by rewrite P.
  - by apply spec_stop; [apply leaked_nothing|].
Qed.
End linked.

Lemma first_error_none guards : first_error guards = None -> Forall (fun g => g.1 = false) guards.
Proof.
  induction guards as [|[b r] gs IH]; [by constructor|]. simpl. destruct b; [done|].
  intros ?. constructor; [done|]. by apply IH.
Qed.

Lemma first_error_some guards r :
  Forall (fun g => g.1 = true -> g.2 <> PSBC_RESULT_OK) guards -> first_error guards = Some r ->
  r <> PSBC_RESULT_OK.
Proof.
  induction 1 as [|[b r'] gs Hg _ IH]; [done|]. simpl in *. destruct b; [|done].
  intros [= <-]. by apply Hg.
Qed.

Lemma not_ok_spec b r : b && not_ok r = true -> r <> PSBC_RESULT_OK.
Proof. intros [_ Hr]%andb_prop. unfold not_ok in Hr. by case_bool_decide. Qed.

Lemma guards_error r : impl_guards rq opts = Some r -> r <> PSBC_RESULT_OK.
Proof.
  apply first_error_some. repeat (apply Forall_cons; split); [..|by apply Forall_nil];
    cbn [fst snd]; intros Hb; first [discriminate|exact (not_ok_spec _ _ Hb)].
Qed.

(** Only geometry, control and evaluation programs are paired. *)
Lemma fragment_alone :
  impl_guards rq opts = None -> is_fragment opts = true -> paired_previous rq = false.
Proof.
  intros Hg%first_error_none Hf. unfold is_fragment, mesa_stage in Hf.
  do 3 apply Forall_cons in Hg as [_ Hg]. apply Forall_cons in Hg as [Hg _]. simpl in Hg.
  unfold paired_geometry, paired_hull, paired_domain, paired_with in Hg.
  destruct (ShaderUtil.psbc_to_mesa_stage (co_stage opts)); try discriminate Hf.
  destruct (paired_previous rq); [|done]. by simpl in Hg.
Qed.

Lemma previous_precedes :
  impl_guards rq opts = None ->
  precedes (if paired_previous rq then expected_previous_stage rq opts else MESA_SHADER_VERTEX).
Proof.
  intros Hg%first_error_none. do 3 apply Forall_cons in Hg as [_ Hg].
  apply Forall_cons in Hg as [Hg _]. simpl in Hg.
  unfold precedes, expected_previous_stage, paired_tess_geometry, mesa_stage in *.
  unfold paired_geometry, paired_hull, paired_domain, paired_with in *.
  destruct (paired_previous rq); [|done]. simpl in Hg.
  by destruct (ShaderUtil.psbc_to_mesa_stage (co_stage opts)); try discriminate Hg;
    destruct (given (rq_next_link_spirv rq)).
Qed.

Lemma spec_compile_shaders nir stage :
  impl_guards rq opts = None ->
  st_nir stage = Some nir -> st_stage stage = mesa_stage opts ->
  st_next_stage stage = next_stage_of (mesa_stage opts) ->
  spec (own ∅ nir None None) (compile_shaders host rq opts nir stage) (fun _ => finished) stopped.
Proof.
  intros Hg N1 S1 X1. unfold compile_shaders.
  assert (forall r m, failed ∅ r m -> stopped r m) as Hs.
  { intros r m. by apply failed_stopped, leaked_nothing. }
  eapply spec_keeps; [apply keeps_load; by left|]. intros shader.
  eapply spec_bind; [eapply spec_error; [exact Hs|apply spec_import_previous]|].
  intros [previous st]. apply spec_pure. intros (Hprev & N2 & S2).
  eapply spec_bind; [eapply spec_error; [exact Hs|by apply spec_link_next]|].
  intros next. eapply spec_keeps; [by apply keeps_merge_domain|]. intros ?.
  eapply spec_bind; [eapply spec_error; [exact Hs|by apply spec_link_control]|].
  intros control. apply spec_pure. intros Hctl.
  apply (spec_linked nir previous Hprev (st_nir control) next stage st control _ Hctl); try done;
    [|rewrite S2; by apply previous_precedes].
  intros Hf. unfold is_given in Hprev. by rewrite (fragment_alone Hg Hf) in Hprev.
Qed.

Lemma spec_compile_body :
  impl_guards rq opts = None ->
  spec (held m0 (mc_init m0) (Some zero_PsbcShaderOutput) ∅) (compile_body host rq opts)
    (fun _ => finished) stopped.
Proof.
  intros Hg. unfold compile_body. apply spec_bind with (R := fun _ => started ∅).
  - intros m (Hn & Hf & Hi & Ho & Hold & Hnew & Hlt). split_and!; try done. simpl. by rewrite Hi.
  - intros ?. eapply spec_bind.
    + eapply spec_error; [|apply spec_import_stage].
      intros r m. by apply failed_stopped, leaked_nothing.
    + intros [nir stage]. apply spec_pure. intros (N1 & S1 & X1). by apply spec_compile_shaders.
Qed.
End safety.

(** ** The whole call *)

Section outcome.
Context `{MesaPasses} `{!MesaLaws} `{Binary.GnmFormat} (host : Host) (rq : CompileRequest)
  (options : option PsbcCompileOptions) (m : machine).
Hypothesis Hwf : machine_wf m.
Hypothesis Hinit : init_wf (mc_init m).

(** The arguments psbc_compile_impl insists on before it touches [*out]. *)
Definition arguments_given : bool :=
  (given (rq_spirv rq) || given (rq_input_nir rq)) && given options && given (mc_out m).

Definition outcome (result : machine * (PsbcResult + unit)) : Prop :=
  match result with
  | (m', inr _) => exists opts, options = Some opts /\ finished host rq opts m m'
  | (m', inl r) =>
      r <> PSBC_RESULT_OK /\
      if arguments_given then exists opts rest, options = Some opts /\ leaked opts rest /\
        held m (mc_init m) (Some zero_PsbcShaderOutput) rest m'
      else m' = m
  end.

Lemma compile_outcome : outcome (psbc_compile_impl host rq options m).
Proof.
  unfold psbc_compile_impl, outcome, arguments_given.
  destruct options as [opts|]; [|by rewrite andb_false_r].
  destruct (mc_out m); [|by rewrite !andb_false_r]. rewrite <-negb_orb. simpl.
  destruct (given (rq_spirv rq) || given (rq_input_nir rq)); [|done]. simpl.
  set (m1 := m <| mc_out := Some zero_PsbcShaderOutput |>).
  assert (held m1 (mc_init m1) (Some zero_PsbcShaderOutput) ∅ m1) as Hm1 by by apply held_start.
  destruct (impl_guards rq opts) as [r|] eqn:Eg.
  - split; [by eapply guards_error|]. exists opts, ∅. split; [done|]. split; [by left|exact Hm1].
  - pose proof (spec_compile_body host rq opts m1 Hwf Hinit Eg m1 Hm1) as Hb.
    unfold mbind, C_bind. simpl. fold m1. revert Hb. destruct (compile_body host rq opts m1) as [m' [r|[]]]; intros Hb.
    + destruct Hb as (rest & Hl & Hr & Hh). split; [done|]. by exists opts, rest.
    + exists opts. split; [done|exact Hb].
Qed.
End outcome.

Lemma leaked_root opts rest q k : leaked opts rest -> rest !! q = Some k -> shape_parent k = None.
Proof.
  intros [->|[_ [p ->]]] Hq; [done|]. by apply lookup_singleton_Some in Hq as [_ <-].
Qed.

Lemma leaked_none opts rest : legacy_geometry opts = false -> leaked opts rest -> rest = ∅.
Proof. intros Hg [->|[? _]]; congruence. Qed.

(** Whatever the end, only roots were added to the caller's heap. *)
Lemma outcome_held `{MesaPasses} `{!MesaLaws} `{Binary.GnmFormat} host rq options m m' r :
  machine_wf m -> outcome host rq options m (m', r) ->
  exists o s, held m (mc_init m) o s m' /\ forall q k, s !! q = Some k -> shape_parent k = None.
Proof.
  intros Hwf. destruct r as [r|[]]; simpl.
  - intros [_ Hm]. destruct (arguments_given rq options m).
    + destruct Hm as (opts & rest & _ & Hl & Hm). eexists _, rest. split; [exact Hm|].
      intros q k. by eapply leaked_root.
    + subst m'. exists (mc_out m), ∅. split; [by apply held_start|done].
  - intros (opts & _ & rest & ? & ? & ? & ? & ? & b & bytes & d & c & Hl & _ & _ & _ & _ & _ & _ & Hm).
    eexists _, _. split; [exact Hm|]. intros q k. rewrite !lookup_insert_Some.
    intros [[_ <-]|[_ [[_ <-]|[_ Hq]]]]; [done..|]. by eapply leaked_root.
Qed.

Section theorems.
Context `{MesaPasses} `{!MesaLaws} `{Binary.GnmFormat}.



(** C2: a success hands the caller two buffers it now owns - ACO's machine code and
    the binary built around it - with their sizes and the metadata of the same
    program, and adds nothing else to the heap unless a geometry program without
    NGG left a copy shader. *)
Theorem compile_success_output host rq options m m' :
  machine_wf m -> init_wf (mc_init m) -> psbc_compile_impl host rq options m = (m', inr tt) ->
  exists opts shader sg semantics push masks b bytes d c,
    let context := build_context rq opts shader sg b semantics push masks in
    options = Some opts /\
    (exists st shaders gfx,
       (radv_shader_nir_to_asm (compiler_info opts) st shaders gfx).2 = Some b) /\
    Binary.buildshaderbinary true true context (code_dwords b) = inr bytes /\ c <> d /\
    mc_heap m' !! d = Some (bytes_object bytes) /\
    mc_heap m' !! c = Some (bytes_object (code_bytes b)) /\
    mc_out m' = Some {| out_data := Some d; out_size := Z.of_nat (length bytes);
                        out_machine_code := Some c; out_machine_code_size := bin_code_size b;
                        out_metadata := Metadata.fill_shader_metadata context |} /\
    (legacy_geometry opts = false ->
     mc_heap m' = <[c := bytes_object (code_bytes b)]> (<[d := bytes_object bytes]> (mc_heap m))).
Proof.
  intros Hwf Hinit Hc. pose proof (compile_outcome host rq options m Hwf Hinit) as Ho.
  rewrite Hc in Ho. destruct Ho as (opts & -> & rest & shader & sg & semantics & push & masks & b &
    bytes & d & c & Hl & _ & Hb & Hbin & Hd & Hcr & Hcd & Hm).
  exists opts, shader, sg, semantics, push, masks, b, bytes, d, c. split_and!; try done.
  - revert Hbin. unfold Binary.buildshaderbinary. by repeat case_match.
  - eapply held_buffer; [exact Hm|]. rewrite lookup_insert_ne by done. by rewrite lookup_insert_eq.
  - eapply held_buffer; [exact Hm|]. by rewrite lookup_insert_eq.
  - by destruct Hm as (_ & _ & _ & ? & _).
  - intros Hg. apply (leaked_none opts) in Hl as ->; [|done]. by eapply held_two_buffers.
Qed.
End theorems.

(** ** On the sample host *)

Import Sample.

#[export] Instance sample_laws : MesaLaws.
Proof.
  split; [done..|]. intros ci gfx st nir copy. simpl. destruct (st_stage st); simpl; try done.
  destruct (ri_is_ngg (st_info st)); done.
Qed.

Lemma sample_wf : machine_wf sample_machine.
Proof. intros p x Hp. change ((∅ : gmap Z object) !! p = Some x) in Hp. by rewrite lookup_empty in Hp. Qed.

Lemma sample_init : init_wf (mc_init sample_machine).
Proof. by split. Qed.

Definition run (rq : CompileRequest) (opts : PsbcCompileOptions) : machine * (PsbcResult + unit) :=
  psbc_compile_impl sample_host rq (Some opts) sample_machine.



Lemma compile_success_output_witness :
  exists m' d c bytes, run sample_request (sample_options PSBC_TARGET_PS5 PSBC_STAGE_COMPUTE) = (m', inr tt) /\
    mc_heap m' = <[c := bytes_object [0; 0; 0x81; 0xbf]]> (<[d := bytes_object bytes]> ∅).
Proof.
  destruct (run sample_request (sample_options PSBC_TARGET_PS5 PSBC_STAGE_COMPUTE))
    as [m' [r|[]]] eqn:E; [vm_compute in E; discriminate|].
  destruct (compile_success_output sample_host sample_request
    (Some (sample_options PSBC_TARGET_PS5 PSBC_STAGE_COMPUTE)) sample_machine m' sample_wf sample_init E)
    as (opts & shader & sg & semantics & push & masks & b & bytes & d & c & Ho & (st & shaders & gfx & Hb) &
        _ & _ & _ & _ & _ & Hh).
  injection Ho as <-. injection Hb as <-.
  exists m', d, c, bytes. split; [reflexivity|]. apply Hh. reflexivity.
Defined.

End CompileSafety.
