(* ===== verification/CompileResult.v ===== *)
(** * Why a compile stops

    Every result code other than PSBC_RESULT_OK is traced to the condition behind
    it: a guard, a vendored pass that gave up, a program that cannot be described,
    or an allocation that failed.  A request none of them applies to is compiled. *)

From stdpp Require Import gmap.
From S2P Require Import Prelude Types Crc32 Mesa Nir ShaderUtil InputSemantics Distance Usage Validate Metadata.
From S2P Require Import Binary Setup Machine Compile Sample CompileSafety.

Module CompileResult.
Import Validate Setup Machine Compile CompileSafety.

(** Every code the computation can stop with satisfies [E]. *)
Definition stops_with {A} (E : PsbcResult -> Prop) (c : C A) : Prop :=
  forall m m' r, c m = (m', inl r) -> E r.

Create HintDb stops.

Section stops.
Context (E : PsbcResult -> Prop).
Local Abbreviation stops c := (stops_with E c).

Lemma stops_ret {A} (a : A) : stops (mret a).
Proof. by intros m m' r [=]. Qed.

Lemma stops_fail {A} r : E r -> stops (fail r : C A).
Proof. by intros Hr m m' r' [= _ <-]. Qed.

Lemma stops_bind {A B} (c : C A) (f : A -> C B) : stops c -> (forall a, stops (f a)) -> stops (c ≫= f).
Proof.
  intros Hc Hf m m' r. unfold mbind, C_bind. destruct (c m) as [m1 [r1|a]] eqn:Ec.
  - intros [= <- <-]. by eapply Hc.
  - apply Hf.
Qed.

Lemma stops_if {A} (b : bool) (c d : C A) :
  (b = true -> stops c) -> (b = false -> stops d) -> stops (if b then c else d).
Proof. destruct b; auto. Qed.

(** The primitives always return. *)
Lemma stops_alloc x : stops (alloc x).
Proof. by intros m m' r [=]. Qed.
Lemma stops_on_machine f : stops (on_machine f).
Proof. by intros m m' r [=]. Qed.
Lemma stops_fault : stops fault.
Proof. by intros m m' r [=]. Qed.
Lemma stops_load p : stops (load_nir p).
Proof. intros m m' r. unfold load_nir. by repeat case_match. Qed.
Lemma stops_store p n : stops (store_nir p n).
Proof. intros m m' r. unfold store_nir. by repeat case_match. Qed.
Lemma stops_steal p q : stops (ralloc_steal p q).
Proof. intros m m' r. unfold ralloc_steal. by repeat case_match. Qed.
Lemma stops_ralloc_free p : stops (ralloc_free p).
Proof. intros m m' r. unfold ralloc_free. by repeat case_match. Qed.
Lemma stops_free p : stops (free p).
Proof. intros m m' r. unfold free. by repeat case_match. Qed.
Lemma stops_need_types : stops need_types.
Proof. intros m m' r. unfold need_types. by repeat case_match. Qed.
End stops.

#[export] Hint Resolve stops_ret stops_alloc stops_on_machine stops_fault stops_load stops_store
  stops_steal stops_ralloc_free stops_free stops_need_types : stops.
#[export] Hint Extern 1 (stops_with _ (init)) => apply stops_on_machine : stops.
#[export] Hint Extern 1 (stops_with _ (shutdown)) => apply stops_on_machine : stops.
#[export] Hint Extern 1 (stops_with _ (set_out _)) => apply stops_on_machine : stops.

(** Walk through a computation, leaving the places where it stops. *)
Ltac walk :=
  repeat match goal with
  | |- stops_with _ (_ ≫= _) => apply stops_bind; [|intros ?]
  | |- stops_with _ (if ?b then _ else _) => apply stops_if; intros ?
  | |- stops_with _ (let '(_, _) := ?x in _) => destruct x eqn:?
  | |- stops_with _ (match ?x with _ => _ end) => destruct x eqn:?
  | |- stops_with _ (if_some ?x _) => unfold if_some
  | |- stops_with _ (if_true _ _) => unfold if_true
  | |- stops_with _ (update_nir _ _) => unfold update_nir
  | |- stops_with _ (fail _) => fail 1
  | |- stops_with _ _ => solve [eauto with stops]
  end.

Section cause.
Context `{MesaPasses} `{Binary.GnmFormat} (host : Host) (rq : CompileRequest)
  (opts : PsbcCompileOptions).

(** Why the body of a compile gives up. *)
Inductive cause : PsbcResult -> Prop :=
| cause_nir_stage nir :
    rq_input_nir rq = Some nir -> nir_is nir (mesa_stage opts) = false ->
    cause PSBC_RESULT_UNSUPPORTED_STAGE
| cause_import ci st lower_view_index :
    radv_shader_spirv_to_nir ci st lower_view_index = None -> cause PSBC_RESULT_COMPILE_NIR
| cause_distances options nir :
    Distance.link_fragment_distance_layout nir_lower_io_to_scalar nir options = None ->
    options = opts \/ options = select_linked_parameters opts (co_previous_parameters opts) \/
      options = select_linked_parameters opts (co_next_link_parameters opts) ->
    cause PSBC_RESULT_COMPILE_NIR
| cause_state dual :
    graphics_state opts dual = None -> cause PSBC_RESULT_INTERNAL_ERROR
| cause_mixed_inputs nir info :
    is_fragment opts = true -> is_ps5 opts = true ->
    InputSemantics.split_ps5_mixed_inputs nir info (co_primitive_id_per_primitive opts) = None ->
    cause PSBC_RESULT_INTERNAL_ERROR
| cause_semantics nir info :
    is_fragment opts = true ->
    (InputSemantics.build_input_semantics nir info (co_primitive_id_per_primitive opts)).1 = false ->
    ps_prim_id_input (ri_ps info) = true ->
    cause PSBC_RESULT_INTERNAL_ERROR
| cause_aco st shaders gfx :
    (radv_shader_nir_to_asm (compiler_info opts) st shaders gfx).2 = None ->
    cause PSBC_RESULT_COMPILE_ACO
| cause_binary shader sg semantics push masks b r :
    Binary.buildshaderbinary (host_newcode_allocated host) (host_buf_allocated host)
      (build_context rq opts shader sg b semantics push masks) (code_dwords b) = inl r ->
    cause r
| cause_memory :
    host_machine_code_allocated host = false -> cause PSBC_RESULT_OUT_OF_MEMORY.

Local Abbreviation stops := (stops_with cause).

Lemma lower_stage_nir_none ci imported options nir :
  lower_stage_nir ci imported options nir = None ->
  exists nir', Distance.link_fragment_distance_layout nir_lower_io_to_scalar nir' options = None.
Proof.
  unfold lower_stage_nir. cbv zeta.
  match goal with |- context [Distance.link_fragment_distance_layout ?f ?n ?o] =>
    destruct (Distance.link_fragment_distance_layout f n o) eqn:E end; [done|]. eauto.
Qed.

(** A stage that cannot be prepared explains PSBC_RESULT_COMPILE_NIR. *)
Lemma prepare_none ci st spirv size input options m m' :
  options = opts \/ options = select_linked_parameters opts (co_previous_parameters opts) \/
    options = select_linked_parameters opts (co_next_link_parameters opts) ->
  prepare_stage_nir ci st spirv size input options m = (m', inr None) ->
  cause PSBC_RESULT_COMPILE_NIR.
Proof.
  intros Ho. unfold prepare_stage_nir, mbind, C_bind.
  destruct (need_types m) as [m1 [?|[]]]; [done|].
  destruct (radv_shader_spirv_to_nir _ _ _) as [nir|] eqn:Ei; [|intros _; by eapply cause_import].
  destruct (alloc _ m1) as [m2 [?|p]]; [done|].
  destruct (lower_stage_nir _ _ _ _) as [nir'|] eqn:El.
  - by destruct (store_nir p nir' m2) as [m3 [?|?]].
  - intros _. apply lower_stage_nir_none in El as [nir' El]. by eapply cause_distances.
Qed.

Lemma stops_prepared {A} ci st spirv size input options (f : _ -> C A) :
  options = opts \/ options = select_linked_parameters opts (co_previous_parameters opts) \/
    options = select_linked_parameters opts (co_next_link_parameters opts) ->
  (forall p, stops (f (Some p))) -> (cause PSBC_RESULT_COMPILE_NIR -> stops (f None)) ->
  stops (prepare_stage_nir ci st spirv size input options ≫= f).
Proof.
  intros Ho Hsome Hnone m m' r.
  assert (stops (prepare_stage_nir ci st spirv size input options)) as Hp.
  { unfold prepare_stage_nir. walk. }
  unfold mbind, C_bind. destruct (prepare_stage_nir _ _ _ _ _ _ m) as [m1 [r1|[p|]]] eqn:Ep.
  - intros [= <- <-]. by eapply Hp.
  - apply Hsome.
  - apply Hnone. by eapply prepare_none.
Qed.

Lemma stops_bail {A} nir previous r : cause r -> stops (bail nir previous r : C A).
Proof. intros Hr. unfold bail. walk. by apply stops_fail. Qed.
Hint Resolve stops_bail stops_fail : stops.

Lemma stops_import_stage : stops (import_stage host rq opts).
Proof.
  unfold import_stage. apply stops_if; intros Hi.
  - walk. apply stops_fail. destruct (rq_input_nir rq) as [nir|] eqn:En; [|done].
    eapply cause_nir_stage; [done|]. by destruct (nir_is nir (mesa_stage opts)).
  - apply stops_prepared; [auto|intros p; by apply stops_ret|]. intros Hc. walk. by apply stops_fail.
Qed.

Lemma stops_import_previous nir : stops (import_previous rq opts nir).
Proof.
  unfold import_previous. apply stops_if; intros Hi; [|by apply stops_ret].
  apply stops_prepared; [auto|intros [p st]; by apply stops_ret|].
  intros Hc. walk. by apply stops_fail.
Qed.

Lemma stops_import_link_only nir previous s next : stops (import_link_only rq opts nir previous s next).
Proof.
  unfold import_link_only. apply stops_prepared; [auto|intros p; by apply stops_ret|].
  intros Hc. by apply stops_bail.
Qed.
Hint Resolve stops_import_stage stops_import_previous stops_import_link_only : stops.

Lemma stops_linking nir previous :
  stops (link_next rq opts nir previous) /\ stops (merge_domain rq opts nir previous) /\
  stops (link_control rq opts nir previous).
Proof.
  split_and!; unfold link_next, merge_domain, link_control, merge_tess, update_ptr, load_ptr; walk.
Qed.

Lemma stops_init_infos nir previous next sg : stops (init_infos rq opts nir previous next sg).
Proof. unfold init_infos, link_geometry, load_ptr. cbv zeta. walk. Qed.

Lemma stops_lower_frag_pos nir gfx : stops (lower_frag_pos opts nir gfx).
Proof. unfold lower_frag_pos. walk. Qed.

Lemma stops_info_passes nir previous gfx layout sg : stops (info_passes rq opts nir previous gfx layout sg).
Proof. unfold info_passes, load_ptr. cbv zeta. walk. Qed.

Lemma stops_push_use nir previous : stops (push_use rq opts nir previous).
Proof. unfold push_use, load_ptr. walk. Qed.

Lemma stops_descriptor_use nir previous sg : stops (descriptor_use rq opts nir previous sg).
Proof. unfold descriptor_use, load_ptr. cbv zeta. walk. Qed.

Lemma stops_link_info nir gfx next sg : stops (link_info rq opts nir gfx next sg).
Proof. unfold link_info, show_stage. cbv zeta. walk. Qed.

Lemma stops_split_inputs nir previous st : stops (split_inputs opts nir previous st).
Proof.
  unfold split_inputs. walk. apply stops_bail.
  match goal with Hf : _ && _ = true |- _ => apply andb_prop in Hf as [Hf Hp] end.
  by eapply cause_mixed_inputs.
Qed.

Lemma stops_late_lowering nir previous gfx sg : stops (late_lowering rq opts nir previous gfx sg).
Proof.
  pose proof stops_split_inputs.
  unfold late_lowering, lower_legacy_gs, postprocess, lower_flat. walk.
Qed.

Lemma stops_snapshot nir st : stops (snapshot_semantics opts nir st).
Proof.
  unfold snapshot_semantics. apply stops_if; intros Hf; [|by apply stops_ret].
  apply stops_bind; [apply stops_load|]. intros n.
  destruct (InputSemantics.build_input_semantics n (st_info st) _) as [ok semantics] eqn:Es.
  apply stops_if; intros Hok; [|by apply stops_ret]. apply andb_prop in Hok as [Hok Hid].
  walk. apply stops_fail. apply (cause_semantics n (st_info st)); [done| |done].
  rewrite Es. by destruct ok.
Qed.

Lemma stops_package nir previous program shader sg b semantics push masks :
  stops (package host nir previous program b (build_context rq opts shader sg b semantics push masks)).
Proof.
  unfold package. walk; apply stops_bail.
  - by eapply cause_binary.
  - apply cause_memory. by apply negb_true_iff.
Qed.

Lemma stops_all ps ns : stops (load_all ps) /\ stops (store_all ps ns).
Proof.
  split; [|revert ns]; induction ps as [|p ps IH]; try intros [|n ns]; simpl; walk; auto.
Qed.

Lemma stops_assemble nir previous gfx sg semantics push masks :
  stops (assemble host rq opts nir previous gfx sg semantics push masks).
Proof.
  unfold assemble. apply stops_bind; [by apply (stops_all _ (@nil nir_shader))|]. intros shaders. cbv zeta.
  destruct (radv_shader_nir_to_asm _ _ _ _) as [shaders' [b|]] eqn:Eb;
    (apply stops_bind; [by apply stops_all|]); intros ?.
  - walk. apply stops_package.
  - apply stops_bail. eapply cause_aco. by rewrite Eb.
Qed.

Lemma stops_compile_body : stops (compile_body host rq opts).
Proof.
  unfold compile_body, compile_shaders. apply stops_bind; [by apply stops_on_machine|]. intros _.
  apply stops_bind; [apply stops_import_stage|]. intros [nir stage].
  apply stops_bind; [apply stops_load|]. intros shader. cbv zeta.
  apply stops_bind; [apply stops_import_previous|]. intros [previous st].
  destruct (stops_linking nir previous) as (Hn & Hm & Hc).
  apply stops_bind; [done|]. intros next. apply stops_bind; [done|]. intros _.
  apply stops_bind; [done|]. intros control.
  apply stops_bind; [apply stops_init_infos|]. intros sg.
  destruct (graphics_state opts _) as [gfx|] eqn:Eg; [|by eapply stops_bail, cause_state].
  apply stops_bind; [apply stops_lower_frag_pos|]. intros gfx'.
  apply stops_bind; [apply stops_info_passes|]. intros sg'.
  apply stops_bind; [apply stops_push_use|]. intros push.
  apply stops_bind; [apply stops_descriptor_use|]. intros [sg'' masks].
  apply stops_bind; [apply stops_link_info|]. intros sg3.
  apply stops_bind; [apply stops_late_lowering|]. intros sg4.
  apply stops_bind; [apply stops_snapshot|]. intros semantics. apply stops_assemble.
Qed.
End cause.

(** ** Errors and successes *)

Lemma impl_returns `{MesaPasses} `{Binary.GnmFormat} host rq options m m' r :
  psbc_compile_impl host rq options m = (m', inl r) ->
  (arguments_given rq options m = false /\ r = PSBC_RESULT_INTERNAL_ERROR) \/
  exists opts, options = Some opts /\
    (impl_guards rq opts = Some r \/ (impl_guards rq opts = None /\ cause host rq opts r)).
Proof.
  unfold psbc_compile_impl, arguments_given, fail.
  destruct options as [opts|]; [|intros [= _ <-]; left; by rewrite andb_false_r].
  destruct (mc_out m); [|intros [= _ <-]; left; by rewrite !andb_false_r].
  destruct (given (rq_spirv rq)), (given (rq_input_nir rq)); simpl;
    try (intros [= _ <-]; by left); intros Hc; right; exists opts; (split; [done|]); revert Hc;
    unfold mbind, C_bind; simpl; (destruct (impl_guards rq opts) as [r'|];
      [intros [= _ <-]; by left|intros Hc; right; split; [done|]; by eapply stops_compile_body, Hc]).
Qed.

Section theorems.
Context `{MesaPasses} `{Binary.GnmFormat}.


Lemma build_never_fails ctx code r :
  Binary.buildshaderbinary true true ctx code = inl r -> Binary.stage_header ctx code = None.
Proof.
  unfold Binary.buildshaderbinary. simpl. case_match; [|done]. unfold Binary.hashsb.
  rewrite !Crc32.crc32_sb_ref. cbv [mbind option_bind]. by rewrite !Crc32.crc32_sb_ref.
Qed.

(** The stages a binary header exists for. *)
Definition has_header (s : PsbcStage) : bool :=
  match s with
  | PSBC_STAGE_VERTEX | PSBC_STAGE_TESS_EVAL | PSBC_STAGE_FRAGMENT | PSBC_STAGE_COMPUTE
  | PSBC_STAGE_GEOMETRY | PSBC_STAGE_TESS_CTRL | PSBC_STAGE_EXPORT | PSBC_STAGE_LOCAL => true
  | _ => false
  end.

Lemma linked_distances opts p :
  co_fragment_distance_layout_valid (select_linked_parameters opts p) =
  co_fragment_distance_layout_valid opts.
Proof. unfold select_linked_parameters. by case_match. Qed.

End theorems.

(** ** On the sample host *)

Import Sample.



End CompileResult.
