(* ===== verification/Api.v ===== *)
(** * The public entry points (end of psbc_compile.c)

    The functions of psbc_compile.h around psbc_compile_impl: the stage pipelines
    with their own argument checks, psbc_free_output, and the small lookups.  [*out]
    is the machine's output structure, so a sequence of calls is a sequence of
    computations on one machine. *)

From stdpp Require Import gmap.
From S2P Require Import Prelude Types Regs Mesa Nir ShaderUtil InputSemantics Usage Validate Metadata Binary.
From S2P Require Import Setup Machine Compile Sample CompileSafety.

Module Api.
Import Validate Setup Machine Compile CompileSafety.

(** ** psbc_free_output *)

Definition psbc_free_output : C unit := fun m =>
  match mc_out m with
  | None => (m, inr tt)
  | Some out =>
      (if_some (out_data out) free;; if_some (out_machine_code out) free;;
       set_out zero_PsbcShaderOutput) m
  end.

(** ** Compilation *)

Section api.
Context `{MesaPasses} `{Binary.GnmFormat} (host : Host).

Definition psbc_compile_shader (spirv : option (list Z)) (spirv_size : Z)
    (opts : option PsbcCompileOptions) : C unit :=
  psbc_compile_impl host (mk_CompileRequest spirv spirv_size None None 0 None None 0) opts.

Definition psbc_compile_nir (nir : option nir_shader) (opts : option PsbcCompileOptions) : C unit :=
  psbc_compile_impl host (mk_CompileRequest None 0 nir None 0 None None 0) opts.

Definition psbc_compile_geometry_pipeline (vertex_spirv : option (list Z)) (vertex_spirv_size : Z)
    (geometry_spirv : option (list Z)) (geometry_spirv_size : Z)
    (opts : option PsbcCompileOptions) : C unit :=
  psbc_compile_impl host (mk_CompileRequest geometry_spirv geometry_spirv_size None
    vertex_spirv vertex_spirv_size None None 0) opts.

Definition psbc_compile_nir_geometry_pipeline (vertex_nir geometry_nir : option nir_shader)
    (opts : option PsbcCompileOptions) : C unit :=
  psbc_compile_impl host (mk_CompileRequest None 0 geometry_nir None 0 vertex_nir None 0) opts.

(** The input patch size a pair can be launched with. *)
Definition patch_size_ok (opts : PsbcCompileOptions) : bool :=
  truthy (co_patch_control_points opts) && negb (co_patch_control_points opts >? 32).

(** A tessellation entry point: all three stages, the expected stage on the PS5, and
    a patch size. *)
Definition checked_pipeline (modules : bool) (stage : PsbcStage) (opts : option PsbcCompileOptions)
    (k : PsbcCompileOptions -> C unit) : C unit := fun m =>
  match opts with
  | Some opts =>
      if negb (given (mc_out m)) || negb modules then fail PSBC_RESULT_INVALID_SPIRV m
      else if negb (bool_decide (co_stage opts = stage)) || negb (is_ps5 opts)
      then fail PSBC_RESULT_UNSUPPORTED_STAGE m
      else if negb (patch_size_ok opts) then fail PSBC_RESULT_UNSUPPORTED_STAGE m
      else k opts m
  | None => fail PSBC_RESULT_INVALID_SPIRV m
  end.

Definition psbc_compile_tess_pipeline (vertex_spirv : option (list Z)) (vertex_spirv_size : Z)
    (tess_ctrl_spirv : option (list Z)) (tess_ctrl_spirv_size : Z)
    (tess_eval_spirv : option (list Z)) (tess_eval_spirv_size : Z)
    (opts : option PsbcCompileOptions) : C unit :=
  checked_pipeline (given vertex_spirv && given tess_ctrl_spirv && given tess_eval_spirv)
    PSBC_STAGE_TESS_CTRL opts (fun opts =>
      psbc_compile_impl host (mk_CompileRequest tess_ctrl_spirv tess_ctrl_spirv_size None
        vertex_spirv vertex_spirv_size None tess_eval_spirv tess_eval_spirv_size) (Some opts)).

Definition psbc_compile_domain_pipeline (tess_ctrl_spirv : option (list Z)) (tess_ctrl_spirv_size : Z)
    (tess_eval_spirv : option (list Z)) (tess_eval_spirv_size : Z)
    (opts : option PsbcCompileOptions) : C unit :=
  checked_pipeline (given tess_ctrl_spirv && given tess_eval_spirv)
    PSBC_STAGE_TESS_EVAL opts (fun opts =>
      psbc_compile_impl host (mk_CompileRequest tess_eval_spirv tess_eval_spirv_size None
        tess_ctrl_spirv tess_ctrl_spirv_size None None 0) (Some opts)).

(** The metadata a program fed by an evaluation shader must carry. *)
Definition tess_fed (md : PsbcShaderMetadata) : bool :=
  md_merged_geometry md &&
  bool_decide (md_merged_es_source_stage md = PSBC_STAGE_TESS_EVAL) &&
  md_ps5_ring_table_valid md.

(** Drop a program that does not carry it. *)
Definition require_tess_fed : C unit := fun m =>
  match mc_out m with
  | Some out =>
      if negb (tess_fed (out_metadata out))
      then (psbc_free_output;; fail PSBC_RESULT_INTERNAL_ERROR) m else (m, inr tt)
  | None => (m, inr tt)
  end.

Definition psbc_compile_tess_geometry_pipeline (control : option (list Z)) (control_size : Z)
    (evaluation : option (list Z)) (evaluation_size : Z) (geometry : option (list Z))
    (geometry_size : Z) (opts : option PsbcCompileOptions) : C unit := fun m =>
  match mc_out m, opts with
  | None, _ => fail PSBC_RESULT_INVALID_SPIRV m
  | Some _, None => (set_out zero_PsbcShaderOutput;; fail PSBC_RESULT_INVALID_SPIRV) m
  | Some _, Some opts =>
      (set_out zero_PsbcShaderOutput;;
       if negb (given control) || negb (given evaluation) || negb (given geometry)
       then fail PSBC_RESULT_INVALID_SPIRV
       else if negb (is_ps5 opts) || negb (bool_decide (co_stage opts = PSBC_STAGE_GEOMETRY)) ||
               negb (co_ngg opts) || negb (patch_size_ok opts)
       then fail PSBC_RESULT_UNSUPPORTED_STAGE
       else
         let validation := validate_spirv_capabilities control control_size opts in
         if not_ok validation then fail validation
         else
           psbc_compile_impl host (mk_CompileRequest geometry geometry_size None
             evaluation evaluation_size None control control_size) (Some opts);;
           require_tess_fed) m
  end.
End api.

(** ** Lookups *)

Definition psbc_result_string (result : PsbcResult) : string :=
  match result with
  | PSBC_RESULT_OK => "success"
  | PSBC_RESULT_INVALID_SPIRV => "invalid SPIR-V bytecode"
  | PSBC_RESULT_UNSUPPORTED_STAGE => "unsupported shader stage"
  | PSBC_RESULT_COMPILE_NIR => "SPIR-V to NIR compilation failed"
  | PSBC_RESULT_COMPILE_ACO => "ACO shader compilation failed"
  | PSBC_RESULT_OUT_OF_MEMORY => "out of memory"
  | PSBC_RESULT_INTERNAL_ERROR => "internal error"
  | PSBC_RESULT_UNSUPPORTED_CAPABILITY => "unsupported SPIR-V capability"
  end.

Definition psbc_stage_from_name (name : option string) : PsbcStage :=
  match name with
  | None => PSBC_STAGE_NONE
  | Some name =>
      if (name =? "vertex")%string then PSBC_STAGE_VERTEX
      else if (name =? "tess-ctrl")%string then PSBC_STAGE_TESS_CTRL
      else if (name =? "tess-eval")%string then PSBC_STAGE_TESS_EVAL
      else if (name =? "geometry")%string then PSBC_STAGE_GEOMETRY
      else if (name =? "fragment")%string then PSBC_STAGE_FRAGMENT
      else if (name =? "compute")%string then PSBC_STAGE_COMPUTE
      else if (name =? "task")%string then PSBC_STAGE_TASK
      else if (name =? "export")%string then PSBC_STAGE_EXPORT
      else if (name =? "local")%string then PSBC_STAGE_LOCAL
      else PSBC_STAGE_NONE
  end.

(** The address of the register is its index; [None] for a null pointer. *)
Fixpoint find_register (offset : Z) (i : Z) (registers : list PsbcRegisterWrite) : option Z :=
  match registers with
  | [] => None
  | r :: registers => if rw_offset r =? offset then Some i else find_register offset (i + 1) registers
  end.

Definition find_shader_register (metadata : PsbcShaderMetadata) (offset : Z) : option Z :=
  find_register offset 0 (take (Z.to_nat (md_shader_register_count metadata))
                            (md_shader_registers metadata)).

(** One field of the combined register: the larger of the two. *)
Definition raise_field (G : Z -> Z) (C : Z) (tcs rsrc : Z) : Z :=
  if G tcs >? G rsrc then (rsrc `land` C) `lor` (tcs `land` not32 C) else rsrc.

Definition combine_vs_tcs_config (vs_rsrc1 vs_rsrc2 tcs_rsrc1 tcs_rsrc2 : Z) : Z * Z :=
  let rsrc1 := raise_field G_00B848_VGPRS C_00B848_VGPRS tcs_rsrc1 vs_rsrc1 in
  let rsrc1 := raise_field G_00B228_SGPRS C_00B228_SGPRS tcs_rsrc1 rsrc1 in
  let rsrc1 := raise_field G_00B428_LS_VGPR_COMP_CNT C_00B428_LS_VGPR_COMP_CNT tcs_rsrc1 rsrc1 in
  (rsrc1, vs_rsrc2 `lor` (tcs_rsrc2 `land` not32 C_00B12C_SCRATCH_EN)).

(** ** Releasing an output *)

Definition buffers (out : PsbcShaderOutput) : list Z :=
  option_list (out_data out) ++ option_list (out_machine_code out).

(** The output structure owns what it points to. *)
Definition out_ok (m : machine) : Prop :=
  forall out, mc_out m = Some out ->
    NoDup (buffers out) /\ forall p, p ∈ buffers out -> exists bytes, mc_heap m !! p = Some (bytes_object bytes).

Lemma free_buffer p m bytes :
  mc_heap m !! p = Some (bytes_object bytes) ->
  free p m = (m <| mc_heap := delete p (mc_heap m) |>, inr tt).
Proof. intros Hp. unfold free. by rewrite Hp. Qed.

(** psbc_free_output releases exactly what the structure points to and clears it. *)
Lemma free_output_exact m out :
  out_ok m -> mc_out m = Some out ->
  psbc_free_output m =
    (m <| mc_heap := foldl (fun h p => delete p h) (mc_heap m) (buffers out) |>
       <| mc_out := Some zero_PsbcShaderOutput |>, inr tt).
Proof.
  intros Hok Ho. destruct (Hok out Ho) as [Hnd Hlive]. unfold psbc_free_output, buffers in *. rewrite Ho.
  destruct m as [h n i f o]. simpl in *.
  destruct (out_data out) as [d|]; destruct (out_machine_code out) as [c|]; simpl in *.
  - destruct (Hlive d) as [x Hd]; [set_solver|]. destruct (Hlive c) as [y Hc]; [set_solver|].
    apply NoDup_cons in Hnd as [Hnd _]. apply not_elem_of_cons in Hnd as [Hne _].
    unfold mbind, C_bind. rewrite (free_buffer d _ x) by done. simpl.
    rewrite (free_buffer c _ y) by (simpl; by rewrite lookup_delete_ne). done.
  - destruct (Hlive d) as [x Hd]; [set_solver|].
    unfold mbind, C_bind. by rewrite (free_buffer d _ x) by done.
  - destruct (Hlive c) as [y Hc]; [set_solver|].
    unfold mbind, C_bind. simpl. by rewrite (free_buffer c _ y) by done.
  - done.
Qed.

Lemma foldl_delete_subseteq {A} (l : list Z) (h : gmap Z A) p x :
  foldl (fun h p => delete p h) h l !! p = Some x -> h !! p = Some x.
Proof.
  revert h. induction l as [|q l IH]; intros h; simpl; [done|]. intros Hp%IH.
  by apply lookup_delete_Some in Hp as [_ Hp].
Qed.

(** ** The invariant of a client *)

(** What every sequence of calls keeps. *)
Record client_ok (m : machine) : Prop := {
  ok_fault : mc_fault m = false;
  ok_wf : machine_wf m;
  ok_init : init_wf (mc_init m);
  ok_out : out_ok m
}.

Lemma init_wf_init i : init_wf i -> init_wf (psbc_init i).
Proof.
  intros [Hr Ha]. destruct i as [n a]. simpl in *. subst a. unfold psbc_init, init_wf. simpl.
  destruct (Z.eqb_spec n 0) as [->|]; [done|]. simpl. split; [lia|]. lia.
Qed.

Lemma init_wf_shutdown i : init_wf i -> init_wf (psbc_shutdown i).
Proof.
  intros [Hr Ha]. destruct i as [n a]. simpl in *. subst a. unfold psbc_shutdown, init_wf. simpl.
  destruct (n >? 0) eqn:En; [|done]. simpl.
  destruct (Z.eqb_spec (n - 1) 0) as [->|]; [done|]. simpl. split; lia.
Qed.

Lemma client_ok_free m m' r : client_ok m -> psbc_free_output m = (m', r) -> client_ok m' /\ r = inr tt.
Proof.
  intros [Hf Hwf Hi Hok] Hc. destruct (mc_out m) as [out|] eqn:Ho.
  - rewrite (free_output_exact m out Hok Ho) in Hc. injection Hc as <- <-. split; [|done]. split; try done.
    + intros p x Hp. apply (Hwf p x). exact (foldl_delete_subseteq _ _ _ _ Hp).
    + intros o [= <-]. split; [constructor|]. simpl. set_solver.
  - unfold psbc_free_output in Hc. rewrite Ho in Hc. injection Hc as <- <-. by split.
Qed.

Section client.
Context `{MesaPasses} `{!MesaLaws} `{Binary.GnmFormat}.

Lemma client_ok_compile host rq options m m' r :
  client_ok m -> psbc_compile_impl host rq options m = (m', r) -> client_ok m'.
Proof.
  intros [Hf Hwf Hi Hok] Hc. pose proof (compile_outcome host rq options m Hwf Hi) as Ho.
  rewrite Hc in Ho. destruct (outcome_held _ _ _ _ _ _ Hwf Ho) as (o & s & Hm & Hroot).
  pose proof Hm as (_ & Hf' & Hi' & _). split; [congruence|by eapply held_wf|congruence|].
  intros out Hout. destruct r as [r|[]]; simpl in Ho.
  - destruct Ho as [_ Ho]. destruct (arguments_given rq options m).
    + destruct Ho as (opts & rest & _ & _ & Hz). destruct Hz as (_ & _ & _ & Hz & _).
      rewrite Hz in Hout. injection Hout as <-. split; [constructor|]. simpl. set_solver.
    + subst m'. by apply Hok.
  - destruct Ho as (opts & _ & rest & ? & ? & ? & ? & ? & b & bytes & d & c & _ & _ & _ & _ & _ & _ & Hcd & Hz).
    pose proof Hz as (_ & _ & _ & Ho & _). rewrite Ho in Hout. injection Hout as <-. simpl. split.
    + repeat constructor; set_solver.
    + intros p Hp. assert (p = d \/ p = c) as [->| ->] by set_solver.
      * exists bytes. eapply held_buffer; [exact Hz|]. rewrite lookup_insert_ne by done. by rewrite lookup_insert_eq.
      * exists (code_bytes b). eapply held_buffer; [exact Hz|]. by rewrite lookup_insert_eq.
Qed.

(** ** Calls *)

(** The compiling entry points, with the options they are given. *)
Inductive compiles (opts : option PsbcCompileOptions) : C unit -> Prop :=
| compiles_shader host s n : compiles opts (psbc_compile_shader host s n opts)
| compiles_nir host nir : compiles opts (psbc_compile_nir host nir opts)
| compiles_geometry host v vn g gn :
    compiles opts (psbc_compile_geometry_pipeline host v vn g gn opts)
| compiles_nir_geometry host v g : compiles opts (psbc_compile_nir_geometry_pipeline host v g opts)
| compiles_tess host v vn c cn e en :
    compiles opts (psbc_compile_tess_pipeline host v vn c cn e en opts)
| compiles_domain host c cn e en : compiles opts (psbc_compile_domain_pipeline host c cn e en opts)
| compiles_tess_geometry host c cn e en g gn :
    compiles opts (psbc_compile_tess_geometry_pipeline host c cn e en g gn opts).

(** A client makes one call after the other; it may look at the result or not. *)
Inductive client_step : machine -> machine -> Prop :=
| step_init m m' r : init m = (m', r) -> client_step m m'
| step_shutdown m m' r : shutdown m = (m', r) -> client_step m m'
| step_free m m' r : psbc_free_output m = (m', r) -> client_step m m'
| step_compile opts c m m' r : compiles opts c -> c m = (m', r) -> client_step m m'.

(** A careful client releases a program before it asks for the next one, and does
    not ask for a geometry program without NGG. *)
Inductive careful_step : machine -> machine -> Prop :=
| careful_init m m' r : init m = (m', r) -> careful_step m m'
| careful_shutdown m m' r : shutdown m = (m', r) -> careful_step m m'
| careful_free m m' r : psbc_free_output m = (m', r) -> careful_step m m'
| careful_compile opts c m m' r :
    compiles opts c -> c m = (m', r) ->
    (forall out, mc_out m = Some out -> buffers out = []) ->
    (forall o, opts = Some o -> legacy_geometry o = false) -> careful_step m m'.

(** What psbc_compile_impl does to a client. *)
Definition impl_like (opts : option PsbcCompileOptions) (m m' : machine) (r : PsbcResult + unit) : Prop :=
  (m' = m /\ exists e, r = inl e /\ e <> PSBC_RESULT_OK) \/
  exists host rq, psbc_compile_impl host rq opts m = (m', r).

Lemma checked_impl_like modules stage opts host rq m m' r :
  checked_pipeline modules stage opts (fun opts => psbc_compile_impl host rq (Some opts)) m = (m', r) ->
  impl_like opts m m' r.
Proof.
  unfold checked_pipeline, fail, impl_like. intros Hc.
  repeat case_match; simplify_eq; naive_solver.
Qed.

Lemma client_ok_impl_like opts m m' r : client_ok m -> impl_like opts m m' r -> client_ok m'.
Proof. intros Hm [[-> _]|(host & rq & Hc)]; [done|]. by eapply client_ok_compile. Qed.

(** Every entry point but the last is psbc_compile_impl behind argument checks. *)
Lemma compiles_impl_like opts c m m' r :
  compiles opts c -> c m = (m', r) ->
  impl_like opts m m' r \/
  exists host k kn e en g gn, c = psbc_compile_tess_geometry_pipeline host k kn e en g gn opts.
Proof.
  intros [] Hc; try (left; right; by eexists _, _; exact Hc); try (left; by eapply checked_impl_like).
  right. naive_solver.
Qed.

(** The last one clears [*out] first, and may drop the program. *)
Definition cleared (m : machine) : machine :=
  match mc_out m with Some _ => m <| mc_out := Some zero_PsbcShaderOutput |> | None => m end.

Lemma client_ok_cleared m : client_ok m -> client_ok (cleared m).
Proof.
  intros [? ? ? ?]. unfold cleared. destruct (mc_out m) eqn:E; [|done]. split; try done.
  intros out [= <-]. split; [constructor|]. simpl. set_solver.
Qed.

Lemma tess_geometry_cases host k kn e en g gn opts m m' r :
  psbc_compile_tess_geometry_pipeline host k kn e en g gn opts m = (m', r) ->
  (m' = cleared m /\ exists e, r = inl e /\ e <> PSBC_RESULT_OK) \/
  exists o rq m1 r1, opts = Some o /\ co_ngg o = true /\ is_Some (mc_out m) /\
    psbc_compile_impl host rq opts (cleared m) = (m1, r1) /\
    match r1 with inl e => m' = m1 /\ r = inl e | inr _ => require_tess_fed m1 = (m', r) end.
Proof.
  unfold psbc_compile_tess_geometry_pipeline, cleared, fail. intros Hc.
  destruct (mc_out m) as [out|] eqn:Eo; [|injection Hc as <- <-; left; naive_solver].
  destruct opts as [o|]; [|injection Hc as <- <-; left; naive_solver].
  unfold mbind, C_bind in Hc. cbn [set_out on_machine] in Hc.
  destruct (negb (given k) || negb (given e) || negb (given g));
    [injection Hc as <- <-; left; naive_solver|].
  match type of Hc with context [if ?b then _ else _] => destruct b eqn:Eg end;
    [injection Hc as <- <-; left; naive_solver|].
  destruct (not_ok (validate_spirv_capabilities k kn o)) eqn:Ev.
  { injection Hc as <- <-. left. split; [done|]. eexists. split; [done|].
    unfold not_ok in Ev. by case_bool_decide. }
  apply orb_false_iff in Eg as [[_ Eg]%orb_false_iff _]. apply negb_false_iff in Eg.
  right. exists o. match type of Hc with context [psbc_compile_impl ?h ?q ?o ?m] =>
    destruct (psbc_compile_impl h q o m) as [m1 r1] eqn:Ei end.
  exists (mk_CompileRequest g gn None e en None k kn), m1, r1. split_and!; try done.
  destruct r1 as [e1|[]]; [by injection Hc as <- <-|done].
Qed.

Lemma client_ok_require m m' r : client_ok m -> require_tess_fed m = (m', r) -> client_ok m'.
Proof.
  intros Hm. unfold require_tess_fed. destruct (mc_out m) as [out|] eqn:Eo; [|by intros [= <- _]].
  destruct (negb _); [|by intros [= <- _]]. unfold mbind, C_bind.
  destruct (psbc_free_output m) as [m1 r1] eqn:Ef. destruct (client_ok_free _ _ _ Hm Ef) as [Hm1 ->].
  by intros [= <- _].
Qed.

Lemma client_ok_compiles opts c m m' r : client_ok m -> compiles opts c -> c m = (m', r) -> client_ok m'.
Proof.
  intros Hm Hc Hr. destruct (compiles_impl_like _ _ _ _ _ Hc Hr) as [Hi|(host & k & kn & e & en & g & gn & ->)].
  { by eapply client_ok_impl_like. }
  pose proof (client_ok_cleared m Hm) as Hz.
  destruct (tess_geometry_cases _ _ _ _ _ _ _ _ _ _ _ Hr) as [[-> _]|(o & rq & m1 & r1 & _ & _ & _ & Hi & Ht)];
    [done|].
  pose proof (client_ok_compile _ _ _ _ _ _ Hz Hi) as Hm1. destruct r1 as [e1|[]].
  - by destruct Ht as [-> _].
  - by eapply client_ok_require.
Qed.


(** ** Nothing is lost *)

(** The heap without what the output structure owns. *)
Definition rest_of (m : machine) : gmap Z object :=
  match mc_out m with
  | Some out => foldl (fun h p => delete p h) (mc_heap m) (buffers out)
  | None => mc_heap m
  end.

Definition out_empty (m : machine) : Prop := forall out, mc_out m = Some out -> buffers out = [].

Lemma rest_of_empty m : out_empty m -> rest_of m = mc_heap m.
Proof. intros He. unfold rest_of. destruct (mc_out m) as [out|] eqn:E; [|done]. by rewrite (He out E). Qed.

Lemma rest_of_free m m' r :
  client_ok m -> psbc_free_output m = (m', r) ->
  mc_heap m' = rest_of m /\ rest_of m' = rest_of m /\ out_empty m'.
Proof.
  intros [_ _ _ Hok] Hc. unfold rest_of at 1 3. destruct (mc_out m) as [out|] eqn:Ho.
  - rewrite (free_output_exact m out Hok Ho) in Hc. injection Hc as <- _. split_and!; try done.
    by intros o [= <-].
  - unfold psbc_free_output in Hc. rewrite Ho in Hc. injection Hc as <- _.
    assert (out_empty m) as He by (intros o; congruence). split_and!; try done. by apply rest_of_empty.
Qed.

Lemma rest_of_impl host rq opts m m' r :
  client_ok m -> out_empty m -> (forall o, opts = Some o -> legacy_geometry o = false) ->
  psbc_compile_impl host rq opts m = (m', r) -> rest_of m' = mc_heap m.
Proof.
  intros [Hf Hwf Hi Hok] He Hl Hc. pose proof (compile_outcome host rq opts m Hwf Hi) as Ho.
  rewrite Hc in Ho. destruct r as [r|[]]; simpl in Ho.
  - destruct Ho as [_ Ho]. destruct (arguments_given rq opts m); [|subst m'; by apply rest_of_empty].
    destruct Ho as (o & rest & Eo & Hk & Hm). apply leaked_none in Hk as ->; [|by apply Hl].
    pose proof Hm as (_ & _ & _ & Hout & _). rewrite rest_of_empty; [by eapply held_nothing|].
    intros out. rewrite Hout. by intros [= <-].
  - destruct Ho as (o & Eo & rest & ? & ? & ? & ? & ? & b & bytes & d & c & Hk & _ & _ & _ & _ & _ & Hcd & Hm).
    apply leaked_none in Hk as ->; [|by apply Hl].
    pose proof (held_two_buffers _ _ _ _ _ _ _ _ Hwf Hm) as Hh.
    pose proof Hm as (_ & _ & _ & Hout & Hold & Hnew & Hlt). unfold rest_of. rewrite Hout. simpl.
    assert (forall p, p = d \/ p = c -> mc_heap m !! p = None) as Hfresh.
    { intros p Hp. destruct (mc_heap m !! p) as [y|] eqn:Ex; [|done]. apply Hwf in Ex as [Ex _].
      assert (is_Some (<[c := buffer (code_bytes b)]> (<[d := buffer bytes]> (∅ : gmap Z shape)) !! p)) as [k Hk].
      { rewrite !lookup_insert_is_Some'. naive_solver. }
      apply Hlt in Hk. lia. }
    rewrite Hh, insert_insert_ne by done. rewrite delete_insert_id.
    + rewrite delete_insert_id; [done|]. by auto.
    + rewrite lookup_insert_ne by done. by auto.
Qed.

Lemma rest_of_cleared m : out_empty m -> rest_of (cleared m) = rest_of m /\ mc_heap (cleared m) = mc_heap m /\
  out_empty (cleared m).
Proof.
  intros He. rewrite (rest_of_empty m He). unfold cleared, rest_of.
  destruct (mc_out m) as [out|] eqn:E; [|by rewrite E]. split_and!; try done. by intros o [= <-].
Qed.

Lemma rest_of_require m m' r : client_ok m -> require_tess_fed m = (m', r) -> rest_of m' = rest_of m.
Proof.
  intros Hm. unfold require_tess_fed. destruct (mc_out m) as [out|] eqn:Eo; [|by intros [= <- _]].
  destruct (negb _); [|by intros [= <- _]]. unfold mbind, C_bind.
  destruct (psbc_free_output m) as [m1 r1] eqn:Ef.
  destruct (rest_of_free _ _ _ Hm Ef) as (_ & Hr & _). destruct (client_ok_free _ _ _ Hm Ef) as [_ ->].
  by intros [= <- _].
Qed.

Lemma rest_of_compiles opts c m m' r :
  client_ok m -> compiles opts c -> c m = (m', r) -> out_empty m ->
  (forall o, opts = Some o -> legacy_geometry o = false) -> rest_of m' = rest_of m.
Proof.
  intros Hm Hc Hr He Hl. rewrite (rest_of_empty m He).
  destruct (compiles_impl_like _ _ _ _ _ Hc Hr) as [[[-> _]|(host & rq & Hi)]|(host & k & kn & e & en & g & gn & ->)].
  - by apply rest_of_empty.
  - by eapply rest_of_impl.
  - destruct (rest_of_cleared m He) as (Hz & Hh & Hze). pose proof (client_ok_cleared m Hm) as Hzm.
    rewrite (rest_of_empty m He) in Hz.
    destruct (tess_geometry_cases _ _ _ _ _ _ _ _ _ _ _ Hr) as [[-> _]|(o & rq & m1 & r1 & _ & _ & _ & Hi & Ht)];
      [done|].
    pose proof (rest_of_impl _ _ _ _ _ _ Hzm Hze Hl Hi) as H1r.
    pose proof (client_ok_compile _ _ _ _ _ _ Hzm Hi) as Hm1. destruct r1 as [e1|[]].
    + destruct Ht as [-> _]. congruence.
    + rewrite (rest_of_require _ _ _ Hm1 Ht). congruence.
Qed.

Lemma careful_keeps m m' : client_ok m -> careful_step m m' -> client_ok m' /\ rest_of m' = rest_of m.
Proof.
  intros Hm Hs. revert Hm.
  destruct Hs as [m m' r Hc|m m' r Hc|m m' r Hc|opts c m m' r Hc Hr He Hl]; intros Hm.
  - injection Hc as <- _. destruct Hm. split; [|done]. split; try done. by apply init_wf_init.
  - injection Hc as <- _. destruct Hm. split; [|done]. split; try done. by apply init_wf_shutdown.
  - split; [by destruct (client_ok_free _ _ _ Hm Hc)|]. by destruct (rest_of_free _ _ _ Hm Hc) as (_ & ? & _).
  - split; [by eapply client_ok_compiles|]. by eapply rest_of_compiles.
Qed.


Lemma impl_error host rq opts m m' e :
  client_ok m -> (forall o, opts = Some o -> legacy_geometry o = false) ->
  psbc_compile_impl host rq opts m = (m', inl e) ->
  e <> PSBC_RESULT_OK /\ mc_heap m' = mc_heap m /\
  (mc_out m' = mc_out m \/ mc_out m' = Some zero_PsbcShaderOutput).
Proof.
  intros [_ Hwf Hi _] Hl Hc. pose proof (compile_outcome host rq opts m Hwf Hi) as Ho.
  rewrite Hc in Ho. destruct Ho as [He Ho]. split; [done|].
  destruct (arguments_given rq opts m); [|subst m'; auto].
  destruct Ho as (o & rest & Eo & Hk & Hm). apply leaked_none in Hk as ->; [|by apply Hl].
  pose proof Hm as (_ & _ & _ & Hout & _). split; [by eapply held_nothing|auto].
Qed.

Lemma free_clears m m' r :
  client_ok m -> is_Some (mc_out m) -> psbc_free_output m = (m', r) ->
  mc_out m' = Some zero_PsbcShaderOutput.
Proof.
  intros [_ _ _ Hok] [out Ho]. rewrite (free_output_exact m out Hok Ho). by intros [= <- _].
Qed.

Lemma impl_finished_out host rq opts m m' :
  client_ok m -> psbc_compile_impl host rq opts m = (m', inr tt) -> is_Some (mc_out m').
Proof.
  intros [_ Hwf Hi _] Hc. pose proof (compile_outcome host rq opts m Hwf Hi) as Ho.
  rewrite Hc in Ho. destruct Ho as (o & _ & ? & ? & ? & ? & ? & ? & b & bytes & d & c & _ & _ & _ & _ & _ & _ & _ & Hm).
  destruct Hm as (_ & _ & _ & -> & _). by eexists.
Qed.

(** C13: a TES-fed geometry program is returned only with the metadata its launch
    needs - a merged program whose first half is an evaluation shader, with the ring
    table placed; any other outcome is an error, and then the output structure is
    cleared and nothing stays allocated. *)
Theorem tess_geometry_pipeline_correct host k kn e en g gn opts m m' r :
  client_ok m -> out_empty m ->
  psbc_compile_tess_geometry_pipeline host k kn e en g gn opts m = (m', r) ->
  match r with
  | inr _ => exists out, mc_out m' = Some out /\ tess_fed (out_metadata out) = true
  | inl error => error <> PSBC_RESULT_OK /\ mc_heap m' = mc_heap m /\ mc_out m' = mc_out (cleared m)
  end.
Proof.
  intros Hm He Hr. destruct (rest_of_cleared m He) as (_ & Hh & Hze).
  pose proof (client_ok_cleared m Hm) as Hzm.
  destruct (tess_geometry_cases _ _ _ _ _ _ _ _ _ _ _ Hr)
    as [[-> (error & -> & ?)]|(o & rq & m1 & r1 & -> & Hn & [out0 Ho] & Hi & Ht)]; [done|].
  assert (mc_out (cleared m) = Some zero_PsbcShaderOutput) as Hzo by (unfold cleared; by rewrite Ho).
  assert (forall o', Some o = Some o' -> legacy_geometry o' = false) as Hl.
  { intros o' [= <-]. unfold legacy_geometry. by rewrite Hn, andb_false_r. }
  destruct r1 as [e1|[]].
  { destruct Ht as [-> ->]. destruct (impl_error _ _ _ _ _ _ Hzm Hl Hi) as (He1 & Hh1 & Ho1).
    split_and!; [done|congruence|]. destruct Ho1; congruence. }
  pose proof (rest_of_impl _ _ _ _ _ _ Hzm Hze Hl Hi) as Hr1.
  pose proof (client_ok_compile _ _ _ _ _ _ Hzm Hi) as Hm1.
  destruct (impl_finished_out _ _ _ _ _ Hzm Hi) as [out Hout].
  unfold require_tess_fed in Ht. rewrite Hout in Ht.
  destruct (tess_fed (out_metadata out)) eqn:Ef; simpl in Ht; [injection Ht as <- <-; eauto|].
  unfold mbind, C_bind in Ht. destruct (psbc_free_output m1) as [m2 r2] eqn:E2.
  destruct (client_ok_free _ _ _ Hm1 E2) as [_ ->]. injection Ht as <- <-.
  destruct (rest_of_free _ _ _ Hm1 E2) as (Hh2 & _). split_and!; [done|congruence|].
  rewrite Hzo. eapply free_clears; [exact Hm1|by eexists|exact E2].
Qed.
End client.

(** ** On the sample host *)

Import Sample.

Lemma sample_client : client_ok sample_machine.
Proof.
  split; [done|apply sample_wf|apply sample_init|]. intros out [= <-]. split; [constructor|].
  intros p Hp. by apply not_elem_of_nil in Hp.
Qed.

Definition compute_call : C unit :=
  psbc_compile_shader sample_host (Some sample_module) 28
    (Some (sample_options PSBC_TARGET_PS5 PSBC_STAGE_COMPUTE)).

Definition after (c : C unit) (m : machine) : machine := (c m).1.

Lemma after_compile m : client_step m (after compute_call m).
Proof.
  apply (step_compile (Some (sample_options PSBC_TARGET_PS5 PSBC_STAGE_COMPUTE)) compute_call m _
    (compute_call m).2); [constructor|exact (surjective_pairing _)].
Qed.

Lemma after_free m : client_step m (after psbc_free_output m).
Proof. apply (step_free m _ (psbc_free_output m).2). exact (surjective_pairing _). Qed.



(** The sample program places no ring table, so the tessellated geometry pipeline
    refuses it and releases it. *)
Definition tess_geometry_options : PsbcCompileOptions :=
  sample_options PSBC_TARGET_PS5 PSBC_STAGE_GEOMETRY <| co_ngg := true |> <| co_patch_control_points := 3 |>.

Definition tess_geometry_call : C unit :=
  psbc_compile_tess_geometry_pipeline sample_host (Some sample_module) 28 (Some sample_module) 28
    (Some sample_module) 28 (Some tess_geometry_options).

Lemma tess_geometry_pipeline_witness :
  (tess_geometry_call sample_machine).2 = inl PSBC_RESULT_INTERNAL_ERROR /\
  mc_heap (tess_geometry_call sample_machine).1 = ∅.
Proof.
  destruct (tess_geometry_call sample_machine) as [m' r] eqn:E.
  assert (r = inl PSBC_RESULT_INTERNAL_ERROR) as ->.
  { change r with ((m', r).2). rewrite <-E. vm_compute. reflexivity. }
  pose proof (tess_geometry_pipeline_correct sample_host (Some sample_module) 28 (Some sample_module) 28
    (Some sample_module) 28 (Some tess_geometry_options) sample_machine m' (inl PSBC_RESULT_INTERNAL_ERROR) sample_client) as Ht.
  destruct Ht as (_ & Hh & _); [by intros out [= <-]|exact E|]. split; [reflexivity|exact Hh].
Defined.


(** ** The combined resource registers *)

Lemma testbit_field_C lo hi i :
  0 <= lo <= hi -> hi < 32 -> 0 <= i ->
  Z.testbit (field_C lo hi) i = (i <? 32) && negb ((lo <=? i) && (i <=? hi)).
Proof.
  intros Hl Hh Hi. unfold field_C. change 0xffffffff with (Z.ones 32).
  replace (field_mask lo hi ≪ lo) with (field_S lo hi (-1)) by (unfold field_S; by rewrite Z.land_m1_l).
  rewrite Z.lxor_spec, Z.testbit_ones_nonneg, testbit_field_S by lia.
  destruct (Z.leb_spec lo i); cbn [andb negb]; [|bcases]. rewrite Z.bits_m1 by lia. bcases.
Qed.

(** Raising a field changes no bit outside it and makes it the larger of the two. *)
Lemma raise_bits lo hi tcs rsrc i :
  0 <= lo <= hi -> hi < 32 -> in_width 32 rsrc -> 0 <= i ->
  Z.testbit (raise_field (field_G lo hi) (field_C lo hi) tcs rsrc) i =
    if (lo <=? i) && (i <=? hi) && (field_G lo hi tcs >? field_G lo hi rsrc) then Z.testbit tcs i else Z.testbit rsrc i.
Proof.
  intros Hl Hh Hw Hi. unfold raise_field. destruct (field_G lo hi tcs >? field_G lo hi rsrc);
    [|by rewrite andb_false_r]. rewrite andb_true_r.
  rewrite Z.lor_spec, !Z.land_spec, testbit_not_w, testbit_field_C by lia.
  destruct (Z.ltb_spec i 32); [|rewrite (testbit_high 32 rsrc) by done; bcases]. bcases.
Qed.

Lemma raise_field_max lo hi tcs rsrc :
  0 <= lo <= hi -> hi < 32 -> in_width 32 rsrc ->
  field_G lo hi (raise_field (field_G lo hi) (field_C lo hi) tcs rsrc) = Z.max (field_G lo hi tcs) (field_G lo hi rsrc).
Proof.
  intros Hl Hh Hw. destruct (Z.gtb_spec (field_G lo hi tcs) (field_G lo hi rsrc)) as [Hg|Hg].
  - rewrite Z.max_l by lia. bitwise. rewrite raise_bits by (done || lia).
    destruct (Z.gtb_spec (field_G lo hi tcs) (field_G lo hi rsrc)); [|lia]. bcases.
  - rewrite Z.max_r by lia. unfold raise_field.
    destruct (Z.gtb_spec (field_G lo hi tcs) (field_G lo hi rsrc)); [lia|done].
Qed.

Lemma raise_field_other lo hi lo' hi' tcs rsrc :
  0 <= lo <= hi -> hi < 32 -> 0 <= lo' <= hi' -> hi < lo' \/ hi' < lo -> in_width 32 rsrc ->
  field_G lo' hi' (raise_field (field_G lo hi) (field_C lo hi) tcs rsrc) = field_G lo' hi' rsrc.
Proof.
  intros Hl Hh Hl' Hd Hw. bitwise. rewrite raise_bits by (done || lia).
  destruct (Z.leb_spec i (hi' - lo')); [|done]. destruct (Z.leb_spec lo (i + lo')), (Z.leb_spec (i + lo') hi); (done || lia).
Qed.

Lemma raise_width lo hi tcs rsrc :
  0 <= lo <= hi -> in_width 32 tcs -> in_width 32 rsrc ->
  in_width 32 (raise_field (field_G lo hi) (field_C lo hi) tcs rsrc).
Proof.
  intros Hl Ht Hr. unfold raise_field. destruct (_ >? _); [|done].
  assert (0 <= field_C lo hi).
  { unfold field_C, field_mask. apply Z.lxor_nonneg. split; intros _; [|lia].
    apply Z.shiftl_nonneg. rewrite Z.ones_equiv. pose proof (pow2_pos (hi - lo + 1) ltac:(lia)). lia. }
  pose proof (in_width_not 32 (field_C lo hi) ltac:(lia)) as [? _].
  apply in_width_lor; by apply in_width_land.
Qed.

(** The combined hull configuration takes the larger of the two halves for the
    vector registers, the scalar registers and the vertex component count, and every
    other bit from the vertex half - except that it keeps the scratch enable of
    either half. *)
Theorem combine_vs_tcs_config_fields vs1 vs2 tcs1 tcs2 :
  in_width 32 vs1 -> in_width 32 tcs1 ->
  let '(rsrc1, rsrc2) := combine_vs_tcs_config vs1 vs2 tcs1 tcs2 in
  G_00B848_VGPRS rsrc1 = Z.max (G_00B848_VGPRS tcs1) (G_00B848_VGPRS vs1) /\
  G_00B228_SGPRS rsrc1 = Z.max (G_00B228_SGPRS tcs1) (G_00B228_SGPRS vs1) /\
  G_00B428_LS_VGPR_COMP_CNT rsrc1 = Z.max (G_00B428_LS_VGPR_COMP_CNT tcs1) (G_00B428_LS_VGPR_COMP_CNT vs1) /\
  (forall i, 10 <= i -> i < 28 \/ 29 < i -> Z.testbit rsrc1 i = Z.testbit vs1 i) /\
  (forall i, 0 <= i -> Z.testbit rsrc2 i = Z.testbit vs2 i || (i =? 0) && Z.testbit tcs2 0).
Proof.
  intros Hv Ht. unfold combine_vs_tcs_config, G_00B848_VGPRS, G_00B228_SGPRS, G_00B428_LS_VGPR_COMP_CNT,
    C_00B848_VGPRS, C_00B228_SGPRS, C_00B428_LS_VGPR_COMP_CNT, C_00B12C_SCRATCH_EN.
  set (r1 := raise_field (field_G 0 5) (field_C 0 5) tcs1 vs1).
  assert (in_width 32 r1) as H1 by (apply raise_width; (done || lia)).
  set (r2 := raise_field (field_G 6 9) (field_C 6 9) tcs1 r1).
  assert (in_width 32 r2) as H2 by (apply raise_width; (done || lia)). split_and!.
  - rewrite raise_field_other by (done || lia). subst r2. rewrite raise_field_other by (done || lia).
    apply raise_field_max; (done || lia).
  - rewrite raise_field_other by (done || lia). subst r2. rewrite raise_field_max by (done || lia). f_equal.
    apply raise_field_other; (done || lia).
  - rewrite raise_field_max by (done || lia). f_equal. subst r2. rewrite raise_field_other by (done || lia).
    apply raise_field_other; (done || lia).
  - intros i Hi Hd. rewrite raise_bits by (done || lia). subst r2. rewrite raise_bits by (done || lia). subst r1.
    rewrite raise_bits by (done || lia).
    destruct (Z.leb_spec 28 i), (Z.leb_spec i 29), (Z.leb_spec i 9), (Z.leb_spec i 5); try lia; cbn [andb];
      by rewrite ?andb_false_r.
  - intros i Hi. rewrite Z.lor_spec, Z.land_spec, testbit_not_w, testbit_field_C by lia. f_equal.
    destruct (Z.eqb_spec i 0) as [->|]; [by rewrite andb_true_r|]. bcases.
Qed.

Lemma combine_vs_tcs_config_witness :
  combine_vs_tcs_config 0x10000085 0 0x000000c3 1 = (0x100000c5, 1).
Proof.
  pose proof (combine_vs_tcs_config_fields 0x10000085 0 0x000000c3 1 ltac:(by vm_compute) ltac:(by vm_compute)) as H.
  destruct H as (_ & _ & _ & _ & H). vm_compute. reflexivity.
Defined.

End Api.
