(* ===== verification/Scan.v ===== *)
(** * Numbers and words as the C library scans and prints them

    strtoul, the conversions of sscanf the command line uses, and %u of printf, with
    the fact that what is printed is read back. *)

From Stdlib Require Import String Ascii.
From S2P Require Import Prelude Types Mesa Nir ShaderUtil Validate.

Module Scan.
Import Validate.

(** ** Scanning numbers (strtoul, and %u of sscanf) *)

Definition ULONG_MAX : Z := 2 ^ 64 - 1.

Definition code (c : ascii) : Z := Z.of_nat (nat_of_ascii c).

Definition is_space (c : ascii) : bool := ((9 <=? code c) && (code c <=? 13)) || (code c =? 32).

Definition digit (c : ascii) : option Z :=
  if (48 <=? code c) && (code c <=? 57) then Some (code c - 48)
  else if (97 <=? code c) && (code c <=? 122) then Some (code c - 97 + 10)
  else if (65 <=? code c) && (code c <=? 90) then Some (code c - 65 + 10)
  else None.

Definition digit_in (base : Z) (c : ascii) : option Z :=
  d ← digit c; if d <? base then Some d else None.

Fixpoint skip_spaces (s : string) : string :=
  match s with String c s' => if is_space c then skip_spaces s' else s | EmptyString => s end.

(** The longest prefix of digits and what follows it. *)
Fixpoint read_digits (base acc : Z) (s : string) : Z * string :=
  match s with
  | String c s' => match digit_in base c with Some d => read_digits base (acc * base + d) s' | None => (acc, s) end
  | EmptyString => (acc, s)
  end.

Definition starts_with_digit (base : Z) (s : string) : bool :=
  match s with String c _ => given (digit_in base c) | EmptyString => false end.

(** The sign and the rest. *)
Definition read_sign (s : string) : bool * string :=
  match s with
  | String c s' => if (c =? "-")%char then (true, s') else if (c =? "+")%char then (false, s') else (false, s)
  | EmptyString => (false, s)
  end.

(** Base 0: the prefix decides, and a 0x without a digit is the number 0. *)
Definition read_base (s : string) : Z * string :=
  match s with
  | String z (String x s') =>
      if (z =? "0")%char then
        if ((x =? "x")%char || (x =? "X")%char) && starts_with_digit 16 s' then (16, s') else (8, s)
      else (10, s)
  | String z EmptyString => (if (z =? "0")%char then 8 else 10, s)
  | EmptyString => (10, s)
  end.

(** The value and the rest, [None] when there is no number. *)
Definition strtoul (base : Z) (s : string) : option (Z * string) :=
  let '(negative, s) := read_sign (skip_spaces s) in
  let '(base, s) := if base =? 0 then read_base s else (base, s) in
  if starts_with_digit base s then
    let '(value, rest) := read_digits base 0 s in
    Some (if value >? ULONG_MAX then ULONG_MAX else if negative then (- value) mod 2 ^ 64 else value, rest)
  else None.

(** ** sscanf with the conversions the tool uses *)

Inductive conversion : Type :=
| conv_u                    (* %u *)
| conv_word                 (* %31[^:] *)
| conv_colon.               (* the literal : *)

Inductive scanned : Type := scanned_u (value : Z) | scanned_word (word : string).

Fixpoint read_word (limit : nat) (s : string) : string * string :=
  match limit, s with
  | S limit, String c s' =>
      if (c =? ":")%char then (EmptyString, s)
      else let '(word, rest) := read_word limit s' in (String c word, rest)
  | _, _ => (EmptyString, s)
  end.

(** The assigned values, up to the first conversion that fails.  C leaves a number
    that does not fit undefined; the low 32 bits are what glibc stores. *)
Fixpoint sscanf (s : string) (format : list conversion) : list scanned :=
  match format with
  | [] => []
  | conv_u :: format =>
      match strtoul 10 s with Some (v, s) => scanned_u (u32 v) :: sscanf s format | None => [] end
  | conv_word :: format =>
      match read_word 31 s with
      | (EmptyString, _) => []
      | (word, s) => scanned_word word :: sscanf s format
      end
  | conv_colon :: format =>
      match s with
      | String c s => if (c =? ":")%char then sscanf s format else []
      | EmptyString => []
      end
  end.

(** ** Printing numbers (%u of printf) *)

Definition digit_char (d : Z) : ascii := ascii_of_nat (Z.to_nat (48 + d)).

(** The decimal digits of [n] in front of [s]; [fuel] + 1 digits are enough for
    [n] < 10 ^ (fuel + 1). *)
Fixpoint print_digits (fuel : nat) (n : Z) (s : string) : string :=
  let s := String (digit_char (n mod 10)) s in
  match fuel with
  | O => s
  | S fuel => if n <? 10 then s else print_digits fuel (n / 10) s
  end.

(** Nineteen and one digits cover 64 bits. *)
Definition print_u (n : Z) : string := print_digits 19 n EmptyString.

(** ** Numbers are read back *)

Lemma code_digit_char d : 0 <= d < 10 -> code (digit_char d) = 48 + d.
Proof.
  intros Hd. unfold code, digit_char. rewrite nat_ascii_embedding by lia. lia.
Qed.

Lemma digit_in_char d : 0 <= d < 10 -> digit_in 10 (digit_char d) = Some d.
Proof.
  intros Hd. unfold digit_in, digit. rewrite code_digit_char by done.
  destruct (Z.leb_spec 48 (48 + d)); [|lia]. destruct (Z.leb_spec (48 + d) 57); [|lia]. simpl.
  destruct (Z.ltb_spec (48 + d - 48) 10); [|lia]. f_equal. lia.
Qed.

(** Reading what was printed continues with the text behind it. *)
Lemma read_print_digits fuel n s :
  0 <= n < 10 ^ (Z.of_nat fuel + 1) ->
  exists k, 0 <= k /\ forall a, read_digits 10 a (print_digits fuel n s) = read_digits 10 (a * 10 ^ k + n) s.
Proof.
  assert (forall n, 0 <= n -> 0 <= n mod 10 < 10) as Hm by (intros; apply Z.mod_pos_bound; lia).
  revert n s. induction fuel as [|fuel IH]; intros n s Hn; simpl.
  - exists 1. split; [lia|]. intros a. change (10 ^ (Z.of_nat 0 + 1)) with 10 in Hn.
    rewrite digit_in_char by (apply Hm; lia). rewrite Z.mod_small by lia. done.
  - assert (Z.of_nat (S fuel) + 1 = Z.succ (Z.of_nat fuel + 1)) as E by lia.
    rewrite E, Z.pow_succ_r in Hn by lia.
    destruct (Z.ltb_spec n 10) as [Hlt|Hge].
    + exists 1. split; [lia|]. intros a. simpl. rewrite digit_in_char by (apply Hm; lia).
      rewrite Z.mod_small by lia. done.
    + destruct (IH (n / 10) (String (digit_char (n mod 10)) s)) as (k & Hk & IHk).
      { split; [apply Z.div_pos; lia|]. apply Z.div_lt_upper_bound; lia. }
      exists (k + 1). split; [lia|]. intros a. rewrite IHk. simpl. rewrite digit_in_char by (apply Hm; lia).
      rewrite Z.pow_add_r by lia. f_equal. rewrite (Z.div_mod n 10) at 3 by lia. lia.
Qed.

Lemma print_digits_app fuel n s t : (print_digits fuel n s ++ t)%string = print_digits fuel n (s ++ t).
Proof.
  revert n s. induction fuel as [|fuel IH]; intros n s; simpl; [done|]. by destruct (n <? 10).
Qed.

(** The first character is a digit. *)
Lemma print_digits_head fuel n s :
  0 <= n -> exists d s', 0 <= d < 10 /\ print_digits fuel n s = String (digit_char d) s'.
Proof.
  revert n s. induction fuel as [|fuel IH]; intros n s Hn; simpl.
  - exists (n mod 10), s. split; [apply Z.mod_pos_bound; lia|done].
  - destruct (n <? 10); [exists (n mod 10), s; split; [apply Z.mod_pos_bound; lia|done]|].
    apply IH. apply Z.div_pos; lia.
Qed.

Definition no_digit (s : string) : Prop := starts_with_digit 10 s = false.

Lemma read_digits_stop a s : no_digit s -> read_digits 10 a s = (a, s).
Proof. destruct s as [|c s]; [done|]. unfold no_digit, starts_with_digit. simpl. by destruct (digit_in 10 c). Qed.

Lemma digit_char_plain d :
  0 <= d < 10 ->
  is_space (digit_char d) = false /\ (digit_char d =? "-")%char = false /\ (digit_char d =? "+")%char = false.
Proof.
  intros Hd. assert (d ∈ seqZ 0 10) as Hin by (apply elem_of_seqZ; lia). clear Hd. revert d Hin.
  apply Forall_forall. repeat (constructor; [vm_compute; done|]). constructor.
Qed.

Lemma strtoul_print n rest :
  0 <= n <= ULONG_MAX -> no_digit rest -> strtoul 10 (print_u n ++ rest) = Some (n, rest).
Proof.
  intros Hn Hr. unfold print_u. rewrite print_digits_app. change (EmptyString ++ rest)%string with rest.
  destruct (read_print_digits 19 n rest) as (k & Hk & Hread); [unfold ULONG_MAX in Hn; lia|].
  specialize (Hread 0).
  destruct (print_digits_head 19 n rest) as (d & s & Hd & Hs); [lia|].
  destruct (digit_char_plain d Hd) as (Hsp & Hneg & Hpos).
  rewrite Hs in *. unfold strtoul. cbn [skip_spaces]. rewrite Hsp. unfold read_sign. rewrite Hneg, Hpos.
  change (10 =? 0) with false. cbv beta iota.
  unfold starts_with_digit. rewrite digit_in_char by done. simpl given. cbv iota.
  rewrite Hread, read_digits_stop by done.
  replace (0 * 10 ^ k + n) with n by lia. destruct (Z.gtb_spec n ULONG_MAX); [lia|done].
Qed.

(** ** Scanning printed text *)

Lemma scan_u n rest format :
  0 <= n < 2 ^ 32 -> no_digit rest ->
  sscanf (print_u n ++ rest) (conv_u :: format) = scanned_u n :: sscanf rest format.
Proof.
  intros Hn Hr. cbn [sscanf]. rewrite strtoul_print by (done || unfold ULONG_MAX; lia).
  unfold u32, wrap. by rewrite Z.mod_small by lia.
Qed.

Lemma scan_last n : 0 <= n < 2 ^ 32 -> sscanf (print_u n) [conv_u] = [scanned_u n].
Proof.
  intros Hn. change [scanned_u n] with (scanned_u n :: sscanf EmptyString []).
  rewrite <-(scan_u n EmptyString []) by done. f_equal. unfold print_u. by rewrite print_digits_app.
Qed.

Lemma scan_colon s format : sscanf (":" ++ s) (conv_colon :: format) = sscanf s format.
Proof. done. Qed.

Fixpoint plain_word (s : string) : bool :=
  match s with String c s => negb (c =? ":")%char && plain_word s | EmptyString => true end.

Lemma read_word_plain w limit rest :
  plain_word w = true -> (String.length w <= limit)%nat ->
  read_word limit (w ++ String ":" rest) = (w, String ":" rest).
Proof.
  revert limit. induction w as [|c w IH]; intros limit Hw Hl.
  - by destruct limit.
  - destruct limit as [|limit]; [simpl in Hl; lia|]. simpl in *.
    apply andb_prop in Hw as [Hc Hw]. apply negb_true_iff in Hc. rewrite Hc.
    rewrite IH by (done || lia). done.
Qed.

(** A name the formats accept: one to 31 characters, no colon. *)
Definition name_ok (w : string) : bool :=
  plain_word w && (String.length w <=? 31)%nat && negb (w =? EmptyString)%string.

Lemma scan_word w rest format :
  name_ok w = true ->
  sscanf (w ++ ":" ++ rest) (conv_word :: format) = scanned_word w :: sscanf (":" ++ rest) format.
Proof.
  intros [[Hp Hl]%andb_prop He]%andb_prop. change (":" ++ rest)%string with (String ":" rest).
  cbn [sscanf].
  rewrite read_word_plain by (done || by apply Nat.leb_le). by destruct w.
Qed.

Lemma print_digits_nonzero fuel n s :
  0 < n < 10 ^ (Z.of_nat fuel + 1) ->
  exists d s', 0 < d < 10 /\ print_digits fuel n s = String (digit_char d) s'.
Proof.
  revert n s. induction fuel as [|fuel IH]; intros n s Hn; simpl.
  - change (10 ^ (Z.of_nat 0 + 1)) with 10 in Hn. exists n, s. rewrite Z.mod_small by lia. split; [lia|done].
  - assert (Z.of_nat (S fuel) + 1 = Z.succ (Z.of_nat fuel + 1)) as E by lia.
    rewrite E, Z.pow_succ_r in Hn by lia. destruct (Z.ltb_spec n 10).
    + exists n, s. rewrite Z.mod_small by lia. split; [lia|done].
    + apply IH. split; [apply Z.div_str_pos; lia|]. apply Z.div_lt_upper_bound; lia.
Qed.

Lemma digit_char_zero d : 0 < d < 10 -> (digit_char d =? "0")%char = false.
Proof.
  intros Hd. assert (d ∈ seqZ 1 9) as Hin by (apply elem_of_seqZ; lia). clear Hd. revert d Hin.
  apply Forall_forall. repeat (constructor; [vm_compute; done|]). constructor.
Qed.

(** A decimal number is decimal in base 0, too. *)
Lemma strtoul_zero n : 0 <= n <= ULONG_MAX -> strtoul 0 (print_u n) = Some (n, EmptyString).
Proof.
  intros Hn. destruct (decide (n = 0)) as [->|Hne]; [done|].
  assert (strtoul 10 (print_u n) = Some (n, EmptyString)) as <-.
  { rewrite <-(strtoul_print n EmptyString) by done. f_equal. unfold print_u. by rewrite print_digits_app. }
  unfold strtoul, print_u, ULONG_MAX in *.
  destruct (print_digits_nonzero 19 n EmptyString) as (d & s' & Hd & E); [lia|].
  destruct (digit_char_plain d ltac:(lia)) as (Hsp & Hneg & Hpos). rewrite E. cbn [skip_spaces]. rewrite Hsp.
  unfold read_sign. rewrite Hneg, Hpos. change (0 =? 0) with true. change (10 =? 0) with false. cbv beta iota.
  unfold read_base. rewrite digit_char_zero by done. by destruct s'.
Qed.

(** Scanned numbers are 32-bit. *)
Lemma sscanf_range s format n : scanned_u n ∈ sscanf s format -> 0 <= n < 2 ^ 32.
Proof.
  revert s. induction format as [|c format IH]; intros s; cbn [sscanf]; [by intros ?%not_elem_of_nil|].
  destruct c.
  - destruct (strtoul 10 s) as [[v s']|]; [|by intros ?%not_elem_of_nil].
    intros [[= ->]|Hn]%elem_of_cons; [|by eapply IH]. unfold u32, wrap. apply Z.mod_pos_bound. lia.
  - destruct (read_word 31 s) as [[|ch w] s']; [by intros ?%not_elem_of_nil|].
    intros [[=]|Hn]%elem_of_cons. by eapply IH.
  - destruct s as [|ch s]; [by intros ?%not_elem_of_nil|].
    destruct (ch =? ":")%char; [|by intros ?%not_elem_of_nil]. apply IH.
Qed.

Definition u32_ok (n : Z) : Prop := 0 <= n < 2 ^ 32.

Lemma digit_in_nonneg base c d : digit_in base c = Some d -> 0 <= d.
Proof.
  unfold digit_in. destruct (digit c) as [e|] eqn:E; [|done]. simpl.
  destruct (e <? base); [|done]. intros [= <-]. unfold digit in E.
  repeat case_match; simplify_eq; lia.
Qed.

Lemma read_digits_nonneg base s a : 0 <= base -> 0 <= a -> 0 <= (read_digits base a s).1.
Proof.
  intros Hb. revert a. induction s as [|c s IH]; intros a Ha; simpl; [done|].
  destruct (digit_in base c) as [d|] eqn:E; [|done]. apply digit_in_nonneg in E. apply IH. nia.
Qed.

Lemma strtoul_nonneg base s v rest : 0 <= base -> strtoul base s = Some (v, rest) -> 0 <= v.
Proof.
  intros Hb. unfold strtoul. destruct (read_sign _) as [neg s1].
  destruct (if base =? 0 then read_base s1 else (base, s1)) as [b s2] eqn:E.
  assert (0 <= b) as Hb'.
  { destruct (base =? 0); [|by injection E as <- <-]. unfold read_base in E.
    repeat case_match; injection E as <- <-; lia. }
  destruct (starts_with_digit b s2); [|done].
  pose proof (read_digits_nonneg b s2 0 Hb' (Z.le_refl 0)) as Hn. destruct (read_digits b 0 s2) as [n s3]. simpl in Hn.
  intros [= <- <-]. destruct (n >? ULONG_MAX); [by unfold ULONG_MAX|].
  destruct neg; [apply Z.mod_pos_bound; lia|done].
Qed.

End Scan.
