(* ===== verification/Json.v ===== *)
(** * A reader for the JSON files of the tool

    The part of JSON the metadata file uses - null, booleans, unsigned numbers,
    arrays and objects - as an executable reader, and the lemmas that run it over a
    text in pieces.  The reader is a reference definition: the theorems about the
    file are that this reader finds the metadata in it. *)

From Stdlib Require Import String Ascii.
From S2P Require Import Prelude Types Mesa Nir ShaderUtil Validate Scan.

Module Json.
Import Scan.
Local Open Scope string_scope.
#[local] Set Warnings "-register-all".
#[local] Arguments String.append !_ _ : simpl nomatch.

Inductive json : Type :=
| jnull
| jbool (b : bool)
| jnum (n : Z)
| jarr (items : list json)
| jobj (members : list (string * json)).

Definition quote : ascii := "034"%char.
Definition newline : string := String "010"%char EmptyString.

Definition is_ws (c : ascii) : bool :=
  ((code c =? 32) || (code c =? 10) || (code c =? 9) || (code c =? 13))%Z.

Fixpoint skip_ws (s : string) : string :=
  match s with String c t => if is_ws c then skip_ws t else s | EmptyString => s end.

(** The text behind [word]. *)
Fixpoint after_word (word s : string) : option string :=
  match word, s with
  | EmptyString, _ => Some s
  | String c word, String d s => if (c =? d)%char then after_word word s else None
  | _, EmptyString => None
  end.

(** Up to the closing quote; the files have no escapes. *)
Fixpoint read_name (s : string) : option (string * string) :=
  match s with
  | EmptyString => None
  | String c s =>
      if (c =? quote)%char then Some (EmptyString, s)
      else '(name, rest) ← read_name s; Some (String c name, rest)
  end.

(** The next character that is not white space. *)
Definition next (s : string) : option (ascii * string) :=
  match skip_ws s with String c s => Some (c, s) | EmptyString => None end.

(** Every call reads at least one character, so the length of the text is fuel
    enough. *)
Fixpoint read_value (fuel : nat) (s : string) : option (json * string) :=
  match fuel with
  | O => None
  | S fuel =>
      '(c, t) ← next s;
      if (c =? "{")%char then
        '(d, u) ← next t;
        if (d =? "}")%char then Some (jobj [], u)
        else '(members, rest) ← read_members fuel t; Some (jobj members, rest)
      else if (c =? "[")%char then
        '(d, u) ← next t;
        if (d =? "]")%char then Some (jarr [], u)
        else '(items, rest) ← read_items fuel t; Some (jarr items, rest)
      else if starts_with_digit 10 (String c t) then
        let '(n, rest) := read_digits 10 0 (String c t) in Some (jnum n, rest)
      else
        match after_word "null" (String c t), after_word "true" (String c t), after_word "false" (String c t) with
        | Some rest, _, _ => Some (jnull, rest)
        | _, Some rest, _ => Some (jbool true, rest)
        | _, _, Some rest => Some (jbool false, rest)
        | _, _, _ => None
        end
  end
with read_items (fuel : nat) (s : string) : option (list json * string) :=
  match fuel with
  | O => None
  | S fuel =>
      '(v, t) ← read_value fuel s;
      '(c, t) ← next t;
      if (c =? ",")%char then '(items, rest) ← read_items fuel t; Some (v :: items, rest)
      else if (c =? "]")%char then Some ([v], t) else None
  end
with read_members (fuel : nat) (s : string) : option (list (string * json) * string) :=
  match fuel with
  | O => None
  | S fuel =>
      '(c, t) ← next s;
      if (c =? quote)%char then
        '(name, t) ← read_name t;
        '(c, t) ← next t;
        if (c =? ":")%char then
          '(v, t) ← read_value fuel t;
          '(c, t) ← next t;
          if (c =? ",")%char then '(members, rest) ← read_members fuel t; Some ((name, v) :: members, rest)
          else if (c =? "}")%char then Some ([(name, v)], t) else None
        else None
      else None
  end.

(** ** White space and names *)

Fixpoint blank (s : string) : bool :=
  match s with String c s => is_ws c && blank s | EmptyString => true end.

Lemma append_assoc (a b c : string) : (a ++ b) ++ c = a ++ b ++ c.
Proof. induction a as [|x a IH]; simpl; [done|]. by rewrite IH. Qed.

Lemma append_nil (a : string) : a ++ EmptyString = a.
Proof. induction a as [|x a IH]; simpl; [done|]. by rewrite IH. Qed.

Lemma skip_ws_blank w s : blank w = true -> skip_ws (w ++ s) = skip_ws s.
Proof.
  induction w as [|c w IH]; simpl; [done|]. intros [Hc Hw]%andb_prop. rewrite Hc. by apply IH.
Qed.

Lemma next_blank w s : blank w = true -> next (w ++ s) = next s.
Proof. intros Hw. unfold next. by rewrite skip_ws_blank. Qed.

Lemma read_value_blank fuel w s : blank w = true -> read_value fuel (w ++ s) = read_value fuel s.
Proof. intros Hw. destruct fuel as [|fuel]; [done|]. cbn [read_value]. by rewrite next_blank. Qed.

Lemma read_items_blank fuel w s : blank w = true -> read_items fuel (w ++ s) = read_items fuel s.
Proof. intros Hw. destruct fuel as [|fuel]; [done|]. cbn [read_items]. by rewrite read_value_blank. Qed.

Fixpoint unquoted (s : string) : bool :=
  match s with String c s => negb (c =? quote)%char && unquoted s | EmptyString => true end.

Definition quoted (s : string) : string := String quote (s ++ String quote EmptyString).

Lemma read_name_quoted k s : unquoted k = true -> read_name ((k ++ String quote EmptyString) ++ s) = Some (k, s).
Proof.
  induction k as [|c k IH]; intros Hk; simpl; [done|]. simpl in Hk.
  apply andb_prop in Hk as [Hc Hk]. apply negb_true_iff in Hc. rewrite Hc, IH by done. done.
Qed.

(** ** Running the reader *)

(** At [s] stands the value [j], and [rest] follows it; the length of what is
    read is fuel enough.  The same for the members of an object and the items of an
    array up to the closing bracket. *)
Definition runs {A} (read : nat -> string -> option (A * string)) (s : string) (x : A) (rest : string) : Prop :=
  (String.length rest < String.length s)%nat /\
  forall fuel, (String.length s <= fuel + String.length rest)%nat -> read fuel s = Some (x, rest).
Definition value_at : string -> json -> string -> Prop := runs read_value.
Definition items_at : string -> list json -> string -> Prop := runs read_items.
Definition members_at : string -> list (string * json) -> string -> Prop := runs read_members.

Lemma length_append (a b : string) : String.length (a ++ b) = (String.length a + String.length b)%nat.
Proof. induction a as [|x a IH]; simpl; [done|]. by rewrite IH. Qed.

Lemma length_skip_ws s : (String.length (skip_ws s) <= String.length s)%nat.
Proof. induction s as [|c s IH]; simpl; [done|]. destruct (is_ws c); simpl; lia. Qed.

Lemma length_next s c t : next s = Some (c, t) -> (String.length t < String.length s)%nat.
Proof.
  unfold next. pose proof (length_skip_ws s) as Hl. destruct (skip_ws s) as [|d u]; [done|].
  intros [= <- <-]. simpl in Hl. lia.
Qed.

(** Run the reader one step: the fuel is not zero. *)
Ltac reader_step :=
  let fuel := fresh "fuel" in let Hf := fresh "Hf" in
  intros [|fuel] Hf; [cbn [String.length] in Hf; lia|]; cbn [read_value read_items read_members].

Lemma value_null rest : value_at ("null" ++ rest) jnull rest.
Proof. split; [rewrite length_append; simpl; lia|]. rewrite length_append. reader_step. done. Qed.

Lemma value_bool (b : bool) rest : value_at ((if b then "true" else "false") ++ rest) (jbool b) rest.
Proof.
  split; rewrite length_append; [destruct b; simpl; lia|].
  intros [|fuel] Hf; [destruct b; simpl in Hf; lia|]. by destruct b.
Qed.

Lemma digit_char_json d :
  0 <= d < 10 -> is_ws (digit_char d) = false /\ (digit_char d =? "{")%char = false /\
  (digit_char d =? "[")%char = false.
Proof.
  intros Hd. assert (d ∈ seqZ 0 10) as Hin by (apply elem_of_seqZ; lia). clear Hd. revert d Hin.
  apply Forall_forall. repeat (constructor; [vm_compute; done|]). constructor.
Qed.

Lemma print_u_nonempty n : 0 <= n -> (0 < String.length (print_u n))%nat.
Proof. intros Hn. unfold print_u. destruct (print_digits_head 19 n EmptyString) as (d & s & _ & ->); [lia|]. simpl. lia. Qed.

Lemma value_num n rest : 0 <= n <= ULONG_MAX -> no_digit rest -> value_at (print_u n ++ rest) (jnum n) rest.
Proof.
  intros Hn Hr. pose proof (print_u_nonempty n ltac:(lia)) as Hl.
  split; rewrite length_append; [lia|]. reader_step. unfold print_u. rewrite print_digits_app.
  change (EmptyString ++ rest) with rest.
  destruct (read_print_digits 19 n rest) as (k & Hk & Hread); [unfold ULONG_MAX in Hn; lia|].
  specialize (Hread 0).
  destruct (print_digits_head 19 n rest) as (d & s & Hd & Hs); [lia|]. rewrite Hs in *.
  destruct (digit_char_json d Hd) as (Hw & Ho & Ha). unfold next. cbn [skip_ws].
  rewrite Hw. cbn [mbind option_bind]. rewrite Ho, Ha. unfold starts_with_digit. rewrite digit_in_char by done.
  cbn [Validate.given]. rewrite Hread, read_digits_stop by done. done.
Qed.

(** The name of a member after white space, with the colon. *)
Definition key (w k : string) : string := w ++ quoted k ++ ": ".

Lemma read_key w k s :
  blank w = true -> unquoted k = true ->
  exists t, next (key w k ++ s) = Some (quote, t) /\ read_name t = Some (k, ": " ++ s).
Proof.
  intros Hw Hk. exists ((k ++ String quote EmptyString) ++ ": " ++ s). split; [|by apply read_name_quoted].
  unfold key, quoted. rewrite !append_assoc. rewrite next_blank by done. simpl. by rewrite append_assoc.
Qed.

Lemma read_value_space fuel s : read_value fuel (" " ++ s) = read_value fuel s.
Proof. by apply read_value_blank. Qed.

Lemma length_key w k s : (String.length s + 3 < String.length (key w k ++ s))%nat.
Proof. unfold key, quoted. rewrite !length_append. simpl. rewrite length_append. simpl. lia. Qed.

(** The member [k] with its value, up to the character [c] behind it. *)
Lemma read_member w k s j r c t fuel :
  blank w = true -> unquoted k = true -> value_at s j r -> next r = Some (c, t) ->
  (String.length s <= fuel + String.length r)%nat ->
  read_members (S fuel) (key w k ++ s) =
    if (c =? ",")%char then '(members, rest) ← read_members fuel t; Some ((k, j) :: members, rest)
    else if (c =? "}")%char then Some ([(k, j)], t) else None.
Proof.
  intros Hw Hk [Hl Hv] Hn Hf. destruct (read_key w k s Hw Hk) as (u & Hu & Hname). cbn [read_members].
  rewrite Hu. cbn [mbind option_bind]. rewrite Ascii.eqb_refl, Hname. cbn [mbind option_bind].
  change (next (": " ++ s)) with (Some (":"%char, " " ++ s)). cbn [mbind option_bind].
  change ((":" =? ":")%char) with true. cbv iota. rewrite read_value_space, (Hv fuel Hf). cbn [mbind option_bind].
  by rewrite Hn.
Qed.

Lemma members_cons w k s j r t ms rest :
  blank w = true -> unquoted k = true -> value_at s j r -> next r = Some (","%char, t) ->
  members_at t ms rest -> members_at (key w k ++ s) ((k, j) :: ms) rest.
Proof.
  intros Hw Hk Hv Hn [Hlt Ht]. pose proof (length_next _ _ _ Hn) as Hlr. pose proof (proj1 Hv) as Hls.
  pose proof (length_key w k s) as Hkey. split; [lia|]. intros [|fuel] Hf; [lia|].
  rewrite (read_member _ _ _ _ _ _ _ _ Hw Hk Hv Hn) by lia. cbn [Ascii.eqb]. rewrite Ht by lia. done.
Qed.

Lemma members_last w k s j r rest :
  blank w = true -> unquoted k = true -> value_at s j r -> next r = Some ("}"%char, rest) ->
  members_at (key w k ++ s) [(k, j)] rest.
Proof.
  intros Hw Hk Hv Hn. pose proof (length_next _ _ _ Hn) as Hlr. pose proof (proj1 Hv) as Hls.
  pose proof (length_key w k s) as Hkey. split; [lia|]. intros [|fuel] Hf; [lia|].
  rewrite (read_member _ _ _ _ _ _ _ _ Hw Hk Hv Hn) by lia. done.
Qed.

Lemma value_obj s ms rest : members_at s ms rest -> value_at ("{" ++ s) (jobj ms) rest.
Proof.
  intros [Hl Hm]. split; [simpl; lia|]. simpl String.length. reader_step.
  change (next ("{" ++ s)) with (Some ("{"%char, s)). cbn [mbind option_bind]. cbv beta iota.
  change (("{" =? "{")%char) with true. cbv iota. specialize (Hm fuel ltac:(lia)).
  assert (exists u, next s = Some (quote, u)) as [u Hu].
  { destruct fuel as [|fuel]; [done|]. cbn [read_members] in Hm. destruct (next s) as [[c u]|]; [|done].
    cbn [mbind option_bind] in Hm. destruct (Ascii.eqb_spec c quote) as [->|]; [by exists u|done]. }
  rewrite Hu. cbn [mbind option_bind]. change ((quote =? "}")%char) with false. cbv iota. by rewrite Hm.
Qed.

Lemma items_cons s j r t js rest :
  value_at s j r -> next r = Some (","%char, t) -> items_at t js rest -> items_at s (j :: js) rest.
Proof.
  intros [Hls Hv] Hn [Hlt Ht]. pose proof (length_next _ _ _ Hn) as Hlr. split; [lia|]. reader_step.
  rewrite Hv by lia. cbn [mbind option_bind]. rewrite Hn. cbn [mbind option_bind]. cbn [Ascii.eqb].
  rewrite Ht by lia. done.
Qed.

Lemma items_last s j r rest : value_at s j r -> next r = Some ("]"%char, rest) -> items_at s [j] rest.
Proof.
  intros [Hls Hv] Hn. pose proof (length_next _ _ _ Hn) as Hlr. split; [lia|]. reader_step.
  rewrite Hv by lia. cbn [mbind option_bind]. by rewrite Hn.
Qed.

Lemma value_blank w s j rest : blank w = true -> value_at s j rest -> value_at (w ++ s) j rest.
Proof.
  intros Hw [Hl Hv]. split; rewrite length_append; [lia|]. intros fuel Hf. rewrite read_value_blank by done.
  apply Hv. lia.
Qed.

Lemma value_arr s js rest : items_at s js rest -> value_at ("[" ++ s) (jarr js) rest.
Proof.
  intros [Hl Hm]. split; [simpl; lia|]. simpl String.length. reader_step.
  change (next ("[" ++ s)) with (Some ("["%char, s)). cbn [mbind option_bind]. cbv beta iota.
  change (("[" =? "{")%char) with false. change (("[" =? "[")%char) with true. cbv iota.
  specialize (Hm fuel ltac:(lia)).
  assert (exists c u, next s = Some (c, u) /\ (c =? "]")%char = false) as (c & u & Hu & Hc).
  { destruct fuel as [|[|fuel]]; [done..|]. cbn [read_items read_value] in Hm.
    destruct (next s) as [[c u]|]; [|done]. exists c, u. split; [done|].
    destruct (Ascii.eqb_spec c "]"%char) as [->|]; [done|done]. }
  rewrite Hu. cbn [mbind option_bind]. rewrite Hc. by rewrite Hm.
Qed.

Lemma value_empty_arr s rest : next s = Some ("]"%char, rest) -> value_at ("[" ++ s) (jarr []) rest.
Proof.
  intros Hn. pose proof (length_next _ _ _ Hn) as Hl. split; [simpl; lia|]. simpl String.length. reader_step.
  change (next ("[" ++ s)) with (Some ("["%char, s)). cbn [mbind option_bind]. cbv beta iota.
  change (("[" =? "{")%char) with false. change (("[" =? "[")%char) with true. cbv iota. by rewrite Hn.
Qed.

(** The whole of a text, with what white space follows. *)
Definition parse (s : string) : option json :=
  '(j, rest) ← read_value (String.length s) s; if blank rest then Some j else None.

Lemma parse_value s j rest : value_at s j rest -> blank rest = true -> parse s = Some j.
Proof. intros [_ Hv] Hb. unfold parse. rewrite Hv by lia. cbn [mbind option_bind]. by rewrite Hb. Qed.

End Json.
