(* ===== verification/MetadataFile.v ===== *)
(** * The metadata file

    write_metadata of cmd/psbc/main.c with its helpers, as the text it prints: every
    fprintf is a call of [fprintf] with the format of the source, in the order of
    the source, each given the text that follows it.  The theorem is that the file
    is JSON and that reading it gives the metadata back. *)

From Stdlib Require Import String Ascii.
From S2P Require Import Prelude Types Mesa Nir ShaderUtil Validate Metadata Scan Json.

Module MetadataFile.
Import Scan Json Metadata.
Local Open Scope string_scope.
#[local] Arguments String.append !_ _ : simpl nomatch.

(** ** Printing *)

(** A string literal of the source: a backslash and n stand for a new line, and an
    apostrophe is written for the escaped quote. *)
Fixpoint c_literal (s : string) : string :=
  match s with
  | EmptyString => EmptyString
  | String c s =>
      if (c =? "'")%char then String quote (c_literal s)
      else if (c =? "\")%char then
        match s with String _ s => newline ++ c_literal s | EmptyString => EmptyString end
      else String c (c_literal s)
  end.

(** An argument: unsigned, size_t or a string. *)
Inductive arg : Type :=
| arg_u (n : Z)
| arg_zu (n : Z)
| arg_s (s : string).

(** A conversion prints the next argument at its width; the formats of the file name
    their arguments' types. *)
Definition print_arg (a : arg) : string :=
  match a with
  | arg_u n => print_u (u32 n)
  | arg_zu n => print_u (u64 n)
  | arg_s s => s
  end.

(** The rest of a format behind the percent sign and the conversion for [a]. *)
Definition after_conversion (a : arg) (format : string) : option string :=
  match a with
  | arg_u _ => after_word "u" format
  | arg_zu _ => after_word "zu" format
  | arg_s _ => after_word "s" format
  end.

(** The text of a format, [rest] behind it.  A conversion without an argument of its
    type, which C leaves undefined, ends the text. *)
Fixpoint print_format (fuel : nat) (format : string) (args : list arg) (rest : string) : string :=
  match fuel, format with
  | O, _ | _, EmptyString => rest
  | S fuel, String c format =>
      if (c =? "%")%char then
        match args with
        | [] => EmptyString
        | a :: args =>
            match after_conversion a format with
            | Some format => print_arg a ++ print_format fuel format args rest
            | None => EmptyString
            end
        end
      else String c (print_format fuel format args rest)
  end.

Definition fprintf (format : string) (args : list arg) (rest : string) : string :=
  print_format (String.length format) (c_literal format) args rest.

(** A loop that prints: what step [i] prints stands before what the later ones do. *)
Definition print_each (n : Z) (step : Z -> string -> string) (rest : string) : string :=
  foldr step rest (seqZ 0 n).

(** ** The writer *)

Definition separator (i : Z) : arg := arg_s (if truthy i then c_literal ",\n" else EmptyString).

Definition write_registers (registers : list PsbcRegisterWrite) (count : Z) : string -> string :=
  print_each count (fun i =>
    let r := at_ zero_PsbcRegisterWrite registers i in
    fprintf "%s    {'offset': %u, 'value': %u}" [separator i; arg_u (rw_offset r); arg_u (rw_value r)]).

Definition write_semantics (semantics : list Z) (count : Z) : string -> string :=
  print_each count (fun i => fprintf "%s    %u" [separator i; arg_u (at_ 0%Z semantics i)]).

Definition write_bindings (bindings : list PsbcDescriptorBinding) (count : Z) : string -> string :=
  print_each count (fun i =>
    let b := at_ zero_PsbcDescriptorBinding bindings i in
    fprintf "%s    {'set': %u, 'binding': %u, 'type': %u, 'array_size': %u, 'offset': %u, 'stride': %u}"
      [separator i; arg_u (db_set b); arg_u (db_binding b); arg_u (PsbcDescriptorType_val (db_type b));
       arg_u (db_array_size b); arg_u (db_offset b); arg_u (db_stride b)]).

(** A number when it is valid. *)
Definition write_valid (valid : bool) (n : Z) (rest : string) : string :=
  if valid then fprintf "%u" [arg_u n] rest else fprintf "null" [] rest.

Definition write_numbers (n : Z) (valid : Z -> bool) (value : Z -> Z) : string -> string :=
  print_each n (fun i rest =>
    let rest := write_valid (valid i) (value i) rest in
    if truthy i then fprintf ", " [] rest else rest).

Definition write_linkage (m : PsbcShaderMetadata) (rest : string) : string :=
  if md_linkage_valid m then
    fprintf "  'linkage': {\n    'ge_cntl': {'offset': %u, 'value': %u},\n    'stages_en': {'offset': %u, 'value': %u},\n    'user_vgpr_en': {'offset': %u, 'value': %u}\n  },\n"
      [arg_u (rw_offset (md_linkage_ge_cntl m)); arg_u (rw_value (md_linkage_ge_cntl m));
       arg_u (rw_offset (md_linkage_stages_en m)); arg_u (rw_value (md_linkage_stages_en m));
       arg_u (rw_offset (md_linkage_user_vgpr_en m)); arg_u (rw_value (md_linkage_user_vgpr_en m))] rest
  else fprintf "  'linkage': null,\n" [] rest.

Definition write_lds_layout (m : PsbcShaderMetadata) (rest : string) : string :=
  if md_ngg_lds_layout_valid m then
    fprintf "{'user_data_dword': %u, 'value': %u}"
      [arg_u (md_ngg_lds_layout_user_data_dword m); arg_u (md_ngg_lds_layout m)] rest
  else fprintf "null" [] rest.

Definition write_streamout (m : PsbcShaderMetadata) (rest : string) : string :=
  let stride := at_ 0%Z (md_streamout_strides_dwords m) in
  if md_streamout_valid m then
    fprintf "{\n    'buffer_table_user_data_dword': %u,\n    'enabled_stream_buffers_mask': %u,\n    'strides_dwords': [%u, %u, %u, %u],\n    'config_sgpr': %u,\n    'write_index_sgpr': %u,\n    'offset_sgprs': ["
      [arg_u (md_streamout_buffer_table_user_data_dword m); arg_u (md_streamout_enabled_stream_buffers_mask m);
       arg_u (stride 0%Z); arg_u (stride 1%Z); arg_u (stride 2%Z); arg_u (stride 3%Z);
       arg_u (md_streamout_config_sgpr m); arg_u (md_streamout_write_index_sgpr m)]
    (write_numbers 4 (fun i => truthy (stride i)) (at_ 0%Z (md_streamout_offset_sgprs m))
    (fprintf "]\n  }" [] rest))
  else fprintf "null" [] rest.

(** The whole file. *)
Definition write_metadata (output : PsbcShaderOutput) : string :=
  let m := out_metadata output in
  fprintf "{\n  'version': %u,\n  'target': %u,\n  'source_stage': %u,\n  'hardware_stage': %u,\n  'machine_code_size': %zu,\n  'unresolved_fields': %u,\n"
    [arg_u (md_version m); arg_u (PsbcTarget_val (md_target m)); arg_u (PsbcStage_val (md_source_stage m));
     arg_u (PsbcHardwareStage_val (md_hardware_stage m)); arg_zu (out_machine_code_size output);
     arg_u (md_unresolved_fields m)]
  (write_linkage m
  (fprintf "  'context_registers': [\n" []
  (write_registers (md_context_registers m) (md_context_register_count m)
  (fprintf "\n  ],\n  'shader_registers': [\n" []
  (write_registers (md_shader_registers m) (md_shader_register_count m)
  (fprintf "\n  ],\n  'input_semantics': [\n" []
  (write_semantics (md_input_semantics m) (md_input_semantic_count m)
  (fprintf "\n  ],\n  'output_semantics': [\n" []
  (write_semantics (md_output_semantics m) (md_output_semantic_count m)
  (fprintf "\n  ],\n  'address32_hi': %u,\n  'user_sgpr_count': %u,\n  'vertex_buffer_table_user_data_dword': "
     [arg_u (md_address32_hi m); arg_u (md_user_sgpr_count m)]
  (write_valid (md_vertex_buffer_table_valid m) (md_vertex_buffer_table_user_data_dword m)
  (fprintf ",\n  'vertex_buffer_usage_mask': %u,\n  'vertex_buffer_per_attribute': %s"
     [arg_u (md_vertex_buffer_usage_mask m);
      arg_s (if md_vertex_buffer_per_attribute m then "true" else "false")]
  (fprintf ",\n  'descriptor_set0_user_data_dword': " []
  (write_valid (md_descriptor_set0_valid m) (md_descriptor_set0_user_data_dword m)
  (fprintf ",\n  'descriptor_set_user_data_dwords': [" []
  (write_numbers PSBC_MAX_DESCRIPTOR_SETS (at_ false (md_descriptor_set_valid m))
     (at_ 0%Z (md_descriptor_set_user_data_dword m))
  (fprintf "]" []
  (fprintf ",\n  'base_vertex_user_data_dword': " []
  (write_valid (md_base_vertex_valid m) (md_base_vertex_user_data_dword m)
  (fprintf ",\n  'draw_id_user_data_dword': " []
  (write_valid (md_draw_id_valid m) (md_draw_id_user_data_dword m)
  (fprintf ",\n  'view_index_user_data_dword': " []
  (write_valid (md_view_index_valid m) (md_view_index_user_data_dword m)
  (fprintf ",\n  'start_instance_user_data_dword': " []
  (write_valid (md_start_instance_valid m) (md_start_instance_user_data_dword m)
  (fprintf ",\n  'ngg_lds_layout': " []
  (write_lds_layout m
  (fprintf ",\n  'streamout': " []
  (write_streamout m
  (fprintf ",\n  'descriptor_bindings': [\n" []
  (write_bindings (md_descriptor_bindings m) (md_descriptor_binding_count m)
  (fprintf "\n  ]\n}\n" [] EmptyString)))))))))))))))))))))))))))))))).

(** ** What the file means *)

(** The values of the file are those of the fields, read as unsigned numbers of the
    width they are printed at. *)
Definition num (n : Z) : json := jnum (u32 n).
Definition valid_num (valid : bool) (n : Z) : json := if valid then num n else jnull.
Definition register_json (r : PsbcRegisterWrite) : json :=
  jobj [("offset", num (rw_offset r)); ("value", num (rw_value r))].
Definition binding_json (b : PsbcDescriptorBinding) : json :=
  jobj [("set", num (db_set b)); ("binding", num (db_binding b));
        ("type", num (PsbcDescriptorType_val (db_type b))); ("array_size", num (db_array_size b));
        ("offset", num (db_offset b)); ("stride", num (db_stride b))].

(** The first [count] entries of a table. *)
Definition table_json {A} (f : A -> json) (table : list A) (count : Z) : json :=
  jarr (map f (take (Z.to_nat count) table)).

Definition linkage_json (m : PsbcShaderMetadata) : json :=
  if md_linkage_valid m then
    jobj [("ge_cntl", register_json (md_linkage_ge_cntl m));
          ("stages_en", register_json (md_linkage_stages_en m));
          ("user_vgpr_en", register_json (md_linkage_user_vgpr_en m))]
  else jnull.

Definition lds_layout_json (m : PsbcShaderMetadata) : json :=
  if md_ngg_lds_layout_valid m then
    jobj [("user_data_dword", num (md_ngg_lds_layout_user_data_dword m)); ("value", num (md_ngg_lds_layout m))]
  else jnull.

Definition streamout_json (m : PsbcShaderMetadata) : json :=
  let stride := at_ 0%Z (md_streamout_strides_dwords m) in
  let offset := at_ 0%Z (md_streamout_offset_sgprs m) in
  if md_streamout_valid m then
    jobj [("buffer_table_user_data_dword", num (md_streamout_buffer_table_user_data_dword m));
          ("enabled_stream_buffers_mask", num (md_streamout_enabled_stream_buffers_mask m));
          ("strides_dwords", jarr [num (stride 0%Z); num (stride 1%Z); num (stride 2%Z); num (stride 3%Z)]);
          ("config_sgpr", num (md_streamout_config_sgpr m));
          ("write_index_sgpr", num (md_streamout_write_index_sgpr m));
          ("offset_sgprs", jarr (map (fun i => valid_num (truthy (stride i)) (offset i)) (seqZ 0 4)))]
  else jnull.

Definition metadata_json (output : PsbcShaderOutput) : json :=
  let m := out_metadata output in
  jobj
    [("version", num (md_version m));
     ("target", num (PsbcTarget_val (md_target m)));
     ("source_stage", num (PsbcStage_val (md_source_stage m)));
     ("hardware_stage", num (PsbcHardwareStage_val (md_hardware_stage m)));
     ("machine_code_size", jnum (u64 (out_machine_code_size output)));
     ("unresolved_fields", num (md_unresolved_fields m));
     ("linkage", linkage_json m);
     ("context_registers", table_json register_json (md_context_registers m) (md_context_register_count m));
     ("shader_registers", table_json register_json (md_shader_registers m) (md_shader_register_count m));
     ("input_semantics", table_json num (md_input_semantics m) (md_input_semantic_count m));
     ("output_semantics", table_json num (md_output_semantics m) (md_output_semantic_count m));
     ("address32_hi", num (md_address32_hi m));
     ("user_sgpr_count", num (md_user_sgpr_count m));
     ("vertex_buffer_table_user_data_dword",
       valid_num (md_vertex_buffer_table_valid m) (md_vertex_buffer_table_user_data_dword m));
     ("vertex_buffer_usage_mask", num (md_vertex_buffer_usage_mask m));
     ("vertex_buffer_per_attribute", jbool (md_vertex_buffer_per_attribute m));
     ("descriptor_set0_user_data_dword",
       valid_num (md_descriptor_set0_valid m) (md_descriptor_set0_user_data_dword m));
     ("descriptor_set_user_data_dwords",
       jarr (map (fun i => valid_num (at_ false (md_descriptor_set_valid m) i)
                   (at_ 0%Z (md_descriptor_set_user_data_dword m) i)) (seqZ 0 PSBC_MAX_DESCRIPTOR_SETS)));
     ("base_vertex_user_data_dword", valid_num (md_base_vertex_valid m) (md_base_vertex_user_data_dword m));
     ("draw_id_user_data_dword", valid_num (md_draw_id_valid m) (md_draw_id_user_data_dword m));
     ("view_index_user_data_dword", valid_num (md_view_index_valid m) (md_view_index_user_data_dword m));
     ("start_instance_user_data_dword",
       valid_num (md_start_instance_valid m) (md_start_instance_user_data_dword m));
     ("ngg_lds_layout", lds_layout_json m);
     ("streamout", streamout_json m);
     ("descriptor_bindings", table_json binding_json (md_descriptor_bindings m) (md_descriptor_binding_count m))].

(** ** Reading the file *)

(** Print the formats out, leaving the arguments. *)
Ltac print_out :=
  cbv beta iota zeta delta
    [fprintf print_format c_literal after_conversion after_word print_arg write_valid String.append String.length
     newline quote Ascii.eqb Bool.eqb fst snd].

Lemma value_u32 n rest : no_digit rest -> value_at (print_u (u32 n) ++ rest) (num n) rest.
Proof.
  intros Hr. apply value_num; [|done]. pose proof (wrap_range 32 n ltac:(lia)) as [? ?].
  unfold ULONG_MAX. lia.
Qed.

Lemma value_u64 n rest : no_digit rest -> value_at (print_u (u64 n) ++ rest) (jnum (u64 n)) rest.
Proof.
  intros Hr. apply value_num; [|done]. pose proof (wrap_range 64 n ltac:(lia)) as [? ?].
  unfold ULONG_MAX. lia.
Qed.

Lemma value_valid valid n rest : no_digit rest -> value_at (write_valid valid n rest) (valid_num valid n) rest.
Proof. intros Hr. destruct valid; [by apply value_u32|apply value_null]. Qed.

(** A value, a member and an item of the printed text. *)
Ltac read_scalar :=
  first [eapply value_u32; reflexivity | eapply value_u64; reflexivity | eapply value_valid; reflexivity
        | eapply value_null | eapply value_bool].
Ltac at_key lem :=
  lazymatch goal with
  | |- members_at _ ((?k, _) :: _) _ =>
      first [eapply (lem EmptyString k) | eapply (lem " " k) | eapply (lem (newline ++ "  ") k)
            | eapply (lem (newline ++ "    ") k)]
  end.
Tactic Notation "member" tactic3(v) := at_key members_cons; [reflexivity|reflexivity|v|reflexivity|].
Tactic Notation "last_member" tactic3(v) := at_key members_last; [reflexivity|reflexivity|v|reflexivity].
Tactic Notation "item" tactic3(v) := eapply items_cons; [v|reflexivity|].
Tactic Notation "last_item" tactic3(v) := eapply items_last; [v|reflexivity].
Ltac spaces n := eapply (value_blank n); [reflexivity|].

Lemma value_register r rest :
  value_at (fprintf "{'offset': %u, 'value': %u}" [arg_u (rw_offset r); arg_u (rw_value r)] rest)
    (register_json r) rest.
Proof. print_out. eapply value_obj. member read_scalar. last_member read_scalar. Qed.

Lemma value_binding b rest :
  value_at (fprintf "{'set': %u, 'binding': %u, 'type': %u, 'array_size': %u, 'offset': %u, 'stride': %u}"
      [arg_u (db_set b); arg_u (db_binding b); arg_u (PsbcDescriptorType_val (db_type b));
       arg_u (db_array_size b); arg_u (db_offset b); arg_u (db_stride b)] rest) (binding_json b) rest.
Proof. print_out. eapply value_obj. do 5 member read_scalar. last_member read_scalar. Qed.

(** *** Arrays *)

(** A loop that prints a value per step, separated by commas. *)
Lemma items_printed (w : string) (print : Z -> string -> string) (f : Z -> json) l i tail rest :
  blank w = true -> (forall i r, no_digit r -> value_at (print i r) (f i) r) ->
  Forall (fun k => truthy k = true) l -> no_digit tail -> next tail = Some ("]"%char, rest) ->
  items_at (print i (foldr (fun k r => if truthy k then ("," ++ w ++ print k r) else print k r) tail l))
    (map f (i :: l)) rest.
Proof.
  intros Hw Hp Hl Hd Hn. revert i. induction Hl as [|k l Hk Hl IH]; intros i; simpl.
  - eapply items_last; [by apply Hp|done].
  - rewrite Hk. eapply items_cons; [by apply Hp|reflexivity|]. specialize (IH k). simpl in IH.
    destruct IH as [Hlen IH]. split; [rewrite length_append; lia|].
    intros fuel Hf. rewrite read_items_blank by done. apply IH. rewrite length_append in Hf. lia.
Qed.

Lemma value_printed (n : Z) (w0 w : string) (step print : Z -> string -> string) (f : Z -> json) tail rest :
  blank w0 = true -> blank w = true -> (forall i r, no_digit r -> value_at (print i r) (f i) r) ->
  (forall k r, step k r = if truthy k then "," ++ w ++ print k r else print k r) ->
  no_digit tail -> next tail = Some ("]"%char, rest) ->
  value_at ("[" ++ w0 ++ print_each n step tail) (jarr (map f (seqZ 0 n))) rest.
Proof.
  intros Hw0 Hw Hp Hstep Hd Hn. unfold print_each.
  rewrite (foldr_ext step (fun k r => if truthy k then "," ++ w ++ print k r else print k r) tail tail
    (seqZ 0 n) (seqZ 0 n)) by done.
  destruct (Z.leb_spec n 0).
  - rewrite seqZ_nil by lia. apply value_empty_arr. by rewrite next_blank.
  - rewrite seqZ_cons by lia. cbn [foldr]. change (truthy 0%Z) with false. cbv iota.
    apply value_arr. edestruct (items_printed w print f (seqZ (Z.succ 0) (Z.pred n)) 0%Z) as [Hlen Hread];
      [done|done| |done|done|].
    + apply Forall_seqZ. intros k Hk. unfold truthy. destruct (Z.eqb_spec k 0); [lia|done].
    + split; [rewrite length_append; lia|]. intros fuel Hf. rewrite read_items_blank by done.
      apply Hread. rewrite length_append in Hf. lia.
Qed.

(** *** The parts of the file *)

Lemma value_registers registers count tail rest :
  (0 <= count <= Z.of_nat (length registers))%Z -> no_digit tail -> next tail = Some ("]"%char, rest) ->
  value_at ("[" ++ newline ++ write_registers registers count tail)
    (table_json register_json registers count) rest.
Proof.
  intros Hc Hd Hn. unfold table_json. rewrite <-(map_at_take zero_PsbcRegisterWrite) by done.
  apply (value_printed count newline newline _
    (fun i r => let w := at_ zero_PsbcRegisterWrite registers i in
       "    " ++ fprintf "{'offset': %u, 'value': %u}" [arg_u (rw_offset w); arg_u (rw_value w)] r)); try done.
  - intros i r Hr. cbv beta zeta. apply (value_blank "    "); [done|]. apply value_register.
  - intros k r. unfold separator. cbv beta zeta. destruct (truthy k); print_out; reflexivity.
Qed.

Lemma value_semantics semantics count tail rest :
  (0 <= count <= Z.of_nat (length semantics))%Z -> no_digit tail -> next tail = Some ("]"%char, rest) ->
  value_at ("[" ++ newline ++ write_semantics semantics count tail) (table_json num semantics count) rest.
Proof.
  intros Hc Hd Hn. unfold table_json. rewrite <-(map_at_take 0%Z) by done.
  apply (value_printed count newline newline _ (fun i r => "    " ++ print_u (u32 (at_ 0%Z semantics i)) ++ r));
    try done.
  - intros i r Hr. apply (value_blank "    "); [done|]. by apply value_u32.
  - intros k r. unfold separator. cbv beta zeta. destruct (truthy k); print_out; reflexivity.
Qed.

Lemma value_bindings bindings count tail rest :
  (0 <= count <= Z.of_nat (length bindings))%Z -> no_digit tail -> next tail = Some ("]"%char, rest) ->
  value_at ("[" ++ newline ++ write_bindings bindings count tail) (table_json binding_json bindings count) rest.
Proof.
  intros Hc Hd Hn. unfold table_json. rewrite <-(map_at_take zero_PsbcDescriptorBinding) by done.
  apply (value_printed count newline newline _
    (fun i r => let b := at_ zero_PsbcDescriptorBinding bindings i in
       "    " ++ fprintf "{'set': %u, 'binding': %u, 'type': %u, 'array_size': %u, 'offset': %u, 'stride': %u}"
      [arg_u (db_set b); arg_u (db_binding b); arg_u (PsbcDescriptorType_val (db_type b));
       arg_u (db_array_size b); arg_u (db_offset b); arg_u (db_stride b)] r)); try done.
  - intros i r Hr. cbv beta zeta. apply (value_blank "    "); [done|]. apply value_binding.
  - intros k r. unfold separator. cbv beta zeta. destruct (truthy k); print_out; reflexivity.
Qed.

Lemma value_numbers n valid value tail rest :
  no_digit tail -> next tail = Some ("]"%char, rest) ->
  value_at ("[" ++ write_numbers n valid value tail)
    (jarr (map (fun i => valid_num (valid i) (value i)) (seqZ 0 n))) rest.
Proof.
  intros Hd Hn. apply (value_printed n EmptyString " " _ (fun i r => write_valid (valid i) (value i) r)); try done.
  intros i r Hr. by apply value_valid.
Qed.

Lemma members_linkage m t ms rest :
  members_at (newline ++ t) ms rest ->
  members_at (newline ++ write_linkage m t) (("linkage", linkage_json m) :: ms) rest.
Proof.
  intros Ht. unfold write_linkage, linkage_json. destruct (md_linkage_valid m).
  - print_out. member (eapply value_obj; member apply value_register; member apply value_register;
      last_member apply value_register).
    exact Ht.
  - print_out. member read_scalar. exact Ht.
Qed.

Lemma value_lds_layout m rest : value_at (write_lds_layout m rest) (lds_layout_json m) rest.
Proof.
  unfold write_lds_layout, lds_layout_json. destruct (md_ngg_lds_layout_valid m).
  - print_out. eapply value_obj. member read_scalar. last_member read_scalar.
  - apply value_null.
Qed.

Lemma value_streamout m rest : value_at (write_streamout m rest) (streamout_json m) rest.
Proof.
  unfold write_streamout, streamout_json. destruct (md_streamout_valid m); [|apply value_null].
  print_out. eapply value_obj. do 2 member read_scalar.
  member (eapply value_arr; item read_scalar; do 2 item (spaces " "; read_scalar);
    last_item (spaces " "; read_scalar)).
  do 2 member read_scalar. last_member (eapply value_numbers; reflexivity).
Qed.

Lemma read_metadata output :
  tables_ok (out_metadata output) -> parse (write_metadata output) = Some (metadata_json output).
Proof.
  intros (Hcx & Hsh & Hin & Hout & Hdb). eapply parse_value; [|by apply (eq_refl : blank newline = true)].
  unfold write_metadata, metadata_json. cbv zeta. generalize dependent (out_metadata output). intros m Hcx Hsh Hin Hout Hdb.
  print_out. eapply value_obj. do 6 member read_scalar.
  apply members_linkage.
  member (apply value_registers; [done|reflexivity|reflexivity]).
  member (apply value_registers; [done|reflexivity|reflexivity]).
  do 2 member (apply value_semantics; [done|reflexivity|reflexivity]).
  do 6 member read_scalar.
  member (apply value_numbers; reflexivity).
  do 4 member read_scalar.
  member apply value_lds_layout.
  member apply value_streamout.
  last_member (apply value_bindings; [done|reflexivity|reflexivity]).
Qed.


(** ** Example *)

Definition example_output : PsbcShaderOutput := zero_PsbcShaderOutput
  <| out_machine_code_size := 4096 |>
  <| out_metadata := zero_PsbcShaderMetadata
       <| md_version := 1 |> <| md_target := PSBC_TARGET_PS5 |>
       <| md_context_register_count := 2 |>
       <| md_context_registers := mkPsbcRegisterWrite 0x1b6 0 7 :: mkPsbcRegisterWrite 0x203 0 0xffffffff ::
            replicate 14 zero_PsbcRegisterWrite |>
       <| md_input_semantic_count := 1 |>
       <| md_descriptor_binding_count := 1 |> |>.


End MetadataFile.
