(* ===== verification/Cli.v ===== *)
(** * The command line tool (cmd/psbc/main.c)

    Option parsing with the two C library scanners it uses, the choice between the
    raw program and the wrapped binary, and the JSON metadata file.  Files are given
    and returned as values; the compile itself is the one of Api.v. *)

From stdpp Require Import gmap.
From Stdlib Require Import String Ascii.
From S2P Require Import Prelude Types Mesa Nir ShaderUtil InputSemantics Validate Metadata Binary Setup Machine Compile Sample.
From S2P Require Import CompileSafety Api Scan Json MetadataFile.

Module Cli.
Import Validate Machine Compile CompileSafety Api Scan.

(** ** Names *)

(** The first entry with that name, as the chains of strcmp find it. *)
Fixpoint find_name {A} (none : A) (table : list (string * A)) (name : string) : A :=
  match table with
  | [] => none
  | (n, a) :: table => if (name =? n)%string then a else find_name none table name
  end.

Definition vertex_formats : list (string * PsbcVertexFormat) :=
  [("r32_float", PSBC_VERTEX_FORMAT_R32_FLOAT);
   ("r32g32_float", PSBC_VERTEX_FORMAT_R32G32_FLOAT);
   ("r32g32b32_float", PSBC_VERTEX_FORMAT_R32G32B32_FLOAT);
   ("r32g32b32a32_float", PSBC_VERTEX_FORMAT_R32G32B32A32_FLOAT);
   ("b8g8r8a8_unorm", PSBC_VERTEX_FORMAT_B8G8R8A8_UNORM);
   ("r10g10b10a2_unorm", PSBC_VERTEX_FORMAT_R10G10B10A2_UNORM);
   ("b10g10r10a2_unorm", PSBC_VERTEX_FORMAT_B10G10R10A2_UNORM);
   ("r10g10b10a2_snorm", PSBC_VERTEX_FORMAT_R10G10B10A2_SNORM);
   ("b10g10r10a2_snorm", PSBC_VERTEX_FORMAT_B10G10R10A2_SNORM);
   ("r10g10b10a2_uscaled", PSBC_VERTEX_FORMAT_R10G10B10A2_USCALED);
   ("b10g10r10a2_uscaled", PSBC_VERTEX_FORMAT_B10G10R10A2_USCALED);
   ("r10g10b10a2_sscaled", PSBC_VERTEX_FORMAT_R10G10B10A2_SSCALED);
   ("b10g10r10a2_sscaled", PSBC_VERTEX_FORMAT_B10G10R10A2_SSCALED);
   ("r32_sint", PSBC_VERTEX_FORMAT_R32_SINT);
   ("r32g32_sint", PSBC_VERTEX_FORMAT_R32G32_SINT);
   ("r32g32b32_sint", PSBC_VERTEX_FORMAT_R32G32B32_SINT);
   ("r32g32b32a32_sint", PSBC_VERTEX_FORMAT_R32G32B32A32_SINT);
   ("r32_uint", PSBC_VERTEX_FORMAT_R32_UINT);
   ("r32g32_uint", PSBC_VERTEX_FORMAT_R32G32_UINT);
   ("r32g32b32_uint", PSBC_VERTEX_FORMAT_R32G32B32_UINT);
   ("r32g32b32a32_uint", PSBC_VERTEX_FORMAT_R32G32B32A32_UINT);
   ("r8_unorm", PSBC_VERTEX_FORMAT_R8_UNORM);
   ("r8_snorm", PSBC_VERTEX_FORMAT_R8_SNORM);
   ("r8_uint", PSBC_VERTEX_FORMAT_R8_UINT);
   ("r8_sint", PSBC_VERTEX_FORMAT_R8_SINT);
   ("r8g8_unorm", PSBC_VERTEX_FORMAT_R8G8_UNORM);
   ("r8g8_snorm", PSBC_VERTEX_FORMAT_R8G8_SNORM);
   ("r8g8_uint", PSBC_VERTEX_FORMAT_R8G8_UINT);
   ("r8g8_sint", PSBC_VERTEX_FORMAT_R8G8_SINT);
   ("r8g8b8a8_unorm", PSBC_VERTEX_FORMAT_R8G8B8A8_UNORM);
   ("r8g8b8a8_snorm", PSBC_VERTEX_FORMAT_R8G8B8A8_SNORM);
   ("r8g8b8a8_uint", PSBC_VERTEX_FORMAT_R8G8B8A8_UINT);
   ("r8g8b8a8_sint", PSBC_VERTEX_FORMAT_R8G8B8A8_SINT);
   ("r16_unorm", PSBC_VERTEX_FORMAT_R16_UNORM);
   ("r16_snorm", PSBC_VERTEX_FORMAT_R16_SNORM);
   ("r16_uint", PSBC_VERTEX_FORMAT_R16_UINT);
   ("r16_sint", PSBC_VERTEX_FORMAT_R16_SINT);
   ("r16_float", PSBC_VERTEX_FORMAT_R16_FLOAT);
   ("r16g16_unorm", PSBC_VERTEX_FORMAT_R16G16_UNORM);
   ("r16g16_snorm", PSBC_VERTEX_FORMAT_R16G16_SNORM);
   ("r16g16_uint", PSBC_VERTEX_FORMAT_R16G16_UINT);
   ("r16g16_sint", PSBC_VERTEX_FORMAT_R16G16_SINT);
   ("r16g16_float", PSBC_VERTEX_FORMAT_R16G16_FLOAT);
   ("r16g16b16a16_unorm", PSBC_VERTEX_FORMAT_R16G16B16A16_UNORM);
   ("r16g16b16a16_snorm", PSBC_VERTEX_FORMAT_R16G16B16A16_SNORM);
   ("r16g16b16a16_uint", PSBC_VERTEX_FORMAT_R16G16B16A16_UINT);
   ("r16g16b16a16_sint", PSBC_VERTEX_FORMAT_R16G16B16A16_SINT);
   ("r16g16b16a16_float", PSBC_VERTEX_FORMAT_R16G16B16A16_FLOAT)].

Definition parse_vertex_format : string -> PsbcVertexFormat := find_name PSBC_VERTEX_FORMAT_NONE vertex_formats.

Definition descriptor_types : list (string * PsbcDescriptorType) :=
  [("uniform_buffer", PSBC_DESCRIPTOR_UNIFORM_BUFFER);
   ("uniform_texel_buffer", PSBC_DESCRIPTOR_UNIFORM_TEXEL_BUFFER);
   ("combined_image_sampler", PSBC_DESCRIPTOR_COMBINED_IMAGE_SAMPLER);
   ("storage_buffer", PSBC_DESCRIPTOR_STORAGE_BUFFER);
   ("sampler", PSBC_DESCRIPTOR_SAMPLER);
   ("sampled_image", PSBC_DESCRIPTOR_SAMPLED_IMAGE);
   ("storage_texel_buffer", PSBC_DESCRIPTOR_STORAGE_TEXEL_BUFFER)].

Definition parse_descriptor_type : string -> PsbcDescriptorType :=
  find_name PSBC_DESCRIPTOR_NONE descriptor_types.

Definition primitive_types : list (string * Z) :=
  [("point-list", 1);
   ("line-list", 2);
   ("line-strip", 3);
   ("triangle-list", 4);
   ("triangle-fan", 5);
   ("triangle-strip", 6);
   ("line-list-adjacency", 10);
   ("line-strip-adjacency", 11);
   ("triangle-list-adjacency", 12);
   ("triangle-strip-adjacency", 13)].

Definition parse_primitive_type : string -> Z := find_name UINT32_MAX primitive_types.

(** ** Options *)

(** The parsed command line. *)
Record CmdOptions : Type := mk_CmdOptions {
  cmd_inputfile : option string;
  cmd_previousfile : option string;
  cmd_outputfile : option string;
  cmd_metadatafile : option string;
  cmd_entrypoint : option string;
  cmd_stage : PsbcStage;
  cmd_showhelp : bool;
  cmd_target : PsbcTarget;
  cmd_optimise : bool;
  cmd_verbose : bool;
  cmd_ngg : bool;
  cmd_ps5_global_streamout : bool;
  cmd_force_accelerated_dot : bool;
  cmd_provoking_vtx_last : bool;
  cmd_raw : bool;
  cmd_primitive_type : Z;
  cmd_address32_hi : Z;
  cmd_vertex_attribute_count : Z;
  cmd_vertex_attributes : list PsbcVertexAttribute;
  cmd_descriptor_binding_count : Z;
  cmd_descriptor_bindings : list PsbcDescriptorBinding;
  cmd_parse_error : bool
}.

#[export] Instance eta_CmdOptions : Eta CmdOptions := fun r =>
  mk_CmdOptions r.(cmd_inputfile) r.(cmd_previousfile) r.(cmd_outputfile)
    r.(cmd_metadatafile) r.(cmd_entrypoint) r.(cmd_stage) r.(cmd_showhelp)
    r.(cmd_target) r.(cmd_optimise) r.(cmd_verbose) r.(cmd_ngg)
    r.(cmd_ps5_global_streamout) r.(cmd_force_accelerated_dot)
    r.(cmd_provoking_vtx_last) r.(cmd_raw) r.(cmd_primitive_type) r.(cmd_address32_hi)
    r.(cmd_vertex_attribute_count) r.(cmd_vertex_attributes)
    r.(cmd_descriptor_binding_count) r.(cmd_descriptor_bindings) r.(cmd_parse_error).

Definition zero_CmdOptions : CmdOptions := {|
  cmd_inputfile := None;
  cmd_previousfile := None;
  cmd_outputfile := None;
  cmd_metadatafile := None;
  cmd_entrypoint := None;
  cmd_stage := PSBC_STAGE_NONE;
  cmd_showhelp := false;
  cmd_target := PSBC_TARGET_PS4_BASE;
  cmd_optimise := false;
  cmd_verbose := false;
  cmd_ngg := false;
  cmd_ps5_global_streamout := false;
  cmd_force_accelerated_dot := false;
  cmd_provoking_vtx_last := false;
  cmd_raw := false;
  cmd_primitive_type := 0;
  cmd_address32_hi := 0;
  cmd_vertex_attribute_count := 0;
  cmd_vertex_attributes := replicate (Z.to_nat PSBC_MAX_VERTEX_ATTRIBUTES) zero_PsbcVertexAttribute;
  cmd_descriptor_binding_count := 0;
  cmd_descriptor_bindings := replicate (Z.to_nat PSBC_MAX_DESCRIPTOR_BINDINGS) zero_PsbcDescriptorBinding;
  cmd_parse_error := false
|}.

Definition error (res : CmdOptions) : CmdOptions := res <| cmd_parse_error := true |>.
Definition error_if (b : bool) (res : CmdOptions) : CmdOptions := if b then error res else res.

(** loc:format:binding:offset:stride:alignment[:divisor] *)
Definition attribute_format : list conversion :=
  [conv_u; conv_colon; conv_word; conv_colon; conv_u; conv_colon; conv_u; conv_colon; conv_u;
   conv_colon; conv_u; conv_colon; conv_u].

Definition set_attribute (res : CmdOptions) (location : Z) (format_name : string)
    (binding offset stride alignment instance_divisor : Z) : CmdOptions :=
  let format := parse_vertex_format format_name in
  let attribute := mkPsbcVertexAttribute (u8 location) (u8 binding) format offset stride alignment
                     instance_divisor in
  error_if ((location >=? PSBC_MAX_VERTEX_ATTRIBUTES) || (binding >=? 32) ||
            bool_decide (format = PSBC_VERTEX_FORMAT_NONE))
    (res <| cmd_vertex_attributes := put (cmd_vertex_attribute_count res) attribute (cmd_vertex_attributes res) |>
         <| cmd_vertex_attribute_count := cmd_vertex_attribute_count res + 1 |>).

Definition parse_attribute (res : CmdOptions) (arg : string) : CmdOptions :=
  match sscanf arg attribute_format with
  | [scanned_u location; scanned_word name; scanned_u binding; scanned_u offset; scanned_u stride;
     scanned_u alignment] => set_attribute res location name binding offset stride alignment 0
  | [scanned_u location; scanned_word name; scanned_u binding; scanned_u offset; scanned_u stride;
     scanned_u alignment; scanned_u divisor] =>
      set_attribute res location name binding offset stride alignment divisor
  | _ => error res
  end.

(** set:binding:type:array:offset:stride *)
Definition binding_format : list conversion :=
  [conv_u; conv_colon; conv_u; conv_colon; conv_word; conv_colon; conv_u; conv_colon; conv_u;
   conv_colon; conv_u].

Definition parse_binding (res : CmdOptions) (arg : string) : CmdOptions :=
  match sscanf arg binding_format with
  | [scanned_u set; scanned_u binding; scanned_word name; scanned_u array_size; scanned_u offset;
     scanned_u stride] =>
      let type := parse_descriptor_type name in
      let descriptor := mkPsbcDescriptorBinding (u8 set) (u8 binding) type array_size offset stride in
      error_if (negb (set =? u8 set) || negb (binding =? u8 binding) ||
                bool_decide (type = PSBC_DESCRIPTOR_NONE))
        (res <| cmd_descriptor_bindings :=
                  put (cmd_descriptor_binding_count res) descriptor (cmd_descriptor_bindings res) |>
             <| cmd_descriptor_binding_count := cmd_descriptor_binding_count res + 1 |>)
  | _ => error res
  end.

Definition parse_address (res : CmdOptions) (arg : string) : CmdOptions :=
  let '(value, rest) := default (0, arg) (strtoul 0 arg) in
  if negb (rest =? EmptyString)%string || (value >? UINT32_MAX) then error res
  else res <| cmd_address32_hi := value |>.

Definition parse_primitive (res : CmdOptions) (arg : string) : CmdOptions :=
  let type := parse_primitive_type arg in
  error_if (type =? UINT32_MAX) (res <| cmd_primitive_type := type |>).

(** A switch, an option whose value is read but not skipped, or one whose value is
    consumed. *)
Inductive action : Type :=
| act_switch (f : CmdOptions -> CmdOptions)
| act_peek (f : CmdOptions -> string -> CmdOptions)
| act_take (missing : CmdOptions -> CmdOptions) (full : CmdOptions -> bool)
    (f : CmdOptions -> string -> CmdOptions)
| act_none.

Definition action_of (arg : string) : action :=
  find_name act_none
    [("-h", act_switch (fun r => r <| cmd_showhelp := true |>));
     ("-f", act_peek (fun r v => r <| cmd_inputfile := Some v |>));
     ("-o", act_peek (fun r v => r <| cmd_outputfile := Some v |>));
     ("--previous", act_peek (fun r v => r <| cmd_previousfile := Some v |>));
     ("--metadata", act_peek (fun r v => r <| cmd_metadatafile := Some v |>));
     ("-e", act_peek (fun r v => r <| cmd_entrypoint := Some v |>));
     ("-s", act_peek (fun r v => r <| cmd_stage := psbc_stage_from_name (Some v) |>));
     ("-4", act_switch (fun r => r <| cmd_target := PSBC_TARGET_PS4_BASE |>));
     ("-n", act_switch (fun r => r <| cmd_target := PSBC_TARGET_PS4_NEO |>));
     ("-g", act_switch (fun r => r <| cmd_target := PSBC_TARGET_PS5 |>));
     ("-Od", act_switch (fun r => r <| cmd_optimise := false |>));
     ("-vv", act_switch (fun r => r <| cmd_verbose := true |>));
     ("--ngg", act_switch (fun r => r <| cmd_ngg := true |>));
     ("--ps5-global-streamout", act_switch (fun r => r <| cmd_ps5_global_streamout := true |>));
     ("--force-accelerated-dot", act_switch (fun r => r <| cmd_force_accelerated_dot := true |>));
     ("--provoking-vertex-last", act_switch (fun r => r <| cmd_provoking_vtx_last := true |>));
     ("--raw", act_switch (fun r => r <| cmd_raw := true |>));
     ("--primitive-type", act_take error (fun _ => false) parse_primitive);
     ("--address32-hi", act_take (fun r => r) (fun _ => false) parse_address);
     ("--vertex-attribute",
      act_take error (fun r => cmd_vertex_attribute_count r >=? PSBC_MAX_VERTEX_ATTRIBUTES) parse_attribute);
     ("--descriptor-binding",
      act_take error (fun r => cmd_descriptor_binding_count r >=? PSBC_MAX_DESCRIPTOR_BINDINGS) parse_binding)]
    arg.

(** The loop over argv.  A full table leaves the value to be read as an option. *)
Fixpoint parse_args (res : CmdOptions) (args : list string) : CmdOptions :=
  match args with
  | [] => res
  | arg :: args =>
      match action_of arg, args with
      | act_none, _ => parse_args res args
      | act_switch f, _ => parse_args (f res) args
      | act_peek f, value :: _ => parse_args (f res value) args
      | act_peek _, [] => parse_args res args
      | act_take missing _ _, [] => parse_args (missing res) args
      | act_take _ full f, value :: rest =>
          if full res then parse_args (error res) args else parse_args (f res value) rest
      end
  end.

Definition initial_options : CmdOptions := zero_CmdOptions
  <| cmd_entrypoint := Some "main"%string |> <| cmd_stage := PSBC_STAGE_NONE |> <| cmd_optimise := true |>
  <| cmd_target := PSBC_TARGET_PS5 |>.

Definition parsecmdoptions (argv : list string) : CmdOptions := parse_args initial_options argv.

(** ** The file the tool writes *)

(** How the file system answers: the bytes of a readable file, and whether a file
    can be written. *)
Record IO : Type := mk_IO {
  io_read : string -> option (list Z);
  io_write : string -> bool
}.

(** How the process ends: the message of a failure, or the files written. *)
Inductive ending : Type :=
| exit_failure (message : string)
| exit_success (files : list (string * list Z)).

(** The words of a file as psbc reads them through a pointer to uint32_t. *)
Definition words_of (bytes : list Z) : list Z :=
  map (fun i => Binary.read_u32_le bytes (4 * i)) (seqZ 0 (Z.of_nat (length bytes) / 4)).

Definition compile_options (opts : CmdOptions) : PsbcCompileOptions := zero_PsbcCompileOptions
  <| co_target := cmd_target opts |>
  <| co_stage := cmd_stage opts |>
  <| co_entrypoint := cmd_entrypoint opts |>
  <| co_optimise := cmd_optimise opts |>
  <| co_ngg := cmd_ngg opts |>
  <| co_ps5_global_streamout := cmd_ps5_global_streamout opts |>
  <| co_force_accelerated_dot := cmd_force_accelerated_dot opts |>
  <| co_primitive_type := cmd_primitive_type opts |>
  <| co_provoking_vtx_last := cmd_provoking_vtx_last opts |>
  <| co_address32_hi := cmd_address32_hi opts |>
  <| co_vertex_attribute_count := cmd_vertex_attribute_count opts |>
  <| co_descriptor_binding_count := cmd_descriptor_binding_count opts |>
  <| co_vertex_attributes := cmd_vertex_attributes opts |>
  <| co_descriptor_bindings := cmd_descriptor_bindings opts |>.

(** The checks of main before it opens a file: the message it ends with. *)
Definition refused (opts : CmdOptions) : option string :=
  if negb (given (cmd_inputfile opts)) then Some "Please pass an input file"%string
  else if cmd_parse_error opts then Some "Invalid compiler option"%string
  else if negb (given (cmd_outputfile opts)) then Some "Please pass an output file"%string
  else if bool_decide (cmd_stage opts = PSBC_STAGE_NONE) then Some "Please pass a valid shader stage"%string
  else None.

(** The bytes of the metadata file. *)
Definition metadata (out : PsbcShaderOutput) : list Z :=
  map code (list_ascii_of_string (MetadataFile.write_metadata out)).

(** The text of a file. *)
Definition text_of (bytes : list Z) : string :=
  string_of_list_ascii (map (fun c => ascii_of_nat (Z.to_nat c)) bytes).

Lemma text_of_bytes text : text_of (map code (list_ascii_of_string text)) = text.
Proof.
  unfold text_of. rewrite map_map. rewrite (map_ext _ id), map_id, string_of_list_ascii_of_string; [done|].
  intros c. unfold code. by rewrite Nat2Z.id, ascii_nat_embedding.
Qed.

Section main.
Context `{MesaPasses} `{Binary.GnmFormat} (host : Host) (io : IO).


(** psbc_compile_shader, or the geometry pipeline when a previous stage is given. *)
Definition compile_inputs (opts : CmdOptions) (input : list Z) (previous : option (list Z)) : C unit :=
  let compile_opts := Some (compile_options opts) in
  match previous with
  | Some previous =>
      psbc_compile_geometry_pipeline host (Some (words_of previous)) (Z.of_nat (length previous))
        (Some (words_of input)) (Z.of_nat (length input)) compile_opts
  | None =>
      psbc_compile_shader host (Some (words_of input)) (Z.of_nat (length input)) compile_opts
  end.

(** The bytes a pointer of the output structure points to. *)
Definition bytes_at (m : machine) (p : option Z) : list Z :=
  match p ≫= (fun p => mc_heap m !! p) with Some (bytes_object bytes) => bytes | _ => [] end.

(** NGG has no valid legacy GNM wrapper: raw code is written for it. *)
Definition write_raw (opts : CmdOptions) : bool := cmd_raw opts || cmd_ngg opts.

Definition write_data (opts : CmdOptions) (m : machine) (out : PsbcShaderOutput) : list Z :=
  if write_raw opts
  then take (Z.to_nat (out_machine_code_size out)) (bytes_at m (out_machine_code out))
  else take (Z.to_nat (out_size out)) (bytes_at m (out_data out)).

(** From the compiled program to the end of main. *)
Definition write_files (opts : CmdOptions) (outputfile : string) (m : machine) : machine * ending :=
  let out := default zero_PsbcShaderOutput (mc_out m) in
  let program := (outputfile, write_data opts m out) in
  if negb (io_write io outputfile) then (m, exit_failure "Failed to open output file")
  else
    match cmd_metadatafile opts with
    | Some path =>
        if negb (io_write io path) then (m, exit_failure "Failed to open metadata file")
        else ((psbc_free_output m).1, exit_success [program; (path, metadata out)])
    | None => ((psbc_free_output m).1, exit_success [program])
    end.

Definition run_compile (opts : CmdOptions) (inputfile outputfile : string) (m : machine) : machine * ending :=
  match io_read io inputfile with
  | None => (m, exit_failure "Failed to open input file")
  | Some input =>
      match option_map (io_read io) (cmd_previousfile opts) with
      | Some None => (m, exit_failure "Failed to open previous-stage input")
      | previous =>
          match compile_inputs opts input (mjoin previous) (m <| mc_out := Some zero_PsbcShaderOutput |>) with
          | (m, inl r) => (m, exit_failure ("Shader compilation failed: " ++ psbc_result_string r))
          | (m, inr _) => write_files opts outputfile m
          end
      end
  end.

Definition main (argv : list string) (m : machine) : machine * ending :=
  let opts := parsecmdoptions argv in
  if cmd_showhelp opts then (m, exit_success [])
  else
    match refused opts, cmd_inputfile opts, cmd_outputfile opts with
    | Some message, _, _ => (m, exit_failure message)
    | None, Some inputfile, Some outputfile => run_compile opts inputfile outputfile m
    | None, _, _ => (m, exit_failure EmptyString)
    end.
End main.

(** ** Arguments are read back *)

(** The argument for an attribute or a binding, with the name its table gives. *)
Definition attribute_arg (a : PsbcVertexAttribute) (name : string) (divisor : bool) : string :=
  print_u (va_location a) ++ ":" ++ name ++ ":" ++ print_u (va_binding a) ++ ":" ++ print_u (va_offset a) ++
  ":" ++ print_u (va_stride a) ++ ":" ++ print_u (va_alignment a) ++
  (if divisor then ":" ++ print_u (va_instance_divisor a) else EmptyString).

Definition binding_arg (b : PsbcDescriptorBinding) (name : string) : string :=
  print_u (db_set b) ++ ":" ++ print_u (db_binding b) ++ ":" ++ name ++ ":" ++ print_u (db_array_size b) ++
  ":" ++ print_u (db_offset b) ++ ":" ++ print_u (db_stride b).

(** The values the tool accepts. *)
Definition attribute_ok (a : PsbcVertexAttribute) : Prop :=
  0 <= va_location a < PSBC_MAX_VERTEX_ATTRIBUTES /\ 0 <= va_binding a < 32 /\
  0 <= va_offset a < 2 ^ 32 /\ 0 <= va_stride a < 2 ^ 32 /\ 0 <= va_alignment a < 2 ^ 32 /\
  0 <= va_instance_divisor a < 2 ^ 32.

Definition binding_ok (b : PsbcDescriptorBinding) : Prop :=
  0 <= db_set b < 256 /\ 0 <= db_binding b < 256 /\ 0 <= db_array_size b < 2 ^ 32 /\
  0 <= db_offset b < 2 ^ 32 /\ 0 <= db_stride b < 2 ^ 32.

(** Every name of the tables is one the formats accept, and denotes its entry. *)
Lemma vertex_format_names :
  Forall (fun '(name, f) => name_ok name = true /\ parse_vertex_format name = f /\ f <> PSBC_VERTEX_FORMAT_NONE)
    vertex_formats.
Proof. repeat (constructor; [vm_compute; done|]). constructor. Qed.

Lemma descriptor_type_names :
  Forall (fun '(name, t) => name_ok name = true /\ parse_descriptor_type name = t /\ t <> PSBC_DESCRIPTOR_NONE)
    descriptor_types.
Proof. repeat (constructor; [vm_compute; done|]). constructor. Qed.

Ltac scan :=
  repeat first
    [ rewrite scan_last by (lia || done) | rewrite scan_u by (lia || done) | rewrite scan_colon | rewrite scan_word by done ].

Lemma scan_attribute a name divisor :
  attribute_ok a -> name_ok name = true ->
  sscanf (attribute_arg a name divisor) attribute_format =
    [scanned_u (va_location a); scanned_word name; scanned_u (va_binding a); scanned_u (va_offset a);
     scanned_u (va_stride a); scanned_u (va_alignment a)] ++
    (if divisor then [scanned_u (va_instance_divisor a)] else []).
Proof.
  intros (Hl & Hb & Ho & Hs & Ha & Hd) Hn. unfold PSBC_MAX_VERTEX_ATTRIBUTES in Hl.
  unfold attribute_arg, attribute_format. destruct divisor; by scan.
Qed.

Lemma scan_binding b name :
  binding_ok b -> name_ok name = true ->
  sscanf (binding_arg b name) binding_format =
    [scanned_u (db_set b); scanned_u (db_binding b); scanned_word name; scanned_u (db_array_size b);
     scanned_u (db_offset b); scanned_u (db_stride b)].
Proof. intros (Hs & Hb & Ha & Ho & Ht) Hn. unfold binding_arg, binding_format. by scan. Qed.

(** The options with one more attribute or binding. *)
Definition with_attribute (res : CmdOptions) (a : PsbcVertexAttribute) : CmdOptions :=
  res <| cmd_vertex_attributes := put (cmd_vertex_attribute_count res) a (cmd_vertex_attributes res) |>
      <| cmd_vertex_attribute_count := cmd_vertex_attribute_count res + 1 |>.

Definition with_binding (res : CmdOptions) (b : PsbcDescriptorBinding) : CmdOptions :=
  res <| cmd_descriptor_bindings := put (cmd_descriptor_binding_count res) b (cmd_descriptor_bindings res) |>
      <| cmd_descriptor_binding_count := cmd_descriptor_binding_count res + 1 |>.

Lemma u8_small n : 0 <= n < 256 -> u8 n = n.
Proof. intros Hn. unfold u8, wrap. apply Z.mod_small. lia. Qed.

Lemma parse_attribute_arg res a name divisor :
  attribute_ok a -> (name, va_format a) ∈ vertex_formats ->
  (divisor = false -> va_instance_divisor a = 0) ->
  parse_attribute res (attribute_arg a name divisor) = with_attribute res a.
Proof.
  intros Ha Hin Hd. pose proof (proj1 (Forall_forall _ _) vertex_format_names _ Hin) as (Hn & Hf & Hne).
  unfold parse_attribute. rewrite scan_attribute by done.
  destruct Ha as (Hl & Hb & _). unfold PSBC_MAX_VERTEX_ATTRIBUTES in Hl.
  assert (set_attribute res (va_location a) name (va_binding a) (va_offset a) (va_stride a) (va_alignment a)
            (va_instance_divisor a) = with_attribute res a) as Hset.
  { unfold set_attribute, with_attribute. rewrite Hf, !u8_small by lia.
    rewrite bool_decide_false by done. unfold PSBC_MAX_VERTEX_ATTRIBUTES.
    destruct (Z.geb_spec (va_location a) 32); [lia|]. destruct (Z.geb_spec (va_binding a) 32); [lia|].
    by destruct a. }
  destruct divisor; [exact Hset|]. rewrite <-Hset, Hd by done. done.
Qed.

Lemma parse_binding_arg res b name :
  binding_ok b -> (name, db_type b) ∈ descriptor_types ->
  parse_binding res (binding_arg b name) = with_binding res b.
Proof.
  intros Hb Hin. pose proof (proj1 (Forall_forall _ _) descriptor_type_names _ Hin) as (Hn & Hf & Hne).
  unfold parse_binding. rewrite scan_binding by done. destruct Hb as (Hs & Hbi & _).
  rewrite Hf, !u8_small by lia. rewrite !Z.eqb_refl, bool_decide_false by done. by destruct b.
Qed.

(** ** Whole command lines are read back *)

(** An argument that is not an option is passed over. *)
Definition plain (v : string) : Prop := action_of v = act_none.

Lemma parse_plain r v rest : plain v -> parse_args r (v :: rest) = parse_args r rest.
Proof. intros Hv. cbn [parse_args]. by rewrite Hv. Qed.

(** The arguments that set one field. *)
Definition valued (name : string) (value : option string) : list string :=
  match value with Some v => [name; v] | None => [] end.
Definition flag (name : string) (b : bool) : list string := if b then [name] else [].

Definition target_arg (t : PsbcTarget) : string :=
  match t with PSBC_TARGET_PS4_BASE => "-4" | PSBC_TARGET_PS4_NEO => "-n" | PSBC_TARGET_PS5 => "-g" end.

Definition command_line (c : CmdOptions) (stage_name : string) (primitive : option string)
    (attributes : list (PsbcVertexAttribute * string)) (bindings : list (PsbcDescriptorBinding * string)) :
    list string :=
  valued "-f" (cmd_inputfile c) ++ valued "-o" (cmd_outputfile c) ++
  valued "--previous" (cmd_previousfile c) ++ valued "--metadata" (cmd_metadatafile c) ++
  valued "-e" (cmd_entrypoint c) ++ valued "-s" (Some stage_name) ++ [target_arg (cmd_target c)] ++
  flag "-Od" (negb (cmd_optimise c)) ++ flag "-vv" (cmd_verbose c) ++ flag "--ngg" (cmd_ngg c) ++
  flag "--ps5-global-streamout" (cmd_ps5_global_streamout c) ++
  flag "--force-accelerated-dot" (cmd_force_accelerated_dot c) ++
  flag "--provoking-vertex-last" (cmd_provoking_vtx_last c) ++ flag "--raw" (cmd_raw c) ++
  valued "--primitive-type" primitive ++ ["--address32-hi"; print_u (cmd_address32_hi c)] ++
  concat (map (fun '(a, name) => ["--vertex-attribute"; attribute_arg a name true]) attributes) ++
  concat (map (fun '(b, name) => ["--descriptor-binding"; binding_arg b name]) bindings).

Lemma parse_switch name f r rest :
  action_of name = act_switch f -> parse_args r (name :: rest) = parse_args (f r) rest.
Proof. intros Hn. cbn [parse_args]. by rewrite Hn. Qed.

Lemma parse_peek name f r v rest :
  action_of name = act_peek f -> plain v -> parse_args r (name :: v :: rest) = parse_args (f r v) rest.
Proof. intros Hn Hv. cbn [parse_args]. rewrite Hn. cbn [parse_args]. by rewrite Hv. Qed.

Lemma parse_take name missing full f r v rest :
  action_of name = act_take missing full f -> full r = false ->
  parse_args r (name :: v :: rest) = parse_args (f r v) rest.
Proof. intros Hn Hf. cbn [parse_args]. by rewrite Hn, Hf. Qed.

Lemma parse_valued name (set : option string -> CmdOptions -> CmdOptions) r v rest :
  action_of name = act_peek (fun r x => set (Some x) r) -> set None r = r ->
  (forall x, v = Some x -> plain x) ->
  parse_args r (valued name v ++ rest) = parse_args (set v r) rest.
Proof.
  intros Hn Hnone Hp. destruct v as [v|]; simpl valued; [|by rewrite Hnone].
  simpl app. by rewrite (parse_peek _ _ _ _ _ Hn) by (by apply Hp).
Qed.

Lemma parse_flag name (set : bool -> CmdOptions -> CmdOptions) r b rest :
  action_of name = act_switch (set true) -> set false r = r ->
  parse_args r (flag name b ++ rest) = parse_args (set b r) rest.
Proof.
  intros Hn Hf. destruct b; simpl flag; simpl app; [by rewrite (parse_switch _ _ _ _ Hn)|by rewrite Hf].
Qed.

Lemma parse_attributes attributes r rest :
  Forall (fun '(a, name) => attribute_ok a /\ (name, va_format a) ∈ vertex_formats) attributes ->
  cmd_vertex_attribute_count r + Z.of_nat (length attributes) <= PSBC_MAX_VERTEX_ATTRIBUTES ->
  parse_args r (concat (map (fun '(a, name) => ["--vertex-attribute"%string; attribute_arg a name true]) attributes) ++ rest) =
  parse_args (foldl with_attribute r (map fst attributes)) rest.
Proof.
  intros Hall. revert r. induction Hall as [|[a name] attributes [Ha Hin] _ IH]; intros r Hc; [done|].
  simpl concat. simpl map. simpl foldl. rewrite <-app_comm_cons. simpl app. simpl length in Hc.
  rewrite (parse_take _ error (fun r => cmd_vertex_attribute_count r >=? PSBC_MAX_VERTEX_ATTRIBUTES)
             parse_attribute); [|done|].
  - rewrite parse_attribute_arg by done. apply IH. simpl. lia.
  - destruct (Z.geb_spec (cmd_vertex_attribute_count r) PSBC_MAX_VERTEX_ATTRIBUTES); [lia|done].
Qed.

Lemma parse_bindings bindings r rest :
  Forall (fun '(b, name) => binding_ok b /\ (name, db_type b) ∈ descriptor_types) bindings ->
  cmd_descriptor_binding_count r + Z.of_nat (length bindings) <= PSBC_MAX_DESCRIPTOR_BINDINGS ->
  parse_args r (concat (map (fun '(b, name) => ["--descriptor-binding"%string; binding_arg b name]) bindings) ++ rest) =
  parse_args (foldl with_binding r (map fst bindings)) rest.
Proof.
  intros Hall. revert r. induction Hall as [|[b name] bindings [Hb Hin] _ IH]; intros r Hc; [done|].
  simpl concat. simpl map. simpl foldl. rewrite <-app_comm_cons. simpl app. simpl length in Hc.
  rewrite (parse_take _ error (fun r => cmd_descriptor_binding_count r >=? PSBC_MAX_DESCRIPTOR_BINDINGS)
             parse_binding); [|done|].
  - rewrite parse_binding_arg by done. apply IH. simpl. lia.
  - destruct (Z.geb_spec (cmd_descriptor_binding_count r) PSBC_MAX_DESCRIPTOR_BINDINGS); [lia|done].
Qed.

(** What a command line can say: file names that are not options themselves, a known
    stage and primitive, a 32-bit address half, tables still empty. *)
Record expressible (c : CmdOptions) (stage_name : string) (primitive : option string) : Prop := {
  ex_inputfile : forall v, cmd_inputfile c = Some v -> plain v;
  ex_outputfile : forall v, cmd_outputfile c = Some v -> plain v;
  ex_previousfile : forall v, cmd_previousfile c = Some v -> plain v;
  ex_metadatafile : forall v, cmd_metadatafile c = Some v -> plain v;
  ex_entrypoint : exists v, cmd_entrypoint c = Some v /\ plain v;
  ex_stage : psbc_stage_from_name (Some stage_name) = cmd_stage c /\ plain stage_name;
  ex_primitive : match primitive with
                 | Some p => (p, cmd_primitive_type c) ∈ primitive_types
                 | None => cmd_primitive_type c = 0
                 end;
  ex_address : 0 <= cmd_address32_hi c <= UINT32_MAX;
  ex_clean : cmd_showhelp c = false /\ cmd_parse_error c = false /\
    cmd_vertex_attribute_count c = 0 /\ cmd_descriptor_binding_count c = 0 /\
    cmd_vertex_attributes c = cmd_vertex_attributes zero_CmdOptions /\
    cmd_descriptor_bindings c = cmd_descriptor_bindings zero_CmdOptions
}.

Lemma parse_primitive_arg r primitive (n : Z) rest :
  match primitive with Some p => (p, n) ∈ primitive_types | None => n = 0 end -> cmd_primitive_type r = 0 ->
  parse_args r (valued "--primitive-type" primitive ++ rest) = parse_args (r <| cmd_primitive_type := n |>) rest.
Proof.
  intros Hp Hr. destruct primitive as [p|]; simpl valued; simpl app.
  - rewrite (parse_take _ error (fun _ => false) parse_primitive) by done. unfold parse_primitive.
    assert (Forall (fun '(p, n) => parse_primitive_type p = n /\ n <> UINT32_MAX) primitive_types) as Ht.
    { repeat (constructor; [vm_compute; done|]). constructor. }
    destruct (proj1 (Forall_forall _ _) Ht _ Hp) as [-> Hne]. unfold error_if.
    by destruct (Z.eqb_spec n UINT32_MAX).
  - subst n. by destruct r; simpl in *; subst.
Qed.

Lemma parse_address_arg r n rest :
  0 <= n <= UINT32_MAX ->
  parse_args r ("--address32-hi"%string :: print_u n :: rest) = parse_args (r <| cmd_address32_hi := n |>) rest.
Proof.
  intros Hn. rewrite (parse_take _ (fun r => r) (fun _ => false) parse_address) by done.
  unfold parse_address. rewrite strtoul_zero by (unfold ULONG_MAX, UINT32_MAX in *; lia). simpl.
  destruct (Z.gtb_spec n UINT32_MAX); [lia|done].
Qed.

Lemma parse_target t r rest : parse_args r (target_arg t :: rest) = parse_args (r <| cmd_target := t |>) rest.
Proof. destruct t; (erewrite parse_switch; [reflexivity|reflexivity]). Qed.

(** Compute the options reached so far. *)
Ltac settle :=
  match goal with |- parse_args ?r _ = _ =>
    let r' := eval cbv -[replicate Z.to_nat PSBC_MAX_VERTEX_ATTRIBUTES PSBC_MAX_DESCRIPTOR_BINDINGS
      zero_PsbcVertexAttribute zero_PsbcDescriptorBinding negb psbc_stage_from_name] in r in
    change r with r'
  end; cbn [cmd_inputfile cmd_outputfile cmd_previousfile cmd_metadatafile cmd_entrypoint cmd_stage cmd_target
    cmd_optimise cmd_verbose cmd_ngg cmd_ps5_global_streamout cmd_force_accelerated_dot
    cmd_provoking_vtx_last cmd_raw cmd_primitive_type cmd_address32_hi].

Lemma attributes_keep_bindings l c :
  cmd_descriptor_binding_count (foldl with_attribute c l) = cmd_descriptor_binding_count c.
Proof. revert c. induction l as [|a l IH]; intros c; [done|]. simpl. by rewrite IH. Qed.

(** C16: every configuration the tool knows can be said on its command line and is
    read back exactly: the files, the stage, the target, the switches, the primitive
    type, the address half, and up to the table sizes of vertex attributes and
    descriptor bindings - provided no file name or entry point is itself the name of
    an option. *)
Theorem parsecmdoptions_command_line c stage_name primitive attributes bindings :
  expressible c stage_name primitive ->
  Forall (fun '(a, name) => attribute_ok a /\ (name, va_format a) ∈ vertex_formats) attributes ->
  Forall (fun '(b, name) => binding_ok b /\ (name, db_type b) ∈ descriptor_types) bindings ->
  Z.of_nat (length attributes) <= PSBC_MAX_VERTEX_ATTRIBUTES ->
  Z.of_nat (length bindings) <= PSBC_MAX_DESCRIPTOR_BINDINGS ->
  parsecmdoptions (command_line c stage_name primitive attributes bindings) =
    foldl with_binding (foldl with_attribute c (map fst attributes)) (map fst bindings).
Proof.
  intros [Hi Ho Hpr Hm (e & He & Hep) [Hs Hsp] Hp Ha (Cs & Cp & Cv & Cd & Tv & Td)] Hat Hbi Lat Lbi.
  destruct c. cbn in Hi, Ho, Hpr, Hm, He, Hs, Hp, Ha, Cs, Cp, Cv, Cd, Tv, Td. subst.
  unfold parsecmdoptions, command_line. cbn [valued].
  rewrite (parse_valued _ (fun v r => r <| cmd_inputfile := v |>)) by done. settle.
  rewrite (parse_valued _ (fun v r => r <| cmd_outputfile := v |>)) by done. settle.
  rewrite (parse_valued _ (fun v r => r <| cmd_previousfile := v |>)) by done. settle.
  rewrite (parse_valued _ (fun v r => r <| cmd_metadatafile := v |>)) by done. settle.
  cbn [valued app]. rewrite (parse_peek "-e" (fun r v => r <| cmd_entrypoint := Some v |>)) by done. settle.
  rewrite (parse_peek "-s" (fun r v => r <| cmd_stage := psbc_stage_from_name (Some v) |>)) by done. settle.
  rewrite parse_target. settle.
  rewrite (parse_flag _ (fun b r => r <| cmd_optimise := negb b |>)), negb_involutive by done. settle.
  rewrite (parse_flag _ (fun b r => r <| cmd_verbose := b |>)) by done. settle.
  rewrite (parse_flag _ (fun b r => r <| cmd_ngg := b |>)) by done. settle.
  rewrite (parse_flag _ (fun b r => r <| cmd_ps5_global_streamout := b |>)) by done. settle.
  rewrite (parse_flag _ (fun b r => r <| cmd_force_accelerated_dot := b |>)) by done. settle.
  rewrite (parse_flag _ (fun b r => r <| cmd_provoking_vtx_last := b |>)) by done. settle.
  rewrite (parse_flag _ (fun b r => r <| cmd_raw := b |>)) by done. settle.
  rewrite (parse_primitive_arg _ _ _ _ Hp) by done. settle.
  rewrite parse_address_arg by done. settle.
  rewrite parse_attributes by (done || lia).
  rewrite <-(app_nil_r (concat (map _ bindings))), parse_bindings; [done|done|].
  rewrite attributes_keep_bindings. simpl. lia.
Qed.

(** ** Any command line is safe *)

Lemma find_name_elem {A} (none : A) table name :
  find_name none table name = none \/ exists n, (n, find_name none table name) ∈ table.
Proof.
  induction table as [|[n a] table IH]; simpl; [by left|].
  destruct (name =? n)%string; [right; exists n; by left|].
  destruct IH as [|[n' Hn]]; [by left|]. right. exists n'. by right.
Qed.

(** An action that keeps [P], when its value is consumed only if there is room. *)
Definition action_keeps (P : CmdOptions -> Prop) (a : action) : Prop :=
  match a with
  | act_none => True
  | act_switch f => forall r, P r -> P (f r)
  | act_peek f => forall r v, P r -> P (f r v)
  | act_take missing full f =>
      (forall r, P r -> P (missing r)) /\ (forall r v, P r -> full r = false -> P (f r v))
  end.

Lemma parse_args_keeps (P : CmdOptions -> Prop) args r :
  (forall arg, action_keeps P (action_of arg)) -> (forall r, P r -> P (error r)) ->
  P r -> P (parse_args r args).
Proof.
  intros Ha He. revert r.
  induction args as [args IH] using (induction_ltof1 _ length); intros r Hr.
  unfold ltof in IH. destruct args as [|arg args]; [done|]. cbn [parse_args].
  specialize (Ha arg). destruct (action_of arg) as [f|f|missing full f|]; simpl in Ha.
  - apply IH; [simpl; lia|]. by apply Ha.
  - destruct args as [|v rest]; (apply IH; [simpl; lia|]); [done|by apply Ha].
  - destruct Ha as [Hm Hf]. destruct args as [|v rest]; [apply IH; [simpl; lia|]; by apply Hm|].
    destruct (full r) eqn:E; (apply IH; [simpl; lia|]); [by apply He|by apply Hf].
  - apply IH; [simpl; lia|done].
Qed.

(** What holds after any prefix of the arguments. *)
Record options_ok (r : CmdOptions) : Prop := {
  ok_attributes : length (cmd_vertex_attributes r) = Z.to_nat PSBC_MAX_VERTEX_ATTRIBUTES;
  ok_attribute_count : 0 <= cmd_vertex_attribute_count r <= PSBC_MAX_VERTEX_ATTRIBUTES;
  ok_bindings : length (cmd_descriptor_bindings r) = Z.to_nat PSBC_MAX_DESCRIPTOR_BINDINGS;
  ok_binding_count : 0 <= cmd_descriptor_binding_count r <= PSBC_MAX_DESCRIPTOR_BINDINGS;
  ok_address : 0 <= cmd_address32_hi r <= UINT32_MAX;
  ok_accepted : cmd_parse_error r = false ->
    (cmd_primitive_type r = 0 \/ exists name, (name, cmd_primitive_type r) ∈ primitive_types) /\
    (forall i, 0 <= i < cmd_vertex_attribute_count r ->
       let a := at_ zero_PsbcVertexAttribute (cmd_vertex_attributes r) i in
       attribute_ok a /\ va_format a <> PSBC_VERTEX_FORMAT_NONE) /\
    (forall i, 0 <= i < cmd_descriptor_binding_count r ->
       let b := at_ zero_PsbcDescriptorBinding (cmd_descriptor_bindings r) i in
       binding_ok b /\ db_type b <> PSBC_DESCRIPTOR_NONE)
}.

Lemma options_ok_error r : options_ok r -> options_ok (error r).
Proof. intros []. by split. Qed.

(** A switch or an option that leaves tables, counts, address and primitive alone. *)
Lemma options_ok_same r r' :
  cmd_vertex_attributes r' = cmd_vertex_attributes r ->
  cmd_vertex_attribute_count r' = cmd_vertex_attribute_count r ->
  cmd_descriptor_bindings r' = cmd_descriptor_bindings r ->
  cmd_descriptor_binding_count r' = cmd_descriptor_binding_count r ->
  cmd_address32_hi r' = cmd_address32_hi r -> cmd_primitive_type r' = cmd_primitive_type r ->
  cmd_parse_error r' = cmd_parse_error r -> options_ok r -> options_ok r'.
Proof. intros E1 E2 E3 E4 E5 E6 E7 []. split; rewrite ?E1, ?E2, ?E3, ?E4, ?E5, ?E6, ?E7; done. Qed.

Lemma options_ok_attribute r a :
  options_ok r -> cmd_vertex_attribute_count r < PSBC_MAX_VERTEX_ATTRIBUTES ->
  attribute_ok a -> va_format a <> PSBC_VERTEX_FORMAT_NONE -> options_ok (with_attribute r a).
Proof.
  intros [La Ca Lb Cb Ad Acc] Hc Ha Hf. split; simpl; try done; rewrite ?length_put; try done; try lia.
  intros He. destruct (Acc He) as (Hp & Hat & Hbi). split_and!; try done.
  intros i Hi. destruct (decide (i = cmd_vertex_attribute_count r)) as [->|Hne].
  - by rewrite at_put_eq by lia.
  - rewrite at_put_ne by lia. apply Hat. lia.
Qed.

Lemma options_ok_binding r b :
  options_ok r -> cmd_descriptor_binding_count r < PSBC_MAX_DESCRIPTOR_BINDINGS ->
  binding_ok b -> db_type b <> PSBC_DESCRIPTOR_NONE -> options_ok (with_binding r b).
Proof.
  intros [La Ca Lb Cb Ad Acc] Hc Ha Hf. split; simpl; try done; rewrite ?length_put; try done; try lia.
  intros He. destruct (Acc He) as (Hp & Hat & Hbi). split_and!; try done.
  intros i Hi. destruct (decide (i = cmd_descriptor_binding_count r)) as [->|Hne].
  - by rewrite at_put_eq by lia.
  - rewrite at_put_ne by lia. apply Hbi. lia.
Qed.

(** A refused entry is stored, but the error is remembered. *)
Lemma options_ok_refused_attribute r a :
  options_ok r -> cmd_vertex_attribute_count r < PSBC_MAX_VERTEX_ATTRIBUTES ->
  options_ok (error (with_attribute r a)).
Proof. intros [La Ca Lb Cb Ad Acc] Hc. split; simpl; try done; rewrite ?length_put; try done; lia. Qed.

Lemma options_ok_refused_binding r b :
  options_ok r -> cmd_descriptor_binding_count r < PSBC_MAX_DESCRIPTOR_BINDINGS ->
  options_ok (error (with_binding r b)).
Proof. intros [La Ca Lb Cb Ad Acc] Hc. split; simpl; try done; rewrite ?length_put; try done; lia. Qed.

Lemma options_ok_set_attribute r location name binding offset stride alignment divisor :
  options_ok r -> cmd_vertex_attribute_count r < PSBC_MAX_VERTEX_ATTRIBUTES ->
  u32_ok location -> u32_ok binding -> u32_ok offset -> u32_ok stride -> u32_ok alignment -> u32_ok divisor ->
  options_ok (set_attribute r location name binding offset stride alignment divisor).
Proof.
  unfold u32_ok. intros Hr Hc Hl Hb Ho Hs Ha Hd. unfold set_attribute, error_if. case_match eqn:Eb.
  - by apply options_ok_refused_attribute.
  - apply orb_false_iff in Eb as [[E1 E2]%orb_false_iff E3].
    apply bool_decide_eq_false in E3. unfold PSBC_MAX_VERTEX_ATTRIBUTES in E1.
    apply options_ok_attribute; [done..| |done].
    unfold attribute_ok, PSBC_MAX_VERTEX_ATTRIBUTES. simpl. rewrite !u8_small by lia. lia.
Qed.

Ltac in_range H :=
  match goal with |- u32_ok ?n =>
    eapply (sscanf_range _ _ n); rewrite H; repeat first [apply list_elem_of_here|apply list_elem_of_further]
  end.

Lemma options_ok_parse_attribute r v :
  options_ok r -> (cmd_vertex_attribute_count r >=? PSBC_MAX_VERTEX_ATTRIBUTES) = false ->
  options_ok (parse_attribute r v).
Proof.
  intros Hr Hc. unfold parse_attribute. pose proof (options_ok_error r Hr) as He.
  assert (cmd_vertex_attribute_count r < PSBC_MAX_VERTEX_ATTRIBUTES) as Hlt by lia.
  destruct (sscanf v attribute_format) as [|[l|w] l1] eqn:Es; try done.
  destruct l1 as [|[|w] l1]; try done. destruct l1 as [|[b|] l1]; try done.
  destruct l1 as [|[o|] l1]; try done. destruct l1 as [|[st|] l1]; try done.
  destruct l1 as [|[al|] l1]; try done. destruct l1 as [|[d|] l1]; try done.
  - apply options_ok_set_attribute; try done; in_range Es.
  - destruct l1; try done. apply options_ok_set_attribute; try done; in_range Es.
Qed.

Lemma options_ok_parse_binding r v :
  options_ok r -> (cmd_descriptor_binding_count r >=? PSBC_MAX_DESCRIPTOR_BINDINGS) = false ->
  options_ok (parse_binding r v).
Proof.
  intros Hr Hc. unfold parse_binding. pose proof (options_ok_error r Hr) as He.
  assert (cmd_descriptor_binding_count r < PSBC_MAX_DESCRIPTOR_BINDINGS) as Hlt by lia.
  destruct (sscanf v binding_format) as [|[set|] l1] eqn:Es; try done.
  destruct l1 as [|[b|] l1]; try done. destruct l1 as [|[|w] l1]; try done.
  destruct l1 as [|[n|] l1]; try done. destruct l1 as [|[o|] l1]; try done.
  destruct l1 as [|[st|] l1]; try done. destruct l1; try done.
  assert (u32_ok set /\ u32_ok b /\ u32_ok n /\ u32_ok o /\ u32_ok st) as (H1 & H2 & H3 & H4 & H5)
    by (split_and!; in_range Es).
  unfold u32_ok in *. cbv zeta. unfold error_if. case_match eqn:Eb.
  - by apply options_ok_refused_binding.
  - apply orb_false_iff in Eb as [[E1 E2]%orb_false_iff E3].
    apply bool_decide_eq_false in E3. apply negb_false_iff, Z.eqb_eq in E1, E2.
    assert (forall n, 0 <= u8 n < 256) as Hu8 by (intros k; unfold u8, wrap; apply Z.mod_pos_bound; lia).
    apply options_ok_binding; [done..| |done]. unfold binding_ok. simpl. split; [apply Hu8|]. split; [apply Hu8|done].
Qed.

Lemma options_ok_parse_primitive r v : options_ok r -> options_ok (parse_primitive r v).
Proof.
  intros [La Ca Lb Cb Ad Acc]. unfold parse_primitive, error_if.
  destruct (Z.eqb_spec (parse_primitive_type v) UINT32_MAX) as [E|E]; split; simpl; try done.
  intros He. destruct (Acc He) as (_ & Hat & Hbi). split_and!; try done. right.
  destruct (find_name_elem UINT32_MAX primitive_types v) as [|[n Hn]]; [done|]. by exists n.
Qed.

Lemma options_ok_parse_address r v : options_ok r -> options_ok (parse_address r v).
Proof.
  intros Hr. unfold parse_address. destruct (default (0, v) (strtoul 0 v)) as [n rest] eqn:E.
  case_match eqn:Eb; [by apply options_ok_error|]. apply orb_false_iff in Eb as [_ Eb].
  assert (0 <= n) as Hn.
  { destruct (strtoul 0 v) as [[n' rest']|] eqn:Es; simpl in E; injection E as <- <-; [|lia].
    by eapply strtoul_nonneg. }
  destruct Hr. split; simpl; try done. lia.
Qed.

Lemma actions_keep arg : action_keeps options_ok (action_of arg).
Proof.
  unfold action_of. match goal with |- action_keeps _ (find_name act_none ?t arg) =>
    destruct (find_name_elem act_none t arg) as [->|[n Hn]]; [done|];
    revert n Hn; generalize (find_name act_none t arg); intros a n Hn;
    assert (Forall (fun x => action_keeps options_ok x.2) t) as Hall
  end.
  { repeat (apply Forall_cons; split); [..|by apply Forall_nil]; simpl;
      try (intros r; intros; by apply (options_ok_same r)).
    - split; [apply options_ok_error|]. intros r v Hr _. by apply options_ok_parse_primitive.
    - split; [done|]. intros r v Hr _. by apply options_ok_parse_address.
    - split; [apply options_ok_error|]. apply options_ok_parse_attribute.
    - split; [apply options_ok_error|]. apply options_ok_parse_binding. }
  exact (proj1 (Forall_forall _ _) Hall _ Hn).
Qed.

Lemma parsed_options_ok argv : options_ok (parsecmdoptions argv).
Proof.
  unfold parsecmdoptions. apply (parse_args_keeps options_ok); [exact actions_keep|exact options_ok_error|].
  split; try done. intros _. split_and!; [by left|..]; intros i Hi; simpl in Hi; lia.
Qed.


(** ** What the tool writes *)

Section written.
Context `{MesaPasses} `{!MesaLaws} `{Binary.GnmFormat} (host : Host) (io : IO).

(** The request main makes of the library. *)
Definition tool_request (input : list Z) (previous : option (list Z)) : CompileRequest :=
  mk_CompileRequest (Some (words_of input)) (Z.of_nat (length input)) None
    (option_map words_of previous)
    (match previous with Some p => Z.of_nat (length p) | None => 0 end) None None 0.

Lemma compile_inputs_request opts input previous :
  compile_inputs host opts input previous =
  psbc_compile_impl host (tool_request input previous) (Some (compile_options opts)).
Proof. by destruct previous. Qed.

Lemma take_code_bytes b : take (Z.to_nat (bin_code_size b)) (code_bytes b) = code_bytes b.
Proof. unfold code_bytes, Binary.slice. by rewrite take_take, Nat.min_id. Qed.

(** The program in the output file: without a wrapper when asked, and always for NGG. *)
Definition program_of (opts : CmdOptions) (b : radv_shader_binary) (bytes : list Z) : list Z :=
  if cmd_ngg opts then code_bytes b else if cmd_raw opts then code_bytes b else bytes.

(** A finished compile leaves the program behind the output structure. *)
Lemma finished_data opts rq m m1 :
  finished host rq (compile_options opts) m m1 ->
  exists shader sg semantics push masks b bytes out,
    let context := build_context rq (compile_options opts) shader sg b semantics push masks in
    Binary.buildshaderbinary true true context (code_dwords b) = inr bytes /\
    mc_out m1 = Some out /\ write_data opts m1 out = program_of opts b bytes /\
    out_metadata out = Metadata.fill_shader_metadata context /\ out_machine_code_size out = bin_code_size b /\
    InputSemantics.semantics_wf semantics.
Proof.
  intros (rest & shader & sg & semantics & push & masks & b & bytes & d & c & _ & Hsem & _ & Hb & _ & _ & Hcd & Hm).
  exists shader, sg, semantics, push, masks, b, bytes. eexists. split; [|split; [|split]].
  - revert Hb. unfold Binary.buildshaderbinary. by repeat case_match.
  - by destruct Hm as (_ & _ & _ & ? & _).
  - assert (mc_heap m1 !! c = Some (bytes_object (code_bytes b))) as Hc.
    { eapply held_buffer; [exact Hm|]. by rewrite lookup_insert_eq. }
    assert (mc_heap m1 !! d = Some (bytes_object bytes)) as Hd.
    { eapply held_buffer; [exact Hm|]. rewrite lookup_insert_ne by done. by rewrite lookup_insert_eq. }
    unfold write_data, write_raw, program_of, bytes_at. simpl. rewrite Hc, Hd.
    destruct (cmd_ngg opts), (cmd_raw opts); cbn; try apply take_code_bytes. by rewrite Nat2Z.id, firstn_all.
  - by split_and!.
Qed.

Definition fresh_out (m : machine) : machine := m <| mc_out := Some zero_PsbcShaderOutput |>.

Lemma fresh_client m :
  mc_fault m = false -> machine_wf m -> init_wf (mc_init m) -> client_ok (fresh_out m) /\ out_empty (fresh_out m).
Proof.
  intros Hf Hw Hi. split; [split; try done|by intros out [= <-]].
  intros out [= <-]. split; [constructor|]. intros p Hp. by apply not_elem_of_nil in Hp.
Qed.

(** The metadata file of a program can be read back. *)
Lemma metadata_readable opts rq shader sg b semantics push masks out :
  options_ok opts -> InputSemantics.semantics_wf semantics ->
  out_metadata out = Metadata.fill_shader_metadata
    (build_context rq (compile_options opts) shader sg b semantics push masks) ->
  Json.parse (text_of (metadata out)) = Some (MetadataFile.metadata_json out).
Proof.
  intros Hok Hs Hm. unfold metadata. rewrite text_of_bytes. apply MetadataFile.read_metadata. rewrite Hm.
  assert (exists gfx family neo, ShaderUtil.setup_target (co_target (compile_options opts)) = (gfx, family, neo)) as
    (gfx & family & neo & Ht) by (destruct (ShaderUtil.setup_target _) as [[gfx family] neo]; by exists gfx, family, neo).
  unfold build_context. rewrite Ht. apply Metadata.fill_tables; simpl.
  - by intros s [= <-].
  - destruct Hok as [_ _ Hl Hc _ _]. rewrite Hl. unfold PSBC_MAX_DESCRIPTOR_BINDINGS in *. lia.
Qed.

(** What a successful run did: the program of a finished compile is in the output
    file, and a metadata file, when there is one, reads as the metadata of that
    program. *)
Definition tool_wrote (opts : CmdOptions) (files : list (string * list Z)) : Prop :=
  exists inputfile outputfile input previous shader sg semantics push masks b bytes out,
    let context := build_context (tool_request input previous) (compile_options opts) shader sg b
                     semantics push masks in
    cmd_inputfile opts = Some inputfile /\ cmd_outputfile opts = Some outputfile /\
    io_read io inputfile = Some input /\ option_map (io_read io) (cmd_previousfile opts) = option_map Some previous /\
    Binary.buildshaderbinary true true context (code_dwords b) = inr bytes /\
    out_metadata out = Metadata.fill_shader_metadata context /\ out_machine_code_size out = bin_code_size b /\
    Json.parse (text_of (metadata out)) = Some (MetadataFile.metadata_json out) /\
    files = (outputfile, program_of opts b bytes) ::
      option_list (option_map (fun path => (path, metadata out)) (cmd_metadatafile opts)).

Lemma write_files_success opts outputfile m1 m' files out data :
  mc_out m1 = Some out -> write_data opts m1 out = data ->
  write_files io opts outputfile m1 = (m', exit_success files) ->
  m' = (psbc_free_output m1).1 /\
  files = (outputfile, data) :: option_list (option_map (fun path => (path, metadata out)) (cmd_metadatafile opts)).
Proof.
  intros Ho Hd. unfold write_files. rewrite Ho. simpl default. rewrite Hd.
  destruct (io_write io outputfile); [|done]. simpl.
  destruct (cmd_metadatafile opts) as [path|]; [|by intros [= <- <-]].
  destruct (io_write io path); [|done]. by intros [= <- <-].
Qed.

Lemma run_compile_success opts inputfile outputfile m m' files :
  options_ok opts ->
  mc_fault m = false -> machine_wf m -> init_wf (mc_init m) ->
  cmd_inputfile opts = Some inputfile -> cmd_outputfile opts = Some outputfile ->
  run_compile host io opts inputfile outputfile m = (m', exit_success files) ->
  tool_wrote opts files /\ mc_fault m' = false /\
  (legacy_geometry (compile_options opts) = false -> mc_heap m' = mc_heap m).
Proof.
  intros Hok Hf Hw Hi Ein Eout. unfold run_compile.
  destruct (io_read io inputfile) as [input|] eqn:Er; [|done].
  destruct (fresh_client m Hf Hw Hi) as [Hc He].
  assert (forall previous, option_map (io_read io) (cmd_previousfile opts) = option_map Some previous ->
    match compile_inputs host opts input previous (fresh_out m) with
    | (m, inl r) => (m, exit_failure ("Shader compilation failed: " ++ psbc_result_string r))
    | (m, inr _) => write_files io opts outputfile m
    end = (m', exit_success files) ->
    tool_wrote opts files /\ mc_fault m' = false /\
    (legacy_geometry (compile_options opts) = false -> mc_heap m' = mc_heap m)) as Hgo.
  { intros previous Ep. rewrite compile_inputs_request.
    destruct (psbc_compile_impl host _ _ (fresh_out m)) as [m1 [r|[]]] eqn:Ei; [done|]. intros Hwf.
    pose proof (compile_outcome host (tool_request input previous) (Some (compile_options opts))
      (fresh_out m) Hw Hi) as Ho.
    rewrite Ei in Ho. destruct Ho as (o & [= <-] & Hfin).
    destruct (finished_data _ _ _ _ Hfin) as (shader & sg & semantics & push & masks & b & bytes & out & Hb & Hout & Hdata & Hmd & Hsize & Hsem).
    pose proof (metadata_readable _ _ _ _ _ _ _ _ _ Hok Hsem Hmd) as Hjson.
    destruct (write_files_success _ _ _ _ _ _ _ Hout Hdata Hwf) as [-> ->].
    pose proof (client_ok_compile _ _ _ _ _ _ Hc Ei) as Hc1.
    destruct (psbc_free_output m1) as [m2 r2] eqn:Ef. destruct (client_ok_free _ _ _ Hc1 Ef) as [Hc2 _].
    destruct (rest_of_free _ _ _ Hc1 Ef) as (Hh & _). split; [|split].
    - exists inputfile, outputfile, input, previous, shader, sg, semantics, push, masks, b, bytes, out. by split_and!.
    - by apply ok_fault.
    - intros Hl. simpl. rewrite Hh.
      refine (rest_of_impl _ _ _ _ _ _ Hc He _ Ei). by intros o' [= <-]. }
  fold (fresh_out m). destruct (cmd_previousfile opts) as [path|]; cbn [option_map].
  - destruct (io_read io path) as [p|] eqn:Ep; [|discriminate].
    change (mjoin (Some (Some p))) with (Some p). apply (Hgo (Some p)). cbn [option_map]. by rewrite Ep.
  - change (mjoin (@None (option (list Z)))) with (@None (list Z)). by apply (Hgo None).
Qed.

End written.

(** ** Examples *)

Import Sample.

(** The value of an option is read once more as an option: an entry point called -n
    also selects the PS4 Pro. *)
Example value_read_twice :
  let opts := parsecmdoptions ["psbc"; "-e"; "-n"]%string in
  cmd_entrypoint opts = Some "-n"%string /\ cmd_target opts = PSBC_TARGET_PS4_NEO.
Proof. vm_compute. done. Qed.

(** Hexadecimal addresses, and a trailing character that is refused. *)
Example address_examples :
  cmd_address32_hi (parsecmdoptions ["--address32-hi"; "0xFFFF8000"]%string) = 0xFFFF8000 /\
  cmd_parse_error (parsecmdoptions ["--address32-hi"; "12z"]%string) = true /\
  cmd_parse_error (parsecmdoptions ["--address32-hi"; "-1"]%string) = true.
Proof. vm_compute. done. Qed.

Definition sample_command : CmdOptions := initial_options
  <| cmd_inputfile := Some "a.spv"%string |> <| cmd_outputfile := Some "a.sb"%string |>
  <| cmd_stage := PSBC_STAGE_VERTEX |> <| cmd_primitive_type := 4 |> <| cmd_address32_hi := 0xffff8000 |>.

Definition sample_attribute : PsbcVertexAttribute :=
  mkPsbcVertexAttribute 3 1 PSBC_VERTEX_FORMAT_R32G32B32_FLOAT 16 32 4 0.

Definition sample_binding : PsbcDescriptorBinding :=
  mkPsbcDescriptorBinding 0 2 PSBC_DESCRIPTOR_SAMPLED_IMAGE 1 0 32.

Lemma command_line_witness :
  parsecmdoptions (command_line sample_command "vertex" (Some "triangle-list"%string)
    [(sample_attribute, "r32g32b32_float"%string)] [(sample_binding, "sampled_image"%string)]) =
  with_binding (with_attribute sample_command sample_attribute) sample_binding.
Proof.
  apply (parsecmdoptions_command_line sample_command "vertex" (Some "triangle-list"%string)
    [(sample_attribute, "r32g32b32_float"%string)] [(sample_binding, "sampled_image"%string)]).
  - split; try (intros v [= <-]; reflexivity); try discriminate.
    + exists "main"%string. split; reflexivity.
    + split; reflexivity.
    + apply list_elem_of_In. simpl. do 3 right. by left.
    + vm_compute. split; discriminate.
    + split_and!; reflexivity.
  - apply Forall_singleton. split; [vm_compute; intuition discriminate|].
    apply list_elem_of_In. simpl. do 2 right. by left.
  - apply Forall_singleton. split; [vm_compute; intuition discriminate|].
    apply list_elem_of_In. simpl. do 5 right. by left.
  - vm_compute. discriminate.
  - vm_compute. discriminate.
Defined.

(** A file system with one module in it, where everything can be written. *)
Definition sample_io : IO := {|
  io_read := fun _ => Some (concat (map Binary.le32 sample_module));
  io_write := fun _ => true
|}.

Definition sample_argv : list string := ["psbc"; "-f"; "a.spv"; "-s"; "compute"; "--raw"; "-o"; "a.bin"]%string.


End Cli.
