(* ===== verification/Specialization.v ===== *)
(** * Specialization constants on their way to the SPIR-V reader

    psbc_stubs.c replaces Mesa's vk_spec_info_to_nir_spirv and vk_spirv_version.  This
    file models the replacement, the allocation helpers of spirv_to_nir.c it calls and
    the decoration walk and constant handler that use its result, and composes them
    with the packing of prepare_stage_nir: the constants a caller sets are the ones the
    shader is read with. *)

From stdpp Require Import gmap.
From S2P Require Import Prelude Types Mesa Nir Validate Binary Setup Machine Compile.

Module Specialization.
Import Validate Compile.

(** ** Memory *)

(** Live blocks and the number of requests made; releasing a block that is not live or reading outside a buffer sets the flag. *)
Record memory : Type := mk_memory {
  mem_live : gset Z;
  mem_next : Z;
  mem_fault : bool
}.

#[export] Instance eta_memory : Eta memory := fun r =>
  mk_memory r.(mem_live) r.(mem_next) r.(mem_fault).

Definition zero_memory : memory := {|
  mem_live := ∅;
  mem_next := 0;
  mem_fault := false
|}.

(** Blocks are numbered by the requests made. *)
Definition mem_wf (m : memory) : Prop := forall p, p ∈ mem_live m -> p < mem_next m.

Definition fault_if (b : bool) (m : memory) : memory := m <| mem_fault := mem_fault m || b |>.

(** [free]; a null pointer is ignored. *)
Definition free (p : option Z) (m : memory) : memory :=
  match p with
  | None => m
  | Some p =>
      if bool_decide (p ∈ mem_live m) then m <| mem_live := mem_live m ∖ {[p]} |>
      else m <| mem_fault := true |>
  end.

(** ** nir_spirv.h *)

(** An entry; [se_data] is its block and what it holds. *)
Record nir_spirv_specialization_entry : Type := mk_nir_spirv_specialization_entry {
  se_id : Z;
  se_size : Z;
  se_data : option (Z * list Z);
  se_defined_on_module : bool
}.

#[export] Instance eta_nir_spirv_specialization_entry : Eta nir_spirv_specialization_entry := fun r =>
  mk_nir_spirv_specialization_entry r.(se_id) r.(se_size) r.(se_data)
    r.(se_defined_on_module).

Definition zero_nir_spirv_specialization_entry : nir_spirv_specialization_entry := {|
  se_id := 0;
  se_size := 0;
  se_data := None;
  se_defined_on_module := false
|}.

(** The structure, in block [sp_block], and its array, in block [sp_entries_block]. *)
Record nir_spirv_specialization : Type := mk_nir_spirv_specialization {
  sp_block : Z;
  sp_entries_block : Z;
  sp_num_entries : Z;
  sp_entries : list nir_spirv_specialization_entry
}.

#[export] Instance eta_nir_spirv_specialization : Eta nir_spirv_specialization := fun r =>
  mk_nir_spirv_specialization r.(sp_block) r.(sp_entries_block) r.(sp_num_entries)
    r.(sp_entries).

Definition zero_nir_spirv_specialization : nir_spirv_specialization := {|
  sp_block := 0;
  sp_entries_block := 0;
  sp_num_entries := 0;
  sp_entries := []
|}.

Section stubs.
(** Which of the requests for memory are granted. *)
Context (granted : Z -> bool).

Definition malloc (m : memory) : option Z * memory :=
  let p := mem_next m in
  if granted p then (Some p, m <| mem_live := {[p]} ∪ mem_live m |> <| mem_next := p + 1 |>)
  else (None, m <| mem_next := p + 1 |>).

(** ** spirv_to_nir.c: allocation *)

Definition vtn_alloc_specialization (num_entries : Z) (m : memory) :
    option nir_spirv_specialization * memory :=
  match malloc m with
  | (None, m) => (None, m)
  | (Some spec, m) =>
      match malloc m with
      | (None, m) => (None, free (Some spec) m)
      | (Some entries, m) =>
          (Some (mk_nir_spirv_specialization spec entries num_entries
                   (replicate (Z.to_nat num_entries) zero_nir_spirv_specialization_entry)), m)
      end
  end.

(** [entry_data] is the buffer and the offset the pointer has in it. *)
Definition vtn_add_specialization_entry (spec : nir_spirv_specialization) (slot entry_id entry_size : Z)
    (entry_data : list Z * Z) (defined_on_module : bool) (m : memory) :
    bool * nir_spirv_specialization * memory :=
  let old := at_ zero_nir_spirv_specialization_entry (sp_entries spec) slot in
  let m := fault_if (negb (slot <? sp_num_entries spec)) m in
  let m := fault_if (bool_decide (se_data old <> None)) m in
  let entry := old <| se_id := entry_id |> <| se_size := entry_size |>
                   <| se_defined_on_module := defined_on_module |> in
  let store e := spec <| sp_entries := <[Z.to_nat slot := e]> (sp_entries spec) |> in
  if entry_size >? 0 then
    match malloc m with
    | (None, m) => (false, store (entry <| se_data := None |>), m)
    | (Some data, m) =>
        let '(buffer, offset) := entry_data in
        let m := fault_if (Z.of_nat (length buffer) <? offset + entry_size) m in
        (true, store (entry <| se_data :=
           Some (data, take (Z.to_nat entry_size) (drop (Z.to_nat offset) buffer)) |>), m)
    end
  else (true, store entry, m).

Definition vtn_free_specialization (spec : option nir_spirv_specialization) (m : memory) : memory :=
  match spec with
  | None => m
  | Some spec =>
      let m := foldl (fun m entry => free (fst <$> se_data entry) m) m (sp_entries spec) in
      free (Some (sp_block spec)) (free (Some (sp_entries_block spec)) m)
  end.

(** ** psbc_stubs.c *)

(** The loop from entry [i]; an entry outside the data or without memory gives up
    everything allocated so far. *)
Fixpoint add_map_entries (map_entries : list (Z * Z * Z)) (data : list Z) (i : Z)
    (spec : nir_spirv_specialization) (m : memory) : option nir_spirv_specialization * memory :=
  match map_entries with
  | [] => (Some spec, m)
  | (constant_id, offset, size) :: map_entries =>
      let data_size := Z.of_nat (length data) in
      if (offset >? data_size) || (size >? data_size - offset)
      then (None, vtn_free_specialization (Some spec) m)
      else
        match vtn_add_specialization_entry spec i constant_id (u32 size) (data, offset) false m with
        | (true, spec, m) => add_map_entries map_entries data (i + 1) spec m
        | (false, spec, m) => (None, vtn_free_specialization (Some spec) m)
        end
  end.

Definition vk_spec_info_to_nir_spirv (vk_spec_info : option (list (Z * Z * Z) * list Z)) (m : memory) :
    option nir_spirv_specialization * memory :=
  match vk_spec_info with
  | None | Some ([], _) => (None, m)
  | Some (map_entries, data) =>
      match vtn_alloc_specialization (Z.of_nat (length map_entries)) m with
      | (None, m) => (None, m)
      | (Some spec, m) => add_map_entries map_entries data 0 spec m
      end
  end.
End stubs.

(** [None] is a read outside the words. *)
Definition vk_spirv_version (spirv_data : list Z) (spirv_size_B : Z) : option Z :=
  if spirv_size_B <? 4 then Some 0 else spirv_data !! 1%nat.

(** ** spirv_to_nir.c: use *)

Definition VTN_DEC_DECORATION : Z := -1.
Definition VTN_DEC_STRUCT_MEMBER0 : Z := 0.
Definition SpvDecorationSpecId : Z := 1.

(** A decoration of a value, or a group of them. *)
Inductive vtn_decoration : Type :=
| mk_vtn_decoration (scope : Z) (group : option (list vtn_decoration)) (decoration operand0 : Z).

(** vtn_fail, or a copy from or to memory that is not there. *)
Inductive vtn_stop : Type := vtn_failed | vtn_bad_access.

(** A value is the eight bytes of a nir_const_value. *)
Definition memcpy (value bytes : list Z) : vtn_stop + list Z :=
  if Z.of_nat (length bytes) >? Z.of_nat (length value) then inl vtn_bad_access
  else inr (bytes ++ drop (length bytes) value).

Definition spec_constant_decoration_cb (specialization : option nir_spirv_specialization)
    (decoration operand0 : Z) (data : list Z) : vtn_stop + list Z :=
  if negb (decoration =? SpvDecorationSpecId) then inr data
  else
    match specialization with
    | None => inr data
    | Some spec =>
        match find (fun entry => (se_id entry =? operand0) && (se_size entry >? 0)) (sp_entries spec) with
        | Some entry =>
            match se_data entry with
            | Some (_, bytes) => memcpy data bytes
            | None => inl vtn_bad_access
            end
        | None => inr data
        end
    end.

(** The walk over the decorations of a constant, which is no structure type. *)
Section foreach.
Context (cb : Z -> Z -> list Z -> vtn_stop + list Z).

Fixpoint foreach_decoration_helper (dec : vtn_decoration) (data : list Z) : vtn_stop + list Z :=
  match dec with
  | mk_vtn_decoration scope group decoration operand0 =>
      if scope =? VTN_DEC_DECORATION then
        match group with
        | Some decs =>
            (fix walk decs data :=
               match decs with
               | [] => inr data
               | dec :: decs =>
                   match foreach_decoration_helper dec data with
                   | inr data => walk decs data
                   | inl stop => inl stop
                   end
               end) decs data
        | None => cb decoration operand0 data
        end
      else if scope >=? VTN_DEC_STRUCT_MEMBER0 then inl vtn_failed
      else inr data
  end.

Definition vtn_foreach_decoration (decs : list vtn_decoration) (data : list Z) : vtn_stop + list Z :=
  foreach_decoration_helper (mk_vtn_decoration VTN_DEC_DECORATION (Some decs) 0 0) data.
End foreach.

(** The opcodes of boolean and scalar constants. *)
Inductive constant_opcode : Type :=
| SpvOpConstantTrue | SpvOpConstantFalse | SpvOpSpecConstantTrue | SpvOpSpecConstantFalse
| SpvOpConstant | SpvOpSpecConstant.

(** The result type: OpTypeBool, a scalar of some width, or anything else. *)
Inductive constant_type : Type := bool_type | scalar_type (bit_size : Z) | other_type.

Definition is_spec (opcode : constant_opcode) : bool :=
  match opcode with SpvOpSpecConstantTrue | SpvOpSpecConstantFalse | SpvOpSpecConstant => true | _ => false end.

(** A nir_const_value with the given unsigned value and zeros above it. *)
Definition const_value (x : Z) : list Z := Binary.le_bytes 8 x.

(** [values[0].u32] *)
Definition read_u32 (value : list Z) : Z :=
  at_ 0 value 0 + 2 ^ 8 * at_ 0 value 1 + 2 ^ 16 * at_ 0 value 2 + 2 ^ 24 * at_ 0 value 3.

(** The literal [w[3]], [w[4]] of a constant of the given width. *)
Definition literal_value (bit_size w3 w4 : Z) : option (list Z) :=
  if bit_size =? 64 then Some (const_value (Z.lor (u64 (w4 ≪ 32)) w3))
  else if bit_size =? 32 then Some (const_value (u32 w3))
  else if bit_size =? 16 then Some (const_value (u16 w3))
  else if bit_size =? 8 then Some (const_value (u8 w3))
  else None.

(** The boolean and scalar cases of vtn_handle_constant: [values[0]] of the constant. *)
Definition vtn_handle_constant (specialization : option nir_spirv_specialization)
    (opcode : constant_opcode) (type : constant_type) (w3 w4 : Z) (decs : list vtn_decoration) :
    vtn_stop + list Z :=
  let decorate value :=
    if is_spec opcode
    then vtn_foreach_decoration (spec_constant_decoration_cb specialization) decs value
    else inr value in
  match opcode with
  | SpvOpConstant | SpvOpSpecConstant =>
      match type with
      | scalar_type bit_size =>
          match literal_value bit_size w3 w4 with
          | Some value => decorate value
          | None => inl vtn_failed
          end
      | _ => inl vtn_failed
      end
  | _ =>
      match type with
      | bool_type =>
          let bval := match opcode with SpvOpConstantTrue | SpvOpSpecConstantTrue => 1 | _ => 0 end in
          match decorate (const_value bval) with
          | inr u32val => inr (const_value (if read_u32 u32val =? 0 then 0 else 1))
          | inl stop => inl stop
          end
      | _ => inl vtn_failed
      end
  end.

(** * Memory *)

Section holds.
Context (m0 : memory) (Hm0 : mem_wf m0).

(** Since [m0], exactly [blocks] were obtained and not released, without a fault. *)
Definition holds (blocks : list Z) (m : memory) : Prop :=
  mem_fault m = mem_fault m0 /\ mem_live m = mem_live m0 ∪ list_to_set blocks /\ NoDup blocks /\
  Forall (fun p => mem_next m0 <= p < mem_next m) blocks /\ mem_next m0 <= mem_next m.

Lemma holds_start : holds [] m0.
Proof. split_and!; [done|set_solver|constructor|constructor|lia]. Qed.

Lemma holds_perm blocks blocks' m : blocks ≡ₚ blocks' -> holds blocks m -> holds blocks' m.
Proof.
  intros Hp (Hf & Hl & Hn & Hb & Hx). split_and!; [done| | | |done].
  - rewrite Hl. f_equal. apply leibniz_equiv. by rewrite Hp.
  - by rewrite <-Hp.
  - by rewrite <-Hp.
Qed.

(** Nothing held: the live blocks are the ones there were. *)
Lemma holds_nothing m : holds [] m -> mem_live m = mem_live m0 /\ mem_fault m = mem_fault m0.
Proof. intros (-> & -> & _). split; [set_solver|done]. Qed.

Lemma holds_no_fault blocks b m : holds blocks m -> b = false -> holds blocks (fault_if b m).
Proof. intros (Hf & H) ->. split; [by cbn; rewrite orb_false_r|exact H]. Qed.

Lemma free_holds p blocks m : holds (p :: blocks) m -> holds blocks (free (Some p) m).
Proof.
  intros (Hf & Hl & [Hp Hn]%NoDup_cons & [Hr Hb]%Forall_cons & Hx). unfold free.
  rewrite bool_decide_true by set_solver. split_and!; try done. cbn. rewrite Hl.
  assert (p ∉ mem_live m0) by (intros ?%Hm0; lia). set_solver.
Qed.

(** A request, granted or not. *)
Lemma malloc_holds granted blocks m r m' :
  holds blocks m -> malloc granted m = (r, m') ->
  mem_next m' = mem_next m + 1 /\
  match r with
  | Some p => holds (p :: blocks) m'
  | None => holds blocks m' /\ granted (mem_next m) = false
  end.
Proof.
  intros (Hf & Hl & Hn & Hb & Hx). unfold malloc.
  destruct (granted (mem_next m)); intros [= <- <-]; (split; [done|]).
  - split_and!; cbn; [done|set_solver| | |lia].
    + constructor; [|done]. intros Hin. rewrite Forall_forall in Hb. apply Hb in Hin. lia.
    + constructor; [lia|]. eapply Forall_impl; [exact Hb|]. cbn. lia.
  - split; [|done]. split_and!; cbn; try done; [|lia]. eapply Forall_impl; [exact Hb|]. cbn. lia.
Qed.

(** The blocks of a specialization. *)
Definition entry_block (entry : nir_spirv_specialization_entry) : option Z := fst <$> se_data entry.
Definition blocks_of (spec : nir_spirv_specialization) : list Z :=
  omap entry_block (sp_entries spec) ++ [sp_entries_block spec; sp_block spec].

Lemma free_entries_holds entries blocks m :
  holds (omap entry_block entries ++ blocks) m ->
  holds blocks (foldl (fun m entry => free (fst <$> se_data entry) m) m entries).
Proof.
  revert m. induction entries as [|e entries IH]; intros m Hm; [done|]. cbn [foldl]. apply IH.
  cbn in Hm. unfold entry_block in Hm at 1. destruct (fst <$> se_data e); [by apply free_holds|done].
Qed.

(** Releasing a specialization releases everything it was given, once. *)
Lemma free_specialization_holds spec m :
  holds (blocks_of spec) m -> holds [] (vtn_free_specialization (Some spec) m).
Proof. intros Hm. apply free_holds, free_holds, free_entries_holds, Hm. Qed.

(** The entry made of a map entry: its bytes are copied out of the data. *)
Definition entry_of (data : list Z) (map_entry : Z * Z * Z) (entry : nir_spirv_specialization_entry) : Prop :=
  let '(constant_id, offset, size) := map_entry in
  se_id entry = constant_id /\ se_size entry = u32 size /\ se_defined_on_module entry = false /\
  snd <$> se_data entry =
    if u32 size >? 0 then Some (take (Z.to_nat (u32 size)) (drop (Z.to_nat offset) data)) else None.

(** What the loop of the stub checks of a map entry. *)
Definition inside (data : list Z) (map_entry : Z * Z * Z) : Prop :=
  let '(_, offset, size) := map_entry in
  0 <= offset /\ 0 <= size /\ offset + size <= Z.of_nat (length data).

Definition unsigned (map_entry : Z * Z * Z) : Prop :=
  let '(_, offset, size) := map_entry in 0 <= offset /\ 0 <= size.

Lemma list_insert_middle {A} (l1 l2 : list A) x y : <[length l1 := y]> (l1 ++ x :: l2) = l1 ++ y :: l2.
Proof. by rewrite insert_app_r_alt, Nat.sub_diag by lia. Qed.

Lemma omap_replicate_None {A B} (f : A -> option B) n x : f x = None -> omap f (replicate n x) = [].
Proof. intros Hf. induction n as [|n IH]; [done|]. cbn. by rewrite Hf. Qed.

Lemma blocks_of_set spec filled e e' rest block :
  sp_entries spec = filled ++ e :: rest -> se_data e = None ->
  entry_block e' = block ->
  blocks_of (spec <| sp_entries := <[length filled := e']> (sp_entries spec) |>) ≡ₚ
    option_list block ++ blocks_of spec.
Proof.
  intros He Hd Hb. unfold blocks_of. cbn. rewrite He, list_insert_middle, !omap_app. cbn.
  assert (entry_block e = None) as -> by (unfold entry_block; by rewrite Hd).
  rewrite Hb. destruct block; cbn; [|done]. rewrite <-!app_assoc. cbn. by rewrite <-Permutation_middle.
Qed.

(** Filling the first free slot. *)
Lemma add_entry_holds granted spec filled rest data constant_id offset size m ok spec' m' :
  holds (blocks_of spec) m -> sp_entries spec = filled ++ zero_nir_spirv_specialization_entry :: rest ->
  sp_num_entries spec = Z.of_nat (length (sp_entries spec)) -> inside data (constant_id, offset, size) ->
  vtn_add_specialization_entry granted spec (Z.of_nat (length filled)) constant_id (u32 size) (data, offset)
    false m = (ok, spec', m') ->
  holds (blocks_of spec') m' /\ mem_next m <= mem_next m' /\ sp_num_entries spec' = sp_num_entries spec /\
  if ok : bool
  then exists e, sp_entries spec' = filled ++ e :: rest /\ entry_of data (constant_id, offset, size) e
  else granted (mem_next m) = false /\ mem_next m' = mem_next m + 1.
Proof.
  intros Hm He Hn (Ho & Hs & Hin). unfold vtn_add_specialization_entry.
  set (old := at_ _ _ _). assert (old = zero_nir_spirv_specialization_entry) as ->.
  { unfold old, at_. rewrite He, Nat2Z.id, app_nth2, Nat.sub_diag by lia. done. }
  pose proof (wrap_range 32 size) as Hw.
  assert (u32 size <= size) by (unfold u32, wrap; apply Z.mod_le; lia).
  apply (holds_no_fault _ (negb (Z.of_nat (length filled) <? sp_num_entries spec))) in Hm.
  2: { rewrite Hn, He, length_app. cbn. apply negb_false_iff, Z.ltb_lt. lia. }
  apply (holds_no_fault _ (bool_decide (se_data zero_nir_spirv_specialization_entry <> None))) in Hm; [|done].
  destruct (u32 size >? 0) eqn:Hpos; [destruct (malloc _ _) as [[p|] m1] eqn:Ea|]; intros [= <- <- <-];
    rewrite ?Nat2Z.id.
  - destruct (malloc_holds _ _ _ _ _ Hm Ea) as [Hx Hh]. cbn in Hx. split_and!; [|cbn; lia|done|].
    + eapply holds_perm; [symmetry; by eapply (blocks_of_set _ _ _ _ _ (Some p))|].
      apply holds_no_fault; [done|]. apply Z.ltb_ge. lia.
    + eexists. cbn. rewrite He, list_insert_middle. split; [done|]. unfold entry_of. by rewrite Hpos.
  - destruct (malloc_holds _ _ _ _ _ Hm Ea) as [Hx [Hh Hg]]. cbn in Hx. split_and!; [|lia|done|done|done].
    eapply holds_perm; [symmetry; by eapply (blocks_of_set _ _ _ _ _ None)|done].
  - split_and!; [|cbn; lia|done|].
    + eapply holds_perm; [symmetry; by eapply (blocks_of_set _ _ _ _ _ None)|done].
    + eexists. cbn. rewrite He, list_insert_middle. split; [done|]. unfold entry_of. by rewrite Hpos.
Qed.

Lemma free_next p m : mem_next (free p m) = mem_next m.
Proof. unfold free. destruct p; [|done]. by case_bool_decide. Qed.

Lemma free_specialization_next spec m : mem_next (vtn_free_specialization (Some spec) m) = mem_next m.
Proof.
  unfold vtn_free_specialization. rewrite !free_next. generalize (sp_entries spec) as l. intros l. revert m.
  induction l as [|e l IH]; intros m; [done|]. cbn [foldl]. by rewrite IH, free_next.
Qed.

(** The whole loop: an entry per map entry, or nothing. *)
Lemma add_map_entries_holds granted data map_entries filled spec m :
  Forall unsigned map_entries -> holds (blocks_of spec) m ->
  sp_entries spec = filled ++ replicate (length map_entries) zero_nir_spirv_specialization_entry ->
  sp_num_entries spec = Z.of_nat (length (sp_entries spec)) ->
  match add_map_entries granted map_entries data (Z.of_nat (length filled)) spec m with
  | (Some spec', m') =>
      holds (blocks_of spec') m' /\ Forall (inside data) map_entries /\
      exists entries, sp_entries spec' = filled ++ entries /\ Forall2 (entry_of data) map_entries entries
  | (None, m') =>
      holds [] m' /\
      (~ Forall (inside data) map_entries \/ exists n, mem_next m <= n < mem_next m' /\ granted n = false)
  end.
Proof.
  revert filled spec m. induction map_entries as [|[[id off] size] l IH]; intros filled spec m Hu Hm He Hn;
    cbn [add_map_entries].
  { split; [done|]. split; [done|]. by exists []. }
  apply Forall_cons in Hu as [[Ho Hs] Hu].
  destruct (_ || _) eqn:Hout.
  { split; [by apply free_specialization_holds|]. left. intros [Hin _]%Forall_cons. cbn in Hin. 
    rewrite orb_true_iff, !Z.gtb_lt in Hout. lia. }
  apply orb_false_iff in Hout as [Hout1 Hout2]. rewrite Z.gtb_ltb, Z.ltb_ge in Hout1, Hout2.
  assert (Hin : inside data (id, off, size)) by (cbn; lia).
  destruct (vtn_add_specialization_entry _ _ _ _ _ _ _ _) as [[ok spec'] m'] eqn:Ea.
  destruct (add_entry_holds _ _ _ _ _ _ _ _ _ _ _ _ Hm He Hn Hin Ea) as (Hh & Hx & Hn' & Hok).
  destruct ok; cycle 1.
  { split; [by apply free_specialization_holds|]. right. exists (mem_next m). destruct Hok as [Hg Hx'].
    split; [|done]. rewrite free_specialization_next. lia. }
  destruct Hok as (e & He' & Hent). specialize (IH (filled ++ [e]) spec' m' Hu Hh).
  rewrite length_app, Nat2Z.inj_add, He', <-app_assoc in IH. specialize (IH eq_refl).
  rewrite Hn', Hn, He, !length_app in IH. specialize (IH eq_refl).
  change (Z.of_nat (length [e])) with 1 in IH.
  destruct (add_map_entries _ _ _ _ _ _) as [[spec2|] m2].
  - destruct IH as (Hh2 & Hin2 & entries & He2 & Hf). split; [done|]. split; [by constructor|].
    exists (e :: entries). split; [by rewrite He2, <-app_assoc|by constructor].
  - destruct IH as [Hh2 [Hno|(n & Hb & Hg)]]; (split; [done|]).
    + left. by intros [_ ?]%Forall_cons.
    + right. exists n. split; [lia|done].
Qed.

(** The stub as a whole. *)
Lemma vk_spec_info_holds granted map_entries data :
  Forall unsigned map_entries -> map_entries <> [] ->
  match vk_spec_info_to_nir_spirv granted (Some (map_entries, data)) m0 with
  | (Some spec, m) =>
      holds (blocks_of spec) m /\ Forall (inside data) map_entries /\
      Forall2 (entry_of data) map_entries (sp_entries spec)
  | (None, m) =>
      holds [] m /\
      (~ Forall (inside data) map_entries \/ exists n, mem_next m0 <= n < mem_next m /\ granted n = false)
  end.
Proof.
  intros Hu Hne. unfold vk_spec_info_to_nir_spirv, vtn_alloc_specialization.
  destruct map_entries as [|x l] eqn:Hl; [done|]. rewrite <-Hl in *. clear Hne.
  destruct (malloc granted m0) as [[p|] m1] eqn:E1.
  all: destruct (malloc_holds _ _ _ _ _ holds_start E1) as [Hx1 H1].
  2: { destruct H1. split; [done|]. right. exists (mem_next m0). split; [lia|done]. }
  destruct (malloc granted m1) as [[q|] m2] eqn:E2.
  all: destruct (malloc_holds _ _ _ _ _ H1 E2) as [Hx2 H2].
  2: { destruct H2. split; [by apply free_holds|]. right. exists (mem_next m1).
       rewrite free_next. split; [lia|done]. }
  set (spec := mk_nir_spirv_specialization _ _ _ _).
  assert (Hb : holds (blocks_of spec) m2).
  { unfold blocks_of, spec. cbn [sp_entries sp_entries_block sp_block].
    rewrite omap_replicate_None by done. exact H2. }
  pose proof (add_map_entries_holds granted data map_entries [] spec m2 Hu Hb) as Hadd.
  unfold spec in Hadd at 1 2 3. cbn [sp_entries sp_num_entries] in Hadd.
  rewrite Nat2Z.id, length_replicate in Hadd. specialize (Hadd eq_refl eq_refl).
  cbn [length] in Hadd. change (Z.of_nat 0) with 0 in Hadd.
  destruct (add_map_entries _ _ _ _ _ _) as [[spec2|] m3].
  - destruct Hadd as (? & ? & entries & -> & ?). done.
  - destruct Hadd as (? & [?|(n & ? & ?)]); (split; [done|]); [by left|right]. exists n. split; [lia|done].
Qed.
End holds.

(** * Decorations *)

(** The SpecId operands in the order the walk meets them; [None] for a member
    decoration, which the walk refuses. *)
Fixpoint spec_ids_of (dec : vtn_decoration) : option (list Z) :=
  match dec with
  | mk_vtn_decoration scope group decoration operand0 =>
      if scope =? VTN_DEC_DECORATION then
        match group with
        | Some decs =>
            (fix walk decs :=
               match decs with
               | [] => Some []
               | dec :: decs =>
                   match spec_ids_of dec, walk decs with
                   | Some ids, Some ids' => Some (ids ++ ids')
                   | _, _ => None
                   end
               end) decs
        | None => Some (if decoration =? SpvDecorationSpecId then [operand0] else [])
        end
      else if scope >=? VTN_DEC_STRUCT_MEMBER0 then None
      else Some []
  end.

Definition spec_ids (decs : list vtn_decoration) : option (list Z) :=
  spec_ids_of (mk_vtn_decoration VTN_DEC_DECORATION (Some decs) 0 0).

(** The constants of the given ids, one after the other. *)
Fixpoint specialize (spec : option nir_spirv_specialization) (ids : list Z) (data : list Z) :
    vtn_stop + list Z :=
  match ids with
  | [] => inr data
  | id :: ids =>
      match spec_constant_decoration_cb spec SpvDecorationSpecId id data with
      | inr data => specialize spec ids data
      | inl stop => inl stop
      end
  end.

Lemma specialize_app spec ids ids' data :
  specialize spec (ids ++ ids') data =
    match specialize spec ids data with inr data => specialize spec ids' data | inl stop => inl stop end.
Proof.
  revert data. induction ids as [|id ids IH]; intros data; [done|]. cbn [app specialize].
  destruct (spec_constant_decoration_cb _ _ _ _); [done|apply IH].
Qed.

(** The walk, groups included, applies the constants of the ids it meets. *)
Lemma foreach_specialize spec dec ids data :
  spec_ids_of dec = Some ids ->
  foreach_decoration_helper (spec_constant_decoration_cb spec) dec data = specialize spec ids data.
Proof.
  revert dec ids data. fix IH 1. intros [scope [decs|] decoration operand0] ids data; cbn.
  - destruct (scope =? _); [|destruct (scope >=? _); [done|by intros [= <-]]].
    revert decs ids data. fix IHl 1. intros [|dec decs] ids data; [by intros [= <-]|].
    destruct (spec_ids_of dec) as [ids1|] eqn:E1; [|done].
    match goal with |- context [match ?w decs with _ => _ end] => destruct (w decs) as [ids2|] eqn:E2; [|done] end.
    intros [= <-]. rewrite specialize_app, (IH dec ids1 data E1).
    destruct (specialize spec ids1 data); [done|]. by apply IHl.
  - destruct (scope =? _); [|destruct (scope >=? _); [done|by intros [= <-]]].
    intros [= <-]. destruct (decoration =? _) eqn:E.
    + apply Z.eqb_eq in E as ->. cbn [specialize]. by destruct (spec_constant_decoration_cb _ _ _ _).
    + unfold spec_constant_decoration_cb. by rewrite E.
Qed.

(** * From the options to the reader *)

(** What the fixed arrays of the options hold. *)
Definition constant_fields (e : PsbcSpecializationConstant) : Prop :=
  length (sc_data e) = 8%nat /\ 0 <= sc_size e /\ Forall (fun b => 0 <= b < 256) (sc_data e).

(** The bytes a caller gave for a constant. *)
Definition constant_bytes (e : PsbcSpecializationConstant) : list Z :=
  take (Z.to_nat (sc_size e)) (sc_data e).

Definition carries (e : PsbcSpecializationConstant) (entry : nir_spirv_specialization_entry) : Prop :=
  se_id entry = sc_constant_id e /\ se_size entry = sc_size e /\ snd <$> se_data entry = Some (constant_bytes e).

(** The reader finds the constants [used] and no others. *)
Definition delivers (used : list PsbcSpecializationConstant) (spec : option nir_spirv_specialization) : Prop :=
  (forall e v, e ∈ used -> length v = 8%nat ->
     spec_constant_decoration_cb spec SpvDecorationSpecId (sc_constant_id e) v =
       inr (constant_bytes e ++ drop (length (constant_bytes e)) v)) /\
  (forall id v, id ∉ map sc_constant_id used ->
     spec_constant_decoration_cb spec SpvDecorationSpecId id v = inr v).

Lemma find_carried used entries e :
  Forall2 carries used entries -> Forall constant_wf used -> NoDup (map sc_constant_id used) -> e ∈ used ->
  exists entry, carries e entry /\
    find (fun entry => (se_id entry =? sc_constant_id e) && (se_size entry >? 0)) entries = Some entry.
Proof.
  induction 1 as [|x entry used entries (Hid & Hsize & Hdata) _ IH]; [by intros _ _ ?%elem_of_nil|].
  intros [Hx Hwf]%Forall_cons [Hnew Hnd]%NoDup_cons [->|He]%elem_of_cons.
  - exists entry. split; [done|]. cbn [find]. rewrite Hid, Hsize, Z.eqb_refl.
    destruct Hx as [_ Hx]. destruct (sc_size x >? 0) eqn:E; [done|].
    rewrite Z.gtb_ltb, Z.ltb_ge in E. lia.
  - destruct (IH Hwf Hnd He) as (y & Hy & Hf). exists y. split; [done|]. cbn [find]. rewrite Hid.
    destruct (Z.eqb_spec (sc_constant_id x) (sc_constant_id e)) as [E|]; [|done].
    destruct Hnew. rewrite E. by apply list_elem_of_fmap_2.
Qed.

Lemma find_not_carried used entries id :
  Forall2 carries used entries -> id ∉ map sc_constant_id used ->
  find (fun entry => (se_id entry =? id) && (se_size entry >? 0)) entries = None.
Proof.
  induction 1 as [|x entry used entries (Hid & _) _ IH]; [done|]. intros Hn. cbn [find].
  rewrite Hid. destruct (Z.eqb_spec (sc_constant_id x) id) as [<-|]; [|apply IH; set_solver].
  destruct Hn. cbn. set_solver.
Qed.

Lemma length_constant_bytes e : constant_wf e -> length (constant_bytes e) = Z.to_nat (sc_size e).
Proof.
  intros [Hl Hs]. unfold constant_bytes, PSBC_MAX_SPECIALIZATION_BYTES in *. rewrite length_take. lia.
Qed.

Lemma entries_deliver used spec :
  Forall2 carries used (sp_entries spec) -> Forall constant_wf used -> NoDup (map sc_constant_id used) ->
  delivers used (Some spec).
Proof.
  intros Hf Hwf Hnd. split.
  - intros e v He Hv. destruct (find_carried _ _ _ Hf Hwf Hnd He) as (entry & (_ & _ & Hd) & Hfind).
    rewrite Forall_forall in Hwf. specialize (Hwf e He). pose proof (length_constant_bytes e Hwf) as Hl.
    destruct Hwf as [_ Hs]. unfold PSBC_MAX_SPECIALIZATION_BYTES in Hs.
    unfold spec_constant_decoration_cb. cbn [negb]. rewrite Z.eqb_refl, Hfind. cbn [negb].
    destruct (se_data entry) as [[p bytes]|]; [|done]. injection Hd as ->. unfold memcpy.
    rewrite Z.gtb_ltb. destruct (Z.ltb_spec (Z.of_nat (length v)) (Z.of_nat (length (constant_bytes e)))); [lia|done].
  - intros id v Hid. unfold spec_constant_decoration_cb. rewrite Z.eqb_refl. cbn [negb].
    by rewrite (find_not_carried _ _ _ Hf Hid).
Qed.

Lemma nothing_delivered : delivers [] None.
Proof. split; [by intros ? ? ?%elem_of_nil|]. intros id v _. reflexivity. Qed.

(** Packed, checked and copied, the constants arrive. *)
Lemma packed_carried used entries :
  Forall constant_wf used ->
  Forall2 (entry_of (pack_specialization used).2) (pack_specialization used).1 entries ->
  Forall2 carries used entries.
Proof.
  intros Hwf Hf. pose proof (pack_specialization_roundtrip used Hwf) as Hp.
  destruct (pack_specialization used) as [map_entries data]. cbn in Hf. destruct Hp as [_ Hp].
  revert entries Hf. induction Hp as [|e [[id off] size] used map_entries (-> & -> & _ & _ & Hb) _ IH];
    intros entries Hf; apply Forall2_cons_inv_l in Hf || apply Forall2_nil_inv_l in Hf as ->; [constructor|].
  destruct Hf as (entry & entries' & (Hid & Hsize & _ & Hdata) & Hf & ->).
  apply Forall_cons in Hwf as [[Hl Hs] Hwf]. unfold PSBC_MAX_SPECIALIZATION_BYTES in Hs.
  rewrite wrap_id in Hsize, Hdata by (unfold in_width; lia).
  constructor; [|by apply IH]. split_and!; [done|done|]. rewrite Hdata.
  destruct (sc_size e >? 0) eqn:E; [by rewrite Hb|]. rewrite Z.gtb_ltb, Z.ltb_ge in E. lia.
Qed.

Lemma packed_inside used :
  Forall constant_wf used ->
  Forall (inside (pack_specialization used).2) (pack_specialization used).1 /\
  Forall unsigned (pack_specialization used).1 /\ length (pack_specialization used).1 = length used.
Proof.
  intros Hwf. pose proof (pack_specialization_roundtrip used Hwf) as Hp.
  destruct (pack_specialization used) as [map_entries data]. cbn. destruct Hp as [_ Hp]. split; [|split].
  - eapply Forall2_Forall_r; [exact Hp|]. eapply Forall_impl; [exact Hwf|].
    intros e [_ Hs] [[id off] size] (_ & -> & Ho & Hle & _). cbn. lia.
  - eapply Forall2_Forall_r; [exact Hp|]. eapply Forall_impl; [exact Hwf|].
    intros e [_ Hs] [[id off] size] (_ & -> & Ho & Hle & _). cbn. lia.
  - symmetry. by eapply Forall2_length.
Qed.

(** The constants of options that pass the guard. *)
Definition used_constants (opts : PsbcCompileOptions) : list PsbcSpecializationConstant :=
  take (Z.to_nat (co_specialization_constant_count opts)) (co_specialization_constants opts).

Definition options_constants (opts : PsbcCompileOptions) : Prop :=
  0 <= co_specialization_constant_count opts /\
  length (co_specialization_constants opts) = Z.to_nat PSBC_MAX_SPECIALIZATION_CONSTANTS /\
  Forall constant_fields (co_specialization_constants opts).

Lemma used_constants_ok opts :
  options_constants opts ->
  specialization_parameters_valid (co_specialization_constant_count opts) (co_specialization_constants opts) = true ->
  Forall constant_wf (used_constants opts) /\ NoDup (map sc_constant_id (used_constants opts)) /\
  specialization_entries opts = used_constants opts /\
  length (used_constants opts) = Z.to_nat (co_specialization_constant_count opts).
Proof.
  intros (Hc & Hl & Hf) Hv. apply specialization_parameters_valid_exact in Hv as (Hle & Hs & Hnd); [|done|done].
  unfold PSBC_MAX_SPECIALIZATION_CONSTANTS in *. split_and!; [|exact Hnd| |].
  - apply Forall_forall. intros e He. rewrite Forall_forall in Hs, Hf. specialize (Hs e He).
    destruct (Hf e) as (? & ? & _); [by eapply subseteq_take|]. split; [done|]. lia.
  - unfold specialization_entries, used_constants.
    pose proof (map_at_take zero_PsbcSpecializationConstant id (co_specialization_constants opts)
      (co_specialization_constant_count opts) ltac:(lia)) as Hm.
    rewrite map_id in Hm. exact Hm.
  - unfold used_constants. rewrite length_take. lia.
Qed.

(** ** The value of a constant *)

(** The truth value of the 32-bit word a boolean constant is read from. *)
Definition constant_truth (e : PsbcSpecializationConstant) : bool :=
  existsb (fun b => negb (b =? 0)) (take 4 (constant_bytes e)).

Lemma le_bytes_above k x :
  0 <= x < 2 ^ (8 * Z.of_nat k) -> (k <= 8)%nat -> drop k (const_value x) = replicate (8 - k) 0.
Proof.
  intros Hx Hk. apply list_eq. intros i. unfold const_value, Binary.le_bytes. rewrite lookup_drop, list_lookup_fmap.
  destruct (decide (k + i < 8)%nat) as [Hi|Hi].
  - rewrite lookup_seqZ_lt, lookup_replicate_2 by lia. cbn. f_equal. unfold wrap.
    rewrite Z.shiftr_div_pow2 by lia. rewrite Z.div_small; [done|]. split; [lia|].
    eapply Z.lt_le_trans; [apply Hx|]. apply Z.pow_le_mono_r; lia.
  - rewrite lookup_seqZ_ge by lia. cbn. symmetry. apply lookup_replicate_None. lia.
Qed.

Lemma literal_value_above k w3 w4 v :
  In k [1; 2; 4; 8]%nat -> literal_value (8 * Z.of_nat k) w3 w4 = Some v ->
  length v = 8%nat /\ drop k v = replicate (8 - k) 0.
Proof.
  intros Hk Hv. split.
  - unfold literal_value in Hv. repeat case_match; try done; injection Hv as <-; apply Binary.length_le_bytes.
  - repeat destruct Hk as [<-|Hk]; [..|done]; cbn in Hv; injection Hv as <-;
      try (apply le_bytes_above; [|lia]; apply (wrap_range _ w3); lia).
    by rewrite drop_ge by (unfold const_value; by rewrite Binary.length_le_bytes).
Qed.

Lemma read_u32_zero v :
  Forall (fun b => 0 <= b) v -> (4 <= length v)%nat ->
  (read_u32 v =? 0) = negb (existsb (fun b => negb (b =? 0)) (take 4 v)).
Proof.
  intros Hf Hl. destruct v as [|a [|b [|c [|d v]]]]; cbn in Hl; try lia.
  change (read_u32 _) with (a + 2 ^ 8 * b + 2 ^ 16 * c + 2 ^ 24 * d).
  rewrite !Forall_cons in Hf. destruct Hf as (Ha & Hb & Hc & Hd & _). cbn [take existsb].
  destruct (Z.eqb_spec a 0), (Z.eqb_spec b 0), (Z.eqb_spec c 0), (Z.eqb_spec d 0); cbn [negb orb];
    apply Z.eqb_eq || apply Z.eqb_neq; lia.
Qed.

Lemma existsb_zeros n : existsb (fun b => negb (b =? 0)) (replicate n 0) = false.
Proof. by induction n. Qed.

(** The walk writes the constant's bytes over the value. *)
Lemma decorated used spec e decs v :
  delivers used spec -> e ∈ used -> spec_ids decs = Some [sc_constant_id e] -> length v = 8%nat ->
  vtn_foreach_decoration (spec_constant_decoration_cb spec) decs v =
    inr (constant_bytes e ++ drop (length (constant_bytes e)) v).
Proof.
  intros [Hd _] He Hids Hv. unfold vtn_foreach_decoration. rewrite (foreach_specialize _ _ _ _ Hids).
  cbn [specialize]. by rewrite Hd.
Qed.

Lemma undecorated used spec ids v :
  delivers used spec -> (forall id, id ∈ ids -> id ∉ map sc_constant_id used) -> specialize spec ids v = inr v.
Proof.
  intros [_ Hd]. induction ids as [|id ids IH]; intros Hids; [done|]. cbn [specialize].
  rewrite Hd by (apply Hids; set_solver). apply IH. set_solver.
Qed.

Lemma handle_scalar used spec e decs w3 w4 :
  delivers used spec -> e ∈ used -> constant_wf e -> In (sc_size e) [1; 2; 4; 8] ->
  spec_ids decs = Some [sc_constant_id e] ->
  vtn_handle_constant spec SpvOpSpecConstant (scalar_type (8 * sc_size e)) w3 w4 decs =
    inr (constant_bytes e ++ replicate (8 - length (constant_bytes e)) 0).
Proof.
  intros Hd He Hwf Hs Hids. unfold vtn_handle_constant. cbn [is_spec].
  assert (In (Z.to_nat (sc_size e)) [1; 2; 4; 8]%nat) as Hk.
  { repeat destruct Hs as [<-|Hs]; cbn; tauto. }
  pose proof (length_constant_bytes e Hwf) as Hl.
  destruct (literal_value (8 * sc_size e) w3 w4) as [v|] eqn:Ev.
  - rewrite <-(Z2Nat.id (sc_size e)) in Ev by (destruct Hwf; lia).
    destruct (literal_value_above _ _ _ _ Hk Ev) as [Hv Hz].
    rewrite (decorated _ _ _ _ _ Hd He Hids Hv), Hl, Hz. done.
  - by repeat destruct Hs as [Hs|Hs]; rewrite <-?Hs in Ev.
Qed.

Lemma handle_bool used spec e decs opcode w3 w4 :
  delivers used spec -> e ∈ used -> constant_wf e -> constant_fields e ->
  spec_ids decs = Some [sc_constant_id e] ->
  opcode = SpvOpSpecConstantTrue \/ opcode = SpvOpSpecConstantFalse ->
  vtn_handle_constant spec opcode bool_type w3 w4 decs = inr (const_value (if constant_truth e then 1 else 0)).
Proof.
  intros Hd He Hwf (_ & _ & Hb) Hids Ho. pose proof (length_constant_bytes e Hwf) as Hl.
  destruct Hwf as [Hl8 Hs]. unfold PSBC_MAX_SPECIALIZATION_BYTES in *.
  assert (Hgo : forall bval, 0 <= bval <= 1 ->
    match vtn_foreach_decoration (spec_constant_decoration_cb spec) decs (const_value bval) with
    | inr u32val => inr (const_value (if read_u32 u32val =? 0 then 0 else 1))
    | inl stop => inl stop
    end = inr (const_value (if constant_truth e then 1 else 0))).
  { intros bval Hbv. rewrite (decorated _ _ _ _ _ Hd He Hids) by apply Binary.length_le_bytes.
    rewrite le_bytes_above; [| |lia].
    2: { split; [lia|]. apply Z.le_lt_trans with (2 ^ 0); [lia|]. apply Z.pow_lt_mono_r; lia. }
    rewrite read_u32_zero.
    - rewrite take_app, existsb_app. unfold constant_truth. rewrite take_replicate, existsb_zeros, orb_false_r.
      by destruct (existsb _ _).
    - apply Forall_app. split; [|apply Forall_replicate; lia]. apply Forall_take.
      eapply Forall_impl; [exact Hb|]. cbn. lia.
    - rewrite length_app, length_replicate. lia. }
  unfold vtn_handle_constant. destruct Ho as [-> | ->]; cbn [is_spec]; apply Hgo; lia.
Qed.

(** A constant whose ids the caller did not set keeps its literal. *)
Lemma handle_unset used spec opcode type w3 w4 decs ids :
  delivers used spec -> spec_ids decs = Some ids -> (forall id, id ∈ ids -> id ∉ map sc_constant_id used) ->
  vtn_handle_constant spec opcode type w3 w4 decs = vtn_handle_constant None opcode type w3 w4 [].
Proof.
  intros Hd Hids Hno. unfold vtn_handle_constant, vtn_foreach_decoration.
  assert (H : forall v, foreach_decoration_helper (spec_constant_decoration_cb spec)
    (mk_vtn_decoration VTN_DEC_DECORATION (Some decs) 0 0) v = inr v).
  { intros v. rewrite (foreach_specialize _ _ _ _ Hids). by eapply undecorated. }
  destruct opcode; cbn [is_spec]; rewrite ?H; try done. destruct type; try done.
  destruct (literal_value _ _ _); [by rewrite H|done].
Qed.

(** ** Theorems *)

Lemma configure_spec_info stage spirv spirv_size input_nir opts :
  st_spec_info (configure_stage stage spirv spirv_size input_nir opts) =
    if truthy (co_specialization_constant_count opts)
    then Some (pack_specialization (specialization_entries opts)) else st_spec_info stage.
Proof. reflexivity. Qed.

(** What the reader gets from the stub, when the stage was configured from options
    that pass the guard and memory is there. *)
Lemma configured_delivers granted m stage spirv spirv_size input_nir opts :
  mem_wf m -> st_spec_info stage = None -> options_constants opts ->
  specialization_parameters_valid (co_specialization_constant_count opts) (co_specialization_constants opts) = true ->
  (forall n, granted n = true) ->
  let '(spec, m1) := vk_spec_info_to_nir_spirv granted
    (st_spec_info (configure_stage stage spirv spirv_size input_nir opts)) m in
  delivers (used_constants opts) spec /\ holds m [] (vtn_free_specialization spec m1) /\
  mem_fault m1 = mem_fault m.
Proof.
  intros Hm Hst Ho Hv Hg. destruct (used_constants_ok opts Ho Hv) as (Hwf & Hnd & Heq & Hlen).
  destruct Ho as (Hc & _). rewrite configure_spec_info, Heq. unfold truthy.
  destruct (Z.eqb_spec (co_specialization_constant_count opts) 0) as [E|E]; cbn [negb].
  { rewrite E in Hlen. apply nil_length_inv in Hlen. rewrite Hlen, Hst. cbn.
    split; [apply nothing_delivered|]. split; [by apply holds_start|done]. }
  destruct (packed_inside _ Hwf) as (Hin & Hu & Hl).
  destruct (pack_specialization (used_constants opts)) as [map_entries data] eqn:Ep. cbn in Hin, Hu, Hl.
  assert (map_entries <> []) as Hne by (intros ->; cbn in Hl; lia).
  pose proof (vk_spec_info_holds m Hm granted map_entries data Hu Hne) as Hspec.
  destruct (vk_spec_info_to_nir_spirv _ _ _) as [[spec|] m1].
  - destruct Hspec as (Hh & _ & Hf). split; [|split; [by apply free_specialization_holds|apply Hh]].
    apply entries_deliver; [|done|done]. apply packed_carried; [done|]. by rewrite Ep.
  - destruct Hspec as (_ & [?|(n & _ & Hn)]); [done|]. by rewrite Hg in Hn.
Qed.

(** C20: The constants a caller sets are the ones the shader is read with: when the
    options pass the guard and memory is there, a specialization constant whose SpecId
    the caller set and whose type has the size the caller gave is read as exactly the
    caller's bytes, a boolean one as whether they are zero, and every other constant
    as its literal, through decoration groups too; nothing is written past the
    constant, and releasing the structure leaves the memory as it was. *)
Theorem specialization_reaches_reader granted m stage spirv spirv_size input_nir opts :
  mem_wf m -> st_spec_info stage = None -> options_constants opts ->
  specialization_parameters_valid (co_specialization_constant_count opts) (co_specialization_constants opts) = true ->
  (forall n, granted n = true) ->
  let '(spec, m1) := vk_spec_info_to_nir_spirv granted
    (st_spec_info (configure_stage stage spirv spirv_size input_nir opts)) m in
  (forall e decs w3 w4, e ∈ used_constants opts -> spec_ids decs = Some [sc_constant_id e] ->
     (In (sc_size e) [1; 2; 4; 8] ->
      vtn_handle_constant spec SpvOpSpecConstant (scalar_type (8 * sc_size e)) w3 w4 decs =
        inr (constant_bytes e ++ replicate (8 - length (constant_bytes e)) 0)) /\
     (forall opcode, opcode = SpvOpSpecConstantTrue \/ opcode = SpvOpSpecConstantFalse ->
      vtn_handle_constant spec opcode bool_type w3 w4 decs =
        inr (const_value (if constant_truth e then 1 else 0)))) /\
  (forall opcode type w3 w4 decs ids, spec_ids decs = Some ids ->
     (forall id, id ∈ ids -> id ∉ map sc_constant_id (used_constants opts)) ->
     vtn_handle_constant spec opcode type w3 w4 decs = vtn_handle_constant None opcode type w3 w4 []) /\
  mem_fault m1 = mem_fault m /\ mem_live (vtn_free_specialization spec m1) = mem_live m /\
  mem_fault (vtn_free_specialization spec m1) = mem_fault m.
Proof.
  intros Hm Hst Ho Hv Hg. destruct (used_constants_ok opts Ho Hv) as (Hwf & _).
  pose proof (configured_delivers granted m stage spirv spirv_size input_nir opts Hm Hst Ho Hv Hg) as H.
  destruct (vk_spec_info_to_nir_spirv _ _ _) as [spec m1]. destruct H as (Hd & Hh & Hf).
  rewrite Forall_forall in Hwf. destruct Ho as (_ & _ & Hfields). rewrite Forall_forall in Hfields.
  split; [|split; [by intros; eapply handle_unset|split; [done|by apply holds_nothing]]].
  intros e decs w3 w4 He Hids. split; intros.
  - by eapply handle_scalar; eauto.
  - eapply handle_bool; eauto. by eapply Hfields, subseteq_take.
Qed.

(** C21: Whatever the map and the data and whichever requests for memory fail, the
    conversion reads only the data, releases what it took when it gives up and
    otherwise what its result holds can be released exactly once.  It gives up only
    for an entry outside the data or a refused request; the reader then gets no
    constants at all and every constant is read as its literal. *)
Theorem specialization_memory_safe granted m map_entries data :
  mem_wf m -> Forall unsigned map_entries -> map_entries <> [] ->
  let '(spec, m1) := vk_spec_info_to_nir_spirv granted (Some (map_entries, data)) m in
  mem_fault m1 = mem_fault m /\
  mem_live (vtn_free_specialization spec m1) = mem_live m /\
  mem_fault (vtn_free_specialization spec m1) = mem_fault m /\
  match spec with
  | Some spec => Forall (inside data) map_entries /\ Forall2 (entry_of data) map_entries (sp_entries spec)
  | None =>
      (~ Forall (inside data) map_entries \/ exists n, mem_next m <= n < mem_next m1 /\ granted n = false) /\
      forall opcode type w3 w4 decs ids, spec_ids decs = Some ids ->
        vtn_handle_constant None opcode type w3 w4 decs = vtn_handle_constant None opcode type w3 w4 []
  end.
Proof.
  intros Hm Hu Hne. pose proof (vk_spec_info_holds m Hm granted map_entries data Hu Hne) as H.
  destruct (vk_spec_info_to_nir_spirv _ _ _) as [[spec|] m1]; destruct H as (Hh & H).
  - pose proof (free_specialization_holds m Hm spec m1 Hh) as Hfree. apply (holds_nothing m Hm) in Hfree as [Hl Hf].
    split; [apply Hh|]. done.
  - apply (holds_nothing m Hm) in Hh as [Hl Hf]. split; [done|]. split; [done|]. split; [done|]. split; [done|].
    intros. eapply (handle_unset []); [apply nothing_delivered|done|]. intros id _. apply not_elem_of_nil.
Qed.

(** The version is read inside the words of every module that passes the checks. *)
Lemma vk_spirv_version_read opts words spirv_size :
  Z.of_nat (length words) = spirv_size / 4 ->
  validate_spirv_capabilities (Some words) spirv_size opts = PSBC_RESULT_OK ->
  vk_spirv_version words spirv_size = Some (at_ 0 words 1).
Proof.
  intros Hl. unfold validate_spirv_capabilities, vk_spirv_version.
  destruct (Z.ltb_spec spirv_size (5 * 4)) as [|Hs]; [done|]. intros _.
  destruct (Z.ltb_spec spirv_size 4); [lia|].
  assert (5 <= spirv_size / 4) by (apply Z.div_le_lower_bound; lia).
  destruct words as [|a [|b words]]; cbn in Hl; [lia|lia|done].
Qed.

(** Without them, a module of one word is read past its end. *)
Lemma vk_spirv_version_short : vk_spirv_version [0x07230203] 4 = None.
Proof. reflexivity. Qed.

(** ** Examples *)

Definition example_options : PsbcCompileOptions :=
  zero_PsbcCompileOptions <| co_specialization_constant_count := 2 |>
    <| co_specialization_constants := example_entries [example_specialization 7 4; example_specialization 9 8] |>.
Definition example_memory : memory := mk_memory {[3]} 5 false.

(** SpecId 7, inside a group. *)
Definition example_decorations : list vtn_decoration :=
  [mk_vtn_decoration (-1) (Some [mk_vtn_decoration (-1) None 1 7]) 0 0].

Lemma example_memory_wf : mem_wf example_memory.
Proof. intros p. cbn. set_solver by lia. Qed.

Lemma example_constants : options_constants example_options.
Proof.
  split; [done|]. split; [done|]. apply Forall_app. split.
  - repeat (constructor; [split; [done|]; split; [done|]; cbn; repeat (constructor; [lia|]); constructor|]). constructor.
  - apply Forall_replicate. split; [done|]. split; [done|]. cbn. repeat (constructor; [lia|]). constructor.
Qed.

Lemma specialization_reaches_reader_witness :
  let '(spec, _) := vk_spec_info_to_nir_spirv (fun _ => true)
    (st_spec_info (configure_stage zero_radv_shader_stage None 0 None example_options)) example_memory in
  vtn_handle_constant spec SpvOpSpecConstant (scalar_type 32) 1000 0 example_decorations = inr [7; 2; 3; 4; 0; 0; 0; 0].
Proof.
  pose proof (specialization_reaches_reader (fun _ => true) example_memory zero_radv_shader_stage None 0 None
    example_options example_memory_wf eq_refl example_constants eq_refl (fun _ => eq_refl)) as H.
  destruct (vk_spec_info_to_nir_spirv _ _ _) as [spec m1]. destruct H as [H _].
  apply (H (example_specialization 7 4) example_decorations 1000 0); [left|reflexivity|cbn; tauto].
Defined.

(** The third request is refused. *)
Lemma specialization_memory_safe_witness :
  let '(spec, m1) := vk_spec_info_to_nir_spirv (fun n => negb (n =? 7)) (Some ([(7, 0, 4)], [1; 2; 3; 4])) example_memory in
  spec = None /\ mem_live m1 = {[3]} /\ mem_fault m1 = false.
Proof.
  pose proof (specialization_memory_safe (fun n => negb (n =? 7)) example_memory [(7, 0, 4)] [1; 2; 3; 4]
    example_memory_wf ltac:(constructor; [cbn; lia|constructor]) ltac:(done)) as H.
  destruct (vk_spec_info_to_nir_spirv _ _ _) as [spec m1] eqn:E.
  assert (spec = None) as -> by (vm_compute in E; by injection E).
  destruct H as (Hf & Hl & _). done.
Defined.

End Specialization.
