(* ===== verification/WaveSize.v ===== *)
(** * The wave size of a program

    libpsbc leaves the wave size of a shader to radv_shader_choose_subgroup_size, which
    it steers with the sizes of its compiler description, and replaces the subgroup
    system values of PS5 compute shaders itself.  This file models the choice, Mesa's
    vk_set_subgroup_size and the check of radv_nir_shader_info_pass, and composes them
    with the description of Setup and the rewrite of Lowering: the arithmetic libpsbc
    puts into a shader is that of the waves it runs in. *)

From S2P Require Import Prelude Types Mesa Nir ShaderUtil Lowering Validate Setup.

Module WaveSize.
Import ShaderUtil Setup.

(** ** State *)

(** The subgroup sizes of shader_info: what the shader reads, and the bounds of what the hardware runs. *)
Record subgroup_sizes : Type := mk_subgroup_sizes {
  sg_api : Z;
  sg_max : Z;
  sg_min : Z
}.

#[export] Instance eta_subgroup_sizes : Eta subgroup_sizes := fun r =>
  mk_subgroup_sizes r.(sg_api) r.(sg_max) r.(sg_min).

Definition zero_subgroup_sizes : subgroup_sizes := {|
  sg_api := 0;
  sg_max := 0;
  sg_min := 0
|}.

(** As nir_shader_create leaves them. *)
Definition nir_shader_subgroups : subgroup_sizes := mk_subgroup_sizes 0 128 1.

(** What nir_shader_gather_info finds out about the shader. *)
Record gathered_info : Type := mk_gathered_info {
  ga_ray_queries : bool;
  ga_uses_wide_subgroup_intrinsics : bool;
  ga_has_cooperative_matrix : bool
}.

#[export] Instance eta_gathered_info : Eta gathered_info := fun r =>
  mk_gathered_info r.(ga_ray_queries) r.(ga_uses_wide_subgroup_intrinsics)
    r.(ga_has_cooperative_matrix).

Definition zero_gathered_info : gathered_info := {|
  ga_ray_queries := false;
  ga_uses_wide_subgroup_intrinsics := false;
  ga_has_cooperative_matrix := false
|}.

(** The subgroup fields of radv_shader_stage_key, which libpsbc leaves zero. *)
Record subgroup_key : Type := mk_subgroup_key {
  sk_required_size : Z;
  sk_require_full : bool;
  sk_allow_varying : bool
}.

#[export] Instance eta_subgroup_key : Eta subgroup_key := fun r =>
  mk_subgroup_key r.(sk_required_size) r.(sk_require_full) r.(sk_allow_varying).

Definition zero_subgroup_key : subgroup_key := {|
  sk_required_size := 0;
  sk_require_full := false;
  sk_allow_varying := false
|}.

(** [None]: an assertion fails. *)
Definition assert (b : bool) : option unit := if b then Some tt else None.

(** ** vk_pipeline.c *)

Definition uses_full_subgroups (stage : mesa_shader_stage) : bool :=
  stage_eqb stage MESA_SHADER_COMPUTE || stage_eqb stage MESA_SHADER_MESH ||
  stage_eqb stage MESA_SHADER_TASK.

(** The first decision: a required size, a varying one, or the device's. *)
Definition requested_sizes (stage : mesa_shader_stage) (subgroup_size spirv_version req_subgroup_size : Z)
    (allow_varying require_full : bool) (s : subgroup_sizes) : option subgroup_sizes :=
  if truthy req_subgroup_size then
    assert (bool_decide (Z.land req_subgroup_size (req_subgroup_size - 1) = 0));;
    assert ((1 <=? req_subgroup_size) && (req_subgroup_size <=? 128));;
    Some (mk_subgroup_sizes (u8 req_subgroup_size) (u8 req_subgroup_size) (u8 req_subgroup_size))
  else if allow_varying || (spirv_version >=? 0x10600) then Some s
  else if truthy subgroup_size then
    let s := s <| sg_api := u8 subgroup_size |> <| sg_max := u8 subgroup_size |> in
    if require_full then
      assert (uses_full_subgroups stage);;
      Some (s <| sg_min := u8 subgroup_size |>)
    else Some s
  else Some s.

Definition vk_set_subgroup_size (stage : mesa_shader_stage)
    (subgroup_size min_subgroup_size max_subgroup_size spirv_version req_subgroup_size : Z)
    (allow_varying require_full : bool) (s : subgroup_sizes) : option subgroup_sizes :=
  s ← requested_sizes stage subgroup_size spirv_version req_subgroup_size allow_varying require_full s;
  s ← (if truthy max_subgroup_size then
         assert (truthy min_subgroup_size);;
         Some (s <| sg_max := u8 (MIN2 (sg_max s) max_subgroup_size) |>
                 <| sg_min := u8 (MAX2 (sg_min s) min_subgroup_size) |>)
       else Some s);
  assert (sg_min s <=? sg_max s);;
  Some s.

(** ** radv_shader.c *)

Definition RADV_SUBGROUP_SIZE : Z := 64.

Definition mesa_shader_stage_uses_workgroup (stage : mesa_shader_stage) : bool :=
  stage_eqb stage MESA_SHADER_COMPUTE || stage_eqb stage MESA_SHADER_KERNEL ||
  stage_eqb stage MESA_SHADER_TASK || stage_eqb stage MESA_SHADER_MESH.

Definition mesa_shader_stage_is_callable (stage : mesa_shader_stage) : bool :=
  stage_eqb stage MESA_SHADER_ANY_HIT || stage_eqb stage MESA_SHADER_CLOSEST_HIT ||
  stage_eqb stage MESA_SHADER_MISS || stage_eqb stage MESA_SHADER_INTERSECTION ||
  stage_eqb stage MESA_SHADER_CALLABLE.

Definition mesa_shader_stage_is_rt (stage : mesa_shader_stage) : bool :=
  stage_eqb stage MESA_SHADER_RAYGEN || mesa_shader_stage_is_callable stage.

(** Invocations of a workgroup, an [unsigned]. *)
Definition local_size (info : shader_info) : Z :=
  u32 (at_ 0 (si_workgroup_size info) 0 * at_ 0 (si_workgroup_size info) 1 * at_ 0 (si_workgroup_size info) 2).

(** The wave size of a shader with a workgroup. *)
Definition workgroup_wave_size (compiler_info : radv_compiler_info) (info : shader_info) (g : gathered_info) : Z :=
  let default_wave_size :=
    if ga_ray_queries g then ci_rt_wave_size compiler_info
    else if stage_eqb (si_stage info) MESA_SHADER_MESH then ci_ge_wave_size compiler_info
    else ci_cs_wave_size compiler_info in
  let require_full_subgroups :=
    (default_wave_size =? 32) &&
    (ga_uses_wide_subgroup_intrinsics g ||
     (stage_eqb (si_stage info) MESA_SHADER_COMPUTE && ga_has_cooperative_matrix g)) &&
    (local_size info `mod` RADV_SUBGROUP_SIZE =? 0) in
  if local_size info <=? 32 then 32
  else if require_full_subgroups then 64
  else default_wave_size.

Definition choose_wave_size (compiler_info : radv_compiler_info) (info : shader_info) (g : gathered_info)
    (s : subgroup_sizes) : Z :=
  let stage := si_stage info in
  let gfx_level := ai_gfx_level (ci_ac compiler_info) in
  if sg_min s =? sg_max s then sg_min s
  else if mesa_shader_stage_uses_workgroup stage then workgroup_wave_size compiler_info info g
  else if stage_eqb stage MESA_SHADER_GEOMETRY && (gfx_ge gfx_level GFX10 && gfx_ge GFX10_3 gfx_level) then 64
  else if stage_eqb stage MESA_SHADER_FRAGMENT then
    if ga_ray_queries g then ci_rt_wave_size compiler_info else ci_ps_wave_size compiler_info
  else if mesa_shader_stage_is_rt stage then ci_rt_wave_size compiler_info
  else ci_ge_wave_size compiler_info.

(** [no_implicit_varying] is the flag of the compiler's key. *)
Definition radv_shader_choose_subgroup_size (compiler_info : radv_compiler_info) (no_implicit_varying : bool)
    (info : shader_info) (g : gathered_info) (key : subgroup_key) (spirv_version : Z) (s : subgroup_sizes) :
    option subgroup_sizes :=
  let spirv_version := if no_implicit_varying then 0x10000 else spirv_version in
  s ← vk_set_subgroup_size (si_stage info) (ci_subgroup_size compiler_info) (ci_min_subgroup_size compiler_info)
        (ci_max_subgroup_size compiler_info) spirv_version (sk_required_size key * 32)
        (sk_allow_varying key) (sk_require_full key) s;
  let wave_size := choose_wave_size compiler_info info g s in
  Some (mk_subgroup_sizes
    (if sg_api s =? 0 then u8 wave_size else sg_api s)
    (u8 wave_size)
    (u8 (if stage_eqb (si_stage info) MESA_SHADER_GEOMETRY then ci_ge_wave_size compiler_info else wave_size))).

(** ** radv_shader_info.c *)

(** The wave size the program is generated for. *)
Definition info_wave_size (compiler_info : radv_compiler_info) (info : shader_info) (is_ngg : bool)
    (s : subgroup_sizes) : option Z :=
  let wave_size := sg_min s in
  assert (wave_size =? sg_max s);;
  assert ((wave_size =? 32) || (wave_size =? 64));;
  assert (gfx_ge (ai_gfx_level (ci_ac compiler_info)) GFX10 || (wave_size =? 64));;
  assert (negb (stage_eqb (si_stage info) MESA_SHADER_GEOMETRY) || is_ngg || (wave_size =? 64));;
  Some wave_size.

(** * Which size is chosen *)

(** What a target runs: [None] for the workgroups the choice has no valid size for. *)
Definition target_wave_size (ps5 : bool) (stage : mesa_shader_stage) (info : shader_info) (g : gathered_info) :
    option Z :=
  match stage with
  | MESA_SHADER_COMPUTE => if ps5 then Some 32 else if local_size info <=? 32 then None else Some 64
  | MESA_SHADER_FRAGMENT => if ps5 then Some (if ga_ray_queries g then 64 else 32) else Some 64
  | _ => Some 64
  end.

(** The choice and the check behind it. *)
Definition program_wave_size (compiler_info : radv_compiler_info) (no_implicit_varying : bool) (info : shader_info)
    (g : gathered_info) (spirv_version : Z) (is_ngg : bool) (s : subgroup_sizes) : option (subgroup_sizes * Z) :=
  s ← radv_shader_choose_subgroup_size compiler_info no_implicit_varying info g zero_subgroup_key spirv_version s;
  wave_size ← info_wave_size compiler_info info is_ngg s;
  Some (s, wave_size).

(** The sizes of the description libpsbc makes. *)
Lemma described_sizes opts :
  let ci := compiler_info_of opts in
  let ps5 := Validate.is_ps5 opts in
  let wave := if ps5 then 32 else 64 in
  let fixed := if ps5 && bool_decide (co_stage opts = PSBC_STAGE_COMPUTE) then 32 else 0 in
  ci_ge_wave_size ci = 64 /\ ci_rt_wave_size ci = 64 /\ ci_ps_wave_size ci = wave /\ ci_cs_wave_size ci = wave /\
  ci_subgroup_size ci = fixed /\ ci_min_subgroup_size ci = fixed /\ ci_max_subgroup_size ci = fixed /\
  gfx_ge (ai_gfx_level (ci_ac ci)) GFX10 = ps5 /\ gfx_ge GFX10_3 (ai_gfx_level (ci_ac ci)) = true.
Proof.
  cbv zeta. unfold compiler_info_of, Validate.is_ps5.
  destruct (co_target opts), (bool_decide (co_stage opts = PSBC_STAGE_COMPUTE)), (co_force_accelerated_dot opts);
    split_and!; reflexivity.
Qed.

(** With both bounds fixed, a shader that admits 32 gets 32, whatever it contains. *)
Lemma fixed_size ci no_implicit_varying info g spirv_version s :
  ci_subgroup_size ci = 32 -> ci_min_subgroup_size ci = 32 -> ci_max_subgroup_size ci = 32 ->
  si_stage info = MESA_SHADER_COMPUTE -> sg_min s <= 32 -> 32 <= sg_max s ->
  exists api, radv_shader_choose_subgroup_size ci no_implicit_varying info g zero_subgroup_key spirv_version s =
    Some (mk_subgroup_sizes api 32 32) /\ (sg_api s = 0 -> api = 32).
Proof.
  intros H1 H2 H3 Hst Hmin Hmax. unfold radv_shader_choose_subgroup_size, vk_set_subgroup_size, requested_sizes.
  rewrite H1, H2, H3, Hst. cbn [sk_required_size sk_allow_varying sk_require_full zero_subgroup_key].
  change (truthy (0 * 32)) with false. change (truthy 32) with true. cbn [orb].
  set (v := if no_implicit_varying then _ else _).
  assert (Hmn : MAX2 (sg_min s) 32 = 32) by (rewrite MAX2_max; lia).
  assert (Hmx : MIN2 (sg_max s) 32 = 32) by (unfold MIN2; destruct (Z.ltb_spec (sg_max s) 32); lia).
  destruct (v >=? 0x10600); cbn; rewrite ?Hmn, ?Hmx; cbn; eexists; (split; [reflexivity|]); intros Ha; destruct s; cbn in Ha; subst; reflexivity.
Qed.

(** Without them the stage decides. *)
Lemma free_size ci no_implicit_varying info g spirv_version :
  ci_subgroup_size ci = 0 -> ci_max_subgroup_size ci = 0 ->
  radv_shader_choose_subgroup_size ci no_implicit_varying info g zero_subgroup_key spirv_version nir_shader_subgroups =
    let wave := choose_wave_size ci info g nir_shader_subgroups in
    Some (mk_subgroup_sizes (u8 wave) (u8 wave)
      (u8 (if stage_eqb (si_stage info) MESA_SHADER_GEOMETRY then ci_ge_wave_size ci else wave))).
Proof.
  intros H1 H2. unfold radv_shader_choose_subgroup_size, vk_set_subgroup_size, requested_sizes.
  rewrite H1, H2. change (truthy (sk_required_size zero_subgroup_key * 32)) with false. change (truthy 0) with false.
  cbn [sk_allow_varying zero_subgroup_key orb]. by destruct (_ >=? 0x10600).
Qed.

(** ** Theorems *)

(** C23: The wave size of every program of every target: a PS5 compute program runs in
    waves of 32 whatever its SPIR-V version and subgroup instructions, a PS5 pixel
    program in 32 unless it traces rays, everything else in 64, and what the shader
    reads as the subgroup size is the size it runs with.  The exception is a PS4
    compute shader with at most 32 invocations: the choice takes 32, which the PS4
    does not have, and the check of the program information stops the compile. *)
Theorem wave_size_exact opts no_implicit_varying info g spirv_version is_ngg :
  In (si_stage info) [MESA_SHADER_VERTEX; MESA_SHADER_TESS_CTRL; MESA_SHADER_TESS_EVAL;
    MESA_SHADER_GEOMETRY; MESA_SHADER_FRAGMENT; MESA_SHADER_COMPUTE] ->
  (si_stage info = MESA_SHADER_COMPUTE <-> co_stage opts = PSBC_STAGE_COMPUTE) ->
  program_wave_size (compiler_info_of opts) no_implicit_varying info g spirv_version is_ngg nir_shader_subgroups =
    (fun wave => (mk_subgroup_sizes wave wave wave, wave)) <$>
      target_wave_size (Validate.is_ps5 opts) (si_stage info) info g.
Proof.
  intros Hin Hcs. unfold program_wave_size.
  destruct (described_sizes opts) as (Hge & Hrt & Hps & Hc & H1 & H2 & H3 & H10 & H103).
  set (ci := compiler_info_of opts) in *. clearbody ci. cbv zeta in *.
  destruct (decide (si_stage info = MESA_SHADER_COMPUTE)) as [Hst|Hst].
  - apply Hcs in Hst as Ho. rewrite (bool_decide_eq_true_2 _ Ho), andb_true_r in *.
    destruct (Validate.is_ps5 opts) eqn:Hp.
    + destruct (fixed_size ci no_implicit_varying info g spirv_version nir_shader_subgroups H1 H2 H3 Hst
        ltac:(done) ltac:(done)) as (api & E & Ha).
      rewrite E, (Ha eq_refl), Hst. cbn. unfold info_wave_size. cbn. by rewrite H10, Hst.
    + rewrite free_size by done. unfold info_wave_size, choose_wave_size, workgroup_wave_size.
      rewrite Hst, Hc, Hrt, H10. cbn. destruct (local_size info <=? 32); [done|].
      by destruct (ga_ray_queries g), is_ngg.
  - assert (co_stage opts <> PSBC_STAGE_COMPUTE) as Ho by tauto.
    rewrite (bool_decide_eq_false_2 _ Ho), andb_false_r in *. rewrite free_size by done.
    unfold choose_wave_size, info_wave_size. rewrite H10, H103, Hge, Hps, Hrt.
    repeat destruct Hin as [Hin|Hin]; try done; rewrite <-Hin in *; try done; cbn;
      destruct (Validate.is_ps5 opts), is_ngg, (ga_ray_queries g); done.
Qed.

(** C22: The system values libpsbc computes in a PS5 compute shader are those of the waves
    the shader runs in: whatever SPIR-V version or front end it comes from and
    whatever subgroup instructions it has, a wave size is chosen, and with that size
    LocalInvocationIndex is the row-major position of the invocation, SubgroupId the
    wave it is in, NumSubgroups the number of waves of the workgroup, and the id is
    below that number. *)
Theorem subgroup_values_match_waves opts no_implicit_varying info g spirv_version s env w h d :
  Validate.is_ps5 opts = true -> co_stage opts = PSBC_STAGE_COMPUTE -> si_stage info = MESA_SHADER_COMPUTE ->
  sg_min s <= 32 <= sg_max s ->
  Lowering.dims_agree info env w h d -> Lowering.invocation_at env w h d -> w * h * d + 64 <= 2 ^ 32 ->
  exists sizes wave,
    program_wave_size (compiler_info_of opts) no_implicit_varying info g spirv_version false s = Some (sizes, wave) /\
    let lower op := Lowering.lowered_value env
      (Lowering.lower_ps5_compute_subgroup_id info (ci_cs_wave_size (compiler_info_of opts))
         (Lowering.subgroup_intrinsic op)) in
    lower nir_intrinsic_load_local_invocation_index = Some (Lowering.linear_index env w h) /\
    lower nir_intrinsic_load_subgroup_id = Some (Lowering.linear_index env w h / wave) /\
    lower nir_intrinsic_load_num_subgroups = Some (Lowering.num_subgroups_of w h d wave) /\
    0 <= Lowering.linear_index env w h / wave < Lowering.num_subgroups_of w h d wave.
Proof.
  intros Hp Ho Hst [Hmin Hmax] Hd Hi Hs.
  destruct (described_sizes opts) as (_ & _ & _ & Hc & H1 & H2 & H3 & H10 & _).
  rewrite Hp, (bool_decide_eq_true_2 _ Ho) in *. cbn in *.
  destruct (fixed_size (compiler_info_of opts) no_implicit_varying info g spirv_version s H1 H2 H3 Hst Hmin Hmax)
    as (api & E & _).
  exists (mk_subgroup_sizes api 32 32), 32. split.
  - unfold program_wave_size. rewrite E. cbn. unfold info_wave_size. cbn. by rewrite H10, Hst.
  - rewrite Hc. apply Lowering.lower_ps5_compute_values; [done|done|by left|done].
Qed.

(** ** Examples *)

Definition example_ps5 : PsbcCompileOptions :=
  zero_PsbcCompileOptions <| co_target := PSBC_TARGET_PS5 |> <| co_stage := PSBC_STAGE_COMPUTE |>.
Definition example_ps4 : PsbcCompileOptions :=
  zero_PsbcCompileOptions <| co_target := PSBC_TARGET_PS4_BASE |> <| co_stage := PSBC_STAGE_COMPUTE |>.
Definition example_wide : gathered_info := mk_gathered_info false true false.

(** A PS4 compute shader of 64 invocations, and one of a single invocation. *)
Lemma wave_size_exact_witness :
  let run size := program_wave_size (compiler_info_of example_ps4) false
    (zero_shader_info <| si_stage := MESA_SHADER_COMPUTE |> <| si_workgroup_size := [size; 1; 1] |>)
    example_wide 0x10000 false nir_shader_subgroups in
  run 64 = Some (mk_subgroup_sizes 64 64 64, 64) /\ run 1 = None.
Proof.
  cbv zeta. split.
  - rewrite (wave_size_exact example_ps4); [reflexivity|cbn; tauto|done].
  - rewrite (wave_size_exact example_ps4); [reflexivity|cbn; tauto|done].
Defined.

(** An 8x8x4 workgroup of a SPIR-V 1.6 module with wide subgroup instructions. *)
Lemma subgroup_values_witness :
  exists sizes wave,
    program_wave_size (compiler_info_of example_ps5) false Lowering.example_compute_info example_wide 0x10600 false
      nir_shader_subgroups = Some (sizes, wave) /\
    Lowering.lowered_value Lowering.example_invocation
      (Lowering.lower_ps5_compute_subgroup_id Lowering.example_compute_info (ci_cs_wave_size (compiler_info_of example_ps5))
         (Lowering.subgroup_intrinsic nir_intrinsic_load_subgroup_id)) =
      Some (Lowering.linear_index Lowering.example_invocation 8 8 / wave).
Proof.
  destruct (subgroup_values_match_waves example_ps5 false Lowering.example_compute_info example_wide 0x10600
    nir_shader_subgroups Lowering.example_invocation 8 8 4) as (sizes & wave & E & _ & H & _); [done..|].
  exists sizes, wave. split; [exact E|exact H].
Defined.

End WaveSize.
